(* ===== verification/_CoqProject ===== *)
-Q . S2P
Prelude.v
OrgConfig.v
Indexes.v
Filters.v
Backend.v
Samples.v
Scores.v
Dedup.v
Retrieval.v
Collections.v
Store.v
ActiveFilters.v
EntityCounts.v
NerModal.v
EntityPanel.v
ProgressBar.v
Transcript.v
TranscriptPanel.v
StoryPage.v
Links.v
TopBar.v
AppShell.v
IndexesView.v
ResultsPage.v
ModalView.v
Highlight.v
StoryLayout.v
