(* ===== verification/Prelude.v ===== *)
(** * A verification library for the TheirStory research portal (ts-portal-gmu)

    The portal is a Next.js archive browser for recorded interviews.  Its
    parts and how they interact:
    - [src/lib/weaviate/search.ts], the server-side search layer: filter
      builders, BM25 / vector / hybrid retrieval against Weaviate (with
      score normalisation, fusion and deduplication by start time),
      story-scoped and cross-collection entity searches, the collection
      listing, and the entity recording counts (on demand, from a JSON
      snapshot, and a bulk rebuild).
    - [src/app/stores/useSemanticSearchStore.ts], the zustand store the
      pages share: it calls the search layer and keeps the results, the
      matches of a story search and the cursor over them.
    - [src/components/ActiveFiltersDisplay.tsx], the bar of active filters
      above the results, which calls the store's actions and collapses the
      top bar on mobile.
    - [src/components/AppTopBar/AppTopBar.tsx], the application bar, whose
      banner a layout-store flag collapses (always on story pages).
    - The results page: [CollectionLayout.tsx] chooses, from the store,
      between the spinner, the search results ([SearchTable.tsx]), the
      recordings with their [Pagination.tsx] and the empty-page messages;
      [SearchTypeSelector.tsx] sets the search type; [ListViewNerChips.tsx]
      shows a recording's entity labels.
    - The story page ([src/app/story/[storyUuid]/Components]): its container
      ([StoryContainer.tsx], which loads the transcript), the entity
      panel ([StoryMetadataEntity.tsx]), the entity modal
      ([NerEntityModal.tsx]), the progress bar ([StoryProgressBar.tsx]) and
      the transcript ([StoryTranscriptPanel.tsx] laying out
      [StoryTranscriptParagraph.tsx] per paragraph, sharing one ref that
      flags programmatic scrolls).  They read the store and call the search
      layer.  The player and transcript-panel stores they drive are not
      under [src/]: their state is explicit, and their setters are written
      from the calls the components make.
    - [src/config/organizationConfig.ts] (entity labels and colours) and the
      indexes page [src/app/indexes/page.tsx], whose chapter links, like
      the entity modal's mention links, open story pages at a time.

    ** Files, in dependency order (see [_CoqProject])

    - [Prelude] (this file): the JavaScript semantics shared by every
      component: [??] ([nullish], notation in [portal_scope]), string
      truthiness, [trim] / [toLowerCase] / [includes] / [indexOf] / [slice],
      [Math.max] / [Math.min] over a spread list, the range test, a JS [Map]
      as an insertion-ordered association list ([amap_get], [amap_set]) and
      grouping into a [Map] of arrays ([group_by]), the stable
      [Array.prototype.sort] ([stable_sort]), the near-duplicate filter
      against the previous element ([unique_close_by]), and the traced error
      monad [TM] in which every asynchronous function is written.  Its
      lemmas are the ones the components share, with the hint databases
      [portal] (resolve) and [portal_rw] (rewrite).
    - [OrgConfig]: the configuration types ([AppConfig] with the
      organisation, the theme colours, the UI options and the entity
      labels) and their exports; [getNerLabelConfig], [getNerDisplayName],
      [getNerColor] and the 32-bit [hashString], with ToInt32 written out
      ([to_int32]) on [Z].
    - [Indexes]: the indexes page: story filtering, per-collection counts,
      the collection toggle, and the fetch effect with its [cancelled] flag.
    - [Filters]: Weaviate objects, the filter language the code builds and
      its meaning, and the four filter builders of [search.ts].
    - [Backend]: the Weaviate client and the embedding endpoint as the class
      [Datastore]; the laws a datastore promises ([DatastoreLaws]: a page
      respects its limit and its filter), which every client theorem that
      needs them takes as an instance; [memstore], an in-memory datastore
      that discharges them; [getLocalEmbedding] from its source.
    - [Samples]: concrete chunks, recordings and datastores the witnesses run on.
    - [Scores]: the two BM25 normalisations of [search.ts] and the range tests.
    - [Dedup]: the [Set]-based [uniqueByStartTime] of [search.ts] and the
      [findIndex]-based [uniqueMatches] of the store.
    - [Retrieval]: every search function of [search.ts] in the [DS] monad
      over the [Datastore] class, and the hybrid fusion [hybrid_fuse].
    - [Collections]: [loadCollectionMetadataMap] over a [FileSystem] class and
      [getAvailableCollections].
    - [Store]: the store's state record, each action as [dispatch] (its
      synchronous part and the request it leaves in flight) and [resolve]
      (its continuation when the request settles), and the step relation
      [wstep] over a store with its requests in flight, which interleaves
      them in every order.
    - [ActiveFilters]: the bar of active filters
      ([src/components/ActiveFiltersDisplay.tsx]): each handler as the list
      of store actions it calls, run on the live store with Store's
      [dispatch] ([dispatch_all]); the chips; the scroll arrows of the chip
      strip, with the component's arrow flags, its scroll listener,
      [ResizeObserver] and arrow clicks as one step function
      ([filter_bar_step]), and the rendered bar.
    - [EntityCounts]: [NER_ENTITY_RECORDING_COUNT_KEY],
      [getNerEntityRecordingCounts], the snapshot loader
      [getEntityRecordingCountsMap], and [buildEntityRecordingCountsMap],
      whose [while] loop is [scan_pages] (Equations, well-founded recursion
      on the distance of the offset to the 9900 ceiling).
    - [NerModal]: the modal's occurrences in the current recording, context
      windows, the project-wide load effect and its settlement, the
      grouping by recording, and the current-interview click as the list of
      calls it makes.
    - [EntityPanel]: the entity panel: label navigation
      ([handleCategoryClick]), entity grouping and the entity list, the
      recording-count effect as a step relation over effect runs,
      settlements and unmount, and the chips.
    - [ProgressBar]: the markers, the click seek, the hover state machine
      over pointer events, and [formatTime].
    - [StoryPage]: the story page's container: the mount effect with its
      [isMounted] flag and cleanup, the transcript fetches in flight, each
      tagged with the effect run that started it and settled in any order
      through Store's [resolve] ([page_world], [pw_step]), the URL
      parameter effect, and what the page renders.
    - [Transcript]: a paragraph: the word loop with its mutable [Set] of
      rendered indexes ([render_words]), the declarative segmentation it
      refines ([segments], Equations by well-founded recursion on the
      words left), the highlight flags, and the three scroll effects as
      lists of [effect]s (ref writes, scrolls, timers, store setters),
      the traditional-search match scroll included, the heading, and the
      score-versus-current debug effect as the object it logs
      ([debugScoreLog]).
    - [TranscriptPanel]: the panel's state ([panel_state]: the store fields,
      the shared ref, whether the scroll listeners are attached, the
      closure's last interaction time) and its reaction to events
      ([panel_step]: pointer/wheel/touch and scroll events, play/pause,
      accordion initialisation, Resume, and the paragraphs' effects); the
      target-time effects of all paragraphs in one commit ([target_effects]);
      the section accordions: [expandedSections] as an object keyed by
      section start, its initialisation effect, the
      [areAccordionsInitialized] guard, clicks ([accordion_step]), and the
      rendered panel ([panel_render]).
    - [Links]: the links between pages: the chapter and story hrefs of the
      indexes views and the URL the entity modal opens, and, modelled from
      the URL standard, the parsing of a relative URL into the story route
      and [URLSearchParams]; a link is read back by StoryPage's URL
      parameter effect.
    - [TopBar]: the application bar: the layout store's collapse flag, the
      page-kind effect, the toggle, the drawer and ActiveFilters' mobile
      collapse as one step function ([topbar_step]), the collections
      effect, the rendered bar and the mobile drawer.
    - [AppShell]: the root layout ([src/app/layout.tsx]): the page metadata
      and the tree every page is rendered in, the bar above the page inside
      [MainContainer], whose background follows the page kind.
    - [IndexesView]: the indexes page's UI state and handlers as one step
      function gated by the controls' render condition and composed with
      the loading effect of [Indexes] ([indexes_step]); the collection
      menu, the desktop and mobile controls, the view toggle, the rows
      the views render, and the two views themselves ([IndexesListView],
      [IndexesHorizontalView]) with [storyToThumbnailStory].
    - [ResultsPage]: CollectionLayout's blocks ([layout_blocks]) over
      Store's state, the table rows, the search type selector run through
      Store's [dispatch], and the entity chips of a listed recording.
    - [ModalView]: the entity modal's rendering: [ExpandableHighlightedText]
      with its spans and button, the occurrences' props, the two tabs.
    - [Highlight]: [createHighlightedParts], the modal's highlighter, with
      the ECMAScript semantics of the [\b<entity>\b] / [gi] expression,
      [String.prototype.match] and [split] ([match_loop], [split_loop]);
      it instantiates the parameter NerModal leaves open.  [highlight_starts]
      reads back where each highlight begins.
    - [StoryLayout]: which components the story page mounts on each
      breakpoint and tab.

    ** Modelling conventions

    - JavaScript numbers are rationals [Q] where the code computes with
      fractions (scores, times, percentages), [nat] for lengths and counts,
      and [Z] for the 32-bit hash, whose wrap-around is written out.  IEEE
      rounding is not modelled: 0.55 and 0.45 are exact here, and there is
      no [NaN] or [Infinity] (a division by zero the code can reach, as a
      click on a bar of zero width, gives 0 here).  [===] on numbers is
      [Qeq_bool].
    - A property read as [number | undefined] is [option Q].  Strings are
      Stdlib [string] (8-bit characters), and [toLowerCase] and [trim] are
      modelled on ASCII.
    - A JS [Map] whose order matters is an association list in insertion
      order.  A [Record] used for lookups is a stdpp [gmap], and a [Set] is a
      [gset], or a list searched with [Qeq_bool] where the code tests
      numbers with [===].
    - Every awaited external call appends a [call] to the trace.  [throw] is
      [Err] and [try/catch] is [tm_catch].  A React effect or a store action
      is split into its synchronous part and the continuation of each
      promise; a step relation interleaves them, and the [cancelled] flags
      of cleanups are explicit state.

    ** What is proved (PROJECT.json lists the 40 main properties)

    - retrieval: the hybrid page is ranked, in range, deduplicated and at
      most [limit] long, whatever the datastore returns; the combined score
      is 0.55 vector + 0.45 BM25; the hybrid BM25 normalisation divides by
      the maximum (a divergence from min-max, which [bm25Search] does use,
      into [0,1] with its extremes at 0 and 1); the two deduplications are
      equal, and [uniqueByStartTime] keeps exactly the first item of each
      numeric start time; scoped searches never leave their story, and the entity search
      never returns the excluded recording; an embedding failure aborts the
      hybrid search before any vector query;
    - store: under every interleaving of actions and settlements the match
      cursor stays valid; next/previous match are inverse; the pagination
      probe; search actions without a term or a story do nothing; a failed
      story search keeps a stale cursor;
    - entity counts: the bulk ids, the 10000-chunk window of the rebuild,
      termination within 100 requests, the unbound [writeFile], the
      on-demand counts with failure isolation, and the snapshot round trip;
    - UI logic: collection counts; a chip click mounts a fresh modal, so a
      failed project search shows no occurrence and the bare tab label of
      an entity mentioned nowhere else (the failure is only logged: a
      finding); the 10,000+ label, occurrence ordering and grouping, the
      centre word of a context, the label-click cycle, the entity list, the
      counts never shown stale, the clamped seek, the sticky hover marker,
      [formatTime], the 32-bit hash and its colour, story filtering,
      collection toggling and the frozen cancelled page;
    - active filters: [Clear all] re-runs the query with the entity
      filters it has just cleared (a finding); the chips and their labels
      (a JS [Map] keeps the last name of an id); repeated clicks on the
      right arrow reach the end of the strip (liveness), and the arrows
      follow the strip under every event a listener reports (a change of
      content that keeps the box is reported by none: a finding);
    - story page: the spinner ends only after the current run's own fetch
      settled; yet a late fetch of the previous story overwrites the store,
      so the new story's page shows the old transcript (a finding); the URL
      labels merge without duplicates;
    - repeated label clicks reach
      every mention of the label within as many clicks as it has mentions
      (liveness, from any start time);
    - transcript: the word loop refines the declarative segmentation
      (refinement) and shows every word once, in order (round trip); in a
      paragraph of strictly timed words at most one word or entity group is
      highlighted (an entity group and the next word can both be when
      their timings touch: a finding); auto-scroll is switched off only by
      a non-programmatic scroll within 280 ms of a user's pointer, wheel or
      touch event; Resume scrolls exactly the paragraph holding the current
      time and clears the target (and a time in no paragraph leaves the
      target set); listeners are never attached when playback starts
      before the panel first renders; the panel renders exactly when the
      sections' start times are distinct (two sections at one time hide
      the transcript for good: a finding), and a click toggles only its
      own accordion; every paragraph scrolls to the traditional-search
      match (a finding); the debug log, switched on in the code, is printed
      by the paragraph holding the current semantic match at every
      playback-time update (a finding), and names the first word starting
      at the match;
    - links and top bar: a chapter link opens its story at the chapter's
      start, and a mention link opens its recording at the mention with
      the label selected, for ids, labels and times that are plain URL text
      (the links are not encoded: a finding); the current-interview click
      selects the label and never deselects it; on a story page the top bar
      is collapsed after any sequence of events (invariant); the mobile
      drawer never opens, since only the open drawer can toggle it (a
      finding), and a story page is shown on the story background below
      the collapsed bar;
    - indexes page and results page: the rows shown are the stories
      [filterStories] keeps with exactly their matching chapters (a story
      kept for its title shows [0 chapters]: a finding); the collection
      menu always reopens unfiltered and the selection never repeats an
      id; a failed page change keeps the previous page's recordings under
      the new page number (a finding); the search type menu reads back
      the chosen type; the entity chips show every label, not only the
      filtered ones (a finding); both views show exactly those rows,
      each with a thumbnail that carries every field of its story, and the
      list view draws a chapter column only under stories with chapters;
    - entity modal: the highlighted parts spell the text they were made
      from (round trip), every highlight is a whole-word, case-insensitive
      occurrence of the entity, and the highlights are exactly the leftmost
      non-overlapping occurrences (refinement of the ECMAScript loops by
      the greedy specification); so the modal shows each occurrence's
      context window unchanged (composition of NerModal, ModalView and
      Highlight).

    ** Bounds and fuel

    Only the two regular-expression loops of [Highlight] run on fuel:
    [match_loop] gets [length t + 2] rounds ([lastIndex] grows at every
    round) and [split_loop] [2 * length t + 2] (each round moves the
    position tried, or the start of the piece up to it);
    [match_loop_fuel] and [split_loop_fuel] prove that any larger fuel
    gives the same result.  The one unbounded loop of the code, the
    bulk rebuild, is defined by well-founded recursion on
    [S 9900 - offset].  The offset grows by 100 per page, so the recursion
    stops after at most 100 requests ([QUERY_WINDOW] = 10000 =
    [BUILD_ENTITY_COUNTS_MAX_OFFSET] + page size).  All other loops are
    structural recursion on lists, except [segments] (well-founded on the
    number of words left; a group always consumes its first word).  Times
    of [Date.now()] are [Z] milliseconds; the auto-scroll theorem assumes
    the clock is past 280 ms, as any epoch time is.

    ** Not modelled

    Rendering, styling, the router beyond the story route, and media
    playback; the Weaviate engine
    itself (only its contract [DatastoreLaws]; it answers a query the same
    way in every interleaving, and [initWeaviateClient] is taken to
    succeed); HTTP transport and the API
    routes outside [src/]; DOM geometry (an element in view, present) and
    timer scheduling, which are inputs and pending effects; the focus
    timer of the indexes menu's filter field, which only moves the DOM
    focus; the stores not
    under [src/] beyond the calls made to them (the transcript panel's
    [initializeExpandedSections] and [toggleSection] are modelled from
    their use, the initial expansion a parameter); Unicode case folding
    (the model compares ASCII); [Number(x.toFixed(3))], a parameter of the
    debug log; the components the pages import from outside [src/]
    ([VideoThumbnail], [StoryTranscriptToolbar], [highlightSearchText],
    [durationFormatHandler]).  PROJECT.json lists every part with its
    status. *)

From stdpp Require Export base list gmap strings pretty.
From Stdlib Require Export QArith Qminmax Qabs Qround Lqa Sorted.
From Stdlib Require Ascii String.

Declare Scope portal_scope.
Delimit Scope portal_scope with portal.

Create HintDb portal.
Create Rewrite HintDb portal_rw.

Local Open Scope nat_scope.

(** ** JavaScript values *)

(** [a ?? d] *)
Definition nullish {A} (o : option A) (d : A) : A :=
  match o with Some x => x | None => d end.

Notation "a ?? d" := (nullish a d) (at level 60, right associativity) : portal_scope.

(** Truthiness of a string: [if (s)]. *)
Definition js_truthy (s : string) : bool := negb (String.eqb s ""%string).

(** The ASCII white space removed by [String.prototype.trim]. *)
Definition is_js_space (c : Ascii.ascii) : bool :=
  match Ascii.nat_of_ascii c with 9 | 10 | 11 | 12 | 13 | 32 => true | _ => false end.

Fixpoint drop_spaces (l : list Ascii.ascii) : list Ascii.ascii :=
  match l with
  | [] => []
  | c :: r => if is_js_space c then drop_spaces r else l
  end.

Definition js_trim (s : string) : string :=
  String.string_of_list_ascii
    (rev (drop_spaces (rev (drop_spaces (String.list_ascii_of_string s))))).

Definition ascii_lower (c : Ascii.ascii) : Ascii.ascii :=
  let n := Ascii.nat_of_ascii c in
  if (65 <=? n) && (n <=? 90) then Ascii.ascii_of_nat (n + 32) else c.

(** [String.prototype.toLowerCase] on ASCII. *)
Definition js_lower (s : string) : string :=
  String.string_of_list_ascii (map ascii_lower (String.list_ascii_of_string s)).

(** [String.prototype.split(sep)] for a one-character separator: the
    pieces between separators, empty ones included. *)
Fixpoint split_chars (sep : Ascii.ascii) (l : list Ascii.ascii) : list (list Ascii.ascii) :=
  match l with
  | [] => [[]]
  | c :: r =>
      let pieces := split_chars sep r in
      if Ascii.eqb c sep then [] :: pieces
      else match pieces with
           | [] => [[c]]
           | w :: ws => (c :: w) :: ws
           end
  end.

Definition js_split (sep : Ascii.ascii) (s : string) : list string :=
  map String.string_of_list_ascii (split_chars sep (String.list_ascii_of_string s)).

(** [Array.from(new Set(xs))] appended to [acc]: a value is kept at its
    first occurrence. *)
Definition js_set_from (acc : list string) (xs : list string) : list string :=
  fold_left (fun acc x => if existsb (String.eqb x) acc then acc else acc ++ [x]) xs acc.

(** [Array.prototype.slice(start, end)]: a negative index counts from the
    end, and both are clamped to [[0, length]]. *)
Definition js_slice_index (len i : Z) : nat :=
  Z.to_nat (if (i <? 0)%Z then Z.max 0 (len + i) else Z.min i len).

Definition js_slice {A} (l : list A) (start end_ : Z) : list A :=
  let len := Z.of_nat (length l) in
  let s := js_slice_index len start in
  let e := js_slice_index len end_ in
  take (e - s) (drop s l).

(** [String.prototype.slice] *)
Definition js_str_slice (s : string) (start end_ : Z) : string :=
  String.string_of_list_ascii (js_slice (String.list_ascii_of_string s) start end_).

Fixpoint ascii_prefix (p l : list Ascii.ascii) : bool :=
  match p, l with
  | [], _ => true
  | a :: p', b :: l' => Ascii.eqb a b && ascii_prefix p' l'
  | _ :: _, [] => false
  end.

Fixpoint index_of_from (needle hay : list Ascii.ascii) (i : nat) : Z :=
  if ascii_prefix needle hay then Z.of_nat i
  else match hay with [] => (-1)%Z | _ :: r => index_of_from needle r (S i) end.

(** [hay.indexOf(needle)], [-1] when absent. *)
Definition js_indexOf (hay needle : string) : Z :=
  index_of_from (String.list_ascii_of_string needle) (String.list_ascii_of_string hay) 0.

(** [hay.includes(needle)] *)
Definition js_includes (hay needle : string) : bool := negb (js_indexOf hay needle =? -1)%Z.

(** [String(n)] of a count. *)
Definition js_string_of_nat (n : nat) : string := pretty n.

(** ** Numbers *)

Local Open Scope Q_scope.

(** [Math.max(x0, ...xs)] and [Math.min(x0, ...xs)]. *)
Definition fold_max (x0 : Q) (xs : list Q) : Q := fold_left Qmax xs x0.
Definition fold_min (x0 : Q) (xs : list Q) : Q := fold_left Qmin xs x0.

(** [x < y] *)
Definition Qlt_bool (x y : Q) : bool := negb (Qle_bool y x).

(** [(minValue === undefined || x >= minValue) && (maxValue === undefined || x <= maxValue)] *)
Definition in_range (lo hi : option Q) (x : Q) : bool :=
  match lo with Some l => Qle_bool l x | None => true end &&
  match hi with Some h => Qle_bool x h | None => true end.

(** ** JS [Map] in insertion order *)

Section AMap.
Context {K V : Type} `{EqDecision K}.

Fixpoint amap_get (k : K) (m : list (K * V)) : option V :=
  match m with
  | [] => None
  | (k', v) :: r => if decide (k = k') then Some v else amap_get k r
  end.

(** [m.set(k, v)]: an existing key keeps its position. *)
Fixpoint amap_set (k : K) (v : V) (m : list (K * V)) : list (K * V) :=
  match m with
  | [] => [(k, v)]
  | (k', v') :: r => if decide (k = k') then (k, v) :: r else (k', v') :: amap_set k v r
  end.
End AMap.

(** Grouping into a [Map] of arrays: [m.set(k, [...(m.get(k) ?? []), v])]
    for each item, the groups in the order their key first appears. *)
Definition group_by {A K V} `{EqDecision K} (key : A -> K) (val : A -> V) (l : list A) : list (K * list V) :=
  fold_left (fun m x => amap_set (key x) (default [] (amap_get (key x) m) ++ [val x]) m) l [].

(** ** [Array.prototype.sort] (stable) *)

Section StableSort.
Context {A : Type} (before : A -> A -> bool).

Fixpoint sort_insert (a : A) (l : list A) : list A :=
  match l with
  | [] => [a]
  | y :: ys => if before a y then a :: y :: ys else y :: sort_insert a ys
  end.

Fixpoint stable_sort (l : list A) : list A :=
  match l with
  | [] => []
  | a :: r => sort_insert a (stable_sort r)
  end.
End StableSort.

(** ** Near-duplicate removal by time

    [l.filter((x, i, arr) => i === 0 || Math.abs(time(x) - time(arr[i - 1])) > eps)]:
    an item is compared with its predecessor in the input, whether that
    predecessor was kept or not.  The entity modal, the entity panel and
    its per-text times all use it with [eps = 0.001]. *)

Section CloseDedup.
Context {A : Type} (time : A -> Q) (eps : Q).

Fixpoint drop_close_by (prev : Q) (l : list A) : list A :=
  match l with
  | [] => []
  | x :: r => (if Qlt_bool eps (Qabs (time x - prev)) then [x] else []) ++ drop_close_by (time x) r
  end.

Definition unique_close_by (l : list A) : list A :=
  match l with [] => [] | x :: r => x :: drop_close_by (time x) r end.
End CloseDedup.

(** The longest prefix whose items pass [p]: a [for] loop that [break]s at
    the first item that fails. *)
Fixpoint take_while {A} (p : A -> bool) (l : list A) : list A :=
  match l with
  | [] => []
  | x :: r => if p x then x :: take_while p r else []
  end.

(** ** The traced error monad *)

Inductive res (E A : Type) : Type :=
| Ok (a : A)
| Err (e : E).
Arguments Ok {E A} a.
Arguments Err {E A} e.

Definition TM (Ev E A : Type) : Type := list Ev -> res E A * list Ev.

#[export] Instance TM_ret {Ev E} : MRet (TM Ev E) := fun A x tr => (Ok x, tr).
#[export] Instance TM_bind {Ev E} : MBind (TM Ev E) :=
  fun A B f c tr =>
    match c tr with
    | (Ok x, tr') => f x tr'
    | (Err e, tr') => (Err e, tr')
    end.

(** An external call: record it, then return what the collaborator answered. *)
Definition tm_call {Ev E A} (ev : Ev) (r : res E A) : TM Ev E A :=
  fun tr => (r, tr ++ [ev]).

Definition tm_throw {Ev E A} (e : E) : TM Ev E A := fun tr => (Err e, tr).

(** [try { c } catch (e) { h(e) }] *)
Definition tm_catch {Ev E A} (c : TM Ev E A) (h : E -> TM Ev E A) : TM Ev E A :=
  fun tr => match c tr with (Err e, tr') => h e tr' | r => r end.

(** Run from an empty trace. *)
Definition run {Ev E A} (c : TM Ev E A) : res E A * list Ev := c [].

(** ** Shared lemmas *)

Lemma fold_max_ge (x0 : Q) (xs : list Q) :
  Forall (fun x => x <= fold_max x0 xs) (x0 :: xs).
Proof.
  unfold fold_max. revert x0. induction xs as [|y ys IH]; intros x0; simpl.
  - constructor; [apply Qle_refl | constructor].
  - pose proof (IH (Qmax x0 y)) as H. inversion H as [|? ? Hm Hr]; subst.
    constructor; [| constructor]; auto.
    + eapply Qle_trans; [apply Q.le_max_l | exact Hm].
    + eapply Qle_trans; [apply Q.le_max_r | exact Hm].
Qed.

Lemma fold_min_le (x0 : Q) (xs : list Q) :
  Forall (fun x => fold_min x0 xs <= x) (x0 :: xs).
Proof.
  unfold fold_min. revert x0. induction xs as [|y ys IH]; intros x0; simpl.
  - constructor; [apply Qle_refl | constructor].
  - pose proof (IH (Qmin x0 y)) as H. inversion H as [|? ? Hm Hr]; subst.
    constructor; [| constructor]; auto.
    + eapply Qle_trans; [exact Hm | apply Q.le_min_l].
    + eapply Qle_trans; [exact Hm | apply Q.le_min_r].
Qed.

Lemma Qmax_choice (x y : Q) : Qmax x y = x \/ Qmax x y = y.
Proof. unfold Qmax, GenericMinMax.gmax. destruct (x ?= y); auto. Qed.

Lemma Qmin_choice (x y : Q) : Qmin x y = x \/ Qmin x y = y.
Proof. unfold Qmin, GenericMinMax.gmin. destruct (x ?= y); auto. Qed.

Lemma fold_max_in (x0 : Q) (xs : list Q) : In (fold_max x0 xs) (x0 :: xs).
Proof.
  unfold fold_max. revert x0. induction xs as [|y ys IH]; intros x0; simpl; [auto|].
  destruct (IH (Qmax x0 y)) as [<-|Hin]; [| simpl in *; tauto].
  destruct (Qmax_choice x0 y) as [->| ->]; simpl; tauto.
Qed.

Lemma fold_min_in (x0 : Q) (xs : list Q) : In (fold_min x0 xs) (x0 :: xs).
Proof.
  unfold fold_min. revert x0. induction xs as [|y ys IH]; intros x0; simpl; [auto|].
  destruct (IH (Qmin x0 y)) as [<-|Hin]; [| simpl in *; tauto].
  destruct (Qmin_choice x0 y) as [->| ->]; simpl; tauto.
Qed.

Lemma in_range_spec (lo hi : option Q) (x : Q) :
  in_range lo hi x = true <->
  (forall l, lo = Some l -> l <= x) /\ (forall h, hi = Some h -> x <= h).
Proof.
  unfold in_range. rewrite andb_true_iff.
  destruct lo as [l|], hi as [h|]; rewrite ?Qle_bool_iff;
    split; intros [H1 H2]; split; intros; simplify_eq; auto; try apply H1; try apply H2;
    try reflexivity.
Qed.

(** ** Lemmas on the string helpers *)

Section StringLemmas.
Local Open Scope nat_scope.

Lemma ascii_lower_idem (c : Ascii.ascii) : ascii_lower (ascii_lower c) = ascii_lower c.
Proof.
  unfold ascii_lower. destruct ((65 <=? Ascii.nat_of_ascii c) && (Ascii.nat_of_ascii c <=? 90)) eqn:E;
    [|by rewrite E].
  apply andb_true_iff in E as [E1 E2]. apply Nat.leb_le in E1, E2.
  rewrite Ascii.nat_ascii_embedding by lia.
  replace ((65 <=? _) && _) with false; [done|]. symmetry. apply andb_false_iff. right.
  apply Nat.leb_gt. lia.
Qed.

Lemma is_js_space_lower (c : Ascii.ascii) : is_js_space (ascii_lower c) = is_js_space c.
Proof.
  unfold ascii_lower. destruct ((65 <=? Ascii.nat_of_ascii c) && (Ascii.nat_of_ascii c <=? 90)) eqn:E;
    [|done].
  apply andb_true_iff in E as [E1 E2]. apply Nat.leb_le in E1, E2. unfold is_js_space.
  rewrite Ascii.nat_ascii_embedding by lia.
  destruct (Ascii.nat_of_ascii c) as [|n] eqn:En; [lia|].
  do 90 (destruct n as [|n]; [lia || reflexivity|]). lia.
Qed.

Lemma drop_spaces_map_lower (l : list Ascii.ascii) :
  drop_spaces (map ascii_lower l) = map ascii_lower (drop_spaces l).
Proof. induction l as [|c l IH]; simpl; [done|]. rewrite is_js_space_lower. by destruct (is_js_space c). Qed.

Lemma drop_spaces_suffix (l : list Ascii.ascii) : exists p, l = p ++ drop_spaces l.
Proof.
  induction l as [|c l [p IH]]; simpl; [by exists []|].
  destruct (is_js_space c); [exists (c :: p); simpl; by f_equal | by exists []].
Qed.

Lemma drop_spaces_head (l r : list Ascii.ascii) (c : Ascii.ascii) :
  drop_spaces l = c :: r -> is_js_space c = false.
Proof. induction l as [|d l IH]; simpl; [done|]. destruct (is_js_space d) eqn:E; [done|]. by intros [= <- _]. Qed.

Lemma drop_spaces_id (l : list Ascii.ascii) :
  (forall c r, l = c :: r -> is_js_space c = false) -> drop_spaces l = l.
Proof. destruct l as [|c r]; simpl; [done|]. intros H. by rewrite (H c r eq_refl). Qed.

Lemma drop_spaces_idem (l : list Ascii.ascii) : drop_spaces (drop_spaces l) = drop_spaces l.
Proof. apply drop_spaces_id. intros c r. apply drop_spaces_head. Qed.

(** [s.toLowerCase().toLowerCase() = s.toLowerCase()] *)
Lemma js_lower_idem (s : string) : js_lower (js_lower s) = js_lower s.
Proof.
  unfold js_lower. rewrite String.list_ascii_of_string_of_list_ascii, map_map.
  f_equal. apply map_ext, ascii_lower_idem.
Qed.

(** [s.toLowerCase().trim() = s.trim().toLowerCase()] *)
Lemma js_trim_lower (s : string) : js_trim (js_lower s) = js_lower (js_trim s).
Proof.
  unfold js_trim, js_lower. rewrite !String.list_ascii_of_string_of_list_ascii.
  rewrite drop_spaces_map_lower, <- map_rev, drop_spaces_map_lower, map_rev. done.
Qed.

(** [s.trim().trim() = s.trim()] *)
Lemma js_trim_idem (s : string) : js_trim (js_trim s) = js_trim s.
Proof.
  unfold js_trim. rewrite String.list_ascii_of_string_of_list_ascii. f_equal.
  set (y := drop_spaces (String.list_ascii_of_string s)).
  set (x := drop_spaces (rev y)).
  assert (Hx : drop_spaces (rev x) = rev x).
  { apply drop_spaces_id. intros c r Hr.
    destruct (drop_spaces_suffix (rev y)) as [p Hp]. fold x in Hp.
    assert (y = c :: rev (p ++ rev r)) as Hy.
    { apply (f_equal (@rev _)) in Hr. rewrite rev_involutive in Hr. simpl in Hr.
      rewrite <- (rev_involutive y), Hp, Hr, app_assoc, rev_app_distr. done. }
    unfold y in Hy. by apply drop_spaces_head in Hy. }
  rewrite Hx, rev_involutive. unfold x. by rewrite drop_spaces_idem.
Qed.
Lemma ascii_prefix_spec (p l : list Ascii.ascii) : ascii_prefix p l = true <-> exists r, l = p ++ r.
Proof.
  revert l. induction p as [|a p IH]; intros [|b l]; simpl.
  - split; [by exists []|done].
  - split; [by exists (b :: l)|done].
  - split; [done|]. by intros [r ?].
  - rewrite andb_true_iff, Ascii.eqb_eq, IH. split.
    + intros [-> [r ->]]. by exists r.
    + intros [r [= -> ->]]. eauto.
Qed.

Lemma index_of_from_found (needle hay : list Ascii.ascii) (i : nat) :
  index_of_from needle hay i <> (-1)%Z <-> exists pre post, hay = pre ++ needle ++ post.
Proof.
  revert i. induction hay as [|c r IH]; intros i; simpl.
  - destruct (ascii_prefix needle []) eqn:E.
    + apply ascii_prefix_spec in E as [post E]. split; [intros _; exists [], post; done|lia].
    + split; [done|]. intros (pre & post & Hh).
      destruct pre, needle; simpl in *; done.
  - destruct (ascii_prefix needle (c :: r)) eqn:E.
    + apply ascii_prefix_spec in E as [post E]. split; [intros _; by exists [], post|lia].
    + rewrite IH. split.
      * intros (pre & post & ->). by exists (c :: pre), post.
      * intros ([|d pre] & post & Hh).
        -- exfalso. assert (ascii_prefix needle (c :: r) = true) as E'; [|congruence].
           apply ascii_prefix_spec. exists post. done.
        -- injection Hh as -> ->. eauto.
Qed.

(** [hay.includes(needle)] iff [needle] is a substring of [hay]. *)
Lemma js_includes_spec (hay needle : string) :
  js_includes hay needle = true <->
  exists pre post, String.list_ascii_of_string hay = pre ++ String.list_ascii_of_string needle ++ post.
Proof.
  unfold js_includes, js_indexOf. rewrite negb_true_iff, Z.eqb_neq. apply index_of_from_found.
Qed.

Lemma js_includes_trans (h m n : string) :
  js_includes h m = true -> js_includes m n = true -> js_includes h n = true.
Proof.
  rewrite !js_includes_spec. intros (a & b & Hh) (c & d & Hm).
  exists (a ++ c), (d ++ b). rewrite Hh, Hm, <- !app_assoc. done.
Qed.

Lemma js_includes_in_empty (n : string) : js_includes "" n = true -> n = "".
Proof.
  rewrite js_includes_spec. intros ([|] & [|] & H); simpl in H; try done.
  - rewrite app_nil_r in H. rewrite <- (String.string_of_list_ascii_of_string n), <- H. done.
  - destruct (String.list_ascii_of_string n); done.
Qed.

Lemma js_includes_empty (h : string) : js_includes h "" = true.
Proof. apply js_includes_spec. by exists [], (String.list_ascii_of_string h). Qed.
End StringLemmas.

Section AMapLemmas.
Context {K V : Type} `{EqDecision K}.

Lemma amap_get_set (k k' : K) (v : V) (m : list (K * V)) :
  amap_get k' (amap_set k v m) = if decide (k' = k) then Some v else amap_get k' m.
Proof.
  induction m as [|[k1 v1] r IH]; simpl.
  - by repeat case_decide.
  - repeat (case_decide; simplify_eq; simpl); rewrite ?IH; by repeat case_decide.
Qed.

Lemma amap_set_values (k : K) (v : V) (m : list (K * V)) (x : V) :
  In x (map snd (amap_set k v m)) -> x = v \/ In x (map snd m).
Proof.
  induction m as [|[k1 v1] r IH]; simpl; [intuition|].
  case_decide; simpl; intros [<-|Hx]; try tauto; destruct (IH Hx); tauto.
Qed.

Lemma amap_set_keys (k x : K) (v : V) (m : list (K * V)) :
  In x (map fst (amap_set k v m)) -> x = k \/ In x (map fst m).
Proof.
  induction m as [|[k1 v1] r IH]; simpl; [intuition|].
  case_decide; simpl; intros [<-|Hx]; try tauto; destruct (IH Hx); tauto.
Qed.

Lemma amap_set_NoDup (k : K) (v : V) (m : list (K * V)) :
  NoDup (map fst m) -> NoDup (map fst (amap_set k v m)).
Proof.
  induction m as [|[k1 v1] r IH]; simpl; intros Hnd; [apply NoDup_singleton|].
  apply NoDup_cons in Hnd as [Hk1 Hnd].
  case_decide; subst; simpl; constructor; auto.
  intros [->|Hin]%list_elem_of_In%amap_set_keys; [done|]. by apply Hk1, list_elem_of_In.
Qed.

Lemma amap_set_In (k k' : K) (v v' : V) (m : list (K * V)) :
  NoDup (map fst m) -> In (k', v') (amap_set k v m) ->
  (k' = k /\ v' = v) \/ (k' <> k /\ In (k', v') m).
Proof.
  induction m as [|[k1 v1] r IH]; simpl; intros Hnd; [intuition congruence|].
  apply NoDup_cons in Hnd as [Hk1 Hnd].
  case_decide as Hk; simpl; intros [Heq|Hin].
  - injection Heq as <- <-. tauto.
  - subst k1. right. split; [|tauto]. intros ->. apply Hk1, list_elem_of_In, in_map_iff. by exists (k, v').
  - injection Heq as <- <-. right. split; [congruence|tauto].
  - destruct (IH Hnd Hin); tauto.
Qed.

Lemma amap_set_keys_eq (k : K) (v : V) (m : list (K * V)) :
  map fst (amap_set k v m) = if bool_decide (k ∈ map fst m) then map fst m else map fst m ++ [k].
Proof.
  induction m as [|[k' v'] m IH]; [done|]. cbn [amap_set map fst].
  destruct (decide (k = k')) as [->|Hne].
  - by rewrite bool_decide_true by set_solver.
  - cbn [map fst]. rewrite IH. case_bool_decide; case_bool_decide; set_solver.
Qed.

Lemma amap_set_keys_in (k : K) (v : V) (m : list (K * V)) :
  k ∈ map fst m -> map fst (amap_set k v m) = map fst m.
Proof. intros Hk. by rewrite amap_set_keys_eq, bool_decide_true. Qed.

Lemma amap_set_In_self (k : K) (v : V) (m : list (K * V)) : In (k, v) (amap_set k v m).
Proof. induction m as [|[k1 v1] r IH]; simpl; [tauto|]. case_decide; simpl; tauto. Qed.

Lemma amap_set_In_other (k k' : K) (v v' : V) (m : list (K * V)) :
  k' <> k -> In (k', v') m -> In (k', v') (amap_set k v m).
Proof.
  induction m as [|[k1 v1] r IH]; simpl; [tauto|].
  case_decide; subst; simpl; intros Hne [[= -> ->]|Hin]; try congruence; tauto.
Qed.

Lemma amap_get_In (k : K) (v : V) (m : list (K * V)) : amap_get k m = Some v -> In (k, v) m.
Proof.
  induction m as [|[k1 v1] r IH]; simpl; [done|]. case_decide; [intros [= ->]; subst|]; tauto.
Qed.

Lemma amap_get_None (k : K) (v : V) (m : list (K * V)) : amap_get k m = None -> ~ In (k, v) m.
Proof.
  induction m as [|[k1 v1] r IH]; simpl; [tauto|]. case_decide; [done|].
  intros Hg [[= -> ->]|Hin]; [done|]. by apply (IH Hg).
Qed.
End AMapLemmas.

Section StableSortLemmas.
Context {A : Type} (before : A -> A -> bool).
Hypothesis before_total : forall a b, before a b = false -> before b a = true.

Lemma sort_insert_perm (a : A) (l : list A) : Permutation (sort_insert before a l) (a :: l).
Proof.
  induction l as [|y ys IH]; simpl; [done|].
  destruct (before a y); [done|]. rewrite IH. apply perm_swap.
Qed.

Lemma stable_sort_perm (l : list A) : Permutation (stable_sort before l) l.
Proof.
  induction l as [|a r IH]; simpl; [done|]. by rewrite sort_insert_perm, IH.
Qed.

Lemma sort_insert_sorted (a : A) (l : list A) :
  Sorted (fun x y => before x y = true) l ->
  Sorted (fun x y => before x y = true) (sort_insert before a l).
Proof.
  induction 1 as [|y ys Hs IH Hhd]; simpl; [repeat constructor|].
  destruct (before a y) eqn:E; [by repeat constructor|].
  constructor; [exact IH|]. apply before_total in E.
  destruct ys as [|z zs]; simpl; [by repeat constructor|].
  inversion Hhd; subst. destruct (before a z); by constructor.
Qed.

Lemma stable_sort_sorted (l : list A) :
  Sorted (fun x y => before x y = true) (stable_sort before l).
Proof. induction l; simpl; [constructor | by apply sort_insert_sorted]. Qed.
End StableSortLemmas.

Lemma Sorted_weaken {A} (R1 R2 : A -> A -> Prop) (l : list A) :
  (forall x y, R1 x y -> R2 x y) -> Sorted R1 l -> Sorted R2 l.
Proof.
  intros H. induction 1 as [|x r Hs IH Hhd]; constructor; [done|].
  destruct Hhd; constructor; auto.
Qed.

(** A sub-list (filter, prefix) of a sorted list is sorted. *)
Lemma Qlt_bool_iff (x y : Q) : Qlt_bool x y = true <-> x < y.
Proof.
  unfold Qlt_bool. rewrite negb_true_iff. split.
  - intros H. apply Qnot_le_lt. intros Hle. apply Qle_bool_iff in Hle. congruence.
  - intros H. destruct (Qle_bool y x) eqn:E; [|done]. apply Qle_bool_iff in E. lra.
Qed.

Lemma Qlt_bool_false (x y : Q) : Qlt_bool x y = false -> y <= x.
Proof. unfold Qlt_bool. rewrite negb_false_iff. apply Qle_bool_iff. Qed.

Lemma Qlt_bool_le (x y : Q) : y <= x -> Qlt_bool x y = false.
Proof. intros H. unfold Qlt_bool. by apply negb_false_iff, Qle_bool_iff. Qed.

(** [Qfloor] is characterised by its bounds, and commutes with division by a positive integer. *)
Lemma Qfloor_unique (q : Q) (z : Z) : inject_Z z <= q -> q < inject_Z z + 1 -> Qfloor q = z.
Proof.
  intros H0 H1. pose proof (Qfloor_le q) as F0. pose proof (Qlt_floor q) as F1.
  rewrite inject_Z_plus in F1.
  assert (A : (z < Qfloor q + 1)%Z) by (rewrite Zlt_Qlt, inject_Z_plus; change (inject_Z 1) with 1 in *; lra).
  assert (B : (Qfloor q < z + 1)%Z) by (rewrite Zlt_Qlt, inject_Z_plus; change (inject_Z 1) with 1 in *; lra).
  lia.
Qed.

Lemma Qfloor_div (q : Q) (n : Z) : (0 < n)%Z -> Qfloor (q / inject_Z n) = (Qfloor q / n)%Z.
Proof.
  intros Hn. pose proof (Qfloor_le q) as F0. pose proof (Qlt_floor q) as F1.
  assert (D0 : (n * (Qfloor q / n) <= Qfloor q)%Z) by (apply Z.mul_div_le; lia).
  assert (D1 : (Qfloor q + 1 <= n * (Qfloor q / n + 1))%Z)
    by (pose proof (Z.mul_succ_div_gt (Qfloor q) n Hn); lia).
  rewrite Zle_Qle, inject_Z_mult in D0. rewrite Zle_Qle, inject_Z_plus, inject_Z_mult, inject_Z_plus in D1.
  rewrite inject_Z_plus in F1. change (inject_Z 1) with 1 in *.
  assert (Hn' : 0 < inject_Z n) by (change 0 with (inject_Z 0); rewrite <- Zlt_Qlt; done).
  apply Qfloor_unique.
  - apply Qle_shift_div_l; [done|]. nra.
  - apply Qlt_shift_div_r; [done|]. nra.
Qed.

Lemma Qle_bool_total (a b : Q) : Qle_bool a b = false -> Qle_bool b a = true.
Proof.
  intros H. apply Qle_bool_iff. destruct (Qlt_le_dec a b) as [Hlt|Hle]; [|done].
  apply Qlt_le_weak, Qle_bool_iff in Hlt. congruence.
Qed.

Lemma List_filter_sublist {A} (f : A -> bool) (l : list A) : sublist (List.filter f l) l.
Proof.
  induction l as [|x l IH]; simpl; [constructor|].
  destruct (f x); [by apply sublist_skip|by apply sublist_cons].
Qed.

Lemma List_filter_nil {A} (f : A -> bool) (l : list A) :
  (forall x, In x l -> f x = false) -> List.filter f l = [].
Proof. induction l as [|x l IH]; simpl; intros H; [done|]. rewrite H by auto. auto. Qed.

Lemma List_filter_sublist_mono {A} (f g : A -> bool) (l : list A) :
  (forall x, f x = true -> g x = true) -> sublist (List.filter f l) (List.filter g l).
Proof.
  intros H. induction l as [|x l IH]; simpl; [constructor|].
  destruct (f x) eqn:Fx; [rewrite (H x Fx); by apply sublist_skip|].
  destruct (g x); [by apply sublist_cons|done].
Qed.

Lemma List_filter_all {A} (f : A -> bool) (l : list A) :
  (forall x, In x l -> f x = true) -> List.filter f l = l.
Proof. induction l as [|x l IH]; simpl; intros H; [done|]. rewrite H by auto. f_equal. auto. Qed.

Lemma Sorted_map {A B} (f : A -> B) (R : B -> B -> Prop) (l : list A) :
  Sorted (fun a b => R (f a) (f b)) l -> Sorted R (map f l).
Proof. induction 1 as [|x l Hs IH Hhd]; simpl; constructor; [done|]. destruct Hhd; simpl; by constructor. Qed.

Lemma Sorted_map_inv {A B} (f : A -> B) (R : B -> B -> Prop) (l : list A) :
  Sorted R (map f l) -> Sorted (fun a b => R (f a) (f b)) l.
Proof.
  induction l as [|x l IH]; simpl; intros H; [constructor|].
  apply Sorted_inv in H as [H1 H2]. constructor; [auto|].
  destruct l; simpl in *; constructor. by apply HdRel_inv in H2.
Qed.

Lemma sorted_sublist {A} (R : relation A) `{!Transitive R} (l k : list A) :
  sublist k l -> Sorted R l -> Sorted R k.
Proof.
  intros Hsub Hs. apply Sorted_StronglySorted in Hs; [|intros x y z; apply transitivity].
  apply StronglySorted_Sorted. revert Hs. induction Hsub; intros Hs; [constructor| |].
  - inversion Hs as [|? ? H1 H2]; subst. constructor; [auto|].
    rewrite Forall_forall in H2 |- *. intros z Hz. apply H2.
    eapply elem_of_sublist; [exact Hz | exact Hsub].
  - inversion Hs; auto.
Qed.

Lemma length_take_bound {A} (n : nat) (l : list A) : (length (take n l) <= n)%nat.
Proof. rewrite length_take. lia. Qed.

Lemma Forall_filter_self {A} (P : A -> Prop) `{!forall x, Decision (P x)} (l : list A) :
  Forall P (filter P l).
Proof. apply Forall_forall. intros x Hx. by apply list_elem_of_filter in Hx as [? _]. Qed.

Lemma Qeq_bool_comm (x y : Q) : Qeq_bool x y = Qeq_bool y x.
Proof.
  destruct (Qeq_bool x y) eqn:E1, (Qeq_bool y x) eqn:E2; auto.
  - apply Qeq_bool_iff in E1. apply Qeq_sym, Qeq_bool_iff in E1. congruence.
  - apply Qeq_bool_iff in E2. apply Qeq_sym, Qeq_bool_iff in E2. congruence.
Qed.

Lemma existsb_rev {A} (f : A -> bool) (l : list A) : existsb f (rev l) = existsb f l.
Proof.
  induction l as [|x r IH]; simpl; [done|].
  rewrite existsb_app, IH. simpl. by rewrite orb_false_r, orb_comm.
Qed.

Lemma existsb_fmap {A B} (f : B -> bool) (g : A -> B) (l : list A) :
  existsb f (map g l) = existsb (fun x => f (g x)) l.
Proof. induction l as [|x r IH]; simpl; [done|]. by rewrite IH. Qed.

Lemma existsb_ext {A} (f g : A -> bool) (l : list A) :
  (forall x, f x = g x) -> existsb f l = existsb g l.
Proof. intros H. induction l as [|x r IH]; simpl; [done|]. by rewrite H, IH. Qed.

Lemma take_while_app_drop {A} (p : A -> bool) (l : list A) :
  take_while p l ++ drop (length (take_while p l)) l = l.
Proof. induction l as [|x l IH]; simpl; [done|]. destruct (p x); simpl; [by rewrite IH|done]. Qed.

Lemma take_while_length {A} (p : A -> bool) (l : list A) : (length (take_while p l) <= length l)%nat.
Proof. induction l as [|x l IH]; simpl; [lia|]. destruct (p x); simpl; lia. Qed.

Lemma strongly_sorted_app {A} (R : A -> A -> Prop) (l1 l2 : list A) :
  StronglySorted R (l1 ++ l2) -> forall a b, In a l1 -> In b l2 -> R a b.
Proof.
  induction l1 as [|x l1 IH]; simpl; intros Hs a b Ha Hb; [done|].
  apply StronglySorted_inv in Hs as [Hs Hall]. destruct Ha as [<-|Ha].
  - rewrite Forall_forall in Hall. apply Hall, list_elem_of_In, in_app_iff. by right.
  - by apply IH.
Qed.

(** Intervals listed in order, each ending before ([R] is [<] or [<=])
    the next one starts, are ordered pairwise. *)
Lemma sorted_intervals_strong {A} (lo hi : A -> Q) (R : Q -> Q -> Prop)
    (HR : forall x y z w, R x y -> (y <= z)%Q -> R z w -> R x w) (l : list A) :
  Forall (fun a => (lo a <= hi a)%Q) l -> Sorted (fun a b => R (hi a) (lo b)) l ->
  StronglySorted (fun a b => R (hi a) (lo b)) l.
Proof.
  induction l as [|a l IH]; intros Hf Hs; constructor.
  - apply IH; [by inversion Hf|by inversion Hs].
  - destruct l as [|b l]; [constructor|].
    apply Sorted_inv in Hs as [Hs' Hhd]. apply HdRel_inv in Hhd.
    assert (Hb : StronglySorted (fun a b => R (hi a) (lo b)) (b :: l))
      by (apply IH; [by inversion Hf|exact Hs']).
    apply StronglySorted_inv in Hb as [_ Hb]. inversion Hf as [|? ? _ Hf']. inversion Hf' as [|? ? Hbb _].
    constructor; [done|]. eapply Forall_impl; [exact Hb|]. intros y Hy. by apply (HR _ _ _ _ Hhd Hbb).
Qed.

(** A projection of an [imap] that forgets the index. *)
Lemma map_imap_forget {A B C} (F : nat -> A -> B) (g : B -> C) (h : A -> C) (l : list A) :
  (forall i x, g (F i x) = h x) -> map g (imap F l) = map h l.
Proof.
  revert F. induction l as [|x l IH]; intros F HF; [done|]. cbn [imap map].
  f_equal; [apply HF|]. apply IH. intros i y. apply HF.
Qed.

Lemma string_length_list_ascii (s : string) : String.length s = length (String.list_ascii_of_string s).
Proof. induction s as [|c s IH]; simpl; congruence. Qed.

Lemma string_length_of_list_ascii (l : list Ascii.ascii) : String.length (String.string_of_list_ascii l) = length l.
Proof. by rewrite string_length_list_ascii, String.list_ascii_of_string_of_list_ascii. Qed.

Lemma list_ascii_of_string_app (s1 s2 : string) :
  String.list_ascii_of_string (String.append s1 s2) = String.list_ascii_of_string s1 ++ String.list_ascii_of_string s2.
Proof. induction s1 as [|c s1 IH]; simpl; [done|]. by rewrite IH. Qed.

#[export] Instance list_ascii_of_string_inj : Inj eq eq String.list_ascii_of_string.
Proof.
  intros s1 s2 E. by rewrite <- (String.string_of_list_ascii_of_string s1), E, String.string_of_list_ascii_of_string.
Qed.

Lemma string_app_assoc (a b c : string) : String.append (String.append a b) c = String.append a (String.append b c).
Proof. apply (inj String.list_ascii_of_string). rewrite !list_ascii_of_string_app. symmetry. apply app_assoc. Qed.

Lemma string_app_nil_r (a : string) : String.append a "" = a.
Proof. apply (inj String.list_ascii_of_string). rewrite list_ascii_of_string_app. apply app_nil_r. Qed.

Lemma split_chars_nosep (sep : Ascii.ascii) (l : list Ascii.ascii) : ~ In sep l -> split_chars sep l = [l].
Proof.
  induction l as [|c l IH]; intros Hn; simpl; [done|].
  rewrite IH by (intros H; apply Hn; by right).
  destruct (Ascii.eqb_spec c sep) as [->|]; [exfalso; apply Hn; by left|done].
Qed.

Lemma split_chars_app (sep : Ascii.ascii) (l1 l2 : list Ascii.ascii) :
  ~ In sep l1 -> split_chars sep (l1 ++ sep :: l2) = l1 :: split_chars sep l2.
Proof.
  induction l1 as [|c l1 IH]; intros Hn; simpl.
  - by rewrite Ascii.eqb_refl.
  - rewrite IH by (intros H; apply Hn; by right).
    destruct (Ascii.eqb_spec c sep) as [->|]; [exfalso; apply Hn; by left|done].
Qed.

(** [array.includes(x)] on strings, written [existsb (String.eqb x)], is
    membership. *)
Lemma existsb_eqb_elem (x : string) (l : list string) : existsb (String.eqb x) l = bool_decide (x ∈ l).
Proof.
  induction l as [|y l IH]; cbn [existsb]; [rewrite bool_decide_false; [done|set_solver]|].
  rewrite IH. destruct (String.eqb_spec x y) as [->|Hne]; cbn [orb].
  - rewrite bool_decide_true; [done|set_solver].
  - apply bool_decide_ext. set_solver.
Qed.
#[export] Hint Rewrite existsb_eqb_elem : portal_rw.

Lemma js_set_from_elem (acc xs : list string) (x : string) :
  x ∈ js_set_from acc xs <-> x ∈ acc \/ x ∈ xs.
Proof.
  revert acc. induction xs as [|y xs IH]; intros acc; simpl; [set_solver|].
  rewrite IH, existsb_eqb_elem. case_bool_decide; set_solver.
Qed.

Lemma js_set_from_NoDup (acc xs : list string) : NoDup acc -> NoDup (js_set_from acc xs).
Proof.
  revert acc. induction xs as [|y xs IH]; intros acc Hacc; simpl; [done|].
  apply IH. rewrite existsb_eqb_elem. case_bool_decide; [done|].
  apply NoDup_app. split_and!; [done| |by apply NoDup_singleton]. set_solver.
Qed.

Lemma Forall_sublist_of {A} (P : A -> Prop) (l k : list A) :
  sublist k l -> Forall P l -> Forall P k.
Proof.
  intros Hs Hl. rewrite Forall_forall in Hl |- *. intros x Hx.
  apply Hl. by eapply elem_of_sublist.
Qed.

Lemma ForallOrdPairs_sublist {A} (R : A -> A -> Prop) (l k : list A) :
  sublist k l -> ForallOrdPairs R l -> ForallOrdPairs R k.
Proof.
  induction 1 as [|x l k Hs IH|x l k Hs IH]; intros H; [constructor| |].
  - inversion H as [|? ? Hx Hr]; subst. constructor; [|auto]. by eapply Forall_sublist_of.
  - inversion H; auto.
Qed.

(** Unfold the monad in hypotheses and goal, and split on the answers. *)
Section CloseDedupLemmas.
Context {A : Type} (time : A -> Q) (eps : Q).

Lemma drop_close_by_sublist (prev : Q) (l : list A) : sublist (drop_close_by time eps prev l) l.
Proof.
  revert prev. induction l as [|x l IH]; intros prev; simpl; [constructor|].
  destruct (Qlt_bool _ _); simpl; [by apply sublist_skip|by apply sublist_cons].
Qed.

Lemma unique_close_by_sublist (l : list A) : sublist (unique_close_by time eps l) l.
Proof. destruct l; simpl; [constructor|apply sublist_skip, drop_close_by_sublist]. Qed.

(** On sorted times, the items kept after [prev] are more than [eps] after
    every time up to [prev], and more than [eps] apart. *)
Lemma drop_close_by_gapped (l : list A) (prev : Q) :
  Sorted Qle (prev :: map time l) ->
  (forall sk, sk <= prev -> HdRel (fun a b => a + eps < b) sk (map time (drop_close_by time eps prev l))) /\
  Sorted (fun a b => a + eps < b) (map time (drop_close_by time eps prev l)).
Proof.
  revert prev. induction l as [|x l IH]; intros prev Hs; cbn [map drop_close_by]; [split; [constructor|constructor]|].
  apply Sorted_inv in Hs as [Hs Hhd]. apply HdRel_inv in Hhd.
  destruct (IH (time x) Hs) as [IHhd IHs].
  destruct (Qlt_bool _ _) eqn:E; cbn [app map].
  - apply Qlt_bool_iff in E. pose proof (Qabs_pos (time x - prev) ltac:(lra)).
    split; [intros sk Hsk; constructor; cbv beta; lra|]. constructor; [done|]. apply IHhd. lra.
  - split; [|done]. intros sk Hsk. apply IHhd. lra.
Qed.

Lemma unique_close_by_gapped (l : list A) :
  Sorted (fun a b => time a <= time b) l ->
  Sorted (fun a b => time a + eps < time b) (unique_close_by time eps l).
Proof.
  intros Hs. apply (Sorted_map_inv time (fun a b => a + eps < b)).
  destruct l as [|x r]; simpl; [constructor|].
  destruct (drop_close_by_gapped r (time x)) as [Hhd Hs']; [by apply (Sorted_map time Qle (x :: r))|].
  constructor; [done|]. apply Hhd, Qle_refl.
Qed.
End CloseDedupLemmas.

(** ** Grouping *)

Section GroupBy.
Context {A K V : Type} `{EqDecision K} (key : A -> K) (val : A -> V).

(** What the map of groups holds after the items [pre]. *)
Definition groups_of (m : list (K * list V)) (pre : list A) : Prop :=
  NoDup (map fst m) /\
  forall k vs, In (k, vs) m <->
    (exists x, In x pre /\ key x = k) /\ vs = map val (List.filter (fun x => bool_decide (key x = k)) pre).

Lemma groups_of_get (m : list (K * list V)) (pre : list A) (k : K) :
  groups_of m pre ->
  default [] (amap_get k m) = map val (List.filter (fun x => bool_decide (key x = k)) pre).
Proof.
  intros [Hnd Hin]. destruct (amap_get k m) as [vs|] eqn:E; simpl.
  - by apply amap_get_In, Hin in E as [_ ->].
  - destruct (List.filter _ pre) as [|y ys] eqn:F; [done|].
    assert (Hy : In y (List.filter (fun x => bool_decide (key x = k)) pre)) by (rewrite F; left; done).
    apply filter_In in Hy as [Hy Hk]. apply bool_decide_eq_true in Hk.
    exfalso. apply (amap_get_None k (map val (y :: ys)) m E), Hin. rewrite <- F. eauto.
Qed.

Lemma groups_of_snoc (m : list (K * list V)) (pre : list A) (x : A) :
  groups_of m pre ->
  groups_of (amap_set (key x) (default [] (amap_get (key x) m) ++ [val x]) m) (pre ++ [x]).
Proof.
  intros Hg. pose proof (groups_of_get m pre (key x) Hg) as Hget. destruct Hg as [Hnd Hin].
  split; [by apply amap_set_NoDup|]. intros k vs.
  rewrite List.filter_app, map_app. cbn [List.filter]. setoid_rewrite in_app_iff. cbn [In].
  destruct (decide (k = key x)) as [->|Hk].
  - rewrite bool_decide_true by done. split.
    + intros [[_ ->]|[Hk _]]%amap_set_In; [|done|done]. rewrite Hget.
      split; [exists x; tauto|done].
    + intros [_ ->]. cbn [map]. rewrite <- Hget. apply amap_set_In_self.
  - rewrite bool_decide_false by congruence. rewrite app_nil_r. split.
    + intros [[-> _]|[_ Hm]]%amap_set_In; [done| |done]. apply Hin in Hm as [[y [Hy Hky]] ->]. eauto.
    + intros [[y [[Hy|[<-|[]]] Hky]] Hvs]; [|done].
      apply amap_set_In_other; [done|]. apply Hin. eauto.
Qed.

Lemma group_by_spec (l : list A) : groups_of (group_by key val l) l.
Proof.
  unfold group_by. change l with ([] ++ l) at 2.
  assert (H0 : groups_of [] []).
  { split; [apply NoDup_nil_2|]. intros k vs. simpl. split; [intros []|intros [[? [[] _]] _]]. }
  revert H0. generalize (@nil (K * list V)) (@nil A).
  induction l as [|x l IH]; intros m pre Hg; simpl; [by rewrite app_nil_r|].
  replace (pre ++ x :: l) with ((pre ++ [x]) ++ l) by by rewrite <- app_assoc.
  by apply IH, groups_of_snoc.
Qed.
End GroupBy.

(** Two positions of a list whose images under an injective-on-the-list
    key are equal are the same position. *)
Lemma NoDup_map_lookup {A B} (f : A -> B) (l : list A) (i j : nat) (x y : A) :
  NoDup (map f l) -> l !! i = Some x -> l !! j = Some y -> f x = f y -> i = j.
Proof.
  revert i j. induction l as [|a l IH]; intros [|i] [|j] Hnd Hi Hj Hf; simpl in *; try done;
    apply NoDup_cons in Hnd as [Hnin Hnd]; simplify_eq.
  - destruct Hnin. rewrite Hf. apply list_elem_of_In, in_map, list_elem_of_In. by eapply list_elem_of_lookup_2.
  - destruct Hnin. rewrite <- Hf. apply list_elem_of_In, in_map, list_elem_of_In. by eapply list_elem_of_lookup_2.
  - f_equal. by eapply IH.
Qed.

(** ** Runs of a step function *)

Section Runs.
Context {S E : Type} (step : S -> E -> S) (P : S -> Prop).

(** A property that holds at the start and that every step preserves holds
    after any run of events: the invariant of a UI's event loop. *)
Lemma fold_left_inv (es : list E) (s : S) :
  (forall s e, P s -> P (step s e)) -> P s -> P (fold_left step es s).
Proof. intros Hstep. revert s. induction es as [|e es IH]; intros s Hs; simpl; auto. Qed.

(** The same for runs whose events all satisfy [Q]. *)
Lemma fold_left_inv_Forall (Q : E -> Prop) (es : list E) (s : S) :
  (forall s e, Q e -> P s -> P (step s e)) -> Forall Q es -> P s -> P (fold_left step es s).
Proof. intros Hstep HQ. revert s. induction HQ as [|e es He HQ IH]; intros s Hs; simpl; auto. Qed.
End Runs.

Ltac tm_unfold :=
  unfold run, mbind, mret, TM_bind, TM_ret, tm_call, tm_throw, tm_catch in *; simpl in *.

(** Split a hypothesis [x ∈ [a; b; ...]] into one goal per element. *)
Ltac elem_of_list_cases H :=
  repeat match type of H with
  | _ ∈ _ :: _ => apply elem_of_cons in H as [H|H]; [subst|]
  | _ ∈ [] => apply elem_of_nil in H; contradiction
  end.

(** Close a goal on concrete rationals. *)
Ltac qcompute := vm_compute; try reflexivity; try discriminate; try (intros ?; discriminate).

#[export] Hint Resolve Forall_filter_self length_take_bound take_while_length fold_max_ge fold_min_le stable_sort_perm : portal.
