(* ===== verification/OrgConfig.v ===== *)
(** * OrgConfig: entity label configuration and colours

    [src/config/organizationConfig.ts]: the configured entity labels
    ([config.ner.labels], from [config.json], which is not under [src/] and
    is a parameter here), the lookup [getNerLabelConfig] by normalised id,
    [getNerDisplayName], and [getNerColor], which falls back to a colour of
    [config.ner.fallbackColors] picked by the 32-bit string hash
    [hashString].  [hashString] computes [(hash * 31 + code) | 0]: the
    product is exact in a double (|hash| < 2^31), and [| 0] is ToInt32,
    written out here as [to_int32].  Strings are byte strings, so
    [charCodeAt] is the byte value: the model agrees with the code on ASCII
    labels. *)

From S2P Require Import Prelude.

Local Open Scope Z_scope.

(** [NerLabelConfig] *)
Record NerLabelConfig := mkNerLabelConfig {
  nl_id : string;
  nl_displayName : string;
  nl_color : string
}.

(** [OrganizationConfig]: the organisation's names, description and
    optional logo ([logo?.path], [logo?.alt]). *)
Record OrganizationConfig := mkOrganizationConfig {
  org_name : string;
  org_displayName : string;
  org_description : string;
  org_logo : option (option string * option string)
}.

(** [ThemeColorsConfig] (27-88): the colour strings of the theme. *)
Record PaletteColor := mkPaletteColor { pc_main : string; pc_light : string; pc_dark : string; pc_contrastText : string }.

Record GreyColors := mkGreyColors {
  grey_50 : string; grey_100 : string; grey_200 : string; grey_300 : string; grey_400 : string;
  grey_500 : string; grey_600 : string; grey_700 : string; grey_800 : string; grey_900 : string
}.

Record TextColors := mkTextColors { text_primary : string; text_secondary : string; text_disabled : string }.

Record BackgroundColors := mkBackgroundColors {
  bg_default : string; bg_paper : string; bg_subtle : string; bg_mainPage : string; bg_storyPage : string
}.

(** The [{ main; light }] of [error], [success] and [info], and the
    [{ main; dark }] of [warning]. *)
Record MainLight := mkMainLight { ml_main : string; ml_light : string }.
Record MainDark := mkMainDark { md_main : string; md_dark : string }.

Record CommonColors := mkCommonColors {
  common_white : string; common_black : string; common_border : string;
  common_divider : string; common_overlay : string; common_shadow : string
}.

Record ThemeColorsConfig := mkThemeColorsConfig {
  tc_primary : PaletteColor;
  tc_secondary : PaletteColor;
  tc_grey : GreyColors;
  tc_text : TextColors;
  tc_background : BackgroundColors;
  tc_error : MainLight;
  tc_warning : MainDark;
  tc_success : MainLight;
  tc_info : MainLight;
  tc_common : CommonColors
}.

(** [AppConfig] (90-108).  The optional [ui.carouselTopBar] holds its
    optional [images] and [intervalMs]; the optional
    [ui.portalHeaderOverlay] its optional [enabled]. *)
Record AppConfig := mkAppConfig {
  cfg_organization : OrganizationConfig;
  cfg_theme_colors : ThemeColorsConfig;
  cfg_carouselTopBar : option (option (list string) * option Q);
  cfg_portalHeaderOverlay : option (option bool);
  cfg_ner_labels : list NerLabelConfig;
  cfg_ner_fallbackColors : list string
}.

(** The exports of 113-117, read from the configuration [config]. *)
Definition organizationConfig (config : AppConfig) : OrganizationConfig := cfg_organization config.
Definition themeColors (config : AppConfig) : ThemeColorsConfig := cfg_theme_colors config.
Definition nerLabels (config : AppConfig) : list NerLabelConfig := cfg_ner_labels config.
Definition nerFallbackColors (config : AppConfig) : list string := cfg_ner_fallbackColors config.

(** [normalize = (value) => value?.trim()?.toLowerCase()] *)
Definition normalize (value : string) : string := js_lower (js_trim value).

(** ToInt32, the conversion [x | 0] applies. *)
Definition to_int32 (x : Z) : Z :=
  let m := x mod 2 ^ 32 in if m <? 2 ^ 31 then m else m - 2 ^ 32.

(** [hashString] *)
Definition hashString (value : string) : Z :=
  fold_left (fun hash c => to_int32 (hash * 31 + Z.of_nat (Ascii.nat_of_ascii c)))
    (String.list_ascii_of_string value) 0.

(** [id.replace(/_/g, ' ')] *)
Definition replace_underscores (id : string) : string :=
  String.string_of_list_ascii
    (map (fun c => if (Ascii.nat_of_ascii c =? 95)%nat then Ascii.ascii_of_nat 32 else c)
       (String.list_ascii_of_string id)).

(** [fallbacks.length === 0 ? '#9e9e9e' : fallbacks[Math.abs(hashString(normalize(id))) % fallbacks.length]] *)
Definition fallback_color (fallbacks : list string) (id : string) : string :=
  match fallbacks with
  | [] => "#9e9e9e"
  | _ => nth (Z.to_nat (Z.rem (Z.abs (hashString (normalize id))) (Z.of_nat (length fallbacks))))
           fallbacks ""
  end.

Section Labels.
(** [config.ner.labels] and [config.ner.fallbackColors]. *)
Context (labels : list NerLabelConfig) (fallbackColors : list string).

(** [getNerLabelConfig] *)
Definition getNerLabelConfig (id : string) : option NerLabelConfig :=
  let key := normalize id in
  List.find (fun l => String.eqb (normalize (nl_id l)) key) labels.

(** [getNerDisplayName] *)
Definition getNerDisplayName (id : string) : string :=
  match getNerLabelConfig id with
  | Some cfg => nl_displayName cfg
  | None => replace_underscores id
  end.

(** [getNerColor] *)
Definition getNerColor (id : string) : string :=
  match getNerLabelConfig id with
  | Some cfg => if js_truthy (nl_color cfg) then nl_color cfg else fallback_color fallbackColors id
  | None => fallback_color fallbackColors id
  end.

(** [getNerLabelColorMap]: a [Map] from the configured ids. *)
Definition getNerLabelColorMap : list (string * string) :=
  fold_left (fun colorMap l => amap_set (nl_id l) (nl_color l) colorMap) labels [].

(** [getNerColorPalette] *)
Definition getNerColorPalette : list string := map nl_color labels ++ fallbackColors.
End Labels.

(** The hash without the 32-bit wrap-around. *)
Definition poly_hash (value : string) : Z :=
  fold_left (fun hash c => hash * 31 + Z.of_nat (Ascii.nat_of_ascii c)) (String.list_ascii_of_string value) 0.

(** ** Lemmas *)

Lemma to_int32_range (x : Z) : -2 ^ 31 <= to_int32 x < 2 ^ 31.
Proof.
  unfold to_int32. pose proof (Z.mod_pos_bound x (2 ^ 32) ltac:(lia)).
  destruct (Z.ltb_spec (x mod 2 ^ 32) (2 ^ 31)); lia.
Qed.

Lemma to_int32_mod (x : Z) : to_int32 x mod 2 ^ 32 = x mod 2 ^ 32.
Proof.
  unfold to_int32. destruct (_ <? _); [apply Z.mod_mod; lia|].
  replace (x mod 2 ^ 32 - 2 ^ 32) with (x mod 2 ^ 32 + (-1) * 2 ^ 32) by lia.
  rewrite Z_mod_plus_full. apply Z.mod_mod. lia.
Qed.

Lemma hash_step_mod (h h' c : Z) :
  h mod 2 ^ 32 = h' mod 2 ^ 32 -> to_int32 (h * 31 + c) mod 2 ^ 32 = (h' * 31 + c) mod 2 ^ 32.
Proof.
  intros E. rewrite to_int32_mod, Zplus_mod, Zmult_mod, E, <- Zmult_mod, <- Zplus_mod. done.
Qed.

Lemma rem_index_bound (h : Z) (n : nat) : (0 < n)%nat -> (Z.to_nat (Z.rem (Z.abs h) (Z.of_nat n)) < n)%nat.
Proof. intros Hn. pose proof (Z.rem_bound_pos (Z.abs h) (Z.of_nat n) ltac:(lia) ltac:(lia)). lia. Qed.

Lemma normalize_lower (id : string) : normalize (js_lower id) = normalize id.
Proof. unfold normalize. by rewrite js_trim_lower, js_lower_idem. Qed.

Lemma normalize_trim (id : string) : normalize (js_trim id) = normalize id.
Proof. unfold normalize. by rewrite js_trim_idem. Qed.

Lemma getNerColor_normalize (labels : list NerLabelConfig) (fallbackColors : list string) (id1 id2 : string) :
  normalize id1 = normalize id2 -> getNerColor labels fallbackColors id1 = getNerColor labels fallbackColors id2.
Proof. intros E. unfold getNerColor, getNerLabelConfig, fallback_color. by rewrite E. Qed.

Lemma fallback_color_in (fallbacks : list string) (id : string) :
  fallbacks <> [] -> fallback_color fallbacks id ∈ fallbacks.
Proof.
  intros Hne. unfold fallback_color. destruct fallbacks as [|f fs]; [done|].
  apply list_elem_of_In, nth_In, rem_index_bound. simpl. lia.
Qed.

(** ** Properties *)

(** [hashString] is a signed 32-bit integer. *)
Theorem hashString_int32 (value : string) : -2 ^ 31 <= hashString value < 2 ^ 31.
Proof.
  unfold hashString. generalize (String.list_ascii_of_string value).
  enough (forall l h, -2 ^ 31 <= h < 2 ^ 31 ->
    -2 ^ 31 <= fold_left (fun hash c => to_int32 (hash * 31 + Z.of_nat (Ascii.nat_of_ascii c))) l h < 2 ^ 31)
    as H by (intros l; apply H; lia).
  induction l as [|c l IH]; intros h Hh; simpl; [done|]. apply IH, to_int32_range.
Qed.

(** The wrap-around of [hashString] loses nothing modulo 2^32: it is the
    polynomial hash [sum code_i * 31^(n-1-i)] reduced to 32 bits. *)
Theorem hashString_poly_hash (value : string) : hashString value mod 2 ^ 32 = poly_hash value mod 2 ^ 32.
Proof.
  unfold hashString, poly_hash. generalize (String.list_ascii_of_string value).
  enough (forall l h h', h mod 2 ^ 32 = h' mod 2 ^ 32 ->
    fold_left (fun hash c => to_int32 (hash * 31 + Z.of_nat (Ascii.nat_of_ascii c))) l h mod 2 ^ 32 =
    fold_left (fun hash c => hash * 31 + Z.of_nat (Ascii.nat_of_ascii c)) l h' mod 2 ^ 32)
    as H by (intros l; by apply H).
  induction l as [|c l IH]; intros h h' E; simpl; [done|]. by apply IH, hash_step_mod.
Qed.

(** [getNerColor] always returns a colour of the palette: a configured
    label colour or a fallback colour, the grey [#9e9e9e] being used only
    when no fallback colour is configured. *)
Theorem getNerColor_in_palette (labels : list NerLabelConfig) (fallbackColors : list string) (id : string) :
  getNerColor labels fallbackColors id ∈ getNerColorPalette labels fallbackColors \/
  (fallbackColors = [] /\ getNerColor labels fallbackColors id = "#9e9e9e").
Proof.
  unfold getNerColor, getNerColorPalette.
  assert (Hfb : fallback_color fallbackColors id ∈ map nl_color labels ++ fallbackColors \/
                (fallbackColors = [] /\ fallback_color fallbackColors id = "#9e9e9e")).
  { destruct fallbackColors as [|f fs]; [by right|left].
    apply elem_of_app. right. by apply fallback_color_in. }
  destruct (getNerLabelConfig labels id) as [cfg|] eqn:E; [|done].
  destruct (js_truthy (nl_color cfg)); [|done]. left. apply elem_of_app. left.
  apply find_some in E as [Hin _]. by apply list_elem_of_In, in_map.
Qed.

(** The colour of a label does not depend on its case or on the white
    space around it. *)
Theorem getNerColor_case_insensitive (labels : list NerLabelConfig) (fallbackColors : list string)
    (id : string) :
  getNerColor labels fallbackColors (js_lower id) = getNerColor labels fallbackColors id /\
  getNerColor labels fallbackColors (js_trim id) = getNerColor labels fallbackColors id.
Proof. split; apply getNerColor_normalize; [apply normalize_lower | apply normalize_trim]. Qed.

(** The hash does wrap around: on eight letters the polynomial hash leaves
    the 32-bit range. *)
Example hashString_wraps : hashString "abcdefgh" <> poly_hash "abcdefgh".
Proof. vm_compute. discriminate. Qed.
