(* ===== verification/Indexes.v ===== *)
(** * Indexes: the indexes page

    [src/app/indexes/page.tsx]: [filterStories] (a story is kept when its
    collection is selected, or none is, and the trimmed lower-case query
    occurs in its title or in a chapter title or synopsis), the collection
    list of the dropdown (first name seen per id), the number of recordings
    per collection, the chapters shown per story, the collection toggle, the
    dropdown filter, and the loading effect with its [cancelled] flag.  The
    response types [IndexesStory] and [IndexChapter] come from
    [app/api/indexes/route], which is not under [src/]: they hold the fields
    the page reads. *)

From S2P Require Import Prelude.

(** [IndexesStory], the fields the page and its two views read. *)
Record IndexesStory := mkIndexesStory {
  is_uuid : string;
  is_interview_title : string;
  is_collection_id : string;
  is_collection_name : string;
  is_video_url : string;
  is_interview_duration : Q;
  is_isAudioFile : bool;
  is_interview_description : string;
  is_ner_labels : list string;
  is_collection_description : string
}.

(** [IndexChapter], the fields the page and its list views read. *)
Record IndexChapter := mkIndexChapter {
  ic_section_id : string;
  ic_section_title : string;
  ic_synopsis : option string;
  ic_start_time : Q
}.

(** [IndexesApiResponse] *)
Record IndexesApiResponse := mkIndexesApiResponse {
  ir_stories : list IndexesStory;
  ir_chaptersByStoryId : gmap string (list IndexChapter)
}.

(** [searchQuery.trim().toLowerCase()] *)
Definition normalize_query (searchQuery : string) : string := js_lower (js_trim searchQuery).

(** The chapter test of [filterStories] (37-40). *)
Definition chapter_matches (q : string) (ch : IndexChapter) : bool :=
  js_includes (js_lower (ic_section_title ch)) q ||
  match ic_synopsis ch with Some s => js_truthy s && js_includes (js_lower s) q | None => false end.

(** The predicate of [filterStories] (32-41). *)
Definition story_matches (q : string) (selectedCollectionIds : list string)
    (chaptersByStoryId : gmap string (list IndexChapter)) (story : IndexesStory) : bool :=
  if negb (bool_decide (selectedCollectionIds = [])) &&
     negb (existsb (String.eqb (is_collection_id story)) selectedCollectionIds) then false
  else if negb (js_truthy q) then true
  else if js_includes (js_lower (is_interview_title story)) q then true
  else existsb (chapter_matches q) (default [] (chaptersByStoryId !! is_uuid story)).

(** [filterStories] *)
Definition filterStories (stories : list IndexesStory) (searchQuery : string) (selectedCollectionIds : list string)
    (chaptersByStoryId : gmap string (list IndexChapter)) : list IndexesStory :=
  let q := normalize_query searchQuery in
  List.filter (story_matches q selectedCollectionIds chaptersByStoryId) stories.

(** [collections] (78-87): one entry per collection id, with the first name seen. *)
Definition collections (stories : list IndexesStory) : list (string * string) :=
  match stories with
  | [] => []
  | _ =>
      fold_left (fun seen s =>
        if js_truthy (is_collection_id s) && negb (bool_decide (is_Some (amap_get (is_collection_id s) seen)))
        then amap_set (is_collection_id s)
               (if js_truthy (is_collection_name s) then is_collection_name s else is_collection_id s) seen
        else seen) stories []
  end.

(** [recordingsPerCollectionId] (89-96). *)
Definition recordingsPerCollectionId (stories : list IndexesStory) : gmap string nat :=
  fold_left (fun m s =>
    let id := is_collection_id s in
    <[id := S (default 0%nat (m !! id))]> m) stories ∅.

(** [filteredChaptersByStoryId] (103-116). *)
Definition filteredChaptersByStoryId (data : option IndexesApiResponse) (searchQuery : string)
    : gmap string (list IndexChapter) :=
  match data with
  | None => ∅
  | Some d =>
      let q := normalize_query searchQuery in
      if negb (js_truthy q) then ir_chaptersByStoryId d
      else List.filter (chapter_matches q) <$> ir_chaptersByStoryId d
  end.

(** [handleCollectionToggle] (118-122). *)
Definition handleCollectionToggle (id : string) (prev : list string) : list string :=
  if existsb (String.eqb id) prev then List.filter (fun x => negb (String.eqb x id)) prev else prev ++ [id].

(** [filteredCollectionsForDropdown] (124-131). *)
Definition filteredCollectionsForDropdown (cs : list (string * string)) (collectionFilterTerm : string)
    : list (string * string) :=
  let q := normalize_query collectionFilterTerm in
  if negb (js_truthy q) then cs
  else List.filter (fun '(id, name) => js_includes (js_lower name) q || js_includes (js_lower id) q) cs.

(** The state the loading effect writes (46-48), and its [cancelled] flag. *)
Record page_state := mkPageState {
  ps_data : option IndexesApiResponse;
  ps_loading : bool;
  ps_error : option string;
  ps_cancelled : bool
}.

Definition initial_page : page_state := mkPageState None true None false.

(** The settling of [fetch('/api/indexes')] (58-72) and the cleanup (73-75). *)
Inductive page_event :=
| Fetched (json : IndexesApiResponse)
| FetchFailed (message : string)
| Settled
| Unmount.

Definition page_step (e : page_event) (s : page_state) : page_state :=
  match e with
  | Fetched json => if ps_cancelled s then s else mkPageState (Some json) (ps_loading s) (ps_error s) false
  | FetchFailed msg => if ps_cancelled s then s else mkPageState (ps_data s) (ps_loading s) (Some msg) false
  | Settled => if ps_cancelled s then s else mkPageState (ps_data s) false (ps_error s) false
  | Unmount => mkPageState (ps_data s) (ps_loading s) (ps_error s) true
  end.

(** ** Lemmas *)

Lemma chapter_matches_narrow (q1 q2 : string) (ch : IndexChapter) :
  js_includes q2 q1 = true -> chapter_matches q2 ch = true -> chapter_matches q1 ch = true.
Proof.
  intros H12. unfold chapter_matches. rewrite !orb_true_iff. intros [Ht|Hs]; [left; eauto using js_includes_trans|].
  right. destruct (ic_synopsis ch); [|done]. apply andb_true_iff in Hs as [Ht Hi].
  rewrite Ht. eauto using js_includes_trans.
Qed.

Lemma story_matches_narrow (q1 q2 : string) (sel : list string) (ch : gmap string (list IndexChapter))
    (story : IndexesStory) :
  js_includes q2 q1 = true -> story_matches q2 sel ch story = true -> story_matches q1 sel ch story = true.
Proof.
  intros H12. unfold story_matches.
  destruct (negb _ && negb _); [done|].
  destruct (js_truthy q1) eqn:T1; simpl; [|done].
  destruct (js_truthy q2) eqn:T2; simpl.
  - destruct (js_includes (js_lower (is_interview_title story)) q2) eqn:Ht.
    + intros _. by rewrite (js_includes_trans _ _ _ Ht H12).
    + intros He. destruct (js_includes (js_lower (is_interview_title story)) q1); [done|].
      apply existsb_exists in He as (c & Hc & Hm). apply existsb_exists. eauto using chapter_matches_narrow.
  - intros _. unfold js_truthy in T2. apply negb_false_iff, String.eqb_eq in T2. subst q2.
    apply js_includes_in_empty in H12. subst q1. done.
Qed.

Lemma recordings_fold (stories : list IndexesStory) (m : gmap string nat) (id : string) :
  default 0%nat (fold_left (fun m s => <[is_collection_id s := S (default 0%nat (m !! is_collection_id s))]> m)
                   stories m !! id) =
  (default 0%nat (m !! id) + length (List.filter (fun s => String.eqb (is_collection_id s) id) stories))%nat.
Proof.
  revert m. induction stories as [|s stories IH]; intros m; simpl; [lia|].
  rewrite IH. destruct (String.eqb_spec (is_collection_id s) id) as [<-|Hne]; simpl.
  - rewrite lookup_insert_eq. simpl. lia.
  - by rewrite lookup_insert_ne.
Qed.

(** ** Properties *)

(** Typing more narrows the list: when the new query (trimmed, lower
    case) contains the old one, every story the new query keeps was kept
    by the old one, in the same order. *)
Theorem filterStories_narrowing (stories : list IndexesStory) (q1 q2 : string) (sel : list string)
    (chaptersByStoryId : gmap string (list IndexChapter)) :
  js_includes (normalize_query q2) (normalize_query q1) = true ->
  sublist (filterStories stories q2 sel chaptersByStoryId) (filterStories stories q1 sel chaptersByStoryId).
Proof. intros H12. apply List_filter_sublist_mono. intros s. by apply story_matches_narrow. Qed.

(** [filterStories] keeps only stories of the selected collections, and
    with no collection selected and a blank query it keeps every story. *)
Theorem filterStories_selection (stories : list IndexesStory) (searchQuery : string) (sel : list string)
    (chaptersByStoryId : gmap string (list IndexChapter)) :
  Forall (fun s => sel = [] \/ In (is_collection_id s) sel) (filterStories stories searchQuery sel chaptersByStoryId) /\
  (sel = [] -> js_truthy (normalize_query searchQuery) = false ->
   filterStories stories searchQuery sel chaptersByStoryId = stories).
Proof.
  split.
  - apply Forall_forall. intros s Hs. apply list_elem_of_In, filter_In in Hs as [_ Hm].
    unfold story_matches in Hm. destruct sel as [|x sel]; [by left|right].
    destruct (existsb _ (x :: sel)) eqn:E; [|done].
    apply existsb_exists in E as (y & Hy & Hxy). apply String.eqb_eq in Hxy. by subst.
  - intros -> Hq. apply List_filter_all. intros s _. unfold story_matches. simpl. by rewrite Hq.
Qed.

(** The count the dropdown shows for a collection, [recordingsPerCollectionId[id] ?? 0],
    is the number of stories of that collection. *)
Theorem recordingsPerCollectionId_count (stories : list IndexesStory) (id : string) :
  default 0%nat (recordingsPerCollectionId stories !! id) =
  length (List.filter (fun s => String.eqb (is_collection_id s) id) stories).
Proof. unfold recordingsPerCollectionId. by rewrite recordings_fold, lookup_empty. Qed.

(** Toggling a collection flips its membership in the selection, keeps
    the other ids, and keeps the selection free of duplicates. *)
Theorem handleCollectionToggle_spec (id : string) (prev : list string) :
  NoDup prev ->
  NoDup (handleCollectionToggle id prev) /\
  (In id (handleCollectionToggle id prev) <-> ~ In id prev) /\
  (forall x, x <> id -> In x (handleCollectionToggle id prev) <-> In x prev).
Proof.
  intros Hnd. unfold handleCollectionToggle. destruct (existsb (String.eqb id) prev) eqn:E.
  - apply existsb_exists in E as (y & Hy & Hid). apply String.eqb_eq in Hid. subst y.
    split_and!.
    + apply NoDup_ListNoDup, List.NoDup_filter, NoDup_ListNoDup, Hnd.
    + rewrite filter_In, String.eqb_refl. simpl. split; [by intros [_ ?] | done].
    + intros x Hx. rewrite filter_In. apply String.eqb_neq in Hx. rewrite Hx. simpl. tauto.
  - assert (~ In id prev) as Hn.
    { intros Hin. assert (existsb (String.eqb id) prev = true) as E'; [|congruence].
      apply existsb_exists. exists id. by rewrite String.eqb_refl. }
    split_and!.
    + apply NoDup_app. split_and!; [done| |apply NoDup_singleton].
      intros x Hx ->%list_elem_of_singleton. by apply Hn, list_elem_of_In.
    + rewrite in_app_iff. simpl. tauto.
    + intros x Hx. rewrite in_app_iff. simpl. intuition congruence.
Qed.

(** Once the page is unmounted, no settling of the fetch changes the
    page state: the [cancelled] flag stops every late update. *)
Theorem page_cancelled_frozen (s : page_state) (events : list page_event) :
  ps_cancelled s = true ->
  let s' := fold_left (fun st e => page_step e st) events s in
  ps_data s' = ps_data s /\ ps_loading s' = ps_loading s /\ ps_error s' = ps_error s /\ ps_cancelled s' = true.
Proof.
  revert s. induction events as [|e events IH]; intros s Hc; simpl; [done|].
  destruct e; simpl; rewrite ?Hc; try (by apply IH).
  destruct (IH (mkPageState (ps_data s) (ps_loading s) (ps_error s) true) eq_refl) as (? & ? & ? & ?).
  simpl in *. split_and!; congruence.
Qed.

(** ** Witnesses *)

Lemma filterStories_narrowing_witness :
  sublist (filterStories [mkIndexesStory "u1" "Paris Stories" "gmu" "GMU" "" 0 false "" [] ""; mkIndexesStory "u2" "Rome" "gmu" "GMU" "" 0 false "" [] ""]
             " PARIS " [] ∅)
          (filterStories [mkIndexesStory "u1" "Paris Stories" "gmu" "GMU" "" 0 false "" [] ""; mkIndexesStory "u2" "Rome" "gmu" "GMU" "" 0 false "" [] ""]
             "par" [] ∅).
Proof. apply filterStories_narrowing. vm_compute. reflexivity. Defined.

Lemma handleCollectionToggle_spec_witness :
  NoDup (handleCollectionToggle "gmu" ["oral"; "gmu"]).
Proof. apply (proj1 (handleCollectionToggle_spec "gmu" ["oral"; "gmu"] ltac:(repeat constructor; set_solver))). Defined.

Lemma page_cancelled_frozen_witness :
  ps_data (fold_left (fun st e => page_step e st) [Fetched (mkIndexesApiResponse [] ∅); Settled]
             (page_step Unmount initial_page)) = None.
Proof.
  apply (proj1 (page_cancelled_frozen (page_step Unmount initial_page)
                  [Fetched (mkIndexesApiResponse [] ∅); Settled] eq_refl)).
Defined.
