(* ===== verification/Filters.v ===== *)
(** * Filters: Weaviate objects and the filter builders of [search.ts]

    The objects a query returns ([wobj]: uuid, properties, metadata), the
    fragment of the Weaviate filter language the code builds ([filter_value]:
    [containsAny], [equal], [notEqual] and the [And] operator) with its
    meaning on an object's properties ([eval_filter]), and the four places
    where [src/lib/weaviate/search.ts] builds a filter:
    [buildCombinedFilters] (lines 58-81), the story scope of the
    [...ForStoryId] searches (lines 419-426), the cross-collection entity
    filter (lines 639-652) and the recording-count filter (lines 690-698). *)

From S2P Require Import Prelude.

Local Open Scope Q_scope.
Local Set Warnings "-register-all".

(** The two collections of the schema ([SchemaTypes]). *)
Inductive schema := Chunks | Testimonies.

(** The properties the code reads.  A property that is absent, or not of
    the type the code tests for, is [None] (or [[]] for an array). *)
Record props := mkProps {
  theirstory_id : option string;
  start_time : option Q;
  end_time : option Q;
  ner_labels : list string;
  ner_text : list string;
  collection_id : option string;
  collection_name : option string;
  collection_description : option string;
  interview_title : option string;
  transcription : option string
}.

(** Query metadata, and the fields [hybridSearch] adds to it. *)
Record meta := mkMeta {
  m_score : option Q;
  m_certainty : option Q;
  m_distance : option Q;
  m_id : option string;
  m_bm25_score : option Q;
  m_vector_score : option Q
}.

Definition no_meta : meta := mkMeta None None None None None None.

(** A returned object; [alt_id] is the [(obj as any).id] the code falls back on. *)
Record wobj := mkObj {
  uuid : option string;
  alt_id : option string;
  properties : props;
  metadata : meta
}.

(** Property names used in filters. *)
Inductive prop_name := P_ner_labels | P_ner_text | P_collection_id | P_theirstory_id.

Definition option_list {A} (o : option A) : list A :=
  match o with Some x => [x] | None => [] end.

(** The values a property holds: an array property its elements, a scalar
    property its value if present. *)
Definition prop_values (p : prop_name) (o : props) : list string :=
  match p with
  | P_ner_labels => ner_labels o
  | P_ner_text => ner_text o
  | P_collection_id => option_list (collection_id o)
  | P_theirstory_id => option_list (theirstory_id o)
  end.

Inductive filter_value :=
| ContainsAny (p : prop_name) (vs : list string)
| Equal (p : prop_name) (v : string)
| NotEqual (p : prop_name) (v : string)
| And (fs : list filter_value).

Fixpoint eval_filter (f : filter_value) (o : props) : bool :=
  match f with
  | ContainsAny p vs => existsb (fun x => bool_decide (x ∈ vs)) (prop_values p o)
  | Equal p v => bool_decide (prop_values p o = [v])
  | NotEqual p v => negb (bool_decide (prop_values p o = [v]))
  | And fs => forallb (fun g => eval_filter g o) fs
  end.

(** A query without a filter matches every object. *)
Definition match_filter (f : option filter_value) (o : props) : bool :=
  match f with Some g => eval_filter g o | None => true end.

(** [nerFilters?.length ? [filter] : []] *)
Definition when_nonempty (vs : list string) (f : filter_value) : list filter_value :=
  match vs with [] => [] | _ => [f] end.

(** search.ts, [buildCombinedFilters]. *)
Definition buildCombinedFilters (nerFilters collectionFilters : list string) : option filter_value :=
  let filtersArray :=
    when_nonempty nerFilters (ContainsAny P_ner_labels nerFilters) ++
    when_nonempty collectionFilters (ContainsAny P_collection_id collectionFilters) in
  match filtersArray with
  | [] => None
  | [f] => Some f
  | fs => Some (And fs)
  end.

(** search.ts, the [combinedFilter] of [hybridSearchForStoryId],
    [vectorSearchForStoryId] and [bm25SearchForStoryId]. *)
Definition storyFilter (theirStoryId : string) (nerFilters : list string) : filter_value :=
  let filtersArray :=
    Equal P_theirstory_id theirStoryId :: when_nonempty nerFilters (ContainsAny P_ner_labels nerFilters) in
  match filtersArray with
  | [f] => f
  | fs => And fs
  end.

(** search.ts, the filter of [searchNerEntitiesAcrossCollection]. *)
Definition nerEntityFilter (entityText entityLabel : string) (excludeStoryUuid : option string) : filter_value :=
  And ([ContainsAny P_ner_text [js_lower entityText]; ContainsAny P_ner_labels [entityLabel]] ++
       match excludeStoryUuid with
       | Some ex => if js_truthy ex then [NotEqual P_theirstory_id ex] else []
       | None => []
       end).

(** search.ts, the per-entity filter of [getNerEntityRecordingCounts]. *)
Definition recordingCountFilter (text label : string) : filter_value :=
  And [ContainsAny P_ner_text [js_lower text]; ContainsAny P_ner_labels [label]].

(** ** Meaning of the built filters *)

Lemma eval_contains_any (p : prop_name) (vs : list string) (o : props) :
  eval_filter (ContainsAny p vs) o = true <-> exists x, x ∈ prop_values p o /\ x ∈ vs.
Proof.
  simpl. rewrite existsb_exists.
  setoid_rewrite bool_decide_eq_true. setoid_rewrite list_elem_of_In. reflexivity.
Qed.

Lemma forallb_when_nonempty (vs : list string) (f : filter_value) (o : props) :
  forallb (fun g => eval_filter g o) (when_nonempty vs f) = true <->
  vs = [] \/ eval_filter f o = true.
Proof. destruct vs; simpl; rewrite ?andb_true_r; intuition congruence. Qed.

(** The [[] / [f] / And fs] pattern the code uses to combine a filter array. *)
Lemma match_filter_combine (fs : list filter_value) (o : props) :
  match_filter (match fs with [] => None | [f] => Some f | fs => Some (And fs) end) o =
  forallb (fun g => eval_filter g o) fs.
Proof. destruct fs as [|f [|g r]]; simpl; rewrite ?andb_true_r; reflexivity. Qed.

Lemma eval_story_filter (theirStoryId : string) (nerFilters : list string) (o : props) :
  eval_filter (storyFilter theirStoryId nerFilters) o =
  forallb (fun g => eval_filter g o)
    (Equal P_theirstory_id theirStoryId :: when_nonempty nerFilters (ContainsAny P_ner_labels nerFilters)).
Proof. destruct nerFilters; simpl; rewrite ?andb_true_r; reflexivity. Qed.

Lemma eval_equal_id (v : string) (o : props) :
  eval_filter (Equal P_theirstory_id v) o = true <-> theirstory_id o = Some v.
Proof.
  simpl. rewrite bool_decide_eq_true.
  destruct (theirstory_id o); simpl; split; congruence.
Qed.

#[export] Hint Rewrite eval_story_filter match_filter_combine : portal_rw.

Lemma nerEntityFilter_excludes (entityText entityLabel ex : string) (o : props) :
  js_truthy ex = true ->
  eval_filter (nerEntityFilter entityText entityLabel (Some ex)) o = true ->
  theirstory_id o <> Some ex.
Proof.
  intros Hex. unfold nerEntityFilter. rewrite Hex. simpl. rewrite !andb_true_iff.
  intros (_ & _ & Hne & _) Hid. rewrite Hid in Hne. simpl in Hne.
  by rewrite bool_decide_eq_true_2 in Hne.
Qed.
