(* ===== verification/Backend.v ===== *)
(** * Backend: the external collaborators of [search.ts] as an interface

    The Weaviate client ([initWeaviateClient], [collections.get(..).query])
    and the embedding endpoint are not part of the repository.  They are the
    class [Datastore]; what the code relies on them to do is the class
    [DatastoreLaws].  Every call the code makes is recorded in the trace of
    the [TM] monad as a [call].  [getLocalEmbedding] (search.ts 83-100) is
    modelled from its source; [memstore] is an in-memory datastore over a
    list of objects that satisfies the laws, used to run the components on
    concrete data and to state completeness results.  A datastore is a
    function of the query: it answers the same query the same way in every
    interleaving of the store's requests.  [initWeaviateClient] is taken to
    succeed; its rejection is not modelled apart from the rejected queries
    the class already has. *)

From S2P Require Import Prelude Filters.


(** [{ limit, offset, filters }] of a query. *)
Record query := mkQuery {
  q_collection : schema;
  q_limit : nat;
  q_offset : nat;
  q_filter : option filter_value
}.

(** Thrown errors. *)
Inductive error :=
| EmbeddingFailed (status : Z)   (** [Embedding service failed: status] *)
| FetchRejected                  (** a rejected [fetch] (endpoint unreachable) *)
| BackendUnavailable             (** a rejected datastore query *)
| NerSearchFailed                (** rethrown by [searchNerEntitiesAcrossCollection] *)
| FileWriteFailed                (** a rejected [writeFile] *)
| JsonParseFailed.               (** [JSON.parse] threw *)

Definition vector := list Q.

(** What the embedding endpoint answers to [POST /embed]. *)
Inductive embed_response :=
| EmbedOk (v : vector)
| EmbedHttpError (status : Z)
| EmbedUnreachable.

Inductive call :=
| CallEmbed (text : string)
| CallBm25 (term : string) (q : query)
| CallNearVector (v : vector) (q : query)
| CallFetch (q : query)
| CallFetchById (c : schema) (id : string).

Class Datastore := {
  ds_embed : string -> embed_response;
  ds_bm25 : string -> query -> res error (list wobj);
  ds_nearVector : vector -> query -> res error (list wobj);
  ds_fetchObjects : query -> res error (list wobj);
  ds_fetchById : schema -> string -> res error (option wobj)
}.

Abbreviation DS := (TM call error).

Section Calls.
Context `{Datastore}.

(** search.ts [getLocalEmbedding]: [fetch], then throw unless [res.ok]. *)
Definition getLocalEmbedding (text : string) : DS vector :=
  r ← tm_call (CallEmbed text) (Ok (ds_embed text));
  match r with
  | EmbedOk v => mret v
  | EmbedHttpError status => tm_throw (EmbeddingFailed status)
  | EmbedUnreachable => tm_throw FetchRejected
  end.

Definition bm25 (term : string) (q : query) : DS (list wobj) :=
  tm_call (CallBm25 term q) (ds_bm25 term q).

Definition nearVector (v : vector) (q : query) : DS (list wobj) :=
  tm_call (CallNearVector v q) (ds_nearVector v q).

Definition fetchObjects (q : query) : DS (list wobj) :=
  tm_call (CallFetch q) (ds_fetchObjects q).

Definition fetchObjectById (c : schema) (id : string) : DS (option wobj) :=
  tm_call (CallFetchById c id) (ds_fetchById c id).
End Calls.

(** A page answers its query: at most [limit] objects, each matching the filter. *)
Definition page_ok (q : query) (objs : list wobj) : Prop :=
  (length objs <= q_limit q)%nat /\
  Forall (fun o => match_filter (q_filter q) (properties o) = true) objs.

Class DatastoreLaws `{Datastore} := {
  bm25_page : forall t q objs, ds_bm25 t q = Ok objs -> page_ok q objs;
  nearVector_page : forall v q objs, ds_nearVector v q = Ok objs -> page_ok q objs;
  fetch_page : forall q objs, ds_fetchObjects q = Ok objs -> page_ok q objs
}.

(** ** An in-memory datastore *)

(** [offset], [limit] and the filter applied to a ranked list. *)
Definition page (q : query) (l : list wobj) : list wobj :=
  take (q_limit q) (drop (q_offset q)
    (filter (fun o => match_filter (q_filter q) (properties o) = true) l)).

(** The objects of each collection, an embedding function and two rankers
    (BM25 and vector) that order and score the objects for a query. *)
Definition memstore (objects : schema -> list wobj) (embed : string -> embed_response)
    (rank_bm25 : string -> list wobj -> list wobj) (rank_vec : vector -> list wobj -> list wobj)
    : Datastore := {|
  ds_embed := embed;
  ds_bm25 t q := Ok (page q (rank_bm25 t (objects (q_collection q))));
  ds_nearVector v q := Ok (page q (rank_vec v (objects (q_collection q))));
  ds_fetchObjects q := Ok (page q (objects (q_collection q)));
  ds_fetchById c id := Ok (head (filter (fun o => uuid o = Some id) (objects c)))
|}.

Lemma page_page_ok (q : query) (l : list wobj) : page_ok q (page q l).
Proof.
  unfold page, page_ok. split; [auto with portal|].
  apply Forall_take, Forall_drop. auto with portal.
Qed.

#[export] Instance memstore_laws objects embed rank_bm25 rank_vec :
  @DatastoreLaws (memstore objects embed rank_bm25 rank_vec).
Proof. split; intros; simpl in *; simplify_eq; apply page_page_ok. Qed.

(** A query without filter pages the list itself. *)
Lemma page_unfiltered (q : query) (l : list wobj) :
  q_filter q = None -> page q l = take (q_limit q) (drop (q_offset q) l).
Proof.
  intros Hf. unfold page. rewrite Hf. f_equal. f_equal.
  induction l as [|o l IH]; [done|]. rewrite filter_cons_True; [by f_equal|done].
Qed.
