(* ===== verification/Samples.v ===== *)
(** * Samples: concrete chunks, recordings and datastores

    The concrete inputs the witnesses of the other files evaluate on: three
    chunks of two recordings of the collection [gmu] (with start times,
    entities and search scores), three recordings, two in-memory datastores
    over them ([sample_ds], whose embedding service answers, and [down_ds],
    whose embedding service answers HTTP 503) and [fail_ds], which rejects
    every query. *)

From S2P Require Import Prelude Filters Backend.

Local Open Scope Q_scope.

Definition sample_chunk (id story : string) (start score certainty : Q) (texts labels : list string) : wobj :=
  mkObj (Some id) None
    (mkProps (Some story) (Some start) (Some (start + 10)) labels texts
       (Some "gmu") (Some "GMU") None (Some "Interview") None)
    (mkMeta (Some score) (Some certainty) None None None None).

Definition chunk_a : wobj := sample_chunk "a" "rec1" 0 (2 # 10) (6 # 10) ["paris"] ["LOC"].
Definition chunk_b : wobj := sample_chunk "b" "rec1" 30 (8 # 10) (9 # 10) ["george mason"] ["PERSON"].
Definition chunk_c : wobj := sample_chunk "c" "rec2" 0 (5 # 10) (7 # 10) ["paris"] ["LOC"].

Definition sample_chunks : list wobj := [chunk_a; chunk_b; chunk_c].

Definition sample_recording (story coll : string) : wobj :=
  mkObj (Some story) None
    (mkProps (Some story) None None [] [] (Some coll) (Some coll) None (Some "Interview") None)
    no_meta.

Definition sample_recordings : list wobj :=
  [sample_recording "rec1" "gmu"; sample_recording "rec2" " gmu "; sample_recording "rec3" "oral"].

Definition sample_objects (c : schema) : list wobj :=
  match c with Chunks => sample_chunks | Testimonies => sample_recordings end.

(** Both rankers keep the stored order and scores. *)
Definition sample_rank {T} (_ : T) (l : list wobj) : list wobj := l.

Definition sample_ds : Datastore :=
  memstore sample_objects (fun _ => EmbedOk [1; 0]) sample_rank sample_rank.

Definition down_ds : Datastore :=
  memstore sample_objects (fun _ => EmbedHttpError 503) sample_rank sample_rank.

(** A datastore that is down: every query is rejected. *)
Definition fail_ds : Datastore := {|
  ds_embed _ := EmbedUnreachable;
  ds_bm25 _ _ := Err BackendUnavailable;
  ds_nearVector _ _ := Err BackendUnavailable;
  ds_fetchObjects _ := Err BackendUnavailable;
  ds_fetchById _ _ := Err BackendUnavailable
|}.
