(* ===== verification/Scores.v ===== *)
(** * Scores: BM25 normalisation and the score range tests

    [search.ts] normalises BM25 scores in two different ways:
    - [bm25Search] (lines 369-385) and [bm25SearchForStoryId] (599-615)
      take [Math.max(...scores)] and [Math.min(...scores)]: [bm25_normalize];
    - [hybridSearch] (252-262) and [hybridSearchForStoryId] (436-446) take
      [Math.max(...bmScores, 0)] and [Math.min(...bmScores, 0)]:
      [hybrid_norm].
    Both return 1 when the maximum equals the minimum.  The range tests on
    the final score differ as well: [bm25_in_range] defaults the bounds to
    [0,1], the vector and hybrid searches ignore an absent bound
    ([in_range] of the prelude). *)

From S2P Require Import Prelude Filters Samples.

Local Open Scope Q_scope.
Local Open Scope portal_scope.

(** [obj.metadata?.score ?? 0] *)
Definition raw_score (o : wobj) : Q := m_score (metadata o) ?? 0.

(** [max === min ? 1 : (raw - min) / (max - min)] *)
Definition minmax_norm (mx mn raw : Q) : Q :=
  if Qeq_bool mx mn then 1 else (raw - mn) / (mx - mn).

(** [{ ...obj, metadata: { ...obj.metadata, score } }] *)
Definition with_score (s : Q) (o : wobj) : wobj :=
  let m := metadata o in
  mkObj (uuid o) (alt_id o) (properties o)
    (mkMeta (Some s) (m_certainty m) (m_distance m) (m_id m) (m_bm25_score m) (m_vector_score m)).

(** search.ts 369-385: [scores], [maxScore], [minScore], [normalizedObjects]. *)
Definition bm25_normalize (objs : list wobj) : list wobj :=
  match map raw_score objs with
  | [] => []
  | s :: ss =>
      let maxScore := fold_max s ss in
      let minScore := fold_min s ss in
      map (fun o => with_score (minmax_norm maxScore minScore (raw_score o)) o) objs
  end.

(** search.ts 387-390: [score >= (minValue ?? 0) && score <= (maxValue ?? 1)]. *)
Definition bm25_in_range (minValue maxValue : option Q) (o : wobj) : bool :=
  let score := raw_score o in
  Qle_bool (minValue ?? 0) score && Qle_bool score (maxValue ?? 1).

(** search.ts 252-260: the normalised BM25 score of [hybridSearch]. *)
Definition hybrid_norm (bmScores : list Q) (raw : Q) : Q :=
  let bmMax := fold_max 0 bmScores in
  let bmMin := fold_min 0 bmScores in
  minmax_norm bmMax bmMin raw.

(** ** Lemmas *)

Lemma raw_score_with_score (s : Q) (o : wobj) : raw_score (with_score s o) = s.
Proof. reflexivity. Qed.

Lemma properties_with_score (s : Q) (o : wobj) : properties (with_score s o) = properties o.
Proof. reflexivity. Qed.

#[export] Hint Rewrite raw_score_with_score properties_with_score : portal_rw.

Lemma minmax_norm_bounds (mx mn raw : Q) :
  mn <= raw -> raw <= mx -> 0 <= minmax_norm mx mn raw <= 1.
Proof.
  intros Hl Hh. unfold minmax_norm. destruct (Qeq_bool mx mn) eqn:E; [split; discriminate|].
  assert (~ mx == mn) as Hne by (rewrite <- Qeq_bool_iff; congruence).
  assert (0 < mx - mn) as Hpos by (apply Qnot_eq_sym in Hne; lra).
  split.
  - apply Qle_shift_div_l; [exact Hpos|]. lra.
  - apply Qle_shift_div_r; [exact Hpos|]. lra.
Qed.

Lemma minmax_norm_max (mx mn : Q) : minmax_norm mx mn mx == 1.
Proof.
  unfold minmax_norm. destruct (Qeq_bool mx mn) eqn:E; [reflexivity|].
  assert (~ mx - mn == 0) as Hne.
  { intros H. assert (mx == mn) as Heq by lra. apply Qeq_bool_iff in Heq. congruence. }
  unfold Qdiv. apply Qmult_inv_r. exact Hne.
Qed.

Lemma minmax_norm_min (mx mn : Q) : ~ mx == mn -> minmax_norm mx mn mn == 0.
Proof.
  intros Hne. unfold minmax_norm.
  destruct (Qeq_bool mx mn) eqn:E; [apply Qeq_bool_iff in E; contradiction|].
  unfold Qminus. rewrite Qplus_opp_r. unfold Qdiv. apply Qmult_0_l.
Qed.

Lemma minmax_norm_equal (mx mn raw : Q) : mx == mn -> minmax_norm mx mn raw = 1.
Proof. intros H. unfold minmax_norm. apply Qeq_bool_iff in H. by rewrite H. Qed.

Lemma minmax_norm_proper (mx mn raw raw' : Q) :
  raw == raw' -> minmax_norm mx mn raw == minmax_norm mx mn raw'.
Proof. intros H. unfold minmax_norm. destruct (Qeq_bool mx mn); [reflexivity|]. by rewrite H. Qed.

(** The normalised scores are the raw scores rescaled by the maximum and
    minimum of the list. *)
Lemma bm25_normalize_scores (objs : list wobj) :
  map raw_score (bm25_normalize objs) =
  match map raw_score objs with
  | [] => []
  | s :: ss => map (minmax_norm (fold_max s ss) (fold_min s ss)) (s :: ss)
  end.
Proof.
  unfold bm25_normalize. destruct (map raw_score objs) as [|s ss] eqn:E; [done|].
  rewrite <- E, !map_map. apply map_ext. intros o. by autorewrite with portal_rw.
Qed.

(** The spread maximum (minimum) equals any element that bounds the list. *)
Lemma fold_max_eq (x0 m : Q) (xs : list Q) :
  In m (x0 :: xs) -> (forall y, In y (x0 :: xs) -> y <= m) -> fold_max x0 xs == m.
Proof.
  intros Hin Hall. apply Qle_antisym; [apply Hall, fold_max_in|].
  pose proof (fold_max_ge x0 xs) as H. rewrite Forall_forall in H.
  apply H, list_elem_of_In, Hin.
Qed.

Lemma fold_min_eq (x0 m : Q) (xs : list Q) :
  In m (x0 :: xs) -> (forall y, In y (x0 :: xs) -> m <= y) -> fold_min x0 xs == m.
Proof.
  intros Hin Hall. apply Qle_antisym; [|apply Hall, fold_min_in].
  pose proof (fold_min_le x0 xs) as H. rewrite Forall_forall in H.
  apply H, list_elem_of_In, Hin.
Qed.

Lemma in_spread_bounds (x0 x : Q) (xs : list Q) :
  In x (x0 :: xs) -> fold_min x0 xs <= x /\ x <= fold_max x0 xs.
Proof.
  intros Hin. pose proof (fold_max_ge x0 xs) as H1. pose proof (fold_min_le x0 xs) as H2.
  rewrite Forall_forall in H1, H2. apply list_elem_of_In in Hin. split; auto.
Qed.

(** The normalised score of the [i]-th object. *)
Lemma bm25_normalize_lookup (objs : list wobj) (i : nat) (o : wobj) :
  objs !! i = Some o ->
  exists s ss, map raw_score objs = s :: ss /\
    map raw_score (bm25_normalize objs) !! i =
      Some (minmax_norm (fold_max s ss) (fold_min s ss) (raw_score o)).
Proof.
  intros Hi. rewrite bm25_normalize_scores.
  destruct (map raw_score objs) as [|s ss] eqn:E.
  { apply map_eq_nil in E. subst. done. }
  exists s, ss. split; [done|]. rewrite <- E, !list_lookup_fmap, Hi. reflexivity.
Qed.

(** C4. BM25 scores of [bm25Search] are normalised into [0,1]. *)
Theorem bm25_normalize_range (objs : list wobj) :
  Forall (fun x => 0 <= x <= 1) (map raw_score (bm25_normalize objs)).
Proof.
  rewrite bm25_normalize_scores. destruct (map raw_score objs) as [|s ss]; [constructor|].
  apply Forall_map, Forall_forall. intros x Hx. apply list_elem_of_In in Hx.
  destruct (in_spread_bounds s x ss Hx). by apply minmax_norm_bounds.
Qed.

(** C5. In the normalisation of [bm25Search] an object with the highest raw
    score gets 1; an object with the lowest raw score gets 0 unless all raw
    scores are equal, and when all raw scores are equal every object gets 1. *)
Theorem bm25_normalize_extremes (objs : list wobj) (i : nat) (o : wobj) :
  objs !! i = Some o ->
  ((forall o', o' ∈ objs -> raw_score o' <= raw_score o) ->
     exists x, map raw_score (bm25_normalize objs) !! i = Some x /\ x == 1) /\
  ((forall o', o' ∈ objs -> raw_score o <= raw_score o') ->
   (exists o', o' ∈ objs /\ ~ raw_score o' == raw_score o) ->
     exists x, map raw_score (bm25_normalize objs) !! i = Some x /\ x == 0) /\
  ((forall o1 o2, o1 ∈ objs -> o2 ∈ objs -> raw_score o1 == raw_score o2) ->
     Forall (fun x => x = 1) (map raw_score (bm25_normalize objs))).
Proof.
  intros Hi. destruct (bm25_normalize_lookup objs i o Hi) as (s & ss & Hs & Hl).
  assert (Hin : forall y, In y (s :: ss) <-> exists o', o' ∈ objs /\ y = raw_score o').
  { intros y. rewrite <- Hs, in_map_iff. setoid_rewrite list_elem_of_In. firstorder. }
  assert (Ho : In (raw_score o) (s :: ss)) by (apply Hin; eauto using list_elem_of_lookup_2).
  split; [|split].
  - intros Hmax. eexists; split; [exact Hl|].
    assert (fold_max s ss == raw_score o) as Hm.
    { apply fold_max_eq; [exact Ho|]. intros y [o' [Ho' ->]]%Hin. auto. }
    rewrite (minmax_norm_proper _ _ _ _ (Qeq_sym _ _ Hm)). apply minmax_norm_max.
  - intros Hmin [o' [Ho' Hne]]. eexists; split; [exact Hl|].
    assert (fold_min s ss == raw_score o) as Hm.
    { apply fold_min_eq; [exact Ho|]. intros y [o'' [Ho'' ->]]%Hin. auto. }
    assert (raw_score o' <= fold_max s ss).
    { apply (in_spread_bounds s). apply Hin. eauto. }
    assert (raw_score o <= raw_score o') by auto.
    rewrite (minmax_norm_proper _ _ _ _ (Qeq_sym _ _ Hm)). apply minmax_norm_min.
    intros Heq. apply Hne. lra.
  - intros Hall. rewrite bm25_normalize_scores, Hs. apply Forall_map, Forall_forall.
    intros x _. apply minmax_norm_equal.
    destruct (Hin (fold_max s ss)) as [[o1 [Ho1 E1]] _]; [apply fold_max_in|].
    destruct (Hin (fold_min s ss)) as [[o2 [Ho2 E2]] _]; [apply fold_min_in|].
    rewrite E1, E2. auto.
Qed.

(** C3. The hybrid search does not min-max normalise the BM25 scores: with
    non-negative scores, not all zero, the minimum used is 0 and each score
    is divided by the maximum, so the lowest BM25 hit is not mapped to 0. *)
Theorem hybrid_norm_divides_by_max (bmScores : list Q) (raw : Q) :
  Forall (fun s => 0 <= s) bmScores -> ~ fold_max 0 bmScores == 0 ->
  hybrid_norm bmScores raw == raw / fold_max 0 bmScores.
Proof.
  intros Hpos Hmx. unfold hybrid_norm, minmax_norm.
  assert (fold_min 0 bmScores == 0) as Hmn.
  { apply fold_min_eq; [left; reflexivity|]. intros y [<-|Hy]; [apply Qle_refl|].
    rewrite Forall_forall in Hpos. apply Hpos, list_elem_of_In, Hy. }
  destruct (Qeq_bool (fold_max 0 bmScores) (fold_min 0 bmScores)) eqn:E.
  { apply Qeq_bool_iff in E. rewrite Hmn in E. contradiction. }
  rewrite Hmn. field. exact Hmx.
Qed.


(** ** Witnesses *)

Lemma bm25_normalize_extremes_witness :
  exists x, map raw_score (bm25_normalize sample_chunks) !! 1%nat = Some x /\ x == 1.
Proof.
  apply (proj1 (bm25_normalize_extremes sample_chunks 1 chunk_b eq_refl)).
  intros o' Ho'. unfold sample_chunks in Ho'. elem_of_list_cases Ho'; qcompute.
Defined.

Lemma hybrid_norm_divides_by_max_witness :
  hybrid_norm [2 # 10; 8 # 10] (2 # 10) == (2 # 10) / fold_max 0 [2 # 10; 8 # 10].
Proof.
  apply hybrid_norm_divides_by_max; [repeat constructor; qcompute | qcompute].
Defined.
