(* ===== verification/Dedup.v ===== *)
(** * Dedup: deduplication of ranked results by [start_time]

    Two routines of the repository drop results that share a start time:
    - [search.ts] (lines 211-219, and identically 331-338, 392-399,
      505-512) filters with a mutable [Set<number>]: an item whose
      [start_time] is not a number is dropped, an item whose start time is
      already in the set is dropped, otherwise its start time is added:
      [dedup_seen], [uniqueByStartTime];
    - the store ([useSemanticSearchStore.ts] 393-396, 444-447, 494-497)
      keeps the item at [index] iff [index === self.findIndex(t =>
      t.properties.start_time === obj.properties.start_time)]:
      [uniqueMatches].
    Both are proved equal to the reference [first_by_key] (keep the first
    item of each start time) on lists whose start times are numbers, hence
    equal to each other.  Generic in the item type and its key. *)

From S2P Require Import Prelude Filters.

Local Open Scope Q_scope.

Section Dedup.
Context {A : Type} (key : A -> option Q).

(** [filter] with [seen.has(start)] / [seen.add(start)]. *)
Fixpoint dedup_seen (seen : list Q) (l : list A) : list A :=
  match l with
  | [] => []
  | x :: r =>
      match key x with
      | None => dedup_seen seen r
      | Some s =>
          if existsb (Qeq_bool s) seen then dedup_seen seen r
          else x :: dedup_seen (s :: seen) r
      end
  end.

Definition uniqueByStartTime (l : list A) : list A := dedup_seen [] l.

(** [===] on [number | undefined]. *)
Definition key_eqb (a b : option Q) : bool :=
  match a, b with
  | Some x, Some y => Qeq_bool x y
  | None, None => true
  | _, _ => false
  end.

(** [Array.prototype.findIndex], [None] for [-1]. *)
Fixpoint find_index (p : A -> bool) (l : list A) : option nat :=
  match l with
  | [] => None
  | x :: r => if p x then Some 0%nat else S <$> find_index p r
  end.

(** [Array.prototype.filter] with the index argument, from index [i]. *)
Fixpoint filteri_from (i : nat) (f : nat -> A -> bool) (l : list A) : list A :=
  match l with
  | [] => []
  | x :: r => if f i x then x :: filteri_from (S i) f r else filteri_from (S i) f r
  end.

Definition uniqueMatches (l : list A) : list A :=
  filteri_from 0
    (fun i x => bool_decide (find_index (fun t => key_eqb (key t) (key x)) l = Some i)) l.

(** Reference: keep an item iff no earlier item has an equal key. *)
Fixpoint first_by_key (prev : list (option Q)) (l : list A) : list A :=
  match l with
  | [] => []
  | x :: r =>
      if existsb (key_eqb (key x)) prev then first_by_key (key x :: prev) r
      else x :: first_by_key (key x :: prev) r
  end.
End Dedup.

Section DedupLemmas.
Context {A : Type} (key : A -> option Q).

Lemma key_eqb_refl (k : option Q) : key_eqb k k = true.
Proof. destruct k; simpl; [apply Qeq_bool_refl | done]. Qed.

Lemma key_eqb_sym (a b : option Q) : key_eqb a b = key_eqb b a.
Proof. destruct a, b; simpl; auto using Qeq_bool_comm. Qed.

Lemma find_index_app_at (f : A -> bool) (p r : list A) (x : A) :
  find_index f (p ++ x :: r) = Some (length p) <-> existsb f p = false /\ f x = true.
Proof using Type.
  induction p as [|y p IH]; simpl.
  - destruct (f x); [split; [done|by intros []]|].
    destruct (find_index f r); simpl; split; [done|by intros []|done|by intros []].
  - destruct (f y); simpl; [split; [done|by intros []]|].
    rewrite <- IH. destruct (find_index f (p ++ x :: r)); simpl; split; congruence.
Qed.

Lemma filteri_from_first (p s : list A) :
  filteri_from (length p)
    (fun i x => bool_decide (find_index (fun t => key_eqb (key t) (key x)) (p ++ s) = Some i)) s =
  first_by_key key (rev (map key p)) s.
Proof.
  revert p. induction s as [|x r IH]; intros p; simpl; [done|].
  assert (Hnext : first_by_key key (key x :: rev (map key p)) r =
                  first_by_key key (rev (map key (p ++ [x]))) r)
    by (by rewrite map_app, rev_app_distr).
  rewrite Hnext, <- (IH (p ++ [x])), length_app, Nat.add_comm, <- app_assoc. simpl.
  rewrite existsb_rev, existsb_fmap.
  destruct (bool_decide _) eqn:E.
  - apply bool_decide_eq_true, find_index_app_at in E as [E _].
    replace (existsb _ p) with false; [done|]. rewrite <- E.
    apply existsb_ext. intros t. apply key_eqb_sym.
  - apply bool_decide_eq_false in E.
    replace (existsb _ p) with true; [done|].
    destruct (existsb (fun t => key_eqb (key t) (key x)) p) eqn:E'.
    + rewrite <- E'. apply existsb_ext. intros t. apply key_eqb_sym.
    + exfalso. apply E, find_index_app_at. split; [done | apply key_eqb_refl].
Qed.

(** The [findIndex] filter keeps the first item of each key. *)
Lemma uniqueMatches_first (l : list A) : uniqueMatches key l = first_by_key key [] l.
Proof. apply (filteri_from_first [] l). Qed.

Lemma dedup_seen_first (seen : list Q) (prev : list (option Q)) (l : list A) :
  Forall (fun x => is_Some (key x)) l ->
  (forall q, existsb (Qeq_bool q) seen = existsb (key_eqb (Some q)) prev) ->
  dedup_seen key seen l = first_by_key key prev l.
Proof.
  intros Hl. revert seen prev. induction Hl as [|x r [s Hs] Hr IH]; intros seen prev Hsp; simpl; [done|].
  rewrite Hs, Hsp. destruct (existsb (key_eqb (Some s)) prev) eqn:E; [|f_equal]; apply IH; intros q; simpl.
  - rewrite Hsp. destruct (Qeq_bool q s) eqn:Eq; simpl; [|done].
    apply existsb_exists in E as [k [Hk Hsk]]. apply existsb_exists. exists k. split; [done|].
    destruct k as [k|]; [|done]. simpl in *. apply Qeq_bool_iff in Eq, Hsk. apply Qeq_bool_iff.
    by rewrite Eq.
  - by rewrite Hsp.
Qed.

Lemma omap_cons (x : A) (r : list A) :
  omap key (x :: r) = match key x with Some y => y :: omap key r | None => omap key r end.
Proof. reflexivity. Qed.

Lemma dedup_seen_ext (s1 s2 : list Q) (l : list A) :
  (forall q, existsb (Qeq_bool q) s1 = existsb (Qeq_bool q) s2) ->
  dedup_seen key s1 l = dedup_seen key s2 l.
Proof.
  revert s1 s2. induction l as [|x r IH]; intros s1 s2 H; simpl; [done|].
  destruct (key x) as [s|]; [|auto]. rewrite H.
  destruct (existsb (Qeq_bool s) s2); [auto|]. f_equal. apply IH. intros q. simpl. by rewrite H.
Qed.

(** The seen set after a prefix holds the numeric keys of the prefix. *)
Lemma dedup_seen_app (seen : list Q) (l k : list A) :
  dedup_seen key seen (l ++ k) =
  dedup_seen key seen l ++ dedup_seen key (rev (omap key l) ++ seen) k.
Proof.
  revert seen. induction l as [|x r IH]; intros seen; [done|].
  rewrite omap_cons. cbn [app dedup_seen].
  destruct (key x) as [s|] eqn:Hs; [|apply IH]. cbn [rev].
  rewrite <- app_assoc. cbn [app].
  destruct (existsb (Qeq_bool s) seen) eqn:E; [|by rewrite IH].
  rewrite IH. f_equal. apply dedup_seen_ext. intros q. rewrite !existsb_app. simpl.
  destruct (Qeq_bool q s) eqn:Eq; simpl; [|done].
  replace (existsb (Qeq_bool q) seen) with true; [by rewrite !orb_true_r|].
  symmetry. apply existsb_exists in E as [y [Hy Hsy]]. apply existsb_exists.
  exists y. split; [done|]. apply Qeq_bool_iff in Eq, Hsy. apply Qeq_bool_iff. by rewrite Eq.
Qed.

Lemma existsb_omap_key (s : Q) (l : list A) :
  existsb (Qeq_bool s) (omap key l) = existsb (fun y => key_eqb (key y) (Some s)) l.
Proof.
  induction l as [|x r IH]; [done|]. rewrite omap_cons.
  cbn [existsb]. destruct (key x); cbn [existsb key_eqb]; rewrite IH; [by rewrite Qeq_bool_comm | done].
Qed.

Lemma dedup_seen_sublist (seen : list Q) (l : list A) : sublist (dedup_seen key seen l) l.
Proof.
  revert seen. induction l as [|x r IH]; intros seen; simpl; [constructor|].
  destruct (key x); [destruct (existsb _ _)|]; constructor; auto.
Qed.

Lemma dedup_seen_numeric (seen : list Q) (l : list A) :
  Forall (fun x => is_Some (key x)) (dedup_seen key seen l).
Proof.
  revert seen. induction l as [|x r IH]; intros seen; simpl; [constructor|].
  destruct (key x) eqn:E; [destruct (existsb _ _)|]; [auto|constructor; [by rewrite E|auto]|auto].
Qed.

Lemma dedup_seen_fresh (seen : list Q) (l : list A) :
  Forall (fun y => forall s, key y = Some s -> existsb (Qeq_bool s) seen = false)
    (dedup_seen key seen l).
Proof.
  revert seen. induction l as [|x r IH]; intros seen; simpl; [constructor|].
  destruct (key x) as [s|] eqn:E; [|auto]. destruct (existsb _ _) eqn:Es; [auto|].
  constructor; [intros s' Hs'; rewrite E in Hs'; injection Hs' as <-; exact Es|].
  eapply Forall_impl; [apply IH|]. simpl. intros y Hy s' Hs'. specialize (Hy s' Hs').
  simpl in Hy. by apply orb_false_iff in Hy as [_ ?].
Qed.

Lemma dedup_seen_distinct (seen : list Q) (l : list A) :
  ForallOrdPairs (fun x y => key_eqb (key x) (key y) = false) (dedup_seen key seen l).
Proof.
  revert seen. induction l as [|x r IH]; intros seen; simpl; [constructor|].
  destruct (key x) as [s|] eqn:E; [|auto]. destruct (existsb _ _); [auto|].
  constructor; [|auto]. eapply Forall_impl; [apply (dedup_seen_fresh (s :: seen))|].
  simpl. intros y Hy. rewrite E. destruct (key y) as [s'|]; [|done].
  specialize (Hy s' eq_refl). apply orb_false_iff in Hy as [Hy _]. simpl.
  by rewrite Qeq_bool_comm.
Qed.
End DedupLemmas.

(** ** Properties *)

Section DedupProperties.
Context {A : Type} (key : A -> option Q).

(** C7. On items whose start times are numbers, the [Set]-based
    deduplication of [search.ts] and the [findIndex]-based deduplication
    of the store return the same list. *)
Theorem uniqueByStartTime_eq_uniqueMatches (l : list A) :
  Forall (fun x => is_Some (key x)) l ->
  uniqueByStartTime key l = uniqueMatches key l.
Proof.
  intros Hl. unfold uniqueByStartTime. rewrite uniqueMatches_first.
  by apply dedup_seen_first.
Qed.

(** Deduplication by start time, item by item: appending an item
    appends it to the output iff its start time is a number that no
    earlier item has. *)
Theorem uniqueByStartTime_snoc (l : list A) (x : A) :
  uniqueByStartTime key (l ++ [x]) =
  uniqueByStartTime key l ++
    match key x with
    | Some s => if existsb (fun y => key_eqb (key y) (Some s)) l then [] else [x]
    | None => []
    end.
Proof.
  unfold uniqueByStartTime. rewrite dedup_seen_app, app_nil_r. f_equal. simpl.
  destruct (key x) as [s|]; [|done]. by rewrite existsb_rev, existsb_omap_key.
Qed.

(** Soundness: the deduplicated list keeps the input order, holds only
    items with a numeric start time, and no two of its items share one. *)
Lemma uniqueByStartTime_sound (l : list A) :
  sublist (uniqueByStartTime key l) l /\
  Forall (fun x => is_Some (key x)) (uniqueByStartTime key l) /\
  ForallOrdPairs (fun x y => key_eqb (key x) (key y) = false) (uniqueByStartTime key l).
Proof.
  split; [apply dedup_seen_sublist|]. split; [apply dedup_seen_numeric|].
  apply dedup_seen_distinct.
Qed.

(** Completeness: the first item with a given numeric start time is kept. *)
Lemma uniqueByStartTime_keeps_first (pre post : list A) (x : A) (s : Q) :
  key x = Some s -> existsb (fun y => key_eqb (key y) (Some s)) pre = false ->
  x ∈ uniqueByStartTime key (pre ++ x :: post).
Proof.
  intros Hx Hpre. unfold uniqueByStartTime. rewrite dedup_seen_app. cbn [dedup_seen].
  rewrite Hx, app_nil_r, existsb_rev, existsb_omap_key, Hpre. set_solver.
Qed.

(** C6. [uniqueByStartTime] keeps, in input order, exactly the first item
    of each numeric start time: its result is a sublist of the input whose
    items have numeric, pairwise distinct start times, and it contains
    every item whose start time is a number that no earlier item has. *)
Theorem uniqueByStartTime_spec (l : list A) :
  sublist (uniqueByStartTime key l) l /\
  Forall (fun x => is_Some (key x)) (uniqueByStartTime key l) /\
  ForallOrdPairs (fun x y => key_eqb (key x) (key y) = false) (uniqueByStartTime key l) /\
  (forall pre x post s, l = pre ++ x :: post -> key x = Some s ->
     existsb (fun y => key_eqb (key y) (Some s)) pre = false -> x ∈ uniqueByStartTime key l).
Proof.
  destruct (uniqueByStartTime_sound l) as (H1 & H2 & H3). split_and!; [done..|].
  intros pre x post s -> Hx Hpre. by apply (uniqueByStartTime_keeps_first pre post x s).
Qed.
End DedupProperties.

(** ** Witnesses *)

Lemma uniqueByStartTime_spec_witness :
  (1 : Q) ∈ uniqueByStartTime (A := Q) Some [1; 2; 1].
Proof.
  refine (proj2 (proj2 (proj2 (uniqueByStartTime_spec (A := Q) Some [1; 2; 1]))) [] 1 [2; 1] 1 eq_refl eq_refl _).
  reflexivity.
Defined.

Lemma uniqueByStartTime_eq_uniqueMatches_witness :
  uniqueByStartTime (A := Q) Some [1; 2; 1] = uniqueMatches Some [1; 2; 1].
Proof. apply uniqueByStartTime_eq_uniqueMatches. repeat econstructor. Defined.
