(* ===== verification/Retrieval.v ===== *)
(** * Retrieval: the search functions of [search.ts]

    [vectorSearch] (lines 179-225), [hybridSearch] (227-344), [bm25Search]
    (346-405), [hybridSearchForStoryId] (407-518), [vectorSearchForStoryId]
    (520-570), [bm25SearchForStoryId] (572-626),
    [searchNerEntitiesAcrossCollection] (629-673), the listing fetch
    [getAllStoriesFromCollection] (118-137) and the fetches by id (102-116),
    each written in the [DS] monad against the [Datastore] interface.  The
    merge of [hybridSearch] is [hybrid_fuse]: the BM25 and certainty maps,
    [upsert] into an insertion-ordered map, the stable sort by combined
    score, the range filter, [uniqueByStartTime] and [slice(0, limit)]. *)

From S2P Require Import Prelude Filters Backend Samples Scores Dedup.

Local Open Scope Q_scope.
Local Open Scope portal_scope.

(** [(item.properties as any)?.start_time] *)
Definition chunk_start (o : wobj) : option Q := start_time (properties o).

(** [(obj as any).uuid ?? (obj as any).id ?? ''] *)
Definition obj_id (o : wobj) : string := uuid o ?? alt_id o ?? "".

(** [obj?.uuid ?? obj?.id ?? obj?.metadata?.id ?? ''] (the [upsert] of [hybridSearch]) *)
Definition obj_id_meta (o : wobj) : string :=
  uuid o ?? alt_id o ?? m_id (metadata o) ?? "".

(** search.ts 252-262: [bmMap], the normalised BM25 score by id. *)
Definition bm_map (objs : list wobj) : gmap string Q :=
  let bmScores := map raw_score objs in
  fold_left (fun m o => let id := obj_id o in
               if js_truthy id then <[id := hybrid_norm bmScores (raw_score o)]> m else m)
    objs ∅.

(** search.ts 275-280: [vecMap], [certainty ?? 0] by id. *)
Definition vec_map (objs : list wobj) : gmap string Q :=
  fold_left (fun m o => let id := obj_id o in
               if js_truthy id then <[id := m_certainty (metadata o) ?? 0]> m else m)
    objs ∅.

(** search.ts 285-288: [W_VEC], [W_BM25]. *)
Definition hybrid_weights (hasBm25 : bool) : Q * Q :=
  if hasBm25 then (55 # 100, 45 # 100) else (1, 0).

(** [{ ...obj, metadata: { ...obj.metadata, score, bm25_score, vector_score } }] *)
Definition annotate (combined bm vec : Q) (o : wobj) : wobj :=
  let m := metadata o in
  mkObj (uuid o) (alt_id o) (properties o)
    (mkMeta (Some combined) (m_certainty m) (m_distance m) (m_id m) (Some bm) (Some vec)).

(** search.ts 292-312: [upsert]. *)
Definition upsert (idf : wobj -> string) (W_VEC W_BM25 : Q) (bmMap vecMap : gmap string Q)
    (mergedById : list (string * wobj)) (obj : wobj) : list (string * wobj) :=
  let id := idf obj in
  if negb (js_truthy id) then mergedById else
  let bm := bmMap !! id ?? 0 in
  let vec := vecMap !! id ?? m_certainty (metadata obj) ?? 0 in
  let combined := W_VEC * vec + W_BM25 * bm in
  match amap_get id mergedById with
  | Some prev =>
      if Qlt_bool (raw_score prev) combined
      then amap_set id (annotate combined bm vec obj) mergedById else mergedById
  | None => amap_set id (annotate combined bm vec obj) mergedById
  end.

(** [(a, b) => (b.metadata?.score ?? 0) - (a.metadata?.score ?? 0)]: [a] stays
    before [b] when the comparator is not positive. *)
Definition score_before (a b : wobj) : bool := Qle_bool (raw_score b) (raw_score a).

(** search.ts 285-343 (and 464-517): from the two result lists to the page. *)
Definition hybrid_fuse (idf : wobj -> string) (bm25Res vecRes : list wobj)
    (limit : nat) (minValue maxValue : option Q) : list wobj :=
  let bmMap := bm_map bm25Res in
  let vecMap := vec_map vecRes in
  let hasBm25 := match bm25Res with [] => false | _ => true end in
  let '(W_VEC, W_BM25) := hybrid_weights hasBm25 in
  let mergedById := fold_left (upsert idf W_VEC W_BM25 bmMap vecMap) (bm25Res ++ vecRes) [] in
  let merged := stable_sort score_before (map snd mergedById) in
  let merged := filter (fun item => in_range minValue maxValue (raw_score item) = true) merged in
  take limit (uniqueByStartTime chunk_start merged).

(** [filter] of [vectorSearch] (205-209): the certainty must be present and in range. *)
Definition certainty_in_range (minValue maxValue : option Q) (item : wobj) : bool :=
  match m_certainty (metadata item) with
  | None => false
  | Some score => in_range minValue maxValue score
  end.

(** search.ts 549-564: [score := certainty ?? 0], then the [0,1]-defaulted range test. *)
Definition with_certainty_score (o : wobj) : wobj :=
  with_score (m_certainty (metadata o) ?? 0) o.

Definition story_certainty_in_range (minValue maxValue : option Q) (o : wobj) : bool :=
  let certainty := m_certainty (metadata o) ?? 0 in
  Qle_bool (minValue ?? 0) certainty && Qle_bool certainty (maxValue ?? 1).

Section Searches.
Context `{Datastore}.

(** search.ts [vectorSearch]. *)
Definition vectorSearch (collection : schema) (searchTerm : string) (limit offset : nat)
    (filters collectionFilters : list string) (minValue maxValue : option Q) : DS (list wobj) :=
  let combinedFilter := buildCombinedFilters filters collectionFilters in
  vector ← getLocalEmbedding searchTerm;
  rawResults ← nearVector vector (mkQuery collection limit offset combinedFilter);
  let filteredObjects :=
    filter (fun item => certainty_in_range minValue maxValue item = true) rawResults in
  mret (take limit (uniqueByStartTime chunk_start filteredObjects)).

(** search.ts [hybridSearch]. *)
Definition hybridSearch (collection : schema) (searchTerm : string) (limit offset : nat)
    (filters collectionFilters : list string) (minValue maxValue : option Q) : DS (list wobj) :=
  let combinedFilter := buildCombinedFilters filters collectionFilters in
  let q := mkQuery collection limit offset combinedFilter in
  bm25Res ← bm25 searchTerm q;
  vector ← getLocalEmbedding searchTerm;
  vecRes ← nearVector vector q;
  mret (hybrid_fuse obj_id_meta bm25Res vecRes limit minValue maxValue).

(** search.ts [bm25Search]. *)
Definition bm25Search (collection : schema) (searchTerm : string) (limit offset : nat)
    (filters collectionFilters : list string) (minValue maxValue : option Q) : DS (list wobj) :=
  let combinedFilter := buildCombinedFilters filters collectionFilters in
  response ← bm25 searchTerm (mkQuery collection limit offset combinedFilter);
  let normalizedObjects := bm25_normalize response in
  let filteredObjects :=
    filter (fun o => bm25_in_range minValue maxValue o = true) normalizedObjects in
  mret (take limit (uniqueByStartTime chunk_start filteredObjects)).

(** search.ts [hybridSearchForStoryId]: no offset, the story filter. *)
Definition hybridSearchForStoryId (collection : schema) (theirStoryId searchTerm : string)
    (limit : nat) (nerFilters : list string) (minValue maxValue : option Q) : DS (list wobj) :=
  let q := mkQuery collection limit 0 (Some (storyFilter theirStoryId nerFilters)) in
  bm25Res ← bm25 searchTerm q;
  vector ← getLocalEmbedding searchTerm;
  vecRes ← nearVector vector q;
  mret (hybrid_fuse obj_id bm25Res vecRes limit minValue maxValue).

(** search.ts [vectorSearchForStoryId]: no deduplication, no truncation. *)
Definition vectorSearchForStoryId (collection : schema) (theirStoryId searchTerm : string)
    (limit : nat) (nerFilters : list string) (minValue maxValue : option Q) : DS (list wobj) :=
  let combinedFilter := storyFilter theirStoryId nerFilters in
  vector ← getLocalEmbedding searchTerm;
  response ← nearVector vector (mkQuery collection limit 0 (Some combinedFilter));
  let processedObjects := map with_certainty_score response in
  mret (filter (fun o => story_certainty_in_range minValue maxValue o = true) processedObjects).

(** search.ts [bm25SearchForStoryId]: no deduplication, no truncation. *)
Definition bm25SearchForStoryId (collection : schema) (theirStoryId searchTerm : string)
    (limit : nat) (nerFilters : list string) (minValue maxValue : option Q) : DS (list wobj) :=
  let combinedFilter := storyFilter theirStoryId nerFilters in
  response ← bm25 searchTerm (mkQuery collection limit 0 (Some combinedFilter));
  let normalizedObjects := bm25_normalize response in
  mret (filter (fun o => bm25_in_range minValue maxValue o = true) normalizedObjects).

(** search.ts [searchNerEntitiesAcrossCollection]: a failed fetch is rethrown. *)
Definition searchNerEntitiesAcrossCollection (entityText entityLabel : string)
    (excludeStoryUuid : option string) (limit : nat) : DS (list wobj) :=
  tm_catch
    (fetchObjects (mkQuery Chunks limit 0
       (Some (nerEntityFilter entityText entityLabel excludeStoryUuid))))
    (fun _ => tm_throw NerSearchFailed).

(** search.ts [getAllStoriesFromCollection]. *)
Definition getAllStoriesFromCollection (collection : schema) (limit offset : nat)
    (collectionFilters : list string) : DS (list wobj) :=
  fetchObjects (mkQuery collection limit offset (buildCombinedFilters [] collectionFilters)).

(** search.ts [fetchStoryTranscriptByUuid] and [getStoryByUuid]. *)
Definition fetchStoryTranscriptByUuid (storyUuid : string) : DS (option wobj) :=
  fetchObjectById Testimonies storyUuid.

Definition getStoryByUuid (storyUuid : string) : DS (option wobj) :=
  fetchObjectById Chunks storyUuid.
End Searches.

(** The scores [upsert] reads for an object. *)
Definition bm_of (idf : wobj -> string) (bmMap : gmap string Q) (obj : wobj) : Q :=
  bmMap !! idf obj ?? 0.
Definition vec_of (idf : wobj -> string) (vecMap : gmap string Q) (obj : wobj) : Q :=
  vecMap !! idf obj ?? m_certainty (metadata obj) ?? 0.

(** Non-increasing combined score. *)
Definition by_score_desc (x y : wobj) : Prop := raw_score y <= raw_score x.

(** What the post-processing of a search guarantees, whatever it is given. *)
Definition ranked_page (limit : nat) (minValue maxValue : option Q) (out : list wobj) : Prop :=
  Sorted by_score_desc out /\
  Forall (fun o => in_range minValue maxValue (raw_score o) = true) out /\
  Forall (fun o => is_Some (chunk_start o)) out /\
  ForallOrdPairs (fun x y => key_eqb (chunk_start x) (chunk_start y) = false) out /\
  (length out <= limit)%nat.

(** ** Lemmas *)

#[export] Instance by_score_desc_trans : Transitive by_score_desc.
Proof. intros x y z Hxy Hyz. unfold by_score_desc in *. eapply Qle_trans; eauto. Qed.

Lemma score_before_total (a b : wobj) : score_before a b = false -> score_before b a = true.
Proof.
  unfold score_before. intros H. apply Qle_bool_iff.
  destruct (Qlt_le_dec (raw_score b) (raw_score a)) as [Hlt|Hle]; [exfalso|exact Hle].
  apply Qlt_le_weak, Qle_bool_iff in Hlt. congruence.
Qed.

Lemma sort_filter_dedup_page (M : list wobj) (limit : nat) (minValue maxValue : option Q) :
  let out := take limit (uniqueByStartTime chunk_start
               (filter (fun item => in_range minValue maxValue (raw_score item) = true)
                  (stable_sort score_before M))) in
  ranked_page limit minValue maxValue out /\ (forall o, o ∈ out -> o ∈ M).
Proof.
  set (F := filter _ _). set (U := uniqueByStartTime chunk_start F). simpl.
  assert (HF : sublist F (stable_sort score_before M)) by apply sublist_filter.
  assert (HU : sublist U F) by apply dedup_seen_sublist.
  assert (HT : sublist (take limit U) U) by apply sublist_take.
  destruct (uniqueByStartTime_sound chunk_start F) as (_ & Hnum & Hdist).
  repeat split.
  - apply (sorted_sublist _ (stable_sort score_before M)).
    + by do 2 (etransitivity; [eassumption|]).
    + eapply Sorted_weaken; [|apply stable_sort_sorted, score_before_total].
      intros x y Hxy. by apply Qle_bool_iff.
  - apply (Forall_sublist_of _ F); [by etransitivity|]. apply Forall_filter_self.
  - by eapply Forall_sublist_of.
  - by eapply ForallOrdPairs_sublist.
  - auto with portal.
  - intros o Ho. rewrite <- (stable_sort_perm score_before M).
    eapply elem_of_sublist; [exact Ho|]. by do 2 (etransitivity; [eassumption|]).
Qed.

Lemma annotate_obj_id (c b v : Q) (o : wobj) : obj_id (annotate c b v o) = obj_id o.
Proof. reflexivity. Qed.

Lemma annotate_obj_id_meta (c b v : Q) (o : wobj) : obj_id_meta (annotate c b v o) = obj_id_meta o.
Proof. reflexivity. Qed.

Lemma annotate_certainty (c b v : Q) (o : wobj) :
  m_certainty (metadata (annotate c b v o)) = m_certainty (metadata o).
Proof. reflexivity. Qed.

Lemma annotate_properties (c b v : Q) (o : wobj) : properties (annotate c b v o) = properties o.
Proof. reflexivity. Qed.

#[export] Hint Rewrite annotate_obj_id annotate_obj_id_meta annotate_certainty
  annotate_properties : portal_rw.

Section Upsert.
Context (idf : wobj -> string) (W_VEC W_BM25 : Q) (bmMap vecMap : gmap string Q).

(** Every value of the merged map is an input annotated with its scores. *)
Let bm_of := bm_of idf bmMap.
Let vec_of := vec_of idf vecMap.

Lemma fold_upsert_forall (P : wobj -> Prop) (objs : list wobj) (m : list (string * wobj)) :
  Forall P (map snd m) ->
  Forall (fun obj => P (annotate (W_VEC * vec_of obj + W_BM25 * bm_of obj)
                                 (bm_of obj) (vec_of obj) obj)) objs ->
  Forall P (map snd (fold_left (upsert idf W_VEC W_BM25 bmMap vecMap) objs m)).
Proof.
  intros Hm Hobjs. revert m Hm. induction Hobjs as [|obj r Hobj Hr IH]; intros m Hm; [done|].
  simpl. apply IH.
  assert (Hset : forall v, P v -> Forall P (map snd (amap_set (idf obj) v m))).
  { intros v Hv. apply Forall_forall. intros x Hx. apply list_elem_of_In in Hx.
    destruct (amap_set_values _ _ _ _ Hx) as [->|Hin]; [done|].
    rewrite Forall_forall in Hm. by apply Hm, list_elem_of_In. }
  unfold upsert. destruct (js_truthy (idf obj)); [|done]. simpl.
  destruct (amap_get _ _); [destruct (Qlt_bool _ _)|]; auto.
Qed.
End Upsert.

(** The fused page: the post-processing of the values of the merged map. *)
Lemma hybrid_fuse_unfold (idf : wobj -> string) (bm25Res vecRes : list wobj) (limit : nat)
    (minValue maxValue : option Q) :
  let '(W_VEC, W_BM25) := hybrid_weights (match bm25Res with [] => false | _ => true end) in
  hybrid_fuse idf bm25Res vecRes limit minValue maxValue =
  take limit (uniqueByStartTime chunk_start
    (filter (fun item => in_range minValue maxValue (raw_score item) = true)
      (stable_sort score_before (map snd
        (fold_left (upsert idf W_VEC W_BM25 (bm_map bm25Res) (vec_map vecRes))
           (bm25Res ++ vecRes) []))))).
Proof. unfold hybrid_fuse. by destruct (hybrid_weights _). Qed.

(** A property of every annotated input holds of every object of the page. *)
Lemma hybrid_fuse_forall (idf : wobj -> string) (bm25Res vecRes : list wobj) (limit : nat)
    (minValue maxValue : option Q) (P : wobj -> Prop) :
  (let '(W_VEC, W_BM25) := hybrid_weights (match bm25Res with [] => false | _ => true end) in
   Forall (fun obj =>
     P (annotate (W_VEC * vec_of idf (vec_map vecRes) obj + W_BM25 * bm_of idf (bm_map bm25Res) obj)
          (bm_of idf (bm_map bm25Res) obj) (vec_of idf (vec_map vecRes) obj) obj))
     (bm25Res ++ vecRes)) ->
  Forall P (hybrid_fuse idf bm25Res vecRes limit minValue maxValue).
Proof.
  pose proof (hybrid_fuse_unfold idf bm25Res vecRes limit minValue maxValue) as E.
  destruct (hybrid_weights _) as [W_VEC W_BM25]. rewrite E. intros Hall.
  destruct (sort_filter_dedup_page (map snd (fold_left (upsert idf W_VEC W_BM25
              (bm_map bm25Res) (vec_map vecRes)) (bm25Res ++ vecRes) [])) limit minValue maxValue)
    as [_ Hin].
  apply Forall_forall. intros o Ho. apply Hin in Ho. revert o Ho. apply Forall_forall.
  apply fold_upsert_forall; [constructor | exact Hall].
Qed.

Lemma hybrid_fuse_ranked (idf : wobj -> string) (bm25Res vecRes : list wobj) (limit : nat)
    (minValue maxValue : option Q) :
  ranked_page limit minValue maxValue (hybrid_fuse idf bm25Res vecRes limit minValue maxValue).
Proof.
  pose proof (hybrid_fuse_unfold idf bm25Res vecRes limit minValue maxValue) as E.
  destruct (hybrid_weights _). rewrite E. apply sort_filter_dedup_page.
Qed.

Lemma bm25_normalize_forall_props (P : props -> Prop) (objs : list wobj) :
  Forall (fun o => P (properties o)) objs -> Forall (fun o => P (properties o)) (bm25_normalize objs).
Proof.
  intros H. unfold bm25_normalize. destruct (map raw_score objs); [constructor|].
  apply Forall_map. eapply Forall_impl; [exact H|]. done.
Qed.

Lemma story_filter_id (theirStoryId : string) (nerFilters : list string) (p : props) :
  match_filter (Some (storyFilter theirStoryId nerFilters)) p = true -> theirstory_id p = Some theirStoryId.
Proof.
  simpl. autorewrite with portal_rw. simpl. rewrite andb_true_iff. intros [H _].
  by apply eval_equal_id.
Qed.

Lemma page_story_ids `{DatastoreLaws} (q : query) (theirStoryId : string) (nerFilters : list string)
    (objs : list wobj) :
  q_filter q = Some (storyFilter theirStoryId nerFilters) -> page_ok q objs ->
  Forall (fun o => theirstory_id (properties o) = Some theirStoryId) objs.
Proof.
  intros Hq [_ Hall]. rewrite Hq in Hall. eapply Forall_impl; [exact Hall|].
  intros o. apply story_filter_id.
Qed.

(** Each object of the page carries the combined score of its own BM25 and
    vector scores. *)
Lemma hybrid_fuse_scores (idf : wobj -> string) (bm25Res vecRes : list wobj) (limit : nat)
    (minValue maxValue : option Q) :
  (forall c b v o, idf (annotate c b v o) = idf o) ->
  Forall (fun o =>
    raw_score o =
      fst (hybrid_weights (match bm25Res with [] => false | _ => true end)) *
        vec_of idf (vec_map vecRes) o +
      snd (hybrid_weights (match bm25Res with [] => false | _ => true end)) *
        bm_of idf (bm_map bm25Res) o)
    (hybrid_fuse idf bm25Res vecRes limit minValue maxValue).
Proof.
  intros Hidf. apply hybrid_fuse_forall.
  destruct (hybrid_weights _) as [W_VEC W_BM25]. simpl.
  apply Forall_forall. intros obj _. unfold vec_of, bm_of. autorewrite with portal_rw. by rewrite !Hidf.
Qed.

(** ** Properties *)

(** C1. Whatever the datastore answers, a successful [hybridSearch] returns a
    page sorted by non-increasing combined score, whose scores lie in
    [minValue, maxValue], whose items have numeric and pairwise distinct
    start times, and which has at most [limit] items. *)
Theorem hybridSearch_ranked `{Datastore} (collection : schema) (searchTerm : string)
    (limit offset : nat) (filters collectionFilters : list string) (minValue maxValue : option Q)
    (tr : list call) (l : list wobj) (tr' : list call) :
  hybridSearch collection searchTerm limit offset filters collectionFilters minValue maxValue tr
    = (Ok l, tr') ->
  ranked_page limit minValue maxValue l.
Proof.
  unfold hybridSearch, bm25, getLocalEmbedding, nearVector. tm_unfold.
  repeat case_match; intros; simplify_eq. apply hybrid_fuse_ranked.
Qed.

(** C2. When the BM25 query returns results, the combined score of every
    object of the hybrid page is [0.55 * vector + 0.45 * bm25], the vector
    score being the certainty recorded for its id and the BM25 score the
    normalised BM25 score recorded for its id (0 when absent). *)
Theorem hybrid_fuse_weighted (bm25Res vecRes : list wobj) (limit : nat)
    (minValue maxValue : option Q) :
  bm25Res <> [] ->
  Forall (fun o =>
    raw_score o = (55 # 100) * vec_of obj_id_meta (vec_map vecRes) o +
                  (45 # 100) * bm_of obj_id_meta (bm_map bm25Res) o)
    (hybrid_fuse obj_id_meta bm25Res vecRes limit minValue maxValue).
Proof.
  intros Hne. pose proof (hybrid_fuse_scores obj_id_meta bm25Res vecRes limit minValue maxValue
    annotate_obj_id_meta) as H. by destruct bm25Res.
Qed.

(** When the BM25 query returns nothing, hybrid search degrades to vector
    search: the combined score of every object equals its vector certainty. *)
Theorem hybrid_fuse_vector_only (vecRes : list wobj) (limit : nat) (minValue maxValue : option Q) :
  Forall (fun o => raw_score o == vec_of obj_id_meta (vec_map vecRes) o)
    (hybrid_fuse obj_id_meta [] vecRes limit minValue maxValue).
Proof.
  eapply Forall_impl;
    [apply (hybrid_fuse_scores obj_id_meta [] vecRes limit minValue maxValue annotate_obj_id_meta)|].
  simpl. intros o ->. ring.
Qed.

(** C10. An embedding failure aborts [hybridSearch] after the BM25 query:
    the error propagates and no vector query is issued. *)
Theorem hybridSearch_embedding_failure `{Datastore} (collection : schema) (searchTerm : string)
    (limit offset : nat) (filters collectionFilters : list string) (minValue maxValue : option Q)
    (bm25Res : list wobj) (status : Z) :
  let q := mkQuery collection limit offset (buildCombinedFilters filters collectionFilters) in
  ds_bm25 searchTerm q = Ok bm25Res ->
  ds_embed searchTerm = EmbedHttpError status ->
  run (hybridSearch collection searchTerm limit offset filters collectionFilters minValue maxValue) =
    (Err (EmbeddingFailed status), [CallBm25 searchTerm q; CallEmbed searchTerm]).
Proof.
  intros q Hbm Hemb. unfold hybridSearch, bm25, getLocalEmbedding, nearVector. tm_unfold.
  fold q. by rewrite Hbm, Hemb.
Qed.

(** A search whose queries find nothing returns an empty page, not an
    error, in each of the three modes. *)
Theorem searches_no_hits `{Datastore} (collection : schema) (searchTerm : string)
    (limit offset : nat) (filters collectionFilters : list string) (minValue maxValue : option Q)
    (v : vector) :
  let q := mkQuery collection limit offset (buildCombinedFilters filters collectionFilters) in
  ds_bm25 searchTerm q = Ok [] -> ds_embed searchTerm = EmbedOk v -> ds_nearVector v q = Ok [] ->
  fst (run (bm25Search collection searchTerm limit offset filters collectionFilters minValue maxValue))
    = Ok [] /\
  fst (run (vectorSearch collection searchTerm limit offset filters collectionFilters minValue maxValue))
    = Ok [] /\
  fst (run (hybridSearch collection searchTerm limit offset filters collectionFilters minValue maxValue))
    = Ok [].
Proof.
  intros q Hbm Hemb Hvec.
  unfold bm25Search, vectorSearch, hybridSearch, bm25, getLocalEmbedding, nearVector. tm_unfold.
  fold q. rewrite Hbm, Hemb. simpl. fold q. rewrite Hvec. unfold hybrid_fuse, uniqueByStartTime, bm25_normalize. cbn. rewrite !take_nil. auto.
Qed.

(** C8. The story-scoped searches only return chunks of the story they are
    scoped to, provided the datastore honours the filter. *)
Theorem story_searches_scoped `{DatastoreLaws} (collection : schema)
    (theirStoryId searchTerm : string) (limit : nat) (nerFilters : list string)
    (minValue maxValue : option Q) (tr : list call) (l : list wobj) (tr' : list call) :
  (bm25SearchForStoryId collection theirStoryId searchTerm limit nerFilters minValue maxValue tr
     = (Ok l, tr') \/
   vectorSearchForStoryId collection theirStoryId searchTerm limit nerFilters minValue maxValue tr
     = (Ok l, tr') \/
   hybridSearchForStoryId collection theirStoryId searchTerm limit nerFilters minValue maxValue tr
     = (Ok l, tr')) ->
  Forall (fun o => theirstory_id (properties o) = Some theirStoryId) l.
Proof.
  unfold bm25SearchForStoryId, vectorSearchForStoryId, hybridSearchForStoryId,
    bm25, getLocalEmbedding, nearVector.
  tm_unfold. intros [Hrun|[Hrun|Hrun]]; repeat case_match; simplify_eq.
  - eapply Forall_sublist_of; [apply sublist_filter|].
    apply (bm25_normalize_forall_props (fun p => theirstory_id p = Some theirStoryId)).
    eapply page_story_ids; [|eapply bm25_page; eauto]. done.
  - eapply Forall_sublist_of; [apply sublist_filter|].
    apply Forall_map. eapply page_story_ids; [|eapply nearVector_page; eauto]. done.
  - apply hybrid_fuse_forall. destruct (hybrid_weights _). apply Forall_app. split.
    + eapply Forall_impl; [eapply page_story_ids; [|eapply bm25_page; eauto]; done|]. done.
    + eapply Forall_impl; [eapply page_story_ids; [|eapply nearVector_page; eauto]; done|]. done.
Qed.

(** C9. The cross-collection entity search never returns a chunk of the
    recording it excludes, provided the datastore honours the filter. *)
Theorem searchNerEntities_excludes `{DatastoreLaws} (entityText entityLabel ex : string)
    (limit : nat) (tr : list call) (l : list wobj) (tr' : list call) :
  js_truthy ex = true ->
  searchNerEntitiesAcrossCollection entityText entityLabel (Some ex) limit tr = (Ok l, tr') ->
  Forall (fun o => theirstory_id (properties o) <> Some ex) l.
Proof.
  intros Hex. unfold searchNerEntitiesAcrossCollection, fetchObjects. tm_unfold.
  destruct (ds_fetchObjects _) as [objs|] eqn:E; intros; simplify_eq.
  apply fetch_page in E as [_ Hall]. eapply Forall_impl; [exact Hall|].
  intros o. by apply nerEntityFilter_excludes.
Qed.

(** ** Witnesses *)

Lemma hybridSearch_ranked_witness :
  exists l tr', @hybridSearch sample_ds Chunks "paris" 2 0 [] [] None None [] = (Ok l, tr') /\
    ranked_page 2 None None l.
Proof.
  do 2 eexists. split; [reflexivity|].
  eapply (@hybridSearch_ranked sample_ds Chunks "paris" 2 0 [] [] None None []). reflexivity.
Defined.

Lemma hybrid_fuse_weighted_witness :
  Forall (fun o =>
    raw_score o = (55 # 100) * vec_of obj_id_meta (vec_map [chunk_a; chunk_b]) o +
                  (45 # 100) * bm_of obj_id_meta (bm_map [chunk_a; chunk_b]) o)
    (hybrid_fuse obj_id_meta [chunk_a; chunk_b] [chunk_a; chunk_b] 10 None None).
Proof. apply hybrid_fuse_weighted. vm_compute. discriminate. Defined.

Lemma hybridSearch_embedding_failure_witness :
  run (@hybridSearch down_ds Chunks "paris" 2 0 [] [] None None) =
    (Err (EmbeddingFailed 503),
     [CallBm25 "paris" (mkQuery Chunks 2 0 (buildCombinedFilters [] [])); CallEmbed "paris"]).
Proof.
  eapply (@hybridSearch_embedding_failure down_ds Chunks "paris" 2 0 [] [] None None _ 503);
    vm_compute; reflexivity.
Defined.

Lemma searches_no_hits_witness :
  fst (run (@bm25Search sample_ds Chunks "paris" 5 0 [] ["none"] None None)) = Ok [] /\
  fst (run (@vectorSearch sample_ds Chunks "paris" 5 0 [] ["none"] None None)) = Ok [] /\
  fst (run (@hybridSearch sample_ds Chunks "paris" 5 0 [] ["none"] None None)) = Ok [].
Proof. apply (@searches_no_hits sample_ds Chunks "paris" 5 0 [] ["none"] None None [1; 0]); vm_compute; reflexivity. Defined.

Lemma story_searches_scoped_witness :
  exists l tr', @bm25SearchForStoryId sample_ds Chunks "rec1" "paris" 5 [] None None [] = (Ok l, tr') /\
    Forall (fun o => theirstory_id (properties o) = Some "rec1") l.
Proof.
  do 2 eexists. split; [reflexivity|].
  eapply (@story_searches_scoped sample_ds (memstore_laws _ _ _ _) Chunks "rec1" "paris" 5 [] None None []).
  left. reflexivity.
Defined.

Lemma searchNerEntities_excludes_witness :
  exists l tr', @searchNerEntitiesAcrossCollection sample_ds "Paris" "LOC" (Some "rec1") 10 [] = (Ok l, tr') /\
    Forall (fun o => theirstory_id (properties o) <> Some "rec1") l.
Proof.
  do 2 eexists. split; [reflexivity|].
  eapply (@searchNerEntities_excludes sample_ds (memstore_laws _ _ _ _) "Paris" "LOC" "rec1" 10 []);
    reflexivity.
Defined.
