(* ===== verification/Collections.v ===== *)
(** * Collections: the collection listing of [search.ts]

    [loadCollectionMetadataMap] (search.ts 28-56) reads
    [json/interviews/<dir>/collection.json] for every directory; the file
    system is the class [FileSystem] ([readdir] may fail, a file may be
    missing or invalid).  [getAvailableCollections] (139-177) fetches the
    [Testimonies] and aggregates them by [collection_id]: the id always
    comes from the datastore, name and description prefer the local
    metadata, the image only comes from it, [itemCount] counts the
    recordings of the collection, and the list is sorted by name with
    [localeCompare], a parameter of the section (its collation is
    locale-dependent and not modelled). *)

From S2P Require Import Prelude Filters Backend Samples.

Local Open Scope nat_scope.

(** [CollectionFilterOption] *)
Record CollectionFilterOption := mkCollection {
  co_id : string;
  co_name : string;
  co_description : string;
  co_itemCount : nat;
  co_image : option string
}.

(** [CollectionJsonMetadata], as parsed from [collection.json]. *)
Record CollectionJsonMetadata := mkCollectionJson {
  cj_id : option string;
  cj_name : option string;
  cj_description : option string;
  cj_image : option string
}.

Class FileSystem := {
  (** [readdir(json/interviews)]: entries with [isDirectory()], or a failure. *)
  fs_readdir : option (list (string * bool));
  (** [JSON.parse(readFile(<dir>/collection.json))], [None] when it throws. *)
  fs_collection_json : string -> option CollectionJsonMetadata
}.

(** [a || b] on an optional string. *)
Definition js_or (a : option string) (b : string) : string :=
  match a with Some s => if js_truthy s then s else b | None => b end.

(** [String(item.properties?.collection_id || '').trim()] (152). *)
Definition collection_key (item : wobj) : string :=
  js_trim (js_or (collection_id (properties item)) "").

(** The number of recordings of [items] in collection [id]. *)
Definition item_count (items : list wobj) (id : string) : nat :=
  length (filter (fun o => collection_key o = id) items).

Section Listing.
Context `{FileSystem}.

(** search.ts [loadCollectionMetadataMap]. *)
Definition loadCollectionMetadataMap : gmap string CollectionJsonMetadata :=
  match fs_readdir with
  | None => ∅
  | Some entries =>
      fold_left (fun m '(name, isDirectory) =>
        if negb isDirectory then m else
        match fs_collection_json name with
        | None => m
        | Some parsed =>
            let id := js_trim (js_or (cj_id parsed) name) in
            if js_truthy id then <[id := parsed]> m else m
        end) entries ∅
  end.

(** The body of the [for] loop of [getAvailableCollections] (151-174). *)
Definition collection_step (metadataMap : gmap string CollectionJsonMetadata)
    (m : list (string * CollectionFilterOption)) (item : wobj) : list (string * CollectionFilterOption) :=
  let props := properties item in
  let id := collection_key item in
  if negb (js_truthy id) then m else
  let metadata := metadataMap !! id in
  let name :=
    let n := js_trim (js_or (metadata ≫= cj_name) (js_or (collection_name props) "")) in
    if js_truthy n then n else id in
  let description :=
    js_trim (js_or (metadata ≫= cj_description) (js_or (collection_description props) "")) in
  let image :=
    let i := js_trim (js_or (metadata ≫= cj_image) "") in
    if js_truthy i then Some i else None in
  match amap_get id m with
  | None => amap_set id (mkCollection id name description 1 image) m
  | Some existing =>
      amap_set id (mkCollection (co_id existing) (co_name existing) (co_description existing)
                     (S (co_itemCount existing))
                     (match co_image existing with Some i => Some i | None => image end)) m
  end.

Context (localeCompare : string -> string -> Z).

(** search.ts [getAvailableCollections]. *)
Definition getAvailableCollections `{Datastore} (limit : nat) : DS (list CollectionFilterOption) :=
  let collectionMetadataMap := loadCollectionMetadataMap in
  response ← fetchObjects (mkQuery Testimonies limit 0 None);
  let m := fold_left (collection_step collectionMetadataMap) response [] in
  mret (stable_sort (fun a b => (localeCompare (co_name a) (co_name b) <=? 0)%Z) (map snd m)).
End Listing.

(** A [json/interviews] folder with the metadata of the [gmu] collection. *)
Definition sample_fs : FileSystem := {|
  fs_readdir := Some [("gmu", true); ("README.md", false)];
  fs_collection_json d :=
    if String.eqb d "gmu" then Some (mkCollectionJson None (Some "George Mason") None (Some "gmu.png"))
    else None
|}.

(** ** Lemmas *)

(** What the aggregation map holds after the items [pre]: one entry per
    collection id, keyed by the id, counting the items of that id, and an
    entry for every item with an id. *)
Definition collections_inv (pre : list wobj) (m : list (string * CollectionFilterOption)) : Prop :=
  NoDup (map fst m) /\
  (forall k c, In (k, c) m -> co_id c = k /\ js_truthy k = true /\ co_itemCount c = item_count pre k) /\
  (forall o, o ∈ pre -> js_truthy (collection_key o) = true -> exists c, In (collection_key o, c) m).

Lemma item_count_snoc (pre : list wobj) (o : wobj) (k : string) :
  item_count (pre ++ [o]) k = item_count pre k + (if decide (collection_key o = k) then 1 else 0).
Proof. unfold item_count. rewrite filter_app, length_app, filter_cons. case_decide; simpl; lia. Qed.

Lemma item_count_absent (pre : list wobj) (k : string) :
  (forall o, o ∈ pre -> collection_key o <> k) -> item_count pre k = 0.
Proof.
  unfold item_count. induction pre as [|o pre IH]; intros H; [done|].
  rewrite filter_cons. case_decide as Hk; [exfalso; by apply (H o); [left|]|].
  apply IH. intros o' Ho'. apply H. by right.
Qed.

Lemma collections_inv_set (pre : list wobj) m (o : wobj) (v : CollectionFilterOption) :
  collections_inv pre m -> js_truthy (collection_key o) = true ->
  co_id v = collection_key o -> co_itemCount v = S (item_count pre (collection_key o)) ->
  collections_inv (pre ++ [o]) (amap_set (collection_key o) v m).
Proof.
  intros (Hnd & Hent & Hcov) Ht Hid Hcnt. split_and!.
  - by apply amap_set_NoDup.
  - intros k c Hin. rewrite item_count_snoc.
    destruct (amap_set_In _ _ _ _ _ Hnd Hin) as [[-> ->]|[Hne Hin']].
    + rewrite decide_True by done. split_and!; [done..|lia].
    + destruct (Hent k c Hin') as (? & ? & ?). rewrite decide_False by congruence. split_and!; [done..|lia].
  - intros o' [Ho'|Ho'%list_elem_of_singleton]%elem_of_app Ht'; [|subst; eexists; apply amap_set_In_self].
    destruct (decide (collection_key o' = collection_key o)) as [Heq|Hne].
    + rewrite Heq. eexists; apply amap_set_In_self.
    + destruct (Hcov o' Ho' Ht') as [c Hc]. exists c. by apply amap_set_In_other.
Qed.

Section ListingLemmas.
Context `{FileSystem}.

Lemma collection_step_inv (metadataMap : gmap string CollectionJsonMetadata) pre m o :
  collections_inv pre m -> collections_inv (pre ++ [o]) (collection_step metadataMap m o).
Proof.
  intros Hinv. pose proof Hinv as (Hnd & Hent & Hcov). unfold collection_step. cbv zeta.
  destruct (js_truthy (collection_key o)) eqn:Ht; simpl.
  2:{ split; [done|]. split.
      - intros k c Hin. destruct (Hent k c Hin) as (? & Hk & ?). rewrite item_count_snoc.
        case_decide; [congruence|]. split_and!; [done..|lia].
      - intros o' [Ho'|Ho'%list_elem_of_singleton]%elem_of_app Ht'; [by apply Hcov|subst; congruence]. }
  destruct (amap_get (collection_key o) m) as [existing|] eqn:Hg; apply collections_inv_set; try done.
  - by destruct (Hent _ _ (amap_get_In _ _ _ Hg)) as (? & _ & _).
  - simpl. by destruct (Hent _ _ (amap_get_In _ _ _ Hg)) as (_ & _ & ->).
  - simpl. rewrite item_count_absent; [done|].
    intros o' Ho' Hk. destruct (Hcov o' Ho') as [c' Hc']; [congruence|].
    rewrite Hk in Hc'. by apply (amap_get_None _ c') in Hg.
Qed.

Lemma collections_fold_inv (metadataMap : gmap string CollectionJsonMetadata) (items : list wobj) :
  collections_inv items (fold_left (collection_step metadataMap) items []).
Proof.
  induction items as [|o items IH] using rev_ind.
  - split_and!; [constructor|done|]. intros o Ho. by apply elem_of_nil in Ho.
  - rewrite fold_left_app. by apply collection_step_inv.
Qed.
End ListingLemmas.

(** ** Properties *)

(** C32. [getAvailableCollections] lists each collection id of the fetched
    recordings exactly once, and the [itemCount] of a collection is the
    number of fetched recordings whose trimmed [collection_id] is its id. *)
Theorem getAvailableCollections_counts `{FileSystem} `{Datastore} (localeCompare : string -> string -> Z)
    (limit : nat) (response : list wobj) (cs : list CollectionFilterOption) :
  ds_fetchObjects (mkQuery Testimonies limit 0 None) = Ok response ->
  fst (run (getAvailableCollections localeCompare limit)) = Ok cs ->
  NoDup (map co_id cs) /\
  (forall c, c ∈ cs -> js_truthy (co_id c) = true /\ co_itemCount c = item_count response (co_id c)) /\
  (forall o, o ∈ response -> js_truthy (collection_key o) = true ->
     exists c, c ∈ cs /\ co_id c = collection_key o).
Proof.
  intros Hf. unfold getAvailableCollections, fetchObjects. tm_unfold. rewrite Hf. simpl.
  intros [= <-].
  pose proof (collections_fold_inv loadCollectionMetadataMap response) as (Hnd & Hent & Hcov).
  set (m := fold_left _ response []) in *.
  match goal with |- context [stable_sort ?f ?l] => pose proof (stable_sort_perm f l) as Hperm end.
  setoid_rewrite Hperm.
  assert (Hc : forall c, c ∈ map snd m <-> exists k, In (k, c) m).
  { intros c. rewrite list_elem_of_In, in_map_iff. split; [intros [[k c'] [<- ?]]; eauto|].
    intros [k ?]. by exists (k, c). }
  split_and!.
  - replace (map co_id (map snd m)) with (map fst m); [done|].
    rewrite map_map. apply map_ext_in. intros [k c] Hin. symmetry. apply (Hent k c Hin).
  - intros c [k Hin]%Hc. destruct (Hent k c Hin) as (-> & ? & ?). done.
  - intros o Ho Ht. destruct (Hcov o Ho Ht) as [c Hin]. exists c. split; [apply Hc; eauto|].
    apply (Hent _ _ Hin).
Qed.

(** ** Witnesses *)

Lemma getAvailableCollections_counts_witness :
  exists cs, fst (run (@getAvailableCollections sample_fs (fun _ _ => 0%Z) sample_ds 10)) = Ok cs /\
    NoDup (map co_id cs).
Proof.
  eexists. split; [reflexivity|]. eapply proj1.
  eapply (@getAvailableCollections_counts sample_fs sample_ds (fun _ _ => 0%Z) 10 sample_recordings);
    reflexivity.
Defined.
