(* ===== verification/Store.v ===== *)
(** * Store: the client state machine [useSemanticSearchStore]

    [src/app/stores/useSemanticSearchStore.ts] keeps the search state of the
    client in a zustand store.  Its state is the record [store]; [set] is
    one setter per field.  Every handler is an [action]; [dispatch] runs its
    synchronous part (up to the first [await]) and returns the [request] it
    leaves in flight; [resolve] runs the continuation of a request when its
    promise settles, against the current state (zustand's [set] merges
    into whatever the state is then) and against the search functions of
    [Retrieval] run on the [Datastore].  A [world] is the store with its
    requests in flight; [wstep] either dispatches an action or resolves any
    one of the requests in flight, so every interleaving of concurrent
    handlers is a sequence of steps.  [Pagination.tsx]'s page change is the
    action [A_pageChange].  The awaited part of [getAllStories] is also
    given as one sequential computation, [getAllStories_body], for the
    pagination probe.  The types [SearchType] ([@/types/searchType]) and
    [Transcription]/[Word] ([@/types/transcription]) live outside [src/]
    and are modelled from their use; [JSON.parse] of a transcription is the
    parameter [parseTranscription]. *)

From S2P Require Import Prelude Filters Backend Samples Scores Dedup Retrieval Collections.

(** [SearchType]: the three searches of the results page, and the
    in-transcript search the story page selects ([SearchType.traditional]
    in StoryContainer.tsx). *)
Inductive SearchType := SearchType_bm25 | SearchType_Vector | SearchType_Hybrid | SearchType_traditional.

(** [Transcription] and [Word] of [@/types/transcription]. *)
Record TWord := mkTWord { tw_text : option string; tw_start : Q; tw_end : Q }.
Record Paragraph := mkParagraph { p_start : Q; p_end : Q; p_speaker : string; p_words : list TWord }.
Record Section_ := mkSection { s_title : string; s_synopsis : string; s_start : Q; s_paragraphs : list Paragraph }.
Record Transcription := mkTranscription { t_sections : list Section_ }.

(** An entry of [allWords]. *)
Record Word := mkWord {
  w_text : string; w_word_idx : nat; w_para_idx : nat; w_section_idx : nat; w_start : Q; w_end : Q
}.

(** The state of [useSemanticSearchStore] (lines 22-120). *)
Record store := mkStore {
  hasSearched : bool;
  searchType : SearchType;
  searchTerm : string;
  loading : bool;
  stories : option (list wobj);
  story : option wobj;
  storyHubPage : option wobj;
  transcript : option Transcription;
  allWords : option (list Word);
  isSemanticSearching : bool;
  loadingSearch : bool;
  selected_ner_labels : list string;
  matches : list wobj;
  currentMatchIndex : Z;
  result : option (list wobj);
  currentPage : Z;
  hasNextStoriesPage : bool;
  nerFilters : list string;
  collections : list CollectionFilterOption;
  selectedCollectionIds : list string
}.

(** [set({ field: v })], one field at a time. *)
Definition set_hasSearched (v : bool) (s : store) : store :=
  mkStore v (searchType s) (searchTerm s) (loading s) (stories s) (story s) (storyHubPage s)
    (transcript s) (allWords s) (isSemanticSearching s) (loadingSearch s)
    (selected_ner_labels s) (matches s) (currentMatchIndex s) (result s) (currentPage s)
    (hasNextStoriesPage s) (nerFilters s) (collections s) (selectedCollectionIds s).
Definition set_searchType (v : SearchType) (s : store) : store :=
  mkStore (hasSearched s) v (searchTerm s) (loading s) (stories s) (story s) (storyHubPage s)
    (transcript s) (allWords s) (isSemanticSearching s) (loadingSearch s)
    (selected_ner_labels s) (matches s) (currentMatchIndex s) (result s) (currentPage s)
    (hasNextStoriesPage s) (nerFilters s) (collections s) (selectedCollectionIds s).
Definition set_searchTerm (v : string) (s : store) : store :=
  mkStore (hasSearched s) (searchType s) v (loading s) (stories s) (story s) (storyHubPage s)
    (transcript s) (allWords s) (isSemanticSearching s) (loadingSearch s)
    (selected_ner_labels s) (matches s) (currentMatchIndex s) (result s) (currentPage s)
    (hasNextStoriesPage s) (nerFilters s) (collections s) (selectedCollectionIds s).
Definition set_loading (v : bool) (s : store) : store :=
  mkStore (hasSearched s) (searchType s) (searchTerm s) v (stories s) (story s) (storyHubPage s)
    (transcript s) (allWords s) (isSemanticSearching s) (loadingSearch s)
    (selected_ner_labels s) (matches s) (currentMatchIndex s) (result s) (currentPage s)
    (hasNextStoriesPage s) (nerFilters s) (collections s) (selectedCollectionIds s).
Definition set_stories (v : option (list wobj)) (s : store) : store :=
  mkStore (hasSearched s) (searchType s) (searchTerm s) (loading s) v (story s) (storyHubPage s)
    (transcript s) (allWords s) (isSemanticSearching s) (loadingSearch s)
    (selected_ner_labels s) (matches s) (currentMatchIndex s) (result s) (currentPage s)
    (hasNextStoriesPage s) (nerFilters s) (collections s) (selectedCollectionIds s).
Definition set_story (v : option wobj) (s : store) : store :=
  mkStore (hasSearched s) (searchType s) (searchTerm s) (loading s) (stories s) v
    (storyHubPage s) (transcript s) (allWords s) (isSemanticSearching s) (loadingSearch s)
    (selected_ner_labels s) (matches s) (currentMatchIndex s) (result s) (currentPage s)
    (hasNextStoriesPage s) (nerFilters s) (collections s) (selectedCollectionIds s).
Definition set_storyHubPage (v : option wobj) (s : store) : store :=
  mkStore (hasSearched s) (searchType s) (searchTerm s) (loading s) (stories s) (story s) v
    (transcript s) (allWords s) (isSemanticSearching s) (loadingSearch s)
    (selected_ner_labels s) (matches s) (currentMatchIndex s) (result s) (currentPage s)
    (hasNextStoriesPage s) (nerFilters s) (collections s) (selectedCollectionIds s).
Definition set_transcript (v : option Transcription) (s : store) : store :=
  mkStore (hasSearched s) (searchType s) (searchTerm s) (loading s) (stories s) (story s)
    (storyHubPage s) v (allWords s) (isSemanticSearching s) (loadingSearch s)
    (selected_ner_labels s) (matches s) (currentMatchIndex s) (result s) (currentPage s)
    (hasNextStoriesPage s) (nerFilters s) (collections s) (selectedCollectionIds s).
Definition set_allWords (v : option (list Word)) (s : store) : store :=
  mkStore (hasSearched s) (searchType s) (searchTerm s) (loading s) (stories s) (story s)
    (storyHubPage s) (transcript s) v (isSemanticSearching s) (loadingSearch s)
    (selected_ner_labels s) (matches s) (currentMatchIndex s) (result s) (currentPage s)
    (hasNextStoriesPage s) (nerFilters s) (collections s) (selectedCollectionIds s).
Definition set_isSemanticSearching (v : bool) (s : store) : store :=
  mkStore (hasSearched s) (searchType s) (searchTerm s) (loading s) (stories s) (story s)
    (storyHubPage s) (transcript s) (allWords s) v (loadingSearch s) (selected_ner_labels s)
    (matches s) (currentMatchIndex s) (result s) (currentPage s) (hasNextStoriesPage s)
    (nerFilters s) (collections s) (selectedCollectionIds s).
Definition set_loadingSearch (v : bool) (s : store) : store :=
  mkStore (hasSearched s) (searchType s) (searchTerm s) (loading s) (stories s) (story s)
    (storyHubPage s) (transcript s) (allWords s) (isSemanticSearching s) v
    (selected_ner_labels s) (matches s) (currentMatchIndex s) (result s) (currentPage s)
    (hasNextStoriesPage s) (nerFilters s) (collections s) (selectedCollectionIds s).
Definition set_selected_ner_labels (v : list string) (s : store) : store :=
  mkStore (hasSearched s) (searchType s) (searchTerm s) (loading s) (stories s) (story s)
    (storyHubPage s) (transcript s) (allWords s) (isSemanticSearching s) (loadingSearch s) v
    (matches s) (currentMatchIndex s) (result s) (currentPage s) (hasNextStoriesPage s)
    (nerFilters s) (collections s) (selectedCollectionIds s).
Definition set_matches (v : list wobj) (s : store) : store :=
  mkStore (hasSearched s) (searchType s) (searchTerm s) (loading s) (stories s) (story s)
    (storyHubPage s) (transcript s) (allWords s) (isSemanticSearching s) (loadingSearch s)
    (selected_ner_labels s) v (currentMatchIndex s) (result s) (currentPage s)
    (hasNextStoriesPage s) (nerFilters s) (collections s) (selectedCollectionIds s).
Definition set_currentMatchIndex (v : Z) (s : store) : store :=
  mkStore (hasSearched s) (searchType s) (searchTerm s) (loading s) (stories s) (story s)
    (storyHubPage s) (transcript s) (allWords s) (isSemanticSearching s) (loadingSearch s)
    (selected_ner_labels s) (matches s) v (result s) (currentPage s) (hasNextStoriesPage s)
    (nerFilters s) (collections s) (selectedCollectionIds s).
Definition set_result (v : option (list wobj)) (s : store) : store :=
  mkStore (hasSearched s) (searchType s) (searchTerm s) (loading s) (stories s) (story s)
    (storyHubPage s) (transcript s) (allWords s) (isSemanticSearching s) (loadingSearch s)
    (selected_ner_labels s) (matches s) (currentMatchIndex s) v (currentPage s)
    (hasNextStoriesPage s) (nerFilters s) (collections s) (selectedCollectionIds s).
Definition set_currentPage (v : Z) (s : store) : store :=
  mkStore (hasSearched s) (searchType s) (searchTerm s) (loading s) (stories s) (story s)
    (storyHubPage s) (transcript s) (allWords s) (isSemanticSearching s) (loadingSearch s)
    (selected_ner_labels s) (matches s) (currentMatchIndex s) (result s) v
    (hasNextStoriesPage s) (nerFilters s) (collections s) (selectedCollectionIds s).
Definition set_hasNextStoriesPage (v : bool) (s : store) : store :=
  mkStore (hasSearched s) (searchType s) (searchTerm s) (loading s) (stories s) (story s)
    (storyHubPage s) (transcript s) (allWords s) (isSemanticSearching s) (loadingSearch s)
    (selected_ner_labels s) (matches s) (currentMatchIndex s) (result s) (currentPage s) v
    (nerFilters s) (collections s) (selectedCollectionIds s).
Definition set_nerFilters (v : list string) (s : store) : store :=
  mkStore (hasSearched s) (searchType s) (searchTerm s) (loading s) (stories s) (story s)
    (storyHubPage s) (transcript s) (allWords s) (isSemanticSearching s) (loadingSearch s)
    (selected_ner_labels s) (matches s) (currentMatchIndex s) (result s) (currentPage s)
    (hasNextStoriesPage s) v (collections s) (selectedCollectionIds s).
Definition set_collections (v : list CollectionFilterOption) (s : store) : store :=
  mkStore (hasSearched s) (searchType s) (searchTerm s) (loading s) (stories s) (story s)
    (storyHubPage s) (transcript s) (allWords s) (isSemanticSearching s) (loadingSearch s)
    (selected_ner_labels s) (matches s) (currentMatchIndex s) (result s) (currentPage s)
    (hasNextStoriesPage s) (nerFilters s) v (selectedCollectionIds s).
Definition set_selectedCollectionIds (v : list string) (s : store) : store :=
  mkStore (hasSearched s) (searchType s) (searchTerm s) (loading s) (stories s) (story s)
    (storyHubPage s) (transcript s) (allWords s) (isSemanticSearching s) (loadingSearch s)
    (selected_ner_labels s) (matches s) (currentMatchIndex s) (result s) (currentPage s)
    (hasNextStoriesPage s) (nerFilters s) (collections s) v.

(** The initial state (lines 125-143 and 531). *)
Definition initial_store : store :=
  mkStore false SearchType_bm25 "" true None None None None None false false [] [] (-1)%Z None
    1%Z false [] [] [].

(** The three search functions a handler calls. *)
Inductive search_mode := M_bm25 | M_vector | M_hybrid.

(** A handler waiting for its promise, with what it read before awaiting. *)
Inductive request :=
| R_loadCollections
| R_getAllStories (collection : schema) (limit offset : nat) (sel : list string)
| R_getStoryByUuid (uuid : string)
| R_getStoryTranscriptByUuid (uuid : string)
| R_search (mode : search_mode) (collection : schema) (term : string) (limit offset : nat)
    (filter sel : list string) (minValue maxValue : option Q)
| R_storySearch (mode : search_mode) (collection : schema) (theirStoryId term : string)
    (limit : nat) (nerFilters : list string) (minValue maxValue : option Q).

Inductive action :=
| A_setSearchTerm (term : string)
| A_setLoading (b : bool)
| A_setCollections (cs : list CollectionFilterOption)
| A_setSelectedCollectionIds (ids : list string)
| A_clearCollectionFilters
| A_loadCollections
| A_setHasSearched (b : bool)
| A_setSearchType (t : SearchType)
| A_getAllStories (collection : schema) (limit offset : nat)
| A_getStoryByUuid (uuid : string)
| A_getStoryTranscriptByUuid (uuid : string)
| A_setUpdateSelectedNerLabel (label : string)
| A_setSelectedNerLabels (labels : list string)
| A_runSearch (mode : search_mode) (collection : schema) (limit offset : nat)
    (filter : list string) (minValue maxValue : option Q)
| A_runStorySearch (mode : search_mode) (collection : schema) (limit : nat)
    (nerFilters : list string) (minValue maxValue : option Q)
| A_setIsSemanticSearching (b : bool)
| A_clearSearch
| A_nextMatch
| A_previousMatch
| A_setIsSearching (b : bool)
| A_setLoadingSearch (b : bool)
| A_setCurrentPage (page : Z)
| A_setNerFilters (filters : list string)
| A_clearStore
| A_pageChange (page : Z).

(** [setUpdateSelectedNerLabel] (268-274): toggle a label. *)
Definition toggle_label (label : string) (labels : list string) : list string :=
  if bool_decide (label ∈ labels) then filter (fun l => l <> label) labels else labels ++ [label].

(** [nextMatch] (533-539): JS [%] is [Z.rem]. *)
Definition nextMatch (s : store) : store :=
  let len := Z.of_nat (length (matches s)) in
  if (0 <? len)%Z then set_currentMatchIndex (Z.rem (currentMatchIndex s + 1) len) s else s.

(** [previousMatch] (541-547). *)
Definition previousMatch (s : store) : store :=
  let len := Z.of_nat (length (matches s)) in
  if (0 <? len)%Z then
    set_currentMatchIndex (if (currentMatchIndex s =? 0)%Z then len - 1 else currentMatchIndex s - 1)%Z s
  else s.

(** [clearSearch] (518-529). *)
Definition clearSearch (s : store) : store :=
  set_searchTerm "" (set_result None (set_matches [] (set_isSemanticSearching false
    (set_currentMatchIndex (-1)%Z s)))).

(** [clearStore] (557-581): [hasSearched] is not reset. *)
Definition clearStore (s : store) : store :=
  mkStore (hasSearched s) SearchType_bm25 "" false None None None None (allWords s) false false []
    [] (-1)%Z None 1%Z false [] [] [].

(** [storyHubPage?.uuid || ''] *)
Definition hub_uuid (s : store) : string :=
  match storyHubPage s with Some o => js_or (uuid o) "" | None => "" end.

(** [allWords] of [getStoryTranscriptByUuid] (234-249). *)
Definition flatten_words (t : option Transcription) : list Word :=
  match t with
  | None => []
  | Some tr =>
      concat (imap (fun sectionIdx sec =>
        concat (imap (fun paraIdx para =>
          imap (fun wordIdx w =>
            mkWord (js_or (tw_text w) "") wordIdx paraIdx sectionIdx (tw_start w) (tw_end w))
            (p_words para)) (s_paragraphs sec))) (t_sections tr))
  end.

Section Handlers.
(** [PAGINATION_ITEMS_PER_PAGE] of [@/app/constants]. *)
Context (PAGINATION_ITEMS_PER_PAGE : nat).

(** Pagination.tsx [handlePageChange]: [setCurrentPage(page)], then
    [getAllStories] of the page (the store's [getAllStories] sets [loading]). *)
Definition handlePageChange (page : Z) (s : store) : store * list request :=
  if (page =? currentPage s)%Z then (s, []) else
  let s := set_currentPage page s in
  (set_loading true s,
   [R_getAllStories Testimonies PAGINATION_ITEMS_PER_PAGE
      (Z.to_nat ((page - 1) * Z.of_nat PAGINATION_ITEMS_PER_PAGE)) (selectedCollectionIds s)]).

(** The synchronous part of each handler, and the request it leaves in flight. *)
Definition dispatch (a : action) (s : store) : store * list request :=
  match a with
  | A_setSearchTerm term => (set_searchTerm term s, [])
  | A_setLoading b => (set_loading b s, [])
  | A_setCollections cs => (set_collections cs s, [])
  | A_setSelectedCollectionIds ids => (set_selectedCollectionIds ids s, [])
  | A_clearCollectionFilters => (set_selectedCollectionIds [] s, [])
  | A_loadCollections => (s, [R_loadCollections])
  | A_setHasSearched b => (set_hasSearched b s, [])
  | A_setSearchType t => (set_searchType t s, [])
  | A_getAllStories collection limit offset =>
      (set_loading true s, [R_getAllStories collection limit offset (selectedCollectionIds s)])
  | A_getStoryByUuid uuid => (set_loading true s, [R_getStoryByUuid uuid])
  | A_getStoryTranscriptByUuid uuid => (set_loading true s, [R_getStoryTranscriptByUuid uuid])
  | A_setUpdateSelectedNerLabel label =>
      (set_selected_ner_labels (toggle_label label (selected_ner_labels s)) s, [])
  | A_setSelectedNerLabels labels => (set_selected_ner_labels labels s, [])
  | A_runSearch mode collection limit offset filter minValue maxValue =>
      if negb (js_truthy (searchTerm s)) then (s, []) else
      (set_loading true s,
       [R_search mode collection (searchTerm s) limit offset filter (selectedCollectionIds s)
          minValue maxValue])
  | A_runStorySearch mode collection limit nerFilters minValue maxValue =>
      let theirStoryId := hub_uuid s in
      if negb (js_truthy (searchTerm s)) || negb (js_truthy theirStoryId) then (s, []) else
      (set_isSemanticSearching true s,
       [R_storySearch mode collection theirStoryId (searchTerm s) limit nerFilters minValue maxValue])
  | A_setIsSemanticSearching b => (set_isSemanticSearching b s, [])
  | A_clearSearch => (clearSearch s, [])
  | A_nextMatch => (nextMatch s, [])
  | A_previousMatch => (previousMatch s, [])
  | A_setIsSearching b => (set_isSemanticSearching b s, [])
  | A_setLoadingSearch b => (set_loadingSearch b s, [])
  | A_setCurrentPage page => (set_currentPage page s, [])
  | A_setNerFilters filters => (set_nerFilters filters s, [])
  | A_clearStore => (clearStore s, [])
  | A_pageChange page => handlePageChange page s
  end.
End Handlers.

Section Resolution.
Context `{Datastore} `{FileSystem}.
Context (localeCompare : string -> string -> Z).
(** [JSON.parse] of a transcription; [None] when it throws. *)
Context (parseTranscription : string -> option Transcription).

(** The awaited part of [getAllStories] (183-200): the page, then the
    probe of size 1 at [offset + limit] when the page is full. *)
Definition getAllStories_body (collection : schema) (limit offset : nat)
    (selectedCollectionIds : list string) : DS (list wobj * bool) :=
  stories ← getAllStoriesFromCollection collection limit offset selectedCollectionIds;
  hasNextStoriesPage ←
    (if Nat.eqb (length stories) limit then
       nextPageProbe ← getAllStoriesFromCollection collection 1 (offset + limit) selectedCollectionIds;
       mret (Nat.ltb 0 (length nextPageProbe))
     else mret false);
  mret (stories, hasNextStoriesPage).

(** The awaited part of [getStoryTranscriptByUuid] (223-232). *)
Definition getStoryTranscript_body (uuid : string) : DS (option wobj * option Transcription) :=
  response ← fetchStoryTranscriptByUuid uuid;
  let transcriptionJson := response ≫= (fun o => transcription (properties o)) in
  parsedTranscript ←
    (match transcriptionJson with
     | Some json =>
         if js_truthy json then
           match parseTranscription json with
           | Some t => mret (Some t)
           | None => tm_throw JsonParseFailed
           end
         else mret None
     | None => mret None
     end);
  mret (response, parsedTranscript).

Definition search_run (mode : search_mode) (collection : schema) (term : string)
    (limit offset : nat) (filter sel : list string) (minValue maxValue : option Q) : DS (list wobj) :=
  match mode with
  | M_bm25 => bm25Search collection term limit offset filter sel minValue maxValue
  | M_vector => vectorSearch collection term limit offset filter sel minValue maxValue
  | M_hybrid => hybridSearch collection term limit offset filter sel minValue maxValue
  end.

Definition storySearch_run (mode : search_mode) (collection : schema) (theirStoryId term : string)
    (limit : nat) (nerFilters : list string) (minValue maxValue : option Q) : DS (list wobj) :=
  match mode with
  | M_bm25 => bm25SearchForStoryId collection theirStoryId term limit nerFilters minValue maxValue
  | M_vector => vectorSearchForStoryId collection theirStoryId term limit nerFilters minValue maxValue
  | M_hybrid => hybridSearchForStoryId collection theirStoryId term limit nerFilters minValue maxValue
  end.

(** The continuation of a request, on the state at the time it settles. *)
Definition resolve (r : request) (s : store) : store :=
  match r with
  | R_loadCollections =>
      match fst (run (getAvailableCollections localeCompare 5000)) with
      | Ok collections =>
          let collectionIds := map co_id collections in
          let currentSelection :=
            filter (fun id => id ∈ collectionIds) (selectedCollectionIds s) in
          set_collections collections
            (set_selectedCollectionIds
               (if Nat.ltb 1 (length collections) then currentSelection else []) s)
      | Err _ => s
      end
  | R_getAllStories collection limit offset sel =>
      match fst (run (getAllStories_body collection limit offset sel)) with
      | Ok (stories, hasNext) =>
          set_stories (Some stories) (set_hasNextStoriesPage hasNext (set_loading false s))
      | Err _ => set_hasNextStoriesPage false (set_loading false s)
      end
  | R_getStoryByUuid uuid =>
      match fst (run (getStoryByUuid uuid)) with
      | Ok response => set_story response (set_loading false s)
      | Err _ => set_loading false s
      end
  | R_getStoryTranscriptByUuid uuid =>
      match fst (run (getStoryTranscript_body uuid)) with
      | Ok (response, parsedTranscript) =>
          set_allWords (Some (flatten_words parsedTranscript))
            (set_transcript parsedTranscript (set_loading false
               (set_storyHubPage response (set_selected_ner_labels [] s))))
      | Err _ => set_loading false s
      end
  | R_search mode collection term limit offset filter sel minValue maxValue =>
      (* no [catch]: a rejection leaves the state as it is *)
      match fst (run (search_run mode collection term limit offset filter sel minValue maxValue)) with
      | Ok response => set_result (Some response) (set_loading false s)
      | Err _ => s
      end
  | R_storySearch mode collection theirStoryId term limit nerFilters minValue maxValue =>
      match fst (run (storySearch_run mode collection theirStoryId term limit nerFilters
                        minValue maxValue)) with
      | Ok response =>
          let uniqueMatches := uniqueMatches chunk_start response in
          set_result (Some response) (set_matches uniqueMatches
            (set_currentMatchIndex (if Nat.ltb 0 (length uniqueMatches) then 0 else -1)%Z
               (set_isSemanticSearching false s)))
      | Err _ => set_result None (set_matches [] (set_isSemanticSearching false s))
      end
  end.

Context (PAGINATION_ITEMS_PER_PAGE : nat).

(** The store with the requests in flight. *)
Record world := mkWorld { w_store : store; w_inflight : list request }.

(** A step dispatches an action or settles any request in flight. *)
Inductive wstep : world -> world -> Prop :=
| wstep_dispatch (a : action) (s : store) (rs : list request) :
    wstep (mkWorld s rs)
          (mkWorld (fst (dispatch PAGINATION_ITEMS_PER_PAGE a s))
                   (rs ++ snd (dispatch PAGINATION_ITEMS_PER_PAGE a s)))
| wstep_resolve (s : store) (rs1 : list request) (r : request) (rs2 : list request) :
    wstep (mkWorld s (rs1 ++ r :: rs2)) (mkWorld (resolve r s) (rs1 ++ rs2)).

Definition reachable (w : world) : Prop := rtc wstep (mkWorld initial_store []) w.
End Resolution.

(** Pagination.tsx [totalPages]. *)
Definition totalPages (s : store) : Z := if hasNextStoriesPage s then currentPage s + 1 else currentPage s.

(** The match cursor: [-1] or a valid index into [matches] when there are matches. *)
Definition match_cursor_ok (s : store) : Prop :=
  (-1 <= currentMatchIndex s)%Z /\
  (matches s <> [] -> 0 <= currentMatchIndex s < Z.of_nat (length (matches s)))%Z.

(** A store showing two matches with the cursor on the second. *)
Definition sample_store : store :=
  set_currentMatchIndex 1 (set_matches [chunk_a; chunk_b] initial_store).

(** ** Lemmas *)

Lemma match_cursor_ok_ext (s s' : store) :
  matches s' = matches s -> currentMatchIndex s' = currentMatchIndex s ->
  match_cursor_ok s -> match_cursor_ok s'.
Proof. unfold match_cursor_ok. intros -> ->. done. Qed.

Lemma set_currentMatchIndex_same (s : store) : set_currentMatchIndex (currentMatchIndex s) s = s.
Proof. by destruct s. Qed.

Lemma set_currentMatchIndex_twice (v w : Z) (s : store) :
  set_currentMatchIndex v (set_currentMatchIndex w s) = set_currentMatchIndex v s.
Proof. reflexivity. Qed.

Lemma nextMatch_ok (s : store) : match_cursor_ok s -> match_cursor_ok (nextMatch s).
Proof.
  unfold nextMatch, match_cursor_ok. intros [Hlo Hin].
  destruct (Z.ltb_spec 0 (Z.of_nat (length (matches s)))) as [Hlen|Hlen]; [|done]. simpl.
  assert (matches s <> []) as Hne by (intros E; rewrite E in Hlen; simpl in Hlen; lia).
  specialize (Hin Hne). pose proof (Z.rem_bound_pos (currentMatchIndex s + 1)
    (Z.of_nat (length (matches s)))) as Hb. split; [|intros _]; lia.
Qed.

Lemma previousMatch_ok (s : store) : match_cursor_ok s -> match_cursor_ok (previousMatch s).
Proof.
  unfold previousMatch, match_cursor_ok. intros [Hlo Hin].
  destruct (Z.ltb_spec 0 (Z.of_nat (length (matches s)))) as [Hlen|Hlen]; [|done]. simpl.
  assert (matches s <> []) as Hne by (intros E; rewrite E in Hlen; simpl in Hlen; lia).
  specialize (Hin Hne). destruct (Z.eqb_spec (currentMatchIndex s) 0); split; lia.
Qed.

Lemma dispatch_ok (P : nat) (a : action) (s : store) :
  match_cursor_ok s -> match_cursor_ok (fst (dispatch P a s)).
Proof.
  intros Hs. destruct a; simpl; unfold handlePageChange; repeat case_match; simpl;
    try apply nextMatch_ok; try apply previousMatch_ok; try done;
    try (eapply match_cursor_ok_ext; [reflexivity | reflexivity | exact Hs]);
    split; simpl; (lia || done).
Qed.

Lemma resolve_ok `{Datastore} `{FileSystem} (localeCompare : string -> string -> Z)
    (parseTranscription : string -> option Transcription) (r : request) (s : store) :
  match_cursor_ok s -> match_cursor_ok (resolve localeCompare parseTranscription r s).
Proof.
  intros Hs. destruct r; simpl; repeat case_match; simpl;
    try (eapply match_cursor_ok_ext; [reflexivity | reflexivity | exact Hs]).
  (* a story search settled (two cases) or failed *)
  all: split; simpl; [lia || apply Hs | intros Hne].
  all: repeat match goal with E : Nat.ltb _ _ = _ |- _ =>
         first [apply Nat.ltb_lt in E | apply Nat.ltb_ge in E] end.
  all: first [done | lia | destruct (uniqueMatches chunk_start _); simpl in *; [done | lia]].
Qed.

Lemma wstep_rtc_ok `{Datastore} `{FileSystem} (localeCompare : string -> string -> Z)
    (parseTranscription : string -> option Transcription) (P : nat) (w0 w : world) :
  rtc (wstep localeCompare parseTranscription P) w0 w ->
  match_cursor_ok (w_store w0) -> match_cursor_ok (w_store w).
Proof.
  induction 1 as [|w0 w1 w2 Hstep _ IH]; intros Hw0; [done|]. apply IH.
  inversion Hstep; subst; simpl in *; [by apply dispatch_ok | by apply resolve_ok].
Qed.

(** ** Properties *)

(** C11. In every state the store can reach, under any interleaving of its
    handlers and of the settling of their requests, the match cursor is
    [-1] or more, and is a valid index into [matches] whenever there are
    matches. *)
Theorem reachable_match_cursor_ok `{Datastore} `{FileSystem} (localeCompare : string -> string -> Z)
    (parseTranscription : string -> option Transcription) (PAGINATION_ITEMS_PER_PAGE : nat)
    (w : world) :
  reachable localeCompare parseTranscription PAGINATION_ITEMS_PER_PAGE w ->
  match_cursor_ok (w_store w).
Proof.
  intros Hr. eapply wstep_rtc_ok; [exact Hr | split; [simpl; lia | done]].
Qed.

(** With a valid cursor and at least one match, [previousMatch] undoes
    [nextMatch] and [nextMatch] undoes [previousMatch]. *)
Theorem next_previous_match (s : store) :
  match_cursor_ok s -> matches s <> [] ->
  previousMatch (nextMatch s) = s /\ nextMatch (previousMatch s) = s.
Proof.
  intros [Hlo Hin] Hne. specialize (Hin Hne).
  set (len := Z.of_nat (length (matches s))).
  assert (0 < len)%Z as Hlen by (unfold len; destruct (matches s); [done | simpl; lia]).
  assert (Hset : forall v, set_currentMatchIndex v s = s <-> v = currentMatchIndex s).
  { split; [intros <-; reflexivity | intros ->; apply set_currentMatchIndex_same]. }
  unfold nextMatch, previousMatch. fold len. rewrite (proj2 (Z.ltb_lt _ _) Hlen).
  cbn [matches set_currentMatchIndex currentMatchIndex]. fold len.
  rewrite (proj2 (Z.ltb_lt _ _) Hlen), !set_currentMatchIndex_twice, !Hset. split.
  - destruct (Z.eq_dec (currentMatchIndex s + 1) len) as [E|E].
    + rewrite E, Z.rem_same by lia. simpl. lia.
    + rewrite Z.rem_small by lia. destruct (Z.eqb_spec (currentMatchIndex s + 1) 0); lia.
  - destruct (Z.eqb_spec (currentMatchIndex s) 0) as [E|E].
    + rewrite Z.sub_add, Z.rem_same by lia. lia.
    + rewrite Z.sub_add, Z.rem_small by lia. reflexivity.
Qed.

(** The search handlers do nothing without a search term, and the
    story-scoped searches also do nothing without a story id: no state
    change and no request (the scope fails closed instead of searching the
    whole corpus). *)
Theorem search_handlers_guarded (P : nat) (s : store) (mode : search_mode) (collection : schema)
    (limit offset : nat) (filter : list string) (minValue maxValue : option Q) :
  (searchTerm s = "" ->
     dispatch P (A_runSearch mode collection limit offset filter minValue maxValue) s = (s, []) /\
     dispatch P (A_runStorySearch mode collection limit filter minValue maxValue) s = (s, [])) /\
  (hub_uuid s = "" ->
     dispatch P (A_runStorySearch mode collection limit filter minValue maxValue) s = (s, [])).
Proof.
  split.
  - intros E. simpl. by rewrite E.
  - intros E. simpl. rewrite E. simpl. by rewrite orb_true_r.
Qed.

(** The pagination probe of [getAllStories]: a page of fewer or more than
    [limit] stories makes no probe and reports no next page; a full page
    makes exactly one more fetch, of size 1 at [offset + limit] with the
    same filter, and reports a next page iff that fetch returns an object. *)
Theorem getAllStories_probe `{Datastore} (collection : schema) (limit offset : nat)
    (sel : list string) (stories : list wobj) :
  let q := mkQuery collection limit offset (buildCombinedFilters [] sel) in
  let q' := mkQuery collection 1 (offset + limit) (buildCombinedFilters [] sel) in
  ds_fetchObjects q = Ok stories ->
  (length stories <> limit ->
     run (getAllStories_body collection limit offset sel) = (Ok (stories, false), [CallFetch q])) /\
  (length stories = limit -> forall probe, ds_fetchObjects q' = Ok probe ->
     run (getAllStories_body collection limit offset sel) =
       (Ok (stories, Nat.ltb 0 (length probe)), [CallFetch q; CallFetch q'])).
Proof.
  intros q q' Hq. unfold getAllStories_body, getAllStoriesFromCollection, fetchObjects. tm_unfold.
  fold q. rewrite Hq. split.
  - intros Hne. by rewrite (proj2 (Nat.eqb_neq _ _) Hne).
  - intros Heq probe Hp. rewrite (proj2 (Nat.eqb_eq _ _) Heq). fold q'. by rewrite Hp.
Qed.

(** C12. When a story-scoped search fails, the store empties [matches] and
    clears [result] but keeps the previous [currentMatchIndex]. *)
Theorem storySearch_error_keeps_cursor `{Datastore} `{FileSystem}
    (localeCompare : string -> string -> Z) (parseTranscription : string -> option Transcription)
    (mode : search_mode) (collection : schema) (theirStoryId term : string) (limit : nat)
    (nerFilters : list string) (minValue maxValue : option Q) (e : error) (s : store) :
  fst (run (storySearch_run mode collection theirStoryId term limit nerFilters minValue maxValue))
    = Err e ->
  let s' := resolve localeCompare parseTranscription
              (R_storySearch mode collection theirStoryId term limit nerFilters minValue maxValue) s in
  matches s' = [] /\ result s' = None /\ currentMatchIndex s' = currentMatchIndex s.
Proof. intros E. simpl. by rewrite E. Qed.

(** ** Witnesses *)

Lemma reachable_match_cursor_ok_witness :
  match_cursor_ok (w_store (mkWorld
    (@resolve sample_ds sample_fs (fun _ _ => 0%Z) (fun _ => None)
       (R_search M_hybrid Chunks "paris" 5 0 [] [] None None)
       (fst (dispatch 10 (A_runSearch M_hybrid Chunks 5 0 [] None None)
          (fst (dispatch 10 (A_setSearchTerm "paris") initial_store))))) [])).
Proof.
  apply (@reachable_match_cursor_ok sample_ds sample_fs (fun _ _ => 0%Z) (fun _ => None) 10).
  eapply rtc_l; [apply (wstep_dispatch _ _ _ (A_setSearchTerm "paris"))|]. simpl.
  eapply rtc_l; [apply (wstep_dispatch _ _ _ (A_runSearch M_hybrid Chunks 5 0 [] None None))|]. simpl.
  eapply rtc_l; [apply (wstep_resolve _ _ _ _ [])|]. simpl. apply rtc_refl.
Defined.

Lemma next_previous_match_witness :
  previousMatch (nextMatch sample_store) = sample_store /\ nextMatch (previousMatch sample_store) = sample_store.
Proof. apply next_previous_match; [split; simpl; lia | discriminate]. Defined.

Lemma getAllStories_probe_witness :
  run (@getAllStories_body sample_ds Testimonies 2 0 []) =
    (Ok (take 2 sample_recordings, true),
     [CallFetch (mkQuery Testimonies 2 0 (buildCombinedFilters [] []));
      CallFetch (mkQuery Testimonies 1 2 (buildCombinedFilters [] []))]).
Proof.
  refine (proj2 (@getAllStories_probe sample_ds Testimonies 2 0 [] (take 2 sample_recordings) _) _
            [sample_recording "rec3" "oral"] _); vm_compute; reflexivity.
Defined.

Lemma storySearch_error_keeps_cursor_witness :
  let s' := @resolve down_ds sample_fs (fun _ _ => 0%Z) (fun _ => None)
              (R_storySearch M_hybrid Chunks "rec1" "paris" 5 [] None None) sample_store in
  matches s' = [] /\ result s' = None /\ currentMatchIndex s' = currentMatchIndex sample_store.
Proof.
  apply (@storySearch_error_keeps_cursor down_ds sample_fs (fun _ _ => 0%Z) (fun _ => None)
           M_hybrid Chunks "rec1" "paris" 5 [] None None (EmbeddingFailed 503)).
  vm_compute. reflexivity.
Defined.

Lemma search_handlers_guarded_witness :
  dispatch 10 (A_runStorySearch M_hybrid Chunks 5 [] None None) initial_store = (initial_store, []).
Proof.
  apply (proj2 (search_handlers_guarded 10 initial_store M_hybrid Chunks 5 0 [] None None)).
  vm_compute. reflexivity.
Defined.
