(* ===== verification/ActiveFilters.v ===== *)
(** * ActiveFilters: the bar of active filters above the search results

    [src/components/ActiveFiltersDisplay.tsx] shows a chip per entity-label
    filter and per selected collection, and a [Clear all] chip.  Its
    handlers call the semantic-search store (Store.v): removing an entity
    chip sets [nerFilters]; removing a collection chip, or [Clear all] when
    collections are selected, also resets the page and re-runs the current
    query ([refreshCollectionQueries]): the story listing before any
    search, otherwise the search of the current type.

    A handler reads the store's fields through the closure of the render it
    belongs to, the snapshot [s]; the store actions it calls run on the live
    store one after the other ([dispatch_all]) and read it again there
    (zustand's [set] is synchronous).  The threshold store ([minValue],
    [maxValue]) is not under [src/] and is a parameter; so are the layout
    store's [setIsTopBarCollapsed], an output, and the scroll geometry of the
    chip strip, an input. *)

From S2P Require Import Prelude Filters OrgConfig Collections Store.

Local Open Scope Q_scope.
Local Open Scope portal_scope.

(** The [switch (searchType)] of 65-76 ([default] is BM25). *)
Definition search_mode_of (t : SearchType) : search_mode :=
  match t with
  | SearchType_Hybrid => M_hybrid
  | SearchType_Vector => M_vector
  | SearchType_bm25 | SearchType_traditional => M_bm25
  end.

Section Handlers.
Context (PAGINATION_ITEMS_PER_PAGE : nat) (minValue maxValue : option Q).

(** [refreshCollectionQueries] (42-77) *)
Definition refreshCollectionQueries (s : store) : list action :=
  A_setCurrentPage 1 ::
  if negb (hasSearched s) then [A_getAllStories Testimonies PAGINATION_ITEMS_PER_PAGE 0]
  else [A_runSearch (search_mode_of (searchType s)) Chunks 1000 0 (nerFilters s) minValue maxValue].

(** [handleRemoveFilter] (79-82) *)
Definition handleRemoveFilter (s : store) (filterToRemove : string) : list action :=
  [A_setNerFilters (List.filter (fun filter => negb (String.eqb filter filterToRemove)) (nerFilters s))].

(** [handleClearAllFilters] (84-90) *)
Definition handleClearAllFilters (s : store) : list action :=
  A_setNerFilters [] ::
  if (0 <? length (selectedCollectionIds s))%nat
  then A_setSelectedCollectionIds [] :: refreshCollectionQueries s else [].

(** The [onDelete] of a collection chip (233-236). *)
Definition removeCollectionFilter (s : store) (collectionId : string) : list action :=
  A_setSelectedCollectionIds
    (List.filter (fun selectedId => negb (String.eqb selectedId collectionId)) (selectedCollectionIds s))
  :: refreshCollectionQueries s.

(** The store actions of a handler, dispatched in order on the live store,
    with the requests they leave in flight. *)
Fixpoint dispatch_all (acts : list action) (s : store) : store * list request :=
  match acts with
  | [] => (s, [])
  | a :: r =>
      let '(s1, rs1) := dispatch PAGINATION_ITEMS_PER_PAGE a s in
      let '(s2, rs2) := dispatch_all r s1 in
      (s2, rs1 ++ rs2)
  end.
End Handlers.

(** ** Rendering (140-244) *)

(** [new Map(collections.map(c => [c.id, c.name]))] (40): a repeated id
    keeps its first position and its last name. *)
Definition selectedCollectionMap (collections : list CollectionFilterOption) : list (string * string) :=
  fold_left (fun m c => amap_set (co_id c) (co_name c) m) collections [].

Inductive chip :=
  | ClearAllChip
  | NerChip (filter displayName color : string)
  | CollectionChip (collectionId label : string).

(** The chips in order, or [None] when the bar renders nothing (140-142). *)
Definition activeFilterChips (labels : list NerLabelConfig) (fallbackColors : list string) (s : store)
    : option (list chip) :=
  if (length (nerFilters s) =? 0)%nat && (length (selectedCollectionIds s) =? 0)%nat then None else
  let selectedCollectionMap := selectedCollectionMap (collections s) in
  Some ((if (0 <? length (nerFilters s) + length (selectedCollectionIds s))%nat then [ClearAllChip] else []) ++
        map (fun filter => NerChip filter (getNerDisplayName labels filter) (getNerColor labels fallbackColors filter))
          (nerFilters s) ++
        map (fun collectionId => CollectionChip collectionId (amap_get collectionId selectedCollectionMap ?? collectionId))
          (selectedCollectionIds s)).

(** The mobile effect (133-138): whether it calls [setIsTopBarCollapsed(true)]. *)
Definition collapsesTopBar (isMobile : bool) (s : store) : bool :=
  isMobile && ((0 <? length (nerFilters s))%nat || (0 <? length (selectedCollectionIds s))%nat).

(** ** The scroll arrows of the chip strip (92-113) *)

(** The strip's [scrollWidth], [clientWidth] and [scrollLeft]. *)
Record strip := mkStrip { scrollWidth : Q; clientWidth : Q; scrollLeft : Q }.

(** [updateFilterScrollButtons] (92-103): (left arrow shown, right arrow shown). *)
Definition updateFilterScrollButtons (element : option strip) : bool * bool :=
  match element with
  | None => (false, false)
  | Some e =>
      let maxScrollLeft := scrollWidth e - clientWidth e in
      (Qlt_bool 0 (scrollLeft e), Qlt_bool 1 (maxScrollLeft - scrollLeft e))
  end.

(** [scrollFilters] (105-113): [scrollBy] moves by 220 pixels, and the
    browser keeps [scrollLeft] within [0, scrollWidth - clientWidth]. *)
Definition scrollFilters (goLeft : bool) (e : strip) : strip :=
  let target := scrollLeft e + (if goLeft then -220 else 220) in
  mkStrip (scrollWidth e) (clientWidth e) (Qmax 0 (Qmin (scrollWidth e - clientWidth e) target)).

(** ** The component (115-131, 144-258)

    The component's own state: the strip the ref [filtersScrollRef] holds
    ([None] while the bar renders nothing) and the two arrow flags. *)
Record filter_bar := mkFilterBar {
  filtersScrollRef : option strip;
  canScrollFiltersLeft : bool;
  canScrollFiltersRight : bool
}.

Definition filter_bar_init : filter_bar := mkFilterBar None false false.

(** A call of [updateFilterScrollButtons] on the strip the ref holds. *)
Definition set_scroll_buttons (b : filter_bar) : filter_bar :=
  let '(l, r) := updateFilterScrollButtons (filtersScrollRef b) in mkFilterBar (filtersScrollRef b) l r.

(** What reaches the component: a render that changes the number of
    entity filters or of selected collections, with the strip it mounts
    (the effect of 115-131 runs again); a change of the strip's box, which
    the [ResizeObserver] reports; a scroll of the strip, which the
    [scroll] listener reports; a click on a shown arrow; and a change of
    the strip's content that keeps the counts and the box, as when a
    collection chip's label changes from the id to the name. *)
Inductive filter_bar_event :=
  | FilterCountsChanged (el : option strip)
  | StripResized (e : strip)
  | StripScrolled (e : strip)
  | ArrowClicked (goLeft : bool)
  | StripContentChanged (e : strip).

Definition filter_bar_step (b : filter_bar) (ev : filter_bar_event) : filter_bar :=
  match ev with
  | FilterCountsChanged el =>
      (* the effect returns early without a strip (117) *)
      let b' := mkFilterBar el (canScrollFiltersLeft b) (canScrollFiltersRight b) in
      match el with Some _ => set_scroll_buttons b' | None => b' end
  | StripResized e | StripScrolled e =>
      set_scroll_buttons (mkFilterBar (Some e) (canScrollFiltersLeft b) (canScrollFiltersRight b))
  | ArrowClicked goLeft =>
      if negb (if goLeft then canScrollFiltersLeft b else canScrollFiltersRight b) then b else
      match filtersScrollRef b with
      | Some e =>
          let e' := scrollFilters goLeft e in
          (* [scrollBy] fires [scroll] only when the position moves *)
          if Qeq_bool (scrollLeft e') (scrollLeft e) then b
          else set_scroll_buttons (mkFilterBar (Some e') (canScrollFiltersLeft b) (canScrollFiltersRight b))
      | None => b
      end
  | StripContentChanged e => mkFilterBar (Some e) (canScrollFiltersLeft b) (canScrollFiltersRight b)
  end.

Definition run_filter_bar (b : filter_bar) (evs : list filter_bar_event) : filter_bar :=
  fold_left filter_bar_step evs b.

(** What the bar renders (140-258): nothing without filters, otherwise the
    left arrow while [canScrollFiltersLeft], the chips, and the right arrow
    while [canScrollFiltersRight]. *)
Record filters_view := mkFiltersView { fv_leftArrow : bool; fv_chips : list chip; fv_rightArrow : bool }.

Definition activeFiltersView (labels : list NerLabelConfig) (fallbackColors : list string) (s : store)
    (b : filter_bar) : option filters_view :=
  match activeFilterChips labels fallbackColors s with
  | None => None
  | Some chips => Some (mkFiltersView (canScrollFiltersLeft b) chips (canScrollFiltersRight b))
  end.

(** ** Properties *)

Section HandlerProps.
Context (PAGINATION_ITEMS_PER_PAGE : nat) (minValue maxValue : option Q).

(** The requests [refreshCollectionQueries] leaves in flight when it runs
    on a store whose selected collections are [sel]. *)
Definition refresh_requests (s : store) (sel : list string) : list request :=
  if hasSearched s then
    (if js_truthy (searchTerm s)
     then [R_search (search_mode_of (searchType s)) Chunks (searchTerm s) 1000 0 (nerFilters s) sel minValue maxValue]
     else [])
  else [R_getAllStories Testimonies PAGINATION_ITEMS_PER_PAGE 0 sel].

(** C13. [Clear all] empties the entity filters and the selected
    collections; when collections were selected it goes back to page 1 and
    re-runs the current query over all collections, but that query still
    carries the entity filters of the render, which it has just cleared. *)
Theorem handleClearAllFilters_spec (s : store) :
  let '(s', rs) := dispatch_all PAGINATION_ITEMS_PER_PAGE
                     (handleClearAllFilters PAGINATION_ITEMS_PER_PAGE minValue maxValue s) s in
  nerFilters s' = [] /\ selectedCollectionIds s' = [] /\
  match selectedCollectionIds s with
  | [] => rs = []
  | _ :: _ => currentPage s' = 1%Z /\ rs = refresh_requests s []
  end.
Proof.
  destruct s as [hs st term ld stories story hub tr words iss ls sel mt cmi res pg hn nf cs sids].
  unfold handleClearAllFilters, refresh_requests, refreshCollectionQueries; simpl.
  destruct sids as [|id ids]; simpl; [done|].
  destruct hs; simpl; [|done]. by destruct (js_truthy term).
Qed.

(** Removing a collection chip deselects that collection (and
    only it), goes back to page 1 and re-runs the current query over the
    remaining collections with the render's entity filters. *)
Theorem removeCollectionFilter_spec (s : store) (collectionId : string) :
  let sel := List.filter (fun selectedId => negb (String.eqb selectedId collectionId)) (selectedCollectionIds s) in
  let '(s', rs) := dispatch_all PAGINATION_ITEMS_PER_PAGE
                     (removeCollectionFilter PAGINATION_ITEMS_PER_PAGE minValue maxValue s collectionId) s in
  selectedCollectionIds s' = sel /\ collectionId ∉ sel /\
  (forall i, i <> collectionId -> i ∈ selectedCollectionIds s -> i ∈ sel) /\
  nerFilters s' = nerFilters s /\ currentPage s' = 1%Z /\ rs = refresh_requests s sel.
Proof.
  destruct s as [hs st term ld stories story hub tr words iss ls sel0 mt cmi res pg hn nf cs sids].
  unfold removeCollectionFilter, refresh_requests, refreshCollectionQueries; simpl.
  assert (Hsel : forall i, i ∈ List.filter (fun selectedId => negb (String.eqb selectedId collectionId)) sids <->
                           i ∈ sids /\ i <> collectionId).
  { intros i. rewrite !list_elem_of_In, filter_In, negb_true_iff, String.eqb_neq. tauto. }
  destruct hs; simpl; [destruct (js_truthy term)|]; simpl; (split_and!; [done|rewrite Hsel; tauto|intros i ? ?; apply Hsel; done|done|done|done]).
Qed.
End HandlerProps.

(** A JS [Map] built from pairs answers the value of the last pair with the key. *)
Lemma selectedCollectionMap_get (collections : list CollectionFilterOption) (collectionId : string) :
  amap_get collectionId (selectedCollectionMap collections) =
  co_name <$> last (List.filter (fun c => String.eqb (co_id c) collectionId) collections).
Proof.
  unfold selectedCollectionMap. induction collections as [|c cs IH] using rev_ind; [done|].
  rewrite fold_left_app, List.filter_app. simpl. rewrite amap_get_set, IH.
  destruct (String.eqb_spec (co_id c) collectionId) as [<-|Hne]; simpl.
  - rewrite decide_True by done. by rewrite last_snoc.
  - rewrite decide_False by congruence. by rewrite app_nil_r.
Qed.

(** The bar renders nothing without filters; otherwise it shows
    [Clear all], then a chip per entity filter with its display name and
    colour, then a chip per selected collection labelled with the name of
    the last collection with that id, or with the id when none has it. *)
Theorem activeFilterChips_spec (labels : list NerLabelConfig) (fallbackColors : list string) (s : store) :
  match activeFilterChips labels fallbackColors s with
  | None => nerFilters s = [] /\ selectedCollectionIds s = []
  | Some chips =>
      chips = ClearAllChip ::
        map (fun filter => NerChip filter (getNerDisplayName labels filter) (getNerColor labels fallbackColors filter))
          (nerFilters s) ++
        map (fun collectionId => CollectionChip collectionId
               (default collectionId (co_name <$> last (List.filter (fun c => String.eqb (co_id c) collectionId)
                                                          (collections s)))))
          (selectedCollectionIds s)
  end.
Proof.
  unfold activeFilterChips.
  erewrite (List.map_ext (fun collectionId => CollectionChip collectionId _)).
  2: { intros id. unfold nullish. rewrite selectedCollectionMap_get. reflexivity. }
  destruct (nerFilters s), (selectedCollectionIds s); simpl; try done.
  all: do 3 f_equal; apply List.map_ext; intros id; unfold nullish; by destruct (co_name <$> _).
Qed.

Lemma Qmin_shift (M a d : Q) : 0 <= d -> Qmin M (Qmin M a + d) == Qmin M (a + d).
Proof.
  intros Hd.
  destruct (Q.min_spec_le M a) as [[H1 H2]|[H1 H2]];
  destruct (Q.min_spec_le M (Qmin M a + d)) as [[H3 H4]|[H3 H4]];
  destruct (Q.min_spec_le M (a + d)) as [[H5 H6]|[H5 H6]]; lra.
Qed.

(** One click on the right arrow of a strip scrolled within its range. *)
Lemma scrollFilters_right (e : strip) :
  0 <= scrollLeft e <= scrollWidth e - clientWidth e ->
  scrollLeft (scrollFilters false e) == Qmin (scrollWidth e - clientWidth e) (scrollLeft e + 220).
Proof.
  intros [H0 H1]. simpl. apply Q.max_r. apply Q.min_glb; lra.
Qed.

(** [n] clicks on the right arrow. *)
Lemma scrollFilters_right_iter (e : strip) (n : nat) :
  0 <= scrollLeft e <= scrollWidth e - clientWidth e ->
  scrollWidth (Nat.iter n (scrollFilters false) e) = scrollWidth e /\
  clientWidth (Nat.iter n (scrollFilters false) e) = clientWidth e /\
  scrollLeft (Nat.iter n (scrollFilters false) e) ==
    Qmin (scrollWidth e - clientWidth e) (scrollLeft e + 220 * inject_Z (Z.of_nat n)).
Proof.
  intros Hin. induction n as [|n IH]; simpl Nat.iter.
  - split_and!; [done|done|]. change (inject_Z (Z.of_nat 0)) with 0. rewrite Q.min_r; lra.
  - destruct IH as (Hw & Hc & Hl). set (e' := Nat.iter n (scrollFilters false) e) in *.
    assert (Hn : 0 <= inject_Z (Z.of_nat n)) by (change 0 with (inject_Z 0); rewrite <- Zle_Qle; lia).
    assert (Hin' : 0 <= scrollLeft e' <= scrollWidth e' - clientWidth e').
    { rewrite Hl, Hw, Hc. split; [apply Q.min_glb; nra|apply Q.le_min_l]. }
    split_and!; [exact Hw|exact Hc|].
    rewrite (scrollFilters_right e' Hin'), Hl, Hw, Hc, Nat2Z.inj_succ, <- Z.add_1_r, inject_Z_plus.
    change (inject_Z 1) with 1. rewrite Qmin_shift by lra. apply Q.min_compat; [reflexivity|ring].
Qed.

(** Clicking the right arrow of the chip strip again and again
    scrolls to the end: once the clicks cover the distance left, in steps
    of 220 pixels, the right arrow is hidden. *)
Theorem scroll_right_hides_arrow (e : strip) (n : nat) :
  0 <= scrollLeft e <= scrollWidth e - clientWidth e ->
  scrollWidth e - clientWidth e - scrollLeft e <= 220 * inject_Z (Z.of_nat n) ->
  snd (updateFilterScrollButtons (Some (Nat.iter n (scrollFilters false) e))) = false.
Proof.
  intros Hin Hn. destruct (scrollFilters_right_iter e n Hin) as (Hw & Hc & Hl).
  simpl. apply Qlt_bool_le. rewrite Hw, Hc, Hl.
  destruct (Q.min_spec_le (scrollWidth e - clientWidth e) (scrollLeft e + 220 * inject_Z (Z.of_nat n)))
    as [[H1 H2]|[H1 H2]]; lra.
Qed.

(** ** The arrows of the strip *)

(** The arrow flags are those [updateFilterScrollButtons] computes for the
    strip the ref holds. *)
Definition arrows_match (b : filter_bar) : Prop :=
  forall e, filtersScrollRef b = Some e ->
  (canScrollFiltersLeft b, canScrollFiltersRight b) = updateFilterScrollButtons (Some e).

(** The events some listener of the component reports. *)
Definition observed (ev : filter_bar_event) : Prop :=
  match ev with StripContentChanged _ => False | _ => True end.

Lemma set_scroll_buttons_match (b : filter_bar) : arrows_match (set_scroll_buttons b).
Proof.
  unfold arrows_match, set_scroll_buttons. intros e.
  destruct (updateFilterScrollButtons (filtersScrollRef b)) as [l r] eqn:U.
  cbn [filtersScrollRef canScrollFiltersLeft canScrollFiltersRight]. intros He. by rewrite <- He, U.
Qed.

Lemma filter_bar_step_match (b : filter_bar) (ev : filter_bar_event) :
  observed ev -> arrows_match b -> arrows_match (filter_bar_step b ev).
Proof.
  intros Hobs Hb. destruct ev as [[e|]|e|e|goLeft|e]; simpl; try apply set_scroll_buttons_match; try done.
  destruct (if goLeft then _ else _); simpl; [|done].
  destruct (filtersScrollRef b); [|done]. case_match; [done|apply set_scroll_buttons_match].
Qed.

(** Right-arrow clicks do nothing while the right arrow is hidden. *)
Lemma right_clicks_idle (b : filter_bar) (n : nat) :
  canScrollFiltersRight b = false -> run_filter_bar b (repeat (ArrowClicked false) n) = b.
Proof. intros Hr. induction n as [|n IH]; [done|]. unfold run_filter_bar in *. simpl. by rewrite Hr. Qed.

(** A click on the shown right arrow scrolls the strip by up to 220
    pixels and recomputes the arrows. *)
Lemma right_click_moves (b : filter_bar) (e : strip) :
  arrows_match b -> filtersScrollRef b = Some e -> canScrollFiltersRight b = true ->
  0 <= scrollLeft e <= scrollWidth e - clientWidth e ->
  filter_bar_step b (ArrowClicked false) =
  set_scroll_buttons (mkFilterBar (Some (scrollFilters false e)) (canScrollFiltersLeft b) (canScrollFiltersRight b)).
Proof.
  intros Hb He Hr Hin. pose proof (Hb e He) as Hu. simpl in Hu. injection Hu as _ Hu.
  rewrite Hr in Hu. symmetry in Hu. apply Qlt_bool_iff in Hu.
  simpl. rewrite Hr, He. simpl. destruct (Qeq_bool _ _) eqn:Eq; [exfalso|done].
  apply Qeq_bool_eq in Eq. rewrite (scrollFilters_right e Hin) in Eq.
  destruct (Q.min_spec_le (scrollWidth e - clientWidth e) (scrollLeft e + 220)) as [[H1 H2]|[H1 H2]];
    rewrite H2 in Eq; lra.
Qed.

Lemma set_scroll_buttons_ref (b : filter_bar) : filtersScrollRef (set_scroll_buttons b) = filtersScrollRef b.
Proof. unfold set_scroll_buttons. by destruct (updateFilterScrollButtons _). Qed.

(** While every change of the strip is reported by a listener, the arrows
    shown are those of the strip's current geometry: the left arrow while
    it is scrolled away from the start, the right arrow while more than one
    pixel is left to scroll. *)
Theorem arrows_track_strip (evs : list filter_bar_event) :
  Forall observed evs -> arrows_match (run_filter_bar filter_bar_init evs).
Proof.
  intros Hobs. unfold run_filter_bar. apply (fold_left_inv_Forall _ _ observed); [|done|by intros e].
  intros b ev Hev Hb. by apply filter_bar_step_match.
Qed.

(** C14. Clicking the right arrow of the active-filter strip while it is
    shown scrolls the strip towards its end, and once the clicks cover the
    distance left, in steps of 220 pixels, the right arrow is hidden: the
    arrows' flags, the scroll listener and the click compose to reach the
    end of the strip. *)
Theorem right_arrow_clicks_reach_end (b : filter_bar) (e : strip) (n : nat) :
  arrows_match b -> filtersScrollRef b = Some e ->
  0 <= scrollLeft e <= scrollWidth e - clientWidth e ->
  scrollWidth e - clientWidth e - scrollLeft e <= 220 * inject_Z (Z.of_nat n) ->
  canScrollFiltersRight (run_filter_bar b (repeat (ArrowClicked false) n)) = false.
Proof.
  revert b e. induction n as [|n IH]; intros b e Hb He Hin Hn.
  - pose proof (Hb e He) as Hu. injection Hu as _ Hu. simpl. rewrite Hu. apply Qlt_bool_le.
    change (inject_Z (Z.of_nat 0)) with 0 in Hn. lra.
  - destruct (canScrollFiltersRight b) eqn:Hr; [|by rewrite right_clicks_idle].
    unfold run_filter_bar. cbn [repeat fold_left]. rewrite (right_click_moves b e Hb He Hr Hin).
    apply (IH _ (scrollFilters false e)); [apply set_scroll_buttons_match|by rewrite set_scroll_buttons_ref|..];
      rewrite (scrollFilters_right e Hin); cbn [scrollWidth clientWidth scrollFilters].
    + split; [apply Q.min_glb; lra|apply Q.le_min_l].
    + rewrite Nat2Z.inj_succ, <- Z.add_1_r, inject_Z_plus in Hn. change (inject_Z 1) with 1 in Hn.
      destruct (Q.min_spec_le (scrollWidth e - clientWidth e) (scrollLeft e + 220)) as [[H1 H2]|[H1 H2]];
        rewrite H2; [|lra].
      assert (0 <= inject_Z (Z.of_nat n)) by (change 0 with (inject_Z 0); rewrite <- Zle_Qle; lia). lra.
Qed.

(** ** Witnesses *)

Lemma scroll_right_hides_arrow_witness :
  snd (updateFilterScrollButtons (Some (Nat.iter 3 (scrollFilters false) (mkStrip 1000 400 0)))) = false.
Proof. apply scroll_right_hides_arrow; vm_compute; try split; discriminate. Defined.

(** With an entity filter and a collection selected after a hybrid search,
    [Clear all] leaves no filter in the store but sends the hybrid search
    with the entity filter it has just cleared. *)
Example clear_all_sends_cleared_filters :
  let s := mkStore true SearchType_Hybrid "river" false None None None None None false false [] [] (-1)%Z None
             3%Z false ["PERSON"] [] ["c1"] in
  let '(s', rs) := dispatch_all 12 (handleClearAllFilters 12 None None s) s in
  nerFilters s' = [] /\ rs = [R_search M_hybrid Chunks "river" 1000 0 ["PERSON"] [] None None].
Proof. split; reflexivity. Qed.

Lemma right_arrow_clicks_reach_end_witness :
  canScrollFiltersRight (run_filter_bar (run_filter_bar filter_bar_init [FilterCountsChanged (Some (mkStrip 1000 400 0))])
                           (repeat (ArrowClicked false) 3)) = false.
Proof.
  apply (right_arrow_clicks_reach_end _ (mkStrip 1000 400 0) 3).
  - apply arrows_track_strip. repeat constructor.
  - reflexivity.
  - vm_compute. split; discriminate.
  - vm_compute. discriminate.
Defined.

(** A change of the strip's content that keeps the number of chips and the
    strip's box is reported by no listener: after a collection chip's label
    grows from the id to the collection's name, the strip overflows but the
    right arrow stays hidden. *)
Example content_change_stale_arrow :
  let b := run_filter_bar filter_bar_init
             [FilterCountsChanged (Some (mkStrip 400 400 0)); StripContentChanged (mkStrip 900 400 0)] in
  canScrollFiltersRight b = false /\ snd (updateFilterScrollButtons (filtersScrollRef b)) = true.
Proof. split; reflexivity. Qed.

