(* ===== verification/EntityCounts.v ===== *)
(** * EntityCounts: entity occurrence keys and recording counts

    The part of [search.ts] after line 675: the key
    [NER_ENTITY_RECORDING_COUNT_KEY] (675-676), the on-demand counts
    [getNerEntityRecordingCounts] (679-717: one bounded fetch per entity, a
    failed fetch counts 0), the snapshot loader
    [getEntityRecordingCountsMap] (722-737: keep the non-negative numeric
    entries of a JSON object, anything else is the empty map) and the bulk
    rebuild [buildEntityRecordingCountsMap] (740-788: scan all chunks in
    pages of 100 while the page is full and [offset <= 9900], collect the
    recording ids of every (text, label) pair, and try to write the
    snapshot).  The [while] loop is [scan_pages], defined by well-founded
    recursion on [9901 - offset] with Equations, so it terminates by
    construction.  [writeFile] is not imported by [search.ts]: the call
    throws a [ReferenceError] that the surrounding [try] catches, which
    [writeSnapshot] models. *)

From Equations Require Import Equations.
From S2P Require Import Prelude Filters Backend Samples.

Local Set Warnings "-register-all".
Local Open Scope nat_scope.

(** [NER_ENTITY_RECORDING_COUNT_KEY] *)
Definition NER_ENTITY_RECORDING_COUNT_KEY (text label : string) : string :=
  js_lower text +:+ "|" +:+ label.

(** [const id = obj.properties?.theirstory_id; if (id) ids.add(id)] *)
Definition add_recording_id (ids : gset string) (o : wobj) : gset string :=
  match theirstory_id (properties o) with
  | Some id => if js_truthy id then {[id]} ∪ ids else ids
  | None => ids
  end.

(** The distinct truthy [theirstory_id] of a page (703-708). *)
Definition recording_ids (objs : list wobj) : gset string :=
  fold_left add_recording_id objs ∅.

(** [limit] of [getNerEntityRecordingCounts]. *)
Definition RECORDING_COUNT_LIMIT : nat := 1000.

(** The query sent for one entity (692-697). *)
Definition count_query (text label : string) : query :=
  mkQuery Chunks RECORDING_COUNT_LIMIT 0 (Some (recordingCountFilter text label)).

Section OnDemand.
Context `{Datastore}.

(** The [for] loop of [getNerEntityRecordingCounts] (688-714). *)
Fixpoint count_entities (entities : list (string * string)) (result : gmap string nat)
    : DS (gmap string nat) :=
  match entities with
  | [] => mret result
  | (text, label) :: rest =>
      n ← tm_catch
            (response ← fetchObjects (count_query text label);
             mret (size (recording_ids response)))
            (fun _ => mret 0);
      count_entities rest (<[NER_ENTITY_RECORDING_COUNT_KEY text label := n]> result)
  end.

(** search.ts [getNerEntityRecordingCounts]. *)
Definition getNerEntityRecordingCounts (entities : list (string * string)) : DS (gmap string nat) :=
  match entities with
  | [] => mret ∅
  | _ => count_entities entities ∅
  end.
End OnDemand.

(** A JSON value as [JSON.parse] returns it (object keys are distinct). *)
Inductive json :=
| JNull
| JBool (b : bool)
| JNum (q : Q)
| JStr (s : string)
| JArr (l : list json)
| JObj (fields : list (string * json)).

(** [if (typeof value === 'number' && value >= 0) result[key] = value] *)
Definition load_entry (result : gmap string Q) (entry : string * json) : gmap string Q :=
  match entry.2 with
  | JNum v => if Qle_bool 0 v then <[entry.1 := v]> result else result
  | _ => result
  end.

(** search.ts [getEntityRecordingCountsMap]: [parsed] is [None] when the file
    is missing or [JSON.parse] throws. *)
Definition getEntityRecordingCountsMap (parsed : option json) : gmap string Q :=
  match parsed with
  | Some (JObj fields) => fold_left load_entry fields ∅
  | _ => ∅
  end.

(** [JSON.stringify(result)] of the rebuilt map. *)
Definition snapshot_json (result : gmap string nat) : json :=
  JObj (map (fun '(k, n) => (k, JNum (inject_Z (Z.of_nat n)))) (map_to_list result)).

Definition BUILD_ENTITY_COUNTS_PAGE_SIZE : nat := 100.
(** The result window of the datastore: [offset + limit] may not exceed it. *)
Definition QUERY_WINDOW : nat := 10000.
Definition BUILD_ENTITY_COUNTS_MAX_OFFSET : nat := QUERY_WINDOW - BUILD_ENTITY_COUNTS_PAGE_SIZE.

(** One (text, label) pair of a chunk of recording [theirstoryId] (761-771). *)
Definition add_pair (theirstoryId : string) (m : gmap string (gset string)) (pair : string * string)
    : gmap string (gset string) :=
  let text := js_trim (js_lower pair.1) in
  let label := js_trim pair.2 in
  if negb (js_truthy text) || negb (js_truthy label) then m else
  let key := NER_ENTITY_RECORDING_COUNT_KEY text label in
  <[key := {[theirstoryId]} ∪ default ∅ (m !! key)]> m.

(** The body of the [for] loop over a page (758-773). *)
Definition add_chunk (keyToIds : gmap string (gset string)) (o : wobj) : gmap string (gset string) :=
  let props := properties o in
  match theirstory_id props with
  | None => keyToIds
  | Some theirstoryId =>
      if negb (js_truthy theirstoryId) then keyToIds else
      fold_left (add_pair theirstoryId) (combine (ner_text props) (ner_labels props)) keyToIds
  end.

Section Bulk.
Context `{Datastore}.

(** [while (hasMore && offset <= BUILD_ENTITY_COUNTS_MAX_OFFSET)] (752-776). *)
Equations? scan_pages (offset : nat) (hasMore : bool) (keyToIds : gmap string (gset string))
    : DS (gmap string (gset string)) by wf (S BUILD_ENTITY_COUNTS_MAX_OFFSET - offset) lt :=
  scan_pages offset false keyToIds := mret keyToIds;
  scan_pages offset true keyToIds with le_lt_dec offset BUILD_ENTITY_COUNTS_MAX_OFFSET => {
    | right _ => mret keyToIds;
    | left Hle =>
        response ← fetchObjects (mkQuery Chunks BUILD_ENTITY_COUNTS_PAGE_SIZE offset None);
        scan_pages (offset + BUILD_ENTITY_COUNTS_PAGE_SIZE)
          (Nat.eqb (length response) BUILD_ENTITY_COUNTS_PAGE_SIZE)
          (fold_left add_chunk response keyToIds) }.
Proof. unfold BUILD_ENTITY_COUNTS_PAGE_SIZE in *. lia. Qed.

(** [await writeFile(...)] inside its [try]: [writeFile] is unbound, the
    [ReferenceError] is caught and logged. *)
Definition writeSnapshot (result : gmap string nat) : DS unit :=
  tm_catch (tm_throw FileWriteFailed) (fun _ => mret tt).

(** search.ts [buildEntityRecordingCountsMap]. *)
Definition buildEntityRecordingCountsMap (writeToFile : bool) : DS (gmap string nat) :=
  keyToIds ← scan_pages 0 true ∅;
  let result := size <$> keyToIds in
  _ ← (if writeToFile && negb (bool_decide (result = ∅)) then writeSnapshot result else mret tt);
  mret result.
End Bulk.

(** ** Reference definitions *)

Section Reference.
Context `{Datastore}.

(** The count of one entity: its distinct recordings, 0 when the fetch fails. *)
Definition entity_count (text label : string) : nat :=
  match ds_fetchObjects (count_query text label) with
  | Ok r => size (recording_ids r)
  | Err _ => 0
  end.

Definition counts_step (m : gmap string nat) (e : string * string) : gmap string nat :=
  <[NER_ENTITY_RECORDING_COUNT_KEY e.1 e.2 := entity_count e.1 e.2]> m.

(** One fetch per entity, in order. *)
Definition counts_calls (entities : list (string * string)) : list call :=
  map (fun e => CallFetch (count_query e.1 e.2)) entities.
End Reference.

(** A page request of the bulk rebuild stays below the 10000-object window. *)
Definition bulk_fetch_ok (c : call) : Prop :=
  exists q, c = CallFetch q /\ q_limit q = BUILD_ENTITY_COUNTS_PAGE_SIZE /\
            q_offset q + q_limit q <= QUERY_WINDOW.

(** Chunk [o] of recording [id] has a (text, label) pair whose normalised key is [key]. *)
Definition chunk_mentions (key : string) (o : wobj) (id : string) : Prop :=
  theirstory_id (properties o) = Some id /\ js_truthy id = true /\
  exists t l, (t, l) ∈ combine (ner_text (properties o)) (ner_labels (properties o)) /\
    js_truthy (js_trim (js_lower t)) = true /\ js_truthy (js_trim l) = true /\
    NER_ENTITY_RECORDING_COUNT_KEY (js_trim (js_lower t)) (js_trim l) = key.

(** ** Lemmas *)

(** [QUERY_WINDOW] and the ceiling stay atoms for [lia]; this relates them. *)
Lemma window_split :
  QUERY_WINDOW = BUILD_ENTITY_COUNTS_MAX_OFFSET + BUILD_ENTITY_COUNTS_PAGE_SIZE /\
  BUILD_ENTITY_COUNTS_PAGE_SIZE = 100 /\ QUERY_WINDOW = 100 * 100.
Proof. repeat split; vm_compute; reflexivity. Qed.

Ltac window_lia := pose proof window_split; unfold BUILD_ENTITY_COUNTS_PAGE_SIZE in *; lia.

Lemma add_recording_id_size (ids : gset string) (o : wobj) :
  size (add_recording_id ids o) <= S (size ids).
Proof.
  unfold add_recording_id. repeat case_match; try lia.
  rewrite size_union_alt, size_singleton.
  pose proof (subseteq_size (ids ∖ {[s]}) ids ltac:(set_solver)). lia.
Qed.

Lemma recording_ids_size (objs : list wobj) : size (recording_ids objs) <= length objs.
Proof.
  unfold recording_ids. enough (forall ids, size (fold_left add_recording_id objs ids) <= size ids + length objs)
    as H by (etrans; [apply H|]; rewrite size_empty; lia).
  induction objs as [|o objs IH]; intros ids; simpl; [lia|].
  etrans; [apply IH|]. pose proof (add_recording_id_size ids o). lia.
Qed.

(** Membership in the id set of a key, one pair, one chunk, a list of chunks. *)
Lemma add_pair_elem (id : string) m pair k x :
  x ∈ default ∅ (add_pair id m pair !! k) <->
  x ∈ default ∅ (m !! k) \/
  (x = id /\ js_truthy (js_trim (js_lower pair.1)) = true /\ js_truthy (js_trim pair.2) = true /\
   NER_ENTITY_RECORDING_COUNT_KEY (js_trim (js_lower pair.1)) (js_trim pair.2) = k).
Proof.
  unfold add_pair. destruct (js_truthy (js_trim (js_lower pair.1))), (js_truthy (js_trim pair.2));
    simpl; try (intuition congruence).
  destruct (decide (NER_ENTITY_RECORDING_COUNT_KEY (js_trim (js_lower pair.1)) (js_trim pair.2) = k)) as [<-|Hne].
  - rewrite lookup_insert_eq. simpl. set_solver.
  - rewrite lookup_insert_ne by done. intuition congruence.
Qed.

Lemma fold_add_pair_elem (id : string) pairs m k x :
  x ∈ default ∅ (fold_left (add_pair id) pairs m !! k) <->
  x ∈ default ∅ (m !! k) \/
  (x = id /\ exists t l, (t, l) ∈ pairs /\ js_truthy (js_trim (js_lower t)) = true /\
     js_truthy (js_trim l) = true /\ NER_ENTITY_RECORDING_COUNT_KEY (js_trim (js_lower t)) (js_trim l) = k).
Proof.
  revert m. induction pairs as [|[t l] pairs IH]; intros m; simpl.
  - split; [by left|]. intros [?|(_ & t & l & Hin & _)]; [done|]. by apply elem_of_nil in Hin.
  - rewrite IH, add_pair_elem. simpl. setoid_rewrite elem_of_cons. split.
    + intros [[?|?]|(-> & t' & l' & ? & ?)]; [by left|..]; right; split; try tauto.
      * exists t, l. intuition.
      * exists t', l'. intuition.
    + intros [?|(-> & t' & l' & [[=<- <-]|?] & ?)]; [by left; left|left; right; tauto|].
      right. split; [done|]. exists t', l'. tauto.
Qed.

Lemma add_chunk_elem m o k x :
  x ∈ default ∅ (add_chunk m o !! k) <-> x ∈ default ∅ (m !! k) \/ chunk_mentions k o x.
Proof.
  unfold add_chunk, chunk_mentions. destruct (theirstory_id (properties o)) as [id|].
  - destruct (js_truthy id) eqn:Ht; simpl.
    + rewrite fold_add_pair_elem. split; intros [?|H]; [by left| |by left|]; right.
      * destruct H as [-> ?]. auto.
      * destruct H as ([= ->] & _ & ?). auto.
    + split; [by left|]. intros [?|([= <-] & ? & _)]; [done|congruence].
  - split; [by left|]. intros [?|([=] & _)]. done.
Qed.

Lemma fold_add_chunk_elem cs m k x :
  x ∈ default ∅ (fold_left add_chunk cs m !! k) <->
  x ∈ default ∅ (m !! k) \/ exists o, o ∈ cs /\ chunk_mentions k o x.
Proof.
  revert m. induction cs as [|o cs IH]; intros m; simpl.
  - split; [by left|]. intros [?|(o & Ho & _)]; [done|]. by apply elem_of_nil in Ho.
  - rewrite IH, add_chunk_elem. setoid_rewrite elem_of_cons. split.
    + intros [[?|?]|(o' & ? & ?)]; [by left|right; eauto|right; eauto].
    + intros [?|(o' & [->|?] & ?)]; [by left; left|left; right; done|right; eauto].
Qed.

Section OnDemandLemmas.
Context `{Datastore}.

Lemma count_entities_run (entities : list (string * string)) (result : gmap string nat) tr :
  count_entities entities result tr =
    (Ok (fold_left counts_step entities result), tr ++ counts_calls entities).
Proof.
  revert result tr. induction entities as [|[text label] rest IH]; intros result tr; tm_unfold.
  - by rewrite app_nil_r.
  - unfold fetchObjects. tm_unfold.
    destruct (ds_fetchObjects (count_query text label)) eqn:E; simpl; rewrite IH, <- app_assoc;
      do 3 f_equal; unfold counts_step, entity_count; simpl; by rewrite E.
Qed.
End OnDemandLemmas.

Section BulkLemmas.
Context `{Datastore}.

Lemma scan_pages_stop (offset : nat) (keyToIds : gmap string (gset string)) tr :
  scan_pages offset false keyToIds tr = (Ok keyToIds, tr).
Proof. by simp scan_pages. Qed.

Lemma scan_pages_past (offset : nat) (keyToIds : gmap string (gset string)) tr :
  BUILD_ENTITY_COUNTS_MAX_OFFSET < offset -> scan_pages offset true keyToIds tr = (Ok keyToIds, tr).
Proof.
  intros Hlt. simp scan_pages. destruct (le_lt_dec offset BUILD_ENTITY_COUNTS_MAX_OFFSET); [lia|].
  by simp scan_pages.
Qed.

Lemma scan_pages_page (offset : nat) (keyToIds : gmap string (gset string)) tr :
  offset <= BUILD_ENTITY_COUNTS_MAX_OFFSET ->
  scan_pages offset true keyToIds tr =
    let q := mkQuery Chunks BUILD_ENTITY_COUNTS_PAGE_SIZE offset None in
    match ds_fetchObjects q with
    | Ok response =>
        scan_pages (offset + BUILD_ENTITY_COUNTS_PAGE_SIZE)
          (Nat.eqb (length response) BUILD_ENTITY_COUNTS_PAGE_SIZE)
          (fold_left add_chunk response keyToIds) (tr ++ [CallFetch q])
    | Err e => (Err e, tr ++ [CallFetch q])
    end.
Proof.
  intros Hle. simp scan_pages. destruct (le_lt_dec offset BUILD_ENTITY_COUNTS_MAX_OFFSET); [|lia].
  simp scan_pages. unfold fetchObjects. tm_unfold. by case_match.
Qed.
End BulkLemmas.

Section BulkRuns.
Context `{Datastore}.

(** Every request of the loop from [offset] is a full-page fetch inside the
    window, and at most [(QUERY_WINDOW - offset) / PAGE_SIZE] are sent. *)
Lemma scan_pages_calls (offset : nat) (hasMore : bool) (keyToIds : gmap string (gset string)) tr :
  offset <= QUERY_WINDOW ->
  exists tr', snd (scan_pages offset hasMore keyToIds tr) = tr ++ tr' /\
    Forall bulk_fetch_ok tr' /\ offset + length tr' * BUILD_ENTITY_COUNTS_PAGE_SIZE <= QUERY_WINDOW.
Proof.
  remember (QUERY_WINDOW - offset) as n eqn:En. revert offset hasMore keyToIds tr En.
  induction n as [n IH] using lt_wf_ind. intros offset [|] keyToIds tr En Hle.
  - destruct (le_lt_dec offset BUILD_ENTITY_COUNTS_MAX_OFFSET) as [Hl|Hl].
    + assert (Hq : bulk_fetch_ok (CallFetch (mkQuery Chunks BUILD_ENTITY_COUNTS_PAGE_SIZE offset None))).
      { eexists; split; [reflexivity|]. simpl.
        window_lia. }
      rewrite scan_pages_page by exact Hl. simpl. destruct (ds_fetchObjects _) as [response|e].
      * assert (QUERY_WINDOW - (offset + BUILD_ENTITY_COUNTS_PAGE_SIZE) < n /\
                offset + BUILD_ENTITY_COUNTS_PAGE_SIZE <= QUERY_WINDOW) as [Hlt Hle'].
        { subst n. window_lia. }
        edestruct (IH _ Hlt (offset + BUILD_ENTITY_COUNTS_PAGE_SIZE)) as (tr' & E & F & L);
          [reflexivity | exact Hle' |].
        exists (CallFetch (mkQuery Chunks BUILD_ENTITY_COUNTS_PAGE_SIZE offset None) :: tr').
        rewrite E, <- app_assoc. split; [done|]. split; [by constructor|]. simpl. window_lia.
      * exists [CallFetch (mkQuery Chunks BUILD_ENTITY_COUNTS_PAGE_SIZE offset None)].
        split; [done|]. split; [by constructor|].
        simpl. window_lia.
    + rewrite scan_pages_past by exact Hl. exists []. rewrite app_nil_r. simpl. split; [done|].
      split; [constructor|lia].
  - rewrite scan_pages_stop. exists []. rewrite app_nil_r. simpl. split; [done|]. split; [constructor|lia].
Qed.
End BulkRuns.

(** On an in-memory store, the loop from [offset], [n] pages before the
    window ends, folds [add_chunk] over the next [n] pages of chunks. *)
Lemma scan_pages_memstore objects embed rank_bm25 rank_vec (n offset : nat) keyToIds tr :
  offset + n * BUILD_ENTITY_COUNTS_PAGE_SIZE = QUERY_WINDOW ->
  fst (@scan_pages (memstore objects embed rank_bm25 rank_vec) offset true keyToIds tr) =
    Ok (fold_left add_chunk (take (n * BUILD_ENTITY_COUNTS_PAGE_SIZE) (drop offset (objects Chunks)))
          keyToIds).
Proof.
  revert offset keyToIds tr. induction n as [|n IH]; intros offset keyToIds tr Hn.
  - rewrite scan_pages_past by window_lia. reflexivity.
  - rewrite scan_pages_page by window_lia. cbn [ds_fetchObjects memstore q_collection].
    rewrite page_unfiltered by reflexivity. cbn [q_limit q_offset].
    set (cs := drop offset (objects Chunks)).
    destruct (Nat.eqb_spec (length (take BUILD_ENTITY_COUNTS_PAGE_SIZE cs)) BUILD_ENTITY_COUNTS_PAGE_SIZE)
      as [Hf|Hf].
    + rewrite IH by window_lia. rewrite <- fold_left_app. do 2 f_equal.
      unfold cs. rewrite <- drop_drop, take_take_drop. done.
    + rewrite scan_pages_stop. cbn [fst]. do 2 f_equal.
      rewrite length_take in Hf. rewrite !take_ge; [done | lia | lia].
Qed.

(** The loader keeps a valid entry, ignores the others. *)
Lemma load_entries_sound fields m0 k (v : Q) :
  fold_left load_entry fields m0 !! k = Some v -> ((0 <= v)%Q /\ (k, JNum v) ∈ fields) \/ m0 !! k = Some v.
Proof.
  revert m0. induction fields as [|[k' j] fields IH]; intros m0 Hk; simpl in *; [by right|].
  destruct (IH _ Hk) as [[? ?]|Hm]; [left; split; [done|by right]|].
  unfold load_entry in Hm; simpl in Hm. destruct j as [| |q| | |]; try (right; done).
  destruct (Qle_bool 0 q) eqn:Hq; [|by right].
  destruct (decide (k' = k)) as [<-|Hne].
  - rewrite lookup_insert_eq in Hm. injection Hm as <-. left. split; [by apply Qle_bool_iff|by left].
  - rewrite lookup_insert_ne in Hm by done. by right.
Qed.

Lemma load_entries_absent fields m0 k :
  k ∉ fields.*1 -> fold_left load_entry fields m0 !! k = m0 !! k.
Proof.
  revert m0. induction fields as [|[k' j] fields IH]; intros m0 Hk; simpl in *; [done|].
  rewrite elem_of_cons in Hk. rewrite IH by tauto. unfold load_entry; simpl.
  repeat case_match; try done. apply lookup_insert_ne. intuition.
Qed.

Lemma load_entries_valid fields m0 k (v : Q) :
  NoDup fields.*1 -> (k, JNum v) ∈ fields -> (0 <= v)%Q -> fold_left load_entry fields m0 !! k = Some v.
Proof.
  revert m0. induction fields as [|[k' j] fields IH]; intros m0 Hnd Hin Hv; simpl in *.
  { by apply elem_of_nil in Hin. }
  apply NoDup_cons in Hnd as [Hk' Hnd]. apply elem_of_cons in Hin as [[= <- <-]|Hin]; [|by apply IH].
  rewrite load_entries_absent by done. unfold load_entry; simpl.
  apply Qle_bool_iff in Hv. rewrite Hv. apply lookup_insert_eq.
Qed.

Lemma snapshot_keys (m : gmap string nat) :
  (map (fun '(k, n) => (k, JNum (inject_Z (Z.of_nat n)))) (map_to_list m)).*1 = (map_to_list m).*1.
Proof. induction (map_to_list m) as [|[k n] l IH]; simpl; [done|]. by f_equal. Qed.

Section OnDemandBounds.
Context `{DatastoreLaws}.

Lemma entity_count_bound (text label : string) : entity_count text label <= RECORDING_COUNT_LIMIT.
Proof.
  unfold entity_count. destruct (ds_fetchObjects _) as [r|] eqn:E; [|lia].
  destruct (fetch_page _ _ E) as [Hlen _]. pose proof (recording_ids_size r). simpl in Hlen. lia.
Qed.

Lemma fold_counts_bounded (entities : list (string * string)) (m : gmap string nat) :
  map_Forall (fun _ n => n <= RECORDING_COUNT_LIMIT) m ->
  map_Forall (fun _ n => n <= RECORDING_COUNT_LIMIT) (fold_left counts_step entities m).
Proof.
  revert m. induction entities as [|e entities IH]; intros m Hm; simpl; [done|].
  apply IH. apply map_Forall_insert_2; [apply entity_count_bound|done].
Qed.
End OnDemandBounds.

Section BuildRun.
Context `{Datastore}.

(** The rebuild is the scan followed by [size]; the snapshot write adds no call. *)
Lemma buildEntityRecordingCountsMap_unfold (writeToFile : bool) tr :
  buildEntityRecordingCountsMap writeToFile tr =
    match scan_pages 0 true ∅ tr with
    | (Ok keyToIds, tr') => (Ok (size <$> keyToIds), tr')
    | (Err e, tr') => (Err e, tr')
    end.
Proof.
  unfold buildEntityRecordingCountsMap. tm_unfold.
  destruct (scan_pages 0 true ∅ tr) as [[keyToIds|e] tr']; [|done].
  destruct (_ && _); unfold writeSnapshot; tm_unfold; done.
Qed.
End BuildRun.

(** ** Properties *)

(** The entity key ignores the case of the text but not of the label:
    texts equal up to case give the same key, and two keys of the same text
    are equal only when the labels are. *)
Theorem NER_ENTITY_RECORDING_COUNT_KEY_case (t1 t2 t l l1 l2 : string) :
  (js_lower t1 = js_lower t2 -> NER_ENTITY_RECORDING_COUNT_KEY t1 l = NER_ENTITY_RECORDING_COUNT_KEY t2 l) /\
  (NER_ENTITY_RECORDING_COUNT_KEY t l1 = NER_ENTITY_RECORDING_COUNT_KEY t l2 -> l1 = l2).
Proof.
  unfold NER_ENTITY_RECORDING_COUNT_KEY. split; [by intros ->|].
  intros Heq. apply (inj (String.append (js_lower t))) in Heq. by apply (inj (String.append "|")) in Heq.
Qed.

(** [getNerEntityRecordingCounts] always answers: it sends one fetch per
    entity, in order, and the count of each entity is its number of distinct
    recordings, or 0 when its fetch fails, whatever happens to the others. *)
Theorem getNerEntityRecordingCounts_spec `{Datastore} (entities : list (string * string)) :
  run (getNerEntityRecordingCounts entities) =
    (Ok (fold_left counts_step entities ∅), counts_calls entities).
Proof.
  unfold getNerEntityRecordingCounts, run. destruct entities as [|e es]; [done|].
  destruct e. apply count_entities_run.
Qed.

(** Every count returned by [getNerEntityRecordingCounts] is at most the
    fetch limit of 1000. *)
Theorem getNerEntityRecordingCounts_bounded `{DatastoreLaws} (entities : list (string * string)) :
  exists m, fst (run (getNerEntityRecordingCounts entities)) = Ok m /\
    map_Forall (fun _ n => n <= RECORDING_COUNT_LIMIT) m.
Proof.
  unfold getNerEntityRecordingCounts, run. destruct entities as [|[t l] es].
  - exists ∅. split; [done|]. apply map_Forall_empty.
  - rewrite count_entities_run. eexists; split; [reflexivity|].
    apply fold_counts_bounded, map_Forall_empty.
Qed.

(** The snapshot loader only returns entries of a parsed JSON object
    whose value is a non-negative number; a missing, unparsable or
    non-object file gives the empty map. *)
Theorem getEntityRecordingCountsMap_sound (parsed : option json) (k : string) (v : Q) :
  getEntityRecordingCountsMap parsed !! k = Some v ->
  (0 <= v)%Q /\ exists fields, parsed = Some (JObj fields) /\ (k, JNum v) ∈ fields.
Proof.
  destruct parsed as [[| | | | |fields]|]; simpl; try done.
  intros [[Hv Hin]|Hm]%load_entries_sound; [|done]. eauto.
Qed.

(** Reading back the JSON of a rebuilt count map gives the same counts. *)
Theorem getEntityRecordingCountsMap_roundtrip (m : gmap string nat) :
  getEntityRecordingCountsMap (Some (snapshot_json m)) = (fun n => inject_Z (Z.of_nat n)) <$> m.
Proof.
  apply map_eq. intros k. simpl. rewrite lookup_fmap. destruct (m !! k) as [n|] eqn:E; simpl.
  - apply load_entries_valid.
    + rewrite snapshot_keys. apply NoDup_fst_map_to_list.
    + apply list_elem_of_In, in_map_iff. exists (k, n). split; [done|].
      by apply list_elem_of_In, elem_of_map_to_list.
    + unfold Qle. simpl. lia.
  - rewrite load_entries_absent; [done|]. rewrite snapshot_keys.
    intros ([k' n] & -> & Hin)%list_elem_of_fmap. apply elem_of_map_to_list in Hin. simpl in E. congruence.
Qed.

(** C30. The bulk rebuild terminates after at most 100 requests, each a
    full-page fetch whose [offset + limit] stays inside the 10000-object
    window of the datastore. *)
Theorem buildEntityRecordingCountsMap_calls `{Datastore} (writeToFile : bool) :
  Forall bulk_fetch_ok (snd (run (buildEntityRecordingCountsMap writeToFile))) /\
  length (snd (run (buildEntityRecordingCountsMap writeToFile))) <= 100.
Proof.
  unfold run. rewrite buildEntityRecordingCountsMap_unfold.
  destruct (scan_pages_calls 0 true ∅ [] ltac:(lia)) as (tr' & E & F & L).
  destruct (scan_pages 0 true ∅ []) as [[k|e] tr]; simpl in *; subst; (split; [done|]);
    pose proof window_split; unfold BUILD_ENTITY_COUNTS_PAGE_SIZE in *; lia.
Qed.

(** C31. On a datastore holding the chunks [objects Chunks], the rebuild
    collects the recording ids of the first 10000 chunks only: chunks past
    the window are silently left out of the counts. *)
Theorem buildEntityRecordingCountsMap_memstore objects embed rank_bm25 rank_vec (writeToFile : bool) :
  fst (run (@buildEntityRecordingCountsMap (memstore objects embed rank_bm25 rank_vec) writeToFile)) =
    Ok (size <$> fold_left add_chunk (take QUERY_WINDOW (objects Chunks)) ∅).
Proof.
  unfold run. rewrite buildEntityRecordingCountsMap_unfold.
  pose proof (scan_pages_memstore objects embed rank_bm25 rank_vec 100 0 ∅ []) as Hs.
  replace (100 * BUILD_ENTITY_COUNTS_PAGE_SIZE) with QUERY_WINDOW in Hs by (vm_compute; reflexivity).
  specialize (Hs ltac:(vm_compute; reflexivity)).
  destruct (scan_pages 0 true ∅ []) as [r tr]. simpl in Hs. by subst.
Qed.

(** The count of a key is the number of distinct recordings with a
    chunk whose normalised (text, label) pair has that key. *)
Theorem bulk_ids_spec (chunks : list wobj) (k id : string) :
  id ∈ default ∅ (fold_left add_chunk chunks ∅ !! k) <-> exists o, o ∈ chunks /\ chunk_mentions k o id.
Proof. rewrite fold_add_chunk_elem. simpl. set_solver. Qed.

(** The snapshot write has no effect: [writeFile] is not in scope in
    [search.ts], so its [ReferenceError] is caught and the rebuild with
    [writeToFile] returns exactly what it returns without. *)
Theorem buildEntityRecordingCountsMap_no_write `{Datastore} :
  run (buildEntityRecordingCountsMap true) = run (buildEntityRecordingCountsMap false).
Proof. unfold run. by rewrite !buildEntityRecordingCountsMap_unfold. Qed.

(** The on-demand key does not trim the text, while the rebuild trims it:
    the same entity gets two different keys. *)
Example on_demand_key_untrimmed :
  NER_ENTITY_RECORDING_COUNT_KEY " Paris" "LOC" <>
  NER_ENTITY_RECORDING_COUNT_KEY (js_trim (js_lower " Paris")) (js_trim "LOC").
Proof. vm_compute. congruence. Qed.

(** Two different entities share a key when a text or label contains ["|"]. *)
Example key_collision :
  NER_ENTITY_RECORDING_COUNT_KEY "a|b" "c" = NER_ENTITY_RECORDING_COUNT_KEY "a" "b|c".
Proof. reflexivity. Qed.

(** ** Witnesses *)

Lemma NER_ENTITY_RECORDING_COUNT_KEY_case_witness :
  NER_ENTITY_RECORDING_COUNT_KEY "Paris" "LOC" = NER_ENTITY_RECORDING_COUNT_KEY "PARIS" "LOC".
Proof. apply (proj1 (NER_ENTITY_RECORDING_COUNT_KEY_case "Paris" "PARIS" "" "LOC" "" "")). vm_compute. reflexivity. Defined.

Lemma getNerEntityRecordingCounts_bounded_witness :
  exists m, fst (run (@getNerEntityRecordingCounts sample_ds [("Paris", "LOC"); ("George Mason", "PERSON")]))
    = Ok m /\ map_Forall (fun _ n => n <= RECORDING_COUNT_LIMIT) m.
Proof. apply (@getNerEntityRecordingCounts_bounded sample_ds (memstore_laws _ _ _ _)). Defined.

Lemma getEntityRecordingCountsMap_sound_witness :
  (0 <= 2)%Q /\ exists fields, Some (JObj [("paris|LOC", JNum 2); ("x", JStr "y")]) = Some (JObj fields) /\
    ("paris|LOC", JNum 2) ∈ fields.
Proof.
  apply (getEntityRecordingCountsMap_sound (Some (JObj [("paris|LOC", JNum 2); ("x", JStr "y")])) "paris|LOC").
  vm_compute. reflexivity.
Defined.
