(* ===== verification/NerModal.v ===== *)
(** * NerModal: the entity modal of the story page

    [src/app/story/[storyUuid]/Components/NerEntityModal.tsx]: the
    occurrences of an entity in the current recording
    ([currentInterviewOccurrences]: well-formed [ner_data] items of the
    entity, sorted by start time, near-duplicates within 1 ms dropped, each
    with a window of words around it found by [getTargetWordIndex] and
    [buildContextWindow]); the loading effect, which runs
    [searchNerEntitiesAcrossCollection] (limit 10000) and
    [getNerEntityRecordingCounts] together and reads the count under its own
    key; the grouping of project occurrences by recording; the section
    toggle; the character window [createSimpleContext]; and the tab label.
    The effect is split like the store's handlers: [open_effect] is the
    synchronous part and returns a request, [load_resolve] settles it.  The
    regular-expression highlighting [createHighlightedParts] is a parameter
    of the section, defined in Highlight.v.  [normalizeNerData] keeps the
    guarded objects as they are; the occurrences read their four fields
    ([as_ner_item]).  The panel (EntityPanel.v) mounts a new modal for
    each opening, so the state here never carries over from one entity to
    another. *)

From S2P Require Import Prelude Filters Backend Samples Scores Dedup Retrieval Store EntityCounts.

Local Open Scope Q_scope.
Local Open Scope portal_scope.

Definition COLLAPSED_WORD_WINDOW : Z := 10.
Definition EXPANDED_WORD_WINDOW : Z := 50.
Definition COLLAPSED_CHAR_WINDOW : Z := 40.
Definition EXPANDED_CHAR_WINDOW : Z := 200.
Definition DUPLICATE_TIME_EPSILON : Q := 1 # 1000.

(** [NerDataItem] *)
Record NerDataItem := mkNerDataItem {
  nd_text : string;
  nd_label : string;
  nd_start_time : Q;
  nd_end_time : Q
}.

(** [HighlightPart = string | { highlight: true; text: string }] *)
Inductive HighlightPart :=
| HPlain (s : string)
| HHighlight (text : string).

(** A property of an object: of fields given twice, the last one counts,
    as in the object [JSON.parse] builds. *)
Definition json_field (k : string) (fields : list (string * json)) : option json :=
  snd <$> List.find (fun kv => String.eqb kv.1 k) (rev fields).

(** The type guard of [normalizeNerData] (81-88): a non-null object whose
    [text] and [label] are strings and whose [start_time] and [end_time]
    are numbers. *)
Definition is_ner_item (item : json) : bool :=
  match item with
  | JObj fields =>
      match json_field "text" fields, json_field "label" fields,
            json_field "start_time" fields, json_field "end_time" fields with
      | Some (JStr _), Some (JStr _), Some (JNum _), Some (JNum _) => true
      | _, _, _, _ => false
      end
  | _ => false
  end.

(** [normalizeNerData] (80-89): the items that pass the guard, unchanged. *)
Definition normalizeNerData (nerData : list json) : list json := List.filter is_ner_item nerData.

(** An item read as a [NerDataItem]: the four fields the code reads from
    the guarded objects ([ner.text], [ner.label], [ner.start_time],
    [ner.end_time]). *)
Definition as_ner_item (item : json) : option NerDataItem :=
  match item with
  | JObj fields =>
      match json_field "text" fields, json_field "label" fields,
            json_field "start_time" fields, json_field "end_time" fields with
      | Some (JStr t), Some (JStr l), Some (JNum s), Some (JNum e) => Some (mkNerDataItem t l s e)
      | _, _, _, _ => None
      end
  | _ => None
  end.

(** The words [buildContextWindow] shows: [words.slice(startIndex, endIndex + 1)]. *)
Definition window_bounds (len centerIndex window : Z) : Z * Z :=
  (Z.max 0 (centerIndex - window), Z.min (len - 1) (centerIndex + window)).

(** [buildContextWindow] *)
Definition buildContextWindow (words : list Word) (centerIndex window : Z) : string :=
  let len := Z.of_nat (length words) in
  let '(startIndex, endIndex) := window_bounds len centerIndex window in
  let hasLeadingText := (0 <? startIndex)%Z in
  let hasTrailingText := (endIndex <? len - 1)%Z in
  (if hasLeadingText then "... " else "") +:+
  String.concat " " (map w_text (js_slice words startIndex (endIndex + 1))) +:+
  (if hasTrailingText then " ..." else "").

(** The filter of [getTargetWordIndex] (197-202). *)
Definition overlaps (targetStartTime targetEndTime : Q) (word : Word) : bool :=
  (Qle_bool targetStartTime (w_start word) && Qle_bool (w_start word) targetEndTime) ||
  (Qle_bool targetStartTime (w_end word) && Qle_bool (w_end word) targetEndTime) ||
  (Qle_bool (w_start word) targetStartTime && Qle_bool targetEndTime (w_end word)).

Definition midpoint (word : Word) : Q := (w_start word + w_end word) / 2.

(** [words.reduce((closest, word) => ...)] from index [i], with the index of
    the current [closest]. *)
Fixpoint closest_from (targetMidpoint : Q) (closest : nat * Word) (i : nat) (ws : list Word) : nat * Word :=
  match ws with
  | [] => closest
  | word :: r =>
      let closest' :=
        if Qlt_bool (Qabs (midpoint word - targetMidpoint)) (Qabs (midpoint closest.2 - targetMidpoint))
        then (i, word) else closest in
      closest_from targetMidpoint closest' (S i) r
  end.

(** [getTargetWordIndex]; [None] where [reduce] on an empty array throws. *)
Definition getTargetWordIndex (words : list Word) (targetStartTime targetEndTime : Q) : option nat :=
  match find_index (overlaps targetStartTime targetEndTime) words with
  | Some i => Some i
  | None =>
      let targetMidpoint := (targetStartTime + targetEndTime) / 2 in
      match words with
      | [] => None
      | w0 :: rest => Some (closest_from targetMidpoint (0%nat, w0) 1 rest).1
      end
  end.

(** The context fields of [EntityOccurrence]. *)
Record ContextParts := mkContextParts {
  cp_context : string;
  cp_expandedContext : string;
  cp_highlightedContext : list HighlightPart;
  cp_expandedHighlightedContext : list HighlightPart
}.

(** [EntityOccurrence] *)
Record EntityOccurrence := mkOccurrence {
  eo_text : string;
  eo_start_time : Q;
  eo_end_time : Q;
  eo_context : ContextParts
}.

(** [arr.filter((ner, index, arr) => index === 0 || |ner.start - arr[index-1].start| > eps)]:
    each item is compared with the item before it in [arr], kept or not. *)
Definition unique_by_time (l : list NerDataItem) : list NerDataItem :=
  unique_close_by nd_start_time DUPLICATE_TIME_EPSILON l.

(** The filtered and sorted items of the entity (270-276). *)
Definition entity_items (nerData : list json) (entityText entityLabel : string) : list NerDataItem :=
  List.filter (fun ner => String.eqb (js_lower (nd_text ner)) (js_lower entityText) &&
                          String.eqb (nd_label ner) entityLabel)
    (stable_sort (fun a b => Qle_bool (nd_start_time a) (nd_start_time b)) (omap as_ner_item (normalizeNerData nerData))).

Section Occurrences.
(** [createHighlightedParts] (regular expressions, not modelled). *)
Context (createHighlightedParts : string -> string -> list HighlightPart).

(** [getContextAroundTime] *)
Definition getContextAroundTime (words : list Word) (targetStartTime targetEndTime : Q) (entityText : string)
    : ContextParts :=
  match words with
  | [] => mkContextParts "" "" [] []
  | _ =>
      match getTargetWordIndex words targetStartTime targetEndTime with
      | None => mkContextParts "" "" [] []
      | Some targetWordIndex =>
          let collapsed := buildContextWindow words (Z.of_nat targetWordIndex) COLLAPSED_WORD_WINDOW in
          let expanded := buildContextWindow words (Z.of_nat targetWordIndex) EXPANDED_WORD_WINDOW in
          mkContextParts collapsed expanded
            (createHighlightedParts collapsed entityText) (createHighlightedParts expanded entityText)
      end
  end.

(** [currentInterviewOccurrences] (266-287): [nerData] is
    [storyHubPage?.properties?.ner_data] and [allWords] the store's
    [Word[] | null]; either missing gives no occurrence. *)
Definition currentInterviewOccurrences (nerData : option (list json)) (allWords : option (list Word))
    (entityText entityLabel : string) : list EntityOccurrence :=
  match nerData, allWords with
  | Some nd, Some ws =>
      map (fun ner => mkOccurrence (nd_text ner) (nd_start_time ner) (nd_end_time ner)
                        (getContextAroundTime ws (nd_start_time ner) (nd_end_time ner) (nd_text ner)))
        (unique_by_time (entity_items nd entityText entityLabel))
  | _, _ => []
  end.
End Occurrences.

(** The state of [NerEntityModal] (252-257). *)
Record modal := mkModal {
  md_tabValue : nat;
  md_loading : bool;
  md_collectionOccurrences : list wobj;
  md_projectMentionCount : option nat;
  md_projectRecordingCount : option nat;
  md_expandedSections : gset string
}.

Definition initial_modal : modal := mkModal 0 false [] None None ∅.

(** The limit of the project search (297). *)
Definition PROJECT_SEARCH_LIMIT : nat := 10000.

(** [`${entityText.toLowerCase()}|${entityLabel}`] (292). *)
Definition modal_key (entityText entityLabel : string) : string :=
  js_lower entityText +:+ "|" +:+ entityLabel.

(** The pending [Promise.all] of the loading effect. *)
Inductive modal_request :=
| LoadOccurrences (entityText entityLabel : string) (currentStoryUuid : option string).

(** The synchronous part of the effect (290-297): nothing when closed. *)
Definition open_effect (open : bool) (entityText entityLabel : string) (currentStoryUuid : option string)
    (m : modal) : modal * list modal_request :=
  if negb open then (m, []) else
  (mkModal (md_tabValue m) true (md_collectionOccurrences m) None None (md_expandedSections m),
   [LoadOccurrences entityText entityLabel currentStoryUuid]).

Section Load.
Context `{Datastore}.

(** The [then]/[catch]/[finally] of the effect (297-311). *)
Definition load_resolve (r : modal_request) (m : modal) : modal :=
  let '(LoadOccurrences entityText entityLabel currentStoryUuid) := r in
  let key := modal_key entityText entityLabel in
  match fst (run (searchNerEntitiesAcrossCollection entityText entityLabel currentStoryUuid
                    PROJECT_SEARCH_LIMIT)),
        fst (run (getNerEntityRecordingCounts [(entityText, entityLabel)])) with
  | Ok objects, Ok counts =>
      mkModal (md_tabValue m) false objects (Some (length objects))
        (Some (default 0%nat (counts !! key))) (md_expandedSections m)
  | _, _ => mkModal (md_tabValue m) false (md_collectionOccurrences m) (md_projectMentionCount m)
              (md_projectRecordingCount m) (md_expandedSections m)
  end.
End Load.

(** A recording group of [occurrencesByRecording]. *)
Record RecordingGroup := mkGroup {
  g_interview_title : string;
  g_theirstory_id : string;
  g_occurrences : list wobj
}.

(** [(obj.properties as any)?.theirstory_id ?? ''] *)
Definition rec_id (obj : wobj) : string := theirstory_id (properties obj) ?? "".

(** The body of the loop of [occurrencesByRecording] (374-382). *)
Definition group_step (byId : list (string * RecordingGroup)) (obj : wobj) : list (string * RecordingGroup) :=
  let id := rec_id obj in
  let title := interview_title (properties obj) ?? "Unknown recording" in
  let byId := match amap_get id byId with
              | None => amap_set id (mkGroup title id []) byId
              | Some _ => byId
              end in
  match amap_get id byId with
  | Some g => amap_set id (mkGroup (g_interview_title g) (g_theirstory_id g) (g_occurrences g ++ [obj])) byId
  | None => byId
  end.

(** [occurrencesByRecording] *)
Definition occurrencesByRecording (collectionOccurrences : list wobj) : list RecordingGroup :=
  map snd (fold_left group_step collectionOccurrences []).

(** The expansion effect (386-390). *)
Definition expand_all (open : bool) (groups : list RecordingGroup) (m : modal) : modal :=
  match open, groups with
  | true, _ :: _ =>
      mkModal (md_tabValue m) (md_loading m) (md_collectionOccurrences m) (md_projectMentionCount m)
        (md_projectRecordingCount m) (list_to_set (map g_theirstory_id groups))
  | _, _ => m
  end.

(** [toggleSection] *)
Definition toggleSection (theirstoryId : string) (prev : gset string) : gset string :=
  if bool_decide (theirstoryId ∈ prev) then prev ∖ {[theirstoryId]} else prev ∪ {[theirstoryId]}.

(** [mentionCountDisplay] *)
Definition mentionCountDisplay (mentionCount : nat) : string :=
  if (PROJECT_SEARCH_LIMIT <=? mentionCount)%nat then "10,000+" else js_string_of_nat mentionCount.

Definition plural_s (n : nat) : string := if (n =? 1)%nat then "" else "s".

(** [recordingCount], [mentionCount] and [projectTabLabel] (401-409). *)
Definition recordingCount (m : modal) : nat :=
  md_projectRecordingCount m ?? length (occurrencesByRecording (md_collectionOccurrences m)).

Definition mentionCount (m : modal) : nat :=
  md_projectMentionCount m ?? length (md_collectionOccurrences m).

Definition projectTabLabel (m : modal) : string :=
  let mc := mentionCount m in
  let rc := recordingCount m in
  if (0 <? mc)%nat || (0 <? length (md_collectionOccurrences m))%nat then
    "In the project (" +:+ mentionCountDisplay mc +:+ " mention" +:+ plural_s mc +:+ " in " +:+
    js_string_of_nat rc +:+ " recording" +:+ plural_s rc +:+ ")"
  else "In the project".

(** [createSimpleContext]: [None] when the entity does not occur. *)
Definition createSimpleContext (transcription entityText : string) (window : Z)
    : option (string * list HighlightPart) :=
  let source := transcription in
  let sourceLower := js_lower source in
  let entityLower := js_lower entityText in
  let matchStart := js_indexOf sourceLower entityLower in
  if (matchStart =? -1)%Z then None else
  let slen := Z.of_nat (String.length source) in
  let matchEnd := (matchStart + Z.of_nat (String.length entityText))%Z in
  let start := Z.max 0 (matchStart - window) in
  let end_ := Z.min slen (matchEnd + window) in
  let before := js_str_slice source start matchStart in
  let matchText := js_str_slice source matchStart matchEnd in
  let after := js_str_slice source matchEnd end_ in
  let hasLeadingText := (0 <? start)%Z in
  let hasTrailingText := (end_ <? slen)%Z in
  let highlightedParts :=
    (if hasLeadingText then [HPlain "..."] else []) ++ [HPlain before; HHighlight matchText; HPlain after] ++
    (if hasTrailingText then [HPlain "..."] else []) in
  let text := (if hasLeadingText then "..." else "") +:+ before +:+ matchText +:+ after +:+
              (if hasTrailingText then "..." else "") in
  Some (text, highlightedParts).

(** The calls of [handleCurrentInterviewClick] (346-356): the store's
    label toggle, the player's seek, the transcript's target time, and the
    modal's [onClose]. *)
Inductive modal_call :=
  | ModalStoreAction (a : action)
  | ModalSeekTo (t : Q)
  | ModalSetTargetScrollTime (t : Q)
  | ModalClose.

(** [handleCurrentInterviewClick] (346-356): the label is toggled only when
    it is not selected yet. *)
Definition handleCurrentInterviewClick (selected_ner_labels : list string) (nerLabel : string)
    (occurrence : EntityOccurrence) : list modal_call :=
  (if existsb (String.eqb nerLabel) selected_ner_labels then []
   else [ModalStoreAction (A_setUpdateSelectedNerLabel nerLabel)]) ++
  [ModalSeekTo (eo_start_time occurrence); ModalSetTargetScrollTime (eo_start_time occurrence); ModalClose].

(** The store after the click's store actions. *)
Definition apply_modal_calls (PAGINATION_ITEMS_PER_PAGE : nat) (s : store) (calls : list modal_call) : store :=
  fold_left (fun s c => match c with
                        | ModalStoreAction a => fst (dispatch PAGINATION_ITEMS_PER_PAGE a s)
                        | _ => s
                        end) calls s.

(** ** Lemmas *)

#[local] Instance start_le_trans : Transitive (fun a b : NerDataItem => nd_start_time a <= nd_start_time b).
Proof. intros x y z. apply Qle_trans. Qed.

Lemma entity_items_sorted (nd : list json) (entityText entityLabel : string) :
  Sorted (fun a b => nd_start_time a <= nd_start_time b) (entity_items nd entityText entityLabel).
Proof.
  unfold entity_items. apply (sorted_sublist _ (stable_sort (fun a b => Qle_bool (nd_start_time a) (nd_start_time b))
    (omap as_ner_item (normalizeNerData nd)))); [apply List_filter_sublist|].
  eapply Sorted_weaken; [|apply stable_sort_sorted].
  - intros x y. apply Qle_bool_iff.
  - intros a b. apply Qle_bool_total.
Qed.

Lemma entity_items_text (nd : list json) (entityText entityLabel : string) :
  Forall (fun ner => js_lower (nd_text ner) = js_lower entityText /\ nd_label ner = entityLabel)
    (entity_items nd entityText entityLabel).
Proof.
  unfold entity_items. apply Forall_forall. intros ner Hin. apply list_elem_of_In in Hin.
  apply filter_In in Hin as [_ Hp]. apply andb_true_iff in Hp as [H1 H2].
  by apply String.eqb_eq in H1, H2.
Qed.

Lemma find_index_some {A} (p : A -> bool) (l : list A) (i : nat) :
  find_index p l = Some i ->
  exists w, l !! i = Some w /\ p w = true /\ forall j w', (j < i)%nat -> l !! j = Some w' -> p w' = false.
Proof.
  revert i. induction l as [|x l IH]; intros i; simpl; [done|].
  destruct (p x) eqn:Px.
  - intros [= <-]. exists x. split_and!; [done..|]. intros j w' Hj. lia.
  - destruct (find_index p l) as [i'|] eqn:E; simpl; intros [= <-].
    destruct (IH i' eq_refl) as (w & Hw & Pw & Hbefore). exists w. split_and!; [done..|].
    intros [|j] w' Hj; simpl; [by intros [= <-]|]. apply Hbefore. lia.
Qed.

Lemma find_index_none {A} (p : A -> bool) (l : list A) :
  find_index p l = None -> Forall (fun w => p w = false) l.
Proof.
  induction l as [|x l IH]; simpl; [constructor|].
  destruct (p x) eqn:Px; [done|]. destruct (find_index p l); [done|]. intros _. constructor; auto.
Qed.

(** [reduce] keeps the first word of least distance to the target. *)
Lemma closest_from_spec (t : Q) (ci : nat) (cw : Word) (i : nat) (ws : list Word) (k : nat) (w : Word) :
  closest_from t (ci, cw) i ws = (k, w) ->
  ((k, w) = (ci, cw) \/ (i <= k)%nat /\ ws !! (k - i)%nat = Some w) /\
  Qabs (midpoint w - t) <= Qabs (midpoint cw - t) /\
  Forall (fun w' => Qabs (midpoint w - t) <= Qabs (midpoint w' - t)) ws.
Proof.
  revert ci cw i. induction ws as [|w' r IH]; intros ci cw i; simpl.
  - intros [= -> ->]. split_and!; [by left|apply Qle_refl|constructor].
  - destruct (Qlt_bool _ _) eqn:Hlt; intros Hc; destruct (IH _ _ _ Hc) as (Hpos & Hd & Hall).
    + apply Qlt_bool_iff in Hlt. simpl in Hd. split_and!.
      * right. destruct Hpos as [[= -> ->]|[Hi Hk]]; [split; [lia|by rewrite Nat.sub_diag]|].
        split; [lia|]. by replace (k - i)%nat with (S (k - S i)) by lia.
      * lra.
      * by constructor.
    + apply Qlt_bool_false in Hlt. simpl in Hd. split_and!.
      * destruct Hpos as [?|[Hi Hk]]; [by left|right].
        split; [lia|]. by replace (k - i)%nat with (S (k - S i)) by lia.
      * done.
      * constructor; [lra|done].
Qed.

(** What the grouping map holds after the objects [pre]. *)
Definition groups_inv (pre : list wobj) (byId : list (string * RecordingGroup)) : Prop :=
  NoDup (map fst byId) /\
  (forall k g, In (k, g) byId ->
     g_theirstory_id g = k /\ g_occurrences g = List.filter (fun o => String.eqb (rec_id o) k) pre) /\
  (forall o, In o pre -> exists g, In (rec_id o, g) byId).

Lemma groups_inv_ensure (pre : list wobj) byId (id title : string) :
  groups_inv pre byId ->
  let byId1 := match amap_get id byId with
               | None => amap_set id (mkGroup title id []) byId
               | Some _ => byId
               end in
  groups_inv pre byId1 /\ exists g, amap_get id byId1 = Some g.
Proof.
  intros (Hnd & Hent & Hcov). cbv zeta. destruct (amap_get id byId) as [g|] eqn:Hg.
  { split; [split_and!|]; eauto. }
  split; [split_and!|].
  - by apply amap_set_NoDup.
  - intros k g Hin. destruct (amap_set_In _ _ _ _ _ Hnd Hin) as [[-> ->]|[Hne Hin']]; [|by apply Hent].
    simpl. split; [done|]. symmetry. apply List_filter_nil. intros o Ho.
    destruct (String.eqb_spec (rec_id o) id) as [E|]; [|done].
    destruct (Hcov o Ho) as [g' Hg']. rewrite E in Hg'. by apply (amap_get_None _ g') in Hg.
  - intros o Ho. destruct (Hcov o Ho) as [g' Hg'].
    destruct (decide (rec_id o = id)) as [->|Hne]; [eexists; apply amap_set_In_self|].
    exists g'. by apply amap_set_In_other.
  - eexists. rewrite amap_get_set. by rewrite decide_True.
Qed.

Lemma groups_inv_push (pre : list wobj) byId (obj : wobj) (g : RecordingGroup) :
  groups_inv pre byId -> amap_get (rec_id obj) byId = Some g ->
  groups_inv (pre ++ [obj])
    (amap_set (rec_id obj) (mkGroup (g_interview_title g) (g_theirstory_id g) (g_occurrences g ++ [obj])) byId).
Proof.
  intros (Hnd & Hent & Hcov) Hg. destruct (Hent _ _ (amap_get_In _ _ _ Hg)) as [Hid Hocc].
  split_and!.
  - by apply amap_set_NoDup.
  - intros k g' Hin. rewrite List.filter_app. simpl.
    destruct (amap_set_In _ _ _ _ _ Hnd Hin) as [[-> ->]|[Hne Hin']].
    + simpl. rewrite String.eqb_refl, Hocc. done.
    + destruct (Hent k g' Hin') as [? ->]. split; [done|].
      destruct (String.eqb_spec (rec_id obj) k); [congruence|]. by rewrite app_nil_r.
  - intros o [Ho|[<-|[]]]%in_app_or; [|eexists; apply amap_set_In_self].
    destruct (Hcov o Ho) as [g' Hg'].
    destruct (decide (rec_id o = rec_id obj)) as [->|Hne]; [eexists; apply amap_set_In_self|].
    exists g'. by apply amap_set_In_other.
Qed.

Lemma group_step_inv (pre : list wobj) byId (obj : wobj) :
  groups_inv pre byId -> groups_inv (pre ++ [obj]) (group_step byId obj).
Proof.
  intros Hinv. unfold group_step.
  destruct (groups_inv_ensure pre byId (rec_id obj) (nullish (interview_title (properties obj)) "Unknown recording")
              Hinv) as [Hinv1 [g Hg]].
  cbv zeta in *. rewrite Hg. by apply groups_inv_push.
Qed.

Lemma groups_fold_inv (objs : list wobj) : groups_inv objs (fold_left group_step objs []).
Proof.
  induction objs as [|o objs IH] using rev_ind.
  - split_and!; [constructor|done|done].
  - rewrite fold_left_app. by apply group_step_inv.
Qed.

Section LoadLemmas.
Context `{Datastore}.

(** A successful load stores the project occurrences and both counts. *)
Lemma load_resolve_ok (entityText entityLabel : string) (currentStoryUuid : option string) (m : modal)
    (objects : list wobj) :
  fst (run (searchNerEntitiesAcrossCollection entityText entityLabel currentStoryUuid PROJECT_SEARCH_LIMIT))
    = Ok objects ->
  load_resolve (LoadOccurrences entityText entityLabel currentStoryUuid) m =
    mkModal (md_tabValue m) false objects (Some (length objects))
      (Some (entity_count entityText entityLabel)) (md_expandedSections m).
Proof.
  intros Hs. unfold load_resolve. rewrite Hs.
  unfold getNerEntityRecordingCounts, run. rewrite count_entities_run. simpl.
  unfold counts_step. simpl. unfold modal_key. by rewrite lookup_insert_eq.
Qed.

Lemma load_resolve_err (entityText entityLabel : string) (currentStoryUuid : option string) (m : modal)
    (e : error) :
  fst (run (searchNerEntitiesAcrossCollection entityText entityLabel currentStoryUuid PROJECT_SEARCH_LIMIT))
    = Err e ->
  load_resolve (LoadOccurrences entityText entityLabel currentStoryUuid) m =
    mkModal (md_tabValue m) false (md_collectionOccurrences m) (md_projectMentionCount m)
      (md_projectRecordingCount m) (md_expandedSections m).
Proof. intros Hs. unfold load_resolve. by rewrite Hs. Qed.
End LoadLemmas.

(** ** Properties *)


(** The occurrences the modal lists for the current recording are of the
    entity (its text up to case) and come in increasing start time, any two
    consecutive ones more than 1 ms apart. *)
Theorem currentInterviewOccurrences_spec (createHighlightedParts : string -> string -> list HighlightPart)
    (nerData : list json) (allWords : list Word) (entityText entityLabel : string) :
  let occ := currentInterviewOccurrences createHighlightedParts (Some nerData) (Some allWords) entityText entityLabel in
  Sorted (fun a b => eo_start_time a + DUPLICATE_TIME_EPSILON < eo_start_time b) occ /\
  Forall (fun o => js_lower (eo_text o) = js_lower entityText) occ.
Proof.
  simpl. split.
  - apply Sorted_map, unique_close_by_gapped, entity_items_sorted.
  - apply Forall_map. eapply Forall_sublist_of; [apply unique_close_by_sublist|].
    eapply Forall_impl; [apply entity_items_text|]. intros ner [H _]. exact H.
Qed.

(** The word the context is centred on: the first word overlapping the
    occurrence when there is one, otherwise the first word whose midpoint
    is closest to the midpoint of the occurrence; it is a valid index. *)
Theorem getTargetWordIndex_spec (words : list Word) (targetStartTime targetEndTime : Q) :
  words <> [] ->
  exists i w, getTargetWordIndex words targetStartTime targetEndTime = Some i /\ words !! i = Some w /\
    ((overlaps targetStartTime targetEndTime w = true /\
      forall j w', (j < i)%nat -> words !! j = Some w' -> overlaps targetStartTime targetEndTime w' = false) \/
     (Forall (fun w' => overlaps targetStartTime targetEndTime w' = false) words /\
      Forall (fun w' => Qabs (midpoint w - (targetStartTime + targetEndTime) / 2) <=
                        Qabs (midpoint w' - (targetStartTime + targetEndTime) / 2)) words)).
Proof.
  intros Hne. unfold getTargetWordIndex.
  destruct (find_index _ words) as [i|] eqn:E.
  - destruct (find_index_some _ _ _ E) as (w & Hw & Pw & Hb). exists i, w. split_and!; [done..|by left].
  - apply find_index_none in E. destruct words as [|w0 rest]; [done|].
    destruct (closest_from _ _ 1 rest) as [k w] eqn:C.
    destruct (closest_from_spec _ _ _ _ _ _ _ C) as (Hpos & Hd & Hall).
    exists k, w. split; [done|]. split.
    + destruct Hpos as [[= -> ->]|[Hk Hl]]; [done|]. by replace k with (S (k - 1)) by lia.
    + right. split; [done|]. by constructor.
Qed.

(** [occurrencesByRecording] makes one group per recording id, and the
    group of an id holds exactly the project occurrences of that recording,
    in their original order; every occurrence is in a group. *)
Theorem occurrencesByRecording_spec (objs : list wobj) :
  let groups := occurrencesByRecording objs in
  NoDup (map g_theirstory_id groups) /\
  Forall (fun g => g_occurrences g = List.filter (fun o => String.eqb (rec_id o) (g_theirstory_id g)) objs) groups /\
  (forall o, In o objs -> exists g, In g groups /\ g_theirstory_id g = rec_id o).
Proof.
  cbv zeta. unfold occurrencesByRecording.
  destruct (groups_fold_inv objs) as (Hnd & Hent & Hcov).
  set (byId := fold_left group_step objs []) in *.
  split_and!.
  - replace (map g_theirstory_id (map snd byId)) with (map fst byId); [done|].
    rewrite map_map. apply map_ext_in. intros [k g] Hin. symmetry. apply (Hent k g Hin).
  - apply Forall_forall. intros g Hg. apply list_elem_of_In, in_map_iff in Hg as [[k g'] [<- Hin]].
    destruct (Hent k g' Hin) as [Hk Ho]. simpl. by rewrite Ho, Hk.
  - intros o Ho. destruct (Hcov o Ho) as [g Hg]. exists g. split; [|apply (Hent _ _ Hg)].
    apply in_map_iff. by exists (rec_id o, g).
Qed.

(** Toggling a recording section twice restores the set of expanded sections. *)
Theorem toggleSection_involutive (theirstoryId : string) (prev : gset string) :
  toggleSection theirstoryId (toggleSection theirstoryId prev) = prev.
Proof.
  unfold toggleSection. apply leibniz_equiv.
  destruct (bool_decide_reflect (theirstoryId ∈ prev)) as [Hin|Hnin];
    [rewrite bool_decide_false by set_solver | rewrite bool_decide_true by set_solver];
    intros x; destruct (decide (x = theirstoryId)); set_solver.
Qed.

(** A chain of occurrences less than 1 ms apart collapses to its first
    occurrence, although the last is 1.6 ms after it: each occurrence is
    compared with the previous one, kept or not. *)
Example unique_by_time_chain :
  unique_by_time [mkNerDataItem "a" "L" 0 0; mkNerDataItem "a" "L" (8 # 10000) 0;
                  mkNerDataItem "a" "L" (16 # 10000) 0] = [mkNerDataItem "a" "L" 0 0].
Proof. vm_compute. reflexivity. Qed.

(** The modal reads the recording count under the key the server
    writes it: after a successful load its recording count is the count of
    the entity ([0] only when that entity's own fetch failed), never a
    fallback for a missing key. *)
Theorem load_resolve_recording_count `{Datastore} (entityText entityLabel : string)
    (currentStoryUuid : option string) (m : modal) (objects : list wobj) :
  fst (run (searchNerEntitiesAcrossCollection entityText entityLabel currentStoryUuid PROJECT_SEARCH_LIMIT))
    = Ok objects ->
  let m' := load_resolve (LoadOccurrences entityText entityLabel currentStoryUuid) m in
  md_collectionOccurrences m' = objects /\ mentionCount m' = length objects /\
  recordingCount m' = entity_count entityText entityLabel.
Proof. intros Hs. cbv zeta. by rewrite (load_resolve_ok _ _ _ _ _ Hs). Qed.

(** The mention count of a successful load is at most the search limit
    of 10000, so the label shows [10,000+] exactly when the search returned
    a full, possibly truncated, page. *)
Theorem load_mention_count_capped `{DatastoreLaws} (entityText entityLabel : string)
    (currentStoryUuid : option string) (m : modal) (objects : list wobj) :
  fst (run (searchNerEntitiesAcrossCollection entityText entityLabel currentStoryUuid PROJECT_SEARCH_LIMIT))
    = Ok objects ->
  let m' := load_resolve (LoadOccurrences entityText entityLabel currentStoryUuid) m in
  (mentionCount m' <= PROJECT_SEARCH_LIMIT)%nat /\
  mentionCountDisplay (mentionCount m') =
    if (mentionCount m' =? PROJECT_SEARCH_LIMIT)%nat then "10,000+" else js_string_of_nat (mentionCount m').
Proof.
  intros Hs. cbv zeta. rewrite (load_resolve_ok _ _ _ _ _ Hs). unfold mentionCount. simpl.
  unfold searchNerEntitiesAcrossCollection, fetchObjects in Hs. tm_unfold.
  destruct (ds_fetchObjects _) as [objs|] eqn:E; simpl in Hs; simplify_eq.
  apply fetch_page in E as [Hlen _]. simpl in Hlen.
  split; [exact Hlen|]. unfold mentionCountDisplay.
  destruct (Nat.eqb_spec (length objects) PROJECT_SEARCH_LIMIT) as [->|Hne].
  - by rewrite Nat.leb_refl.
  - replace (PROJECT_SEARCH_LIMIT <=? length objects)%nat with false; [done|].
    symmetry. apply Nat.leb_gt. lia.
Qed.


(** Clicking an occurrence in the modal's current-interview tab
    leaves the entity's label selected, deselecting none: the store's
    toggle is called only when the label is not selected yet.  The player
    and the transcript then go to the occurrence, and the modal closes. *)
Theorem handleCurrentInterviewClick_selects (PAGINATION_ITEMS_PER_PAGE : nat) (s : store) (nerLabel : string)
    (occurrence : EntityOccurrence) :
  let calls := handleCurrentInterviewClick (selected_ner_labels s) nerLabel occurrence in
  let s' := apply_modal_calls PAGINATION_ITEMS_PER_PAGE s calls in
  (forall l, l ∈ selected_ner_labels s' <-> l ∈ selected_ner_labels s \/ l = nerLabel) /\
  drop (length calls - 3) calls = [ModalSeekTo (eo_start_time occurrence);
                                   ModalSetTargetScrollTime (eo_start_time occurrence); ModalClose].
Proof.
  unfold handleCurrentInterviewClick, apply_modal_calls.
  destruct (existsb (String.eqb nerLabel) (selected_ner_labels s)) eqn:E; simpl.
  - apply existsb_exists in E as [y [Hy Hye%String.eqb_eq]]. subst y. apply list_elem_of_In in Hy.
    split; [|done]. intros l. split; [by left|]. intros [?| ->]; done.
  - split; [|done]. unfold toggle_label. rewrite bool_decide_false.
    + intros l. rewrite elem_of_app, list_elem_of_singleton. done.
    + intros Hin%list_elem_of_In. assert (existsb (String.eqb nerLabel) (selected_ner_labels s) = true)
        by (apply existsb_exists; exists nerLabel; by rewrite String.eqb_refl). congruence.
Qed.

(** The guard keeps passing objects as they are, extra properties
    included, and drops [null], objects with a non-string [text] and
    objects whose last [end_time] is not a number. *)
Example normalizeNerData_keeps_objects :
  let fairfax := JObj [("text", JStr "Fairfax"); ("label", JStr "GPE"); ("start_time", JNum 3);
                       ("end_time", JNum 4); ("score", JNum 1)] in
  normalizeNerData [JNull; fairfax; JObj [("text", JNum 1)];
                    JObj [("text", JStr "A"); ("label", JStr "B"); ("start_time", JNum 1);
                          ("end_time", JNum 2); ("end_time", JStr "2")]] = [fairfax].
Proof. reflexivity. Qed.

(** ** Witnesses *)

Lemma getTargetWordIndex_spec_witness :
  exists i w, getTargetWordIndex [mkWord "Paris" 0 0 0 0 1; mkWord "is" 1 0 0 1 2] (3 # 2) (7 # 4) = Some i /\
    [mkWord "Paris" 0 0 0 0 1; mkWord "is" 1 0 0 1 2] !! i = Some w.
Proof.
  destruct (getTargetWordIndex_spec [mkWord "Paris" 0 0 0 0 1; mkWord "is" 1 0 0 1 2] (3 # 2) (7 # 4))
    as (i & w & H1 & H2 & _); [discriminate|].
  exists i, w. split; [exact H1|exact H2].
Defined.

Lemma load_resolve_recording_count_witness :
  let m' := @load_resolve sample_ds (LoadOccurrences "Paris" "LOC" (Some "rec1")) initial_modal in
  md_collectionOccurrences m' = [chunk_c] /\ mentionCount m' = 1%nat /\
  recordingCount m' = @entity_count sample_ds "Paris" "LOC".
Proof.
  apply (@load_resolve_recording_count sample_ds "Paris" "LOC" (Some "rec1") initial_modal [chunk_c]).
  vm_compute. reflexivity.
Defined.


Lemma load_mention_count_capped_witness :
  let m' := @load_resolve sample_ds (LoadOccurrences "Paris" "LOC" None) initial_modal in
  (mentionCount m' <= PROJECT_SEARCH_LIMIT)%nat.
Proof.
  apply (proj1 (@load_mention_count_capped sample_ds (memstore_laws _ _ _ _) "Paris" "LOC" None initial_modal
                  [chunk_a; chunk_c] ltac:(vm_compute; reflexivity))).
Defined.

