(* ===== verification/EntityPanel.v ===== *)
(** * EntityPanel: the entity panel of the story page

    [src/app/story/[storyUuid]/Components/StoryMetadataEntity.tsx].  The
    panel lists the entities of the recording's [ner_data], grouped by
    label ([groupedEntities]: lodash [groupBy], then a [Map] from text to
    start times per label), with each text's mentions counted after
    near-duplicate removal.  Clicking a label seeks the player to the next
    mention of that label after the current time, wrapping around to the
    first ([handleCategoryClick]).  An effect fetches, for the flat
    [entityList], the number of recordings of each entity
    ([getNerEntityRecordingCounts] of EntityCounts.v), guarded by a
    [cancelled] flag that the effect's cleanup sets.  The chips are sorted
    by those counts.

    [ner_data] items are taken to be well-formed [NerDataItem]s (the store's
    type); the player and transcript stores, which are not under [src/],
    appear only through the calls the handler makes on them
    ([panel_effect]).  [localeCompare] is a parameter, as in Collections.v.
    lodash's [groupBy] builds a plain object, whose keys keep their
    insertion order unless they look like array indices: labels are words,
    so the groups are in the order their label first appears. *)

From S2P Require Import Prelude OrgConfig Filters Backend Samples Retrieval EntityCounts NerModal.

Local Open Scope Q_scope.
Local Open Scope portal_scope.

(** [recordingCountKey] (15). *)
Definition recordingCountKey (text label : string) : string := js_lower text +:+ "|" +:+ label.

(** The calls a click handler makes on the stores, in order. *)
Inductive panel_effect :=
  | UpdateSelectedNerLabel (label : string)
  | SeekTo (t : Q)
  | SetTargetScrollTime (t : Q).

(** [categoryInstances] (61-63): the mentions of a label, by start time. *)
Definition categoryInstances (ner_data : option (list NerDataItem)) (category : string) : list NerDataItem :=
  stable_sort (fun a b => Qle_bool (nd_start_time a) (nd_start_time b))
    (List.filter (fun item => String.eqb (nd_label item) category) (default [] ner_data)).

(** [handleCategoryClick] (54-83). *)
Definition handleCategoryClick (selected_ner_labels : list string) (ner_data : option (list NerDataItem))
    (currentTime : Q) (category : string) : list panel_effect :=
  let toggle :=
    if existsb (String.eqb category) selected_ner_labels then [] else [UpdateSelectedNerLabel category] in
  let categoryInstances := categoryInstances ner_data category in
  if (length categoryInstances =? 0)%nat then toggle else
  let deduplicatedInstances := unique_close_by nd_start_time (1 # 1000) categoryInstances in
  let nextInstance := List.find (fun item => Qlt_bool currentTime (nd_start_time item)) deduplicatedInstances in
  let targetInstance := match nextInstance with Some i => Some i | None => head deduplicatedInstances end in
  toggle ++
  match targetInstance with
  | Some t => [SeekTo (nd_start_time t); SetTargetScrollTime (nd_start_time t)]
  | None => []
  end.

(** [groupBy(ner_data, 'label')] (91). *)
Definition groupBy_label (ner_data : list NerDataItem) : list (string * list NerDataItem) :=
  group_by nd_label (fun item => item) ner_data.

(** [textMap] (95-104): the start times of each text, in insertion order. *)
Definition text_times (entries : list NerDataItem) : list (string * list Q) :=
  group_by nd_text nd_start_time entries.

Record EntityItem := mkEntityItem {
  ei_text : string;
  ei_count : nat;
  ei_start_times : list Q
}.

(** The [map] of [uniqueItems] (107-118). *)
Definition unique_item (td : string * list Q) : EntityItem :=
  let sortedTimes := stable_sort Qle_bool td.2 in
  let uniqueTimes := unique_close_by (fun t => t) (1 # 1000) sortedTimes in
  mkEntityItem td.1 (length uniqueTimes) uniqueTimes.

Section Panel.
(** [String.prototype.localeCompare]. *)
Context (localeCompare : string -> string -> Z).

(** [uniqueItems] (106-119). *)
Definition uniqueItems (entries : list NerDataItem) : list EntityItem :=
  stable_sort (fun a b => (localeCompare (ei_text a) (ei_text b) <=? 0)%Z) (map unique_item (text_times entries)).

(** [groupedEntities] (90-124). *)
Definition groupedEntities (ner_data : option (list NerDataItem)) : list (string * list EntityItem) :=
  map (fun '(label, entries) => (label, uniqueItems entries)) (groupBy_label (default [] ner_data)).
End Panel.

(** [entityList] (126-132): [(text, label)] pairs. *)
Definition entityList (grouped : list (string * list EntityItem)) : list (string * string) :=
  flat_map (fun '(label, items) => map (fun it => (ei_text it, label)) items) grouped.

(** [entityListKey] (134-137): [sort()] compares code units. *)
Definition entityListKey (entities : list (string * string)) : string :=
  String.concat "," (stable_sort String.leb (map (fun '(t, l) => recordingCountKey t l) entities)).

(** ** The counts effect (139-157)

    Each run of the effect captures a fresh [cancelled] flag, which the
    cleanup sets before the next run or at unmount; a request is identified
    by the number of its run, and is cancelled once a later run or the
    unmount has happened.  An empty entity list returns no cleanup, but its
    run sends no request either. *)

Record counts_state := mkCountsState {
  cs_recordingCounts : gmap string nat;
  cs_countsLoading : bool;
  cs_runs : nat;
  (** the [entityList] of the render that last ran the effect *)
  cs_entityList : list (string * string)
}.

Definition initial_counts : counts_state := mkCountsState ∅ false 0 [].

(** A request in flight: the number of its run and its entity list. *)
Definition counts_request : Type := nat * list (string * string).

(** The synchronous part of a run, and the request it sends. *)
Definition counts_effect (entityList : list (string * string)) (s : counts_state)
    : counts_state * list counts_request :=
  let run_id := S (cs_runs s) in
  if (length entityList =? 0)%nat then (mkCountsState ∅ false run_id entityList, [])
  else (mkCountsState (cs_recordingCounts s) true run_id entityList, [(run_id, entityList)]).

(** The cleanup at unmount. *)
Definition counts_unmount (s : counts_state) : counts_state :=
  mkCountsState (cs_recordingCounts s) (cs_countsLoading s) (S (cs_runs s)) (cs_entityList s).

Section Settle.
Context `{Datastore}.

(** The [then] and [finally] of a request, when it settles. *)
Definition counts_settle (r : counts_request) (s : counts_state) : counts_state :=
  let cancelled := negb (r.1 =? cs_runs s)%nat in
  if cancelled then s else
  match fst (run (getNerEntityRecordingCounts r.2)) with
  | Ok counts => mkCountsState counts false (cs_runs s) (cs_entityList s)
  | Err _ => mkCountsState (cs_recordingCounts s) false (cs_runs s) (cs_entityList s)
  end.

(** Any interleaving of effect runs, settlements and the unmount. *)
Inductive panel_counts_step : counts_state * list counts_request -> counts_state * list counts_request -> Prop :=
  | cstep_effect s reqs l :
      panel_counts_step (s, reqs) ((counts_effect l s).1, reqs ++ (counts_effect l s).2)
  | cstep_settle s reqs1 r reqs2 :
      panel_counts_step (s, reqs1 ++ r :: reqs2) (counts_settle r s, reqs1 ++ reqs2)
  | cstep_unmount s reqs :
      panel_counts_step (s, reqs) (counts_unmount s, reqs).
End Settle.

(** ** Chips (219-251) *)

Section Chips.
Context (localeCompare : string -> string -> Z) (recordingCounts : gmap string nat) (category : string).

(** The comparator of the chips. *)
Definition chip_compare (a b : EntityItem) : Z :=
  let recA := recordingCounts !! recordingCountKey (ei_text a) category ?? 0%nat in
  let recB := recordingCounts !! recordingCountKey (ei_text b) category ?? 0%nat in
  if negb (recB =? recA)%nat then (Z.of_nat recB - Z.of_nat recA)%Z
  else if negb (ei_count b =? ei_count a)%nat then (Z.of_nat (ei_count b) - Z.of_nat (ei_count a))%Z
  else localeCompare (ei_text a) (ei_text b).

Definition chip_order (items : list EntityItem) : list EntityItem :=
  stable_sort (fun a b => (chip_compare a b <=? 0)%Z) items.

(** The secondary text of a chip. *)
Definition chip_label (it : EntityItem) : string :=
  match recordingCounts !! recordingCountKey (ei_text it) category with
  | Some recCount =>
      " (" +:+ js_string_of_nat (ei_count it) +:+ " here · " +:+ js_string_of_nat recCount +:+ " " +:+
      (if (recCount =? 1)%nat then "recording" else "recordings") +:+ ")"
  | None => " (" +:+ js_string_of_nat (ei_count it) +:+ " here)"
  end.

(** The tooltip of a chip (228-238). *)
Definition chip_tooltip (it : EntityItem) : string :=
  let mentions := js_string_of_nat (ei_count it) +:+ " mention" +:+ plural_s (ei_count it) +:+ " in this recording" in
  match recordingCounts !! recordingCountKey (ei_text it) category with
  | Some recCount =>
      mentions +:+ " · appears" +:+ " in " +:+ js_string_of_nat recCount +:+ " recording" +:+ plural_s recCount
  | None => mentions
  end.
End Chips.

(** ** The panel's modal state and rendering (31-51, 158-276) *)

Record entity_modal_state := mkEntityModalState {
  modalOpen : bool;
  selectedEntity : option (string * string)
}.

Definition initial_entity_modal : entity_modal_state := mkEntityModalState false None.

(** [handleOpenModal] (43-46) and [handleCloseModal] (48-51). *)
Definition handleOpenModal (text label : string) (_ : entity_modal_state) : entity_modal_state :=
  mkEntityModalState true (Some (text, label)).

Definition handleCloseModal (_ : entity_modal_state) : entity_modal_state := mkEntityModalState false None.

(** The mounted [NerEntityModal] (268-276), while an entity is selected:
    [open], [entityText], [entityLabel], [currentStoryUuid]. *)
Definition entityModalProps (storyHubPage : option wobj) (m : entity_modal_state)
    : option (bool * string * string * option string) :=
  match selectedEntity m with
  | Some (t, l) => Some (modalOpen m, t, l, storyHubPage ≫= fun o => theirstory_id (properties o))
  | None => None
  end.

(** The modal as the panel mounts it: the panel renders it only while an
    entity is selected (267-275) and every close clears the selection, so
    each opening mounts a new [NerEntityModal], whose state starts from its
    [useState] values and whose load effect runs with the props. *)
Definition mounted_modal (props : option (bool * string * string * option string))
    : option (modal * list modal_request) :=
  match props with
  | Some (open, t, l, u) => Some (open_effect open t l u initial_modal)
  | None => None
  end.

(** A category of the panel (161-264): the label, its header's tooltip,
    its colour, whether the navigation icon shows (not on mobile), and
    either one skeleton per item while the counts load or the chips
    (text, secondary label, tooltip) in [chip_order]. *)
Record category_view := mkCategoryView {
  cv_category : string;
  cv_tooltip : string;
  cv_color : string;
  cv_navIcon : bool;
  cv_content : nat + list (string * string * string)
}.

Definition categoryView (localeCompare : string -> string -> Z) (labels : list NerLabelConfig)
    (fallbackColors : list string) (isMobile countsLoading : bool) (recordingCounts : gmap string nat)
    (g : string * list EntityItem) : category_view :=
  let '(category, items) := g in
  mkCategoryView category ("Click to navigate to next " +:+ category +:+ " instance")
    (getNerColor labels fallbackColors category) (negb isMobile)
    (if countsLoading then inl (length items)
     else inr (map (fun it => (ei_text it, chip_label recordingCounts category it, chip_tooltip recordingCounts category it))
                 (chip_order localeCompare recordingCounts category items))).


(** ** Samples *)

(** Five mentions: three of [LOC] at 10 s, 20 s and 30 s, one more [LOC]
    half a millisecond after 20 s, and one [PERSON]. *)
Definition sample_ner : list NerDataItem :=
  [mkNerDataItem "paris" "LOC" 20 21; mkNerDataItem "mason" "PERSON" 5 6; mkNerDataItem "paris" "LOC" 10 11;
   mkNerDataItem "Paris" "LOC" (200005 # 10000) 21; mkNerDataItem "rome" "LOC" 30 31].

(** Two runs of the counts effect, the first request settling after the second run. *)
Definition sample_counts_world : counts_state * list counts_request :=
  let s1 := (counts_effect [("paris", "LOC")] initial_counts).1 in
  let s2 := (counts_effect [("rome", "LOC")] s1).1 in
  (@counts_settle sample_ds (2%nat, [("rome", "LOC")]) (@counts_settle sample_ds (1%nat, [("paris", "LOC")]) s2), []).

(** A session of clicks on one label with the player paused: the player's
    [seekTo] moves the playback time to the seek of each click. *)
Fixpoint seek_target (es : list panel_effect) : option Q :=
  match es with
  | [] => None
  | SeekTo t :: _ => Some t
  | _ :: r => seek_target r
  end.

Definition click_time (selected_ner_labels : list string) (ner_data : option (list NerDataItem))
    (category : string) (currentTime : Q) : Q :=
  default currentTime (seek_target (handleCategoryClick selected_ner_labels ner_data currentTime category)).

(** The playback times after each of [n] clicks. *)
Fixpoint clicks (selected_ner_labels : list string) (ner_data : option (list NerDataItem))
    (category : string) (currentTime : Q) (n : nat) : list Q :=
  match n with
  | O => []
  | S n' =>
      let t := click_time selected_ner_labels ner_data category currentTime in
      t :: clicks selected_ner_labels ner_data category t n'
  end.

(** ** Lemmas *)

Lemma find_after_strict {A} (f : A -> Q) (l : list A) (i : nat) (d : A) :
  Sorted (fun a b => f a < f b) l -> l !! i = Some d ->
  List.find (fun x => Qlt_bool (f d) (f x)) l = l !! S i.
Proof.
  intros Hs%Sorted_StronglySorted; [|intros a b c; lra].
  revert i. induction Hs as [|x r Hs IH Hall]; intros i Hi; [done|].
  destruct i as [|j]; simpl in Hi |- *.
  - injection Hi as <-. rewrite Qlt_bool_le by lra.
    destruct r as [|y r]; [done|]. simpl. apply Forall_inv in Hall.
    by rewrite (proj2 (Qlt_bool_iff _ _) Hall).
  - pose proof (list_elem_of_lookup_2 _ _ _ Hi) as Hd.
    rewrite Forall_forall in Hall. specialize (Hall d Hd).
    rewrite Qlt_bool_le by lra.
    by apply IH.
Qed.

Lemma categoryInstances_sorted (ner_data : option (list NerDataItem)) (category : string) :
  Sorted (fun a b => nd_start_time a <= nd_start_time b) (categoryInstances ner_data category).
Proof.
  eapply Sorted_weaken; [|apply stable_sort_sorted].
  - intros a b. apply Qle_bool_iff.
  - intros a b. apply Qle_bool_total.
Qed.

Lemma deduplicated_strict (ner_data : option (list NerDataItem)) (category : string) :
  Sorted (fun a b => nd_start_time a < nd_start_time b)
    (unique_close_by nd_start_time (1 # 1000) (categoryInstances ner_data category)).
Proof.
  eapply Sorted_weaken; [|apply unique_close_by_gapped, categoryInstances_sorted].
  intros a b; cbv beta. lra.
Qed.

(** The mention after the [i]-th of a strictly ordered list is the next
    one, or the first after the last. *)
Lemma next_or_first (D : list NerDataItem) (i : nat) (d : NerDataItem) :
  Sorted (fun a b => nd_start_time a < nd_start_time b) D -> D !! i = Some d ->
  exists d', D !! (S i mod length D)%nat = Some d' /\
    match List.find (fun item => Qlt_bool (nd_start_time d) (nd_start_time item)) D with
    | Some x => Some x | None => head D end = Some d'.
Proof.
  intros Hs Hd. pose proof (lookup_lt_Some _ _ _ Hd) as Hlt.
  rewrite (find_after_strict nd_start_time D i d Hs Hd).
  destruct (D !! S i) as [d'|] eqn:Hn.
  - exists d'. rewrite Nat.mod_small; [done|]. by apply lookup_lt_Some in Hn.
  - apply lookup_ge_None in Hn. replace (S i) with (length D) by lia. rewrite Nat.Div0.mod_same.
    destruct D as [|d0 D']; [simpl in Hlt; lia|]. by exists d0.
Qed.

Lemma categoryInstances_nonempty (ner_data : option (list NerDataItem)) (category : string) :
  unique_close_by nd_start_time (1 # 1000) (categoryInstances ner_data category) <> [] ->
  exists c cs, categoryInstances ner_data category = c :: cs.
Proof. destruct (categoryInstances ner_data category) as [|c cs]; [done|eauto]. Qed.

Lemma uniqueItems_texts (localeCompare : string -> string -> Z) (entries : list NerDataItem) :
  Permutation (map ei_text (uniqueItems localeCompare entries)) (map fst (text_times entries)).
Proof. unfold uniqueItems. rewrite stable_sort_perm, map_map. done. Qed.

Lemma entityList_In (G : list (string * list EntityItem)) (t l : string) :
  In (t, l) (entityList G) <-> exists items, In (l, items) G /\ In t (map ei_text items).
Proof.
  unfold entityList. rewrite in_flat_map. split.
  - intros [[lab items] [Hin Hm]]. apply in_map_iff in Hm as [it [[= <- <-] Hit]].
    exists items. split; [done|]. by apply in_map.
  - intros [items [Hin Hm]]. exists (l, items). split; [done|].
    apply in_map_iff in Hm as [it [<- Hit]]. apply in_map_iff. by exists it.
Qed.

Lemma entityList_NoDup (G : list (string * list EntityItem)) :
  NoDup (map fst G) -> (forall lab items, In (lab, items) G -> NoDup (map ei_text items)) ->
  NoDup (entityList G).
Proof.
  induction G as [|[lab items] G IH]; intros Hnd Hitems; [constructor|].
  cbn [map fst] in Hnd. apply NoDup_cons in Hnd as [Hlab Hnd].
  change (NoDup (map (fun it => (ei_text it, lab)) items ++ entityList G)).
  apply NoDup_app. split; [|split].
  - rewrite <- (map_map ei_text (fun t => (t, lab))).
    apply NoDup_ListNoDup, NoDup_map_NoDup_ForallPairs; [by intros x y _ _ [= ->]|].
    apply NoDup_ListNoDup, (Hitems lab). by left.
  - intros [t l] Hx Hy. apply list_elem_of_In, in_map_iff in Hx as [it [[= _ <-] _]].
    apply list_elem_of_In, entityList_In in Hy as [items' [Hin _]].
    apply Hlab, list_elem_of_In, in_map_iff. by exists (lab, items').
  - apply IH; [done|]. intros lab' items' Hin. apply (Hitems lab'). by right.
Qed.

Lemma groupedEntities_In (localeCompare : string -> string -> Z) (ner_data : option (list NerDataItem))
    (l : string) (items : list EntityItem) :
  In (l, items) (groupedEntities localeCompare ner_data) <->
  exists entries, In (l, entries) (groupBy_label (default [] ner_data)) /\ items = uniqueItems localeCompare entries.
Proof.
  unfold groupedEntities. rewrite in_map_iff. split.
  - intros [[lab entries] [[= -> <-] Hin]]. eauto.
  - intros [entries [Hin ->]]. by exists (l, entries).
Qed.

Section CountsLemmas.
Context `{Datastore}.

Lemma getNerEntityRecordingCounts_ok (entities : list (string * string)) :
  fst (run (getNerEntityRecordingCounts entities)) = Ok (fold_left EntityCounts.counts_step entities ∅).
Proof.
  unfold getNerEntityRecordingCounts, run. destruct entities as [|[t lab] es]; [done|].
  by rewrite count_entities_run.
Qed.

(** Requests in flight belong to past runs, the current run's request carries
    the current entity list, and settled counts are those of that list. *)
Definition counts_inv (w : counts_state * list counts_request) : Prop :=
  (forall r, In r w.2 -> (r.1 <= cs_runs w.1)%nat /\ (r.1 = cs_runs w.1 -> r.2 = cs_entityList w.1)) /\
  (cs_countsLoading w.1 = false ->
   fst (run (getNerEntityRecordingCounts (cs_entityList w.1))) = Ok (cs_recordingCounts w.1)).

Lemma counts_inv_step (w w' : counts_state * list counts_request) :
  panel_counts_step w w' -> counts_inv w -> counts_inv w'.
Proof.
  intros Hstep [Hreqs Hfresh]. destruct Hstep as [s reqs l|s reqs1 r reqs2|s reqs]; simpl in *.
  - unfold counts_effect. destruct (Nat.eqb_spec (length l) 0) as [Hl|Hl]; simpl; split.
    + intros r. rewrite app_nil_r. intros [Hr _]%Hreqs. cbn; split; [lia|intros; lia].
    + intros _. apply nil_length_inv in Hl as ->. done.
    + intros r [[Hr _]%Hreqs|[<-|[]]]%in_app_iff; simpl; [cbn; split; [lia|intros; lia]|done].
    + done.
  - assert (Hr : (r.1 <= cs_runs s)%nat /\ (r.1 = cs_runs s -> r.2 = cs_entityList s))
      by (apply Hreqs, in_app_iff; simpl; tauto).
    assert (Hrest : forall r', In r' (reqs1 ++ reqs2) -> In r' (reqs1 ++ r :: reqs2))
      by (intros r'; rewrite !in_app_iff; simpl; tauto).
    unfold counts_settle. destruct (Nat.eqb_spec r.1 (cs_runs s)) as [Heq|Hne]; simpl.
    + rewrite (proj2 Hr Heq), getNerEntityRecordingCounts_ok. simpl. split.
      * intros r' Hr'%Hrest%Hreqs. exact Hr'.
      * intros _. apply getNerEntityRecordingCounts_ok.
    + split; [|done]. intros r' Hr'%Hrest%Hreqs. exact Hr'.
  - split; [|done]. intros r [Hr _]%Hreqs. cbn; split; [lia|intros; lia].
Qed.
End CountsLemmas.

Lemma cstep_settle_eq `{Datastore} (s : counts_state) (reqs reqs1 reqs2 : list counts_request)
    (r : counts_request) :
  reqs = reqs1 ++ r :: reqs2 -> panel_counts_step (s, reqs) (counts_settle r s, reqs1 ++ reqs2).
Proof. intros ->. constructor. Qed.

Section ClickSession.
Context (selected_ner_labels : list string) (ner_data : option (list NerDataItem)) (category : string).
Let D := unique_close_by nd_start_time (1 # 1000) (categoryInstances ner_data category).

Lemma seek_target_app_toggle (es : list panel_effect) :
  seek_target ((if existsb (String.eqb category) selected_ner_labels then [] else [UpdateSelectedNerLabel category]) ++ es)
  = seek_target es.
Proof. by case_match. Qed.

(** From any time, a click seeks to one of the deduplicated mentions. *)
Lemma click_time_lands (t : Q) :
  D <> [] -> exists j d, D !! j = Some d /\ click_time selected_ner_labels ner_data category t = nd_start_time d.
Proof.
  intros HD. destruct (categoryInstances_nonempty ner_data category HD) as (c & cs & E).
  unfold click_time, handleCategoryClick. cbv zeta. rewrite E. cbn [length Nat.eqb]. rewrite <- E. fold D.
  rewrite seek_target_app_toggle.
  destruct (List.find _ D) as [x|] eqn:Hf.
  - apply find_some in Hf as [Hx _]. apply list_elem_of_In, list_elem_of_lookup in Hx as [j Hj]. eauto.
  - destruct D as [|d0 D'] eqn:ED; [done|]. exists 0%nat, d0. done.
Qed.

(** From a mention, a click seeks to the next one, cyclically. *)
Lemma click_time_cycle (i : nat) (d : NerDataItem) :
  D !! i = Some d ->
  exists d', D !! (S i mod length D)%nat = Some d' /\
    click_time selected_ner_labels ner_data category (nd_start_time d) = nd_start_time d'.
Proof.
  intros Hd. destruct (next_or_first D i d (deduplicated_strict _ _) Hd) as (d' & Hd' & Hn).
  exists d'. split; [done|]. unfold click_time, handleCategoryClick. cbv zeta.
  destruct (categoryInstances_nonempty ner_data category) as (c & cs & E); [intros HD; fold D in HD; by rewrite HD in Hd|].
  rewrite E. cbn [length Nat.eqb]. rewrite <- E. fold D. rewrite seek_target_app_toggle. by rewrite Hn.
Qed.

(** After a click that landed on the [j]-th mention, the [m]-th click lands
    on the [(j + m)]-th, cyclically. *)
Lemma clicks_lookup (n : nat) (t : Q) (j : nat) (dj : NerDataItem) :
  D !! j = Some dj -> click_time selected_ner_labels ner_data category t = nd_start_time dj ->
  forall m, (m < n)%nat -> exists dm, D !! ((j + m) mod length D)%nat = Some dm /\
    clicks selected_ner_labels ner_data category t n !! m = Some (nd_start_time dm).
Proof.
  pose proof (lookup_lt_Some D) as Hlt.
  revert t j dj. induction n as [|n IH]; intros t j dj Hj Ht m Hm; [lia|].
  cbn [clicks]. rewrite Ht. destruct m as [|m].
  - exists dj. rewrite Nat.add_0_r, Nat.mod_small by eauto. done.
  - destruct (click_time_cycle j dj Hj) as (dj' & Hj' & Ht').
    destruct (IH (nd_start_time dj) _ dj' Hj' Ht' m ltac:(lia)) as (dm & Hdm & Hl).
    exists dm. split; [|done]. rewrite Nat.Div0.add_mod_idemp_l in Hdm.
    by replace (j + S m)%nat with (S j + m)%nat by lia.
Qed.
End ClickSession.

(** Clicking a chip mounts the entity modal open on that chip's text and
    label, excluding the recording on screen; closing it unmounts it. *)
Lemma chip_click_opens_modal (storyHubPage : option wobj) (m : entity_modal_state) (text category : string) :
  entityModalProps storyHubPage (handleOpenModal text category m) =
    Some (true, text, category, storyHubPage ≫= fun o => theirstory_id (properties o)) /\
  entityModalProps storyHubPage (handleCloseModal (handleOpenModal text category m)) = None.
Proof. done. Qed.

(** While the counts load, a category shows one skeleton per chip it shows
    once they have loaded: the list does not change length. *)
Lemma categoryView_skeletons (localeCompare : string -> string -> Z) (labels : list NerLabelConfig)
    (fallbackColors : list string) (isMobile : bool) (rc0 rc1 : gmap string nat) (g : string * list EntityItem)
    (chips : list (string * string * string)) :
  cv_content (categoryView localeCompare labels fallbackColors isMobile false rc1 g) = inr chips ->
  cv_content (categoryView localeCompare labels fallbackColors isMobile true rc0 g) = inl (length chips).
Proof.
  destruct g as [category items]. simpl. intros [= <-]. f_equal.
  rewrite length_map. unfold chip_order. by rewrite stable_sort_perm.
Qed.

(** ** Properties *)

(** Clicking a label while the player is at one of its (deduplicated)
    mentions seeks to the next one and, from the last, wraps around to the
    first: repeated clicks cycle through the mentions in time order.  The
    label is selected first when it was not. *)
Theorem handleCategoryClick_cycles (selected_ner_labels : list string) (ner_data : option (list NerDataItem))
    (category : string) (i : nat) (d : NerDataItem) :
  let D := unique_close_by nd_start_time (1 # 1000) (categoryInstances ner_data category) in
  D !! i = Some d ->
  exists d', D !! (S i mod length D)%nat = Some d' /\
    handleCategoryClick selected_ner_labels ner_data (nd_start_time d) category =
      (if existsb (String.eqb category) selected_ner_labels then [] else [UpdateSelectedNerLabel category]) ++
      [SeekTo (nd_start_time d'); SetTargetScrollTime (nd_start_time d')].
Proof.
  intros D Hd. destruct (next_or_first D i d (deduplicated_strict _ _) Hd) as (d' & Hd' & Hn).
  exists d'. split; [done|]. unfold handleCategoryClick. cbv zeta. fold D.
  destruct (categoryInstances_nonempty ner_data category) as (c & cs & E); [intros HD; fold D in HD; by rewrite HD in Hd|].
  rewrite E. cbn [length Nat.eqb]. by rewrite Hn.
Qed.

(** The entity list holds each (text, label) pair of [ner_data] exactly
    once. *)
Theorem entityList_spec (localeCompare : string -> string -> Z) (ner_data : option (list NerDataItem))
    (t l : string) :
  NoDup (entityList (groupedEntities localeCompare ner_data)) /\
  (In (t, l) (entityList (groupedEntities localeCompare ner_data)) <->
   exists x, In x (default [] ner_data) /\ nd_text x = t /\ nd_label x = l).
Proof.
  destruct (group_by_spec nd_label (fun item => item) (default [] ner_data)) as [Hnd Hg].
  split.
  - apply entityList_NoDup.
    + unfold groupedEntities. rewrite map_map.
      erewrite map_ext; [exact Hnd|]. by intros [lab entries].
    + intros lab items [entries [_ ->]]%groupedEntities_In.
      rewrite uniqueItems_texts. apply group_by_spec.
  - rewrite entityList_In. split.
    + intros [items [[entries [Hin ->]]%groupedEntities_In Ht]].
      apply Hg in Hin as [_ ->]. rewrite uniqueItems_texts in Ht.
      apply in_map_iff in Ht as [[t' vs] [<- Hin]].
      apply group_by_spec in Hin as [[x [Hx <-]] _].
      rewrite map_id in Hx. apply filter_In in Hx as [Hx Hl%bool_decide_eq_true]. eauto.
    + intros [x [Hx [<- <-]]].
      set (entries := List.filter (fun y => bool_decide (nd_label y = nd_label x)) (default [] ner_data)).
      exists (uniqueItems localeCompare entries). split.
      * apply groupedEntities_In. exists entries. split; [|done].
        apply Hg. rewrite map_id. split; [eauto|done].
      * rewrite uniqueItems_texts. apply in_map_iff.
        exists (nd_text x, map nd_start_time (List.filter (fun y => bool_decide (nd_text y = nd_text x)) entries)).
        split; [done|]. apply group_by_spec. split; [|done].
        exists x. split; [|done]. apply filter_In. split; [done|]. by apply bool_decide_eq_true.
Qed.

(** C38. Whatever the interleaving of effect runs, settlements and unmount,
    whenever the chips are shown (not loading) their counts are those
    [getNerEntityRecordingCounts] returns for the entity list of the last
    run: a late answer for an older list is never shown. *)
Theorem counts_shown_fresh `{Datastore} (w : counts_state * list counts_request) :
  rtc panel_counts_step (initial_counts, []) w ->
  cs_countsLoading w.1 = false ->
  fst (run (getNerEntityRecordingCounts (cs_entityList w.1))) = Ok (cs_recordingCounts w.1).
Proof.
  intros Hr Hl.
  enough (Hgen : forall w0, rtc panel_counts_step w0 w -> counts_inv w0 -> counts_inv w).
  { apply (proj2 (Hgen _ Hr ltac:(split; [intros r []|done]))), Hl. }
  clear Hl Hr. induction 1 as [|w0 w1 w2 Hs _ IH]; [done|]. intros Hinv. by eapply IH, counts_inv_step.
Qed.

(** Clicking [LOC] at 12 s selects the label and seeks to 20 s; at 30 s it
    wraps around to 10 s; just after 20 s the mention half a millisecond
    later has been dropped as a near-duplicate, so the click skips to 30 s. *)
Example handleCategoryClick_sample :
  handleCategoryClick [] (Some sample_ner) 12 "LOC" =
    [UpdateSelectedNerLabel "LOC"; SeekTo 20; SetTargetScrollTime 20] /\
  handleCategoryClick ["LOC"] (Some sample_ner) 30 "LOC" = [SeekTo 10; SetTargetScrollTime 10] /\
  handleCategoryClick ["LOC"] (Some sample_ner) (200002 # 10000) "LOC" = [SeekTo 30; SetTargetScrollTime 30].
Proof. vm_compute. repeat split. Qed.

(** C37. Clicking a label again and again, with the player paused, seeks to
    every (deduplicated) mention of the label, whatever the starting time:
    within as many clicks as there are mentions. *)
Theorem category_clicks_reach_every_mention (selected_ner_labels : list string)
    (ner_data : option (list NerDataItem)) (category : string) (t0 : Q) (d : NerDataItem) :
  let D := unique_close_by nd_start_time (1 # 1000) (categoryInstances ner_data category) in
  In d D -> In (nd_start_time d) (clicks selected_ner_labels ner_data category t0 (length D)).
Proof.
  intros D Hin. apply list_elem_of_In, list_elem_of_lookup in Hin as [i Hi].
  pose proof (lookup_lt_Some _ _ _ Hi) as Hlt.
  destruct (click_time_lands selected_ner_labels ner_data category t0) as (j & dj & Hj & Ht);
    [intros HD; fold D in HD; by rewrite HD in Hi|]. fold D in Hj.
  pose proof (lookup_lt_Some _ _ _ Hj) as Hltj.
  set (m := ((i + length D - j) mod length D)%nat).
  assert (Hm : (m < length D)%nat) by (apply Nat.mod_upper_bound; lia).
  destruct (clicks_lookup selected_ner_labels ner_data category (length D) t0 j dj Hj Ht m Hm) as (dm & Hdm & Hl). fold D in Hdm, Hl.
  assert (Hjm : ((j + m) mod length D)%nat = i).
  { subst m. rewrite Nat.Div0.add_mod_idemp_r. replace (j + (i + length D - j))%nat with (i + length D)%nat by lia.
    rewrite <- Nat.Div0.add_mod_idemp_r, Nat.Div0.mod_same, Nat.add_0_r. by apply Nat.mod_small. }
  rewrite Hjm, Hi in Hdm. injection Hdm as <-. apply list_elem_of_In. by eapply list_elem_of_lookup_2.
Qed.

(** C34. A chip click mounts a fresh modal for the chip's entity and
    starts its load.  When the project search fails, the modal leaves its
    spinner with no occurrence, a mention count of 0 and the bare
    [In the project] tab label: what it shows for an entity that no other
    recording mentions.  The failure is only logged. *)
Theorem chip_click_failed_load_looks_empty `{Datastore} (storyHubPage : option wobj) (s : entity_modal_state)
    (text category : string) (e : error) :
  let uuid := storyHubPage ≫= fun o => theirstory_id (properties o) in
  fst (run (searchNerEntitiesAcrossCollection text category uuid PROJECT_SEARCH_LIMIT)) = Err e ->
  exists m, mounted_modal (entityModalProps storyHubPage (handleOpenModal text category s)) =
              Some (m, [LoadOccurrences text category uuid]) /\
    let m' := load_resolve (LoadOccurrences text category uuid) m in
    md_loading m = true /\ md_loading m' = false /\ md_collectionOccurrences m' = [] /\
    mentionCount m' = 0%nat /\ projectTabLabel m' = "In the project".
Proof.
  intros uuid Hs. eexists. split; [reflexivity|]. cbv zeta.
  rewrite (load_resolve_err _ _ _ _ _ Hs). split_and!; reflexivity.
Qed.

(** ** Witnesses *)

Lemma handleCategoryClick_cycles_witness :
  let D := unique_close_by nd_start_time (1 # 1000) (categoryInstances (Some sample_ner) "LOC") in
  D !! 2%nat = Some (mkNerDataItem "rome" "LOC" 30 31) /\
  exists d', D !! (3 mod length D)%nat = Some d' /\
    handleCategoryClick ["LOC"] (Some sample_ner) 30 "LOC" =
      (if existsb (String.eqb "LOC") ["LOC"] then [] else [UpdateSelectedNerLabel "LOC"]) ++
      [SeekTo (nd_start_time d'); SetTargetScrollTime (nd_start_time d')].
Proof.
  intros D. assert (Hd : D !! 2%nat = Some (mkNerDataItem "rome" "LOC" 30 31)) by (vm_compute; reflexivity).
  split; [exact Hd|]. exact (handleCategoryClick_cycles ["LOC"] (Some sample_ner) "LOC" 2 _ Hd).
Defined.

Lemma counts_shown_fresh_witness :
  rtc (@panel_counts_step sample_ds) (initial_counts, []) sample_counts_world /\
  cs_countsLoading sample_counts_world.1 = false /\
  fst (run (@getNerEntityRecordingCounts sample_ds (cs_entityList sample_counts_world.1))) =
    Ok (cs_recordingCounts sample_counts_world.1).
Proof.
  assert (Hp : rtc (@panel_counts_step sample_ds) (initial_counts, []) sample_counts_world).
  { eapply rtc_l; [apply (cstep_effect _ _ [("paris", "LOC")])|].
    eapply rtc_l; [apply (cstep_effect _ _ [("rome", "LOC")])|].
    eapply rtc_l; [apply (cstep_settle_eq _ _ [] [(2%nat, [("rome", "LOC")])] (1%nat, [("paris", "LOC")]));
                   reflexivity|].
    eapply rtc_l; [apply (cstep_settle_eq _ _ [] [] (2%nat, [("rome", "LOC")])); reflexivity|].
    apply rtc_refl. }
  assert (Hl : cs_countsLoading sample_counts_world.1 = false) by (vm_compute; reflexivity).
  split; [exact Hp|]. split; [exact Hl|]. exact (counts_shown_fresh _ Hp Hl).
Defined.

Lemma category_clicks_reach_every_mention_witness :
  let D := unique_close_by nd_start_time (1 # 1000) (categoryInstances (Some sample_ner) "LOC") in
  In (mkNerDataItem "rome" "LOC" 30 31) D /\
  In (nd_start_time (mkNerDataItem "rome" "LOC" 30 31)) (clicks [] (Some sample_ner) "LOC" 31 (length D)).
Proof.
  intros D. assert (Hin : In (mkNerDataItem "rome" "LOC" 30 31) D) by (vm_compute; auto 6).
  split; [exact Hin|]. exact (category_clicks_reach_every_mention [] (Some sample_ner) "LOC" 31 _ Hin).
Defined.

Lemma chip_click_failed_load_looks_empty_witness :
  exists m, mounted_modal (entityModalProps None (handleOpenModal "Paris" "LOC" (mkEntityModalState false None))) =
              Some (m, [LoadOccurrences "Paris" "LOC" None]) /\
    let m' := @load_resolve fail_ds (LoadOccurrences "Paris" "LOC" None) m in
    md_loading m = true /\ md_loading m' = false /\ md_collectionOccurrences m' = [] /\
    mentionCount m' = 0%nat /\ projectTabLabel m' = "In the project".
Proof.
  apply (@chip_click_failed_load_looks_empty fail_ds None (mkEntityModalState false None) "Paris" "LOC" NerSearchFailed).
  vm_compute. reflexivity.
Defined.
