(* ===== verification/ProgressBar.v ===== *)
(** * ProgressBar: the player's progress bar

    [src/app/story/[storyUuid]/Components/StoryProgressBar.tsx].  The bar
    shows the playback position, one marker per transcript section
    ([chapterMarkers]) and one per mention of a selected entity label
    ([nerMarkers], coloured by [getNerColor] of OrgConfig.v).  A click seeks
    to the clicked fraction of the duration, clamped to [0, duration]
    ([handleProgressBarClick]).  Moving the pointer records the hovered time
    and, when none is recorded yet, the marker under the pointer
    ([handleMouseMove]).  Markers set and clear their own hover state on
    enter and leave, and leaving the bar clears it all.  [formatTime] prints
    [m:ss].

    The pointer geometry ([getBoundingClientRect], [clientX]) is an input of
    the handlers.  The ref is taken to be attached, as it is once the bar
    has rendered.  The player and transcript stores are not under [src/]:
    their calls are [panel_effect]s, as in EntityPanel.v.  React runs a
    handler against the state of the render it belongs to, so every read in
    [handleMouseMove] is of the state before the event. *)

From S2P Require Import Prelude OrgConfig Store NerModal EntityPanel.

Local Open Scope Q_scope.

(** [ChapterMarker] (13-17) *)
Record ChapterMarker := mkChapterMarker { cm_time : Q; cm_title : string; cm_percentage : Q }.

(** [NerMarker] (19-27) *)
Record NerMarker := mkNerMarker {
  nm_startTime : Q;
  nm_endTime : Q;
  nm_label : string;
  nm_text : string;
  nm_color : string;
  nm_startPercentage : Q;
  nm_endPercentage : Q
}.

(** [duration > 0 ? (t / duration) * 100 : 0] *)
Definition percent_of (duration t : Q) : Q := if Qlt_bool 0 duration then t / duration * 100 else 0.

(** [progressPercentage] (41) *)
Definition progressPercentage (currentTime duration : Q) : Q := percent_of duration currentTime.

(** [isLoadingProgressBar] (37) *)
Definition isLoadingProgressBar (duration : Q) (transcript : option Transcription) : bool :=
  Qeq_bool duration 0 || match transcript with None => true | Some _ => false end.

(** [chapterMarkers] (44-51) *)
Definition chapterMarkers (transcript : option Transcription) (duration : Q) : list ChapterMarker :=
  map (fun section => mkChapterMarker (s_start section) (s_title section) (percent_of duration (s_start section)))
    (default [] (t_sections <$> transcript)).

Section Markers.
(** [config.ner.labels] and [config.ner.fallbackColors]. *)
Context (labels : list NerLabelConfig) (fallbackColors : list string).

(** [nerMarkers] (54-70); [ner.text || ''] is [ner.text] on a string. *)
Definition nerMarkers (ner_data : option (list NerDataItem)) (selected_ner_labels : list string) (duration : Q)
    : list NerMarker :=
  match ner_data with
  | None => []
  | Some nd =>
      if (length selected_ner_labels =? 0)%nat then [] else
      map (fun ner => mkNerMarker (nd_start_time ner) (nd_end_time ner) (nd_label ner) (nd_text ner)
                        (getNerColor labels fallbackColors (nd_label ner))
                        (percent_of duration (nd_start_time ner)) (percent_of duration (nd_end_time ner)))
        (List.filter (fun ner => existsb (String.eqb (nd_label ner)) selected_ner_labels) nd)
  end.
End Markers.

(** [(event.clientX - rect.left) / rect.width * 100] *)
Definition pointer_percentage (clientX rectLeft width : Q) : Q := (clientX - rectLeft) / width * 100.

(** [Math.max(0, Math.min(t, duration))] *)
Definition clamp_time (t duration : Q) : Q := Qmax 0 (Qmin t duration).

(** [handleProgressBarClick] (73-84) *)
Definition handleProgressBarClick (isLoading : bool) (duration clientX rectLeft width : Q) : list panel_effect :=
  if isLoading then [] else
  if Qeq_bool duration 0 then [] else
  let percentage := pointer_percentage clientX rectLeft width in
  let newTime := percentage / 100 * duration in
  [SetTargetScrollTime (clamp_time newTime duration); SeekTo (clamp_time newTime duration)].

(** The hover state (33-35). *)
Record hover_state := mkHover {
  hoveredTime : option Q;
  hoveredNer : option NerMarker;
  hoveredChapter : option ChapterMarker
}.

Definition no_hover : hover_state := mkHover None None None.

(** The [for] loops of [handleMouseMove] (100-105, 110-115). *)
Definition find_ner (percentage : Q) (markers : list NerMarker) : option NerMarker :=
  List.find (fun ner => Qle_bool (nm_startPercentage ner) percentage && Qle_bool percentage (nm_endPercentage ner))
    markers.

Definition find_chapter (percentage : Q) (markers : list ChapterMarker) : option ChapterMarker :=
  List.find (fun chapter => Qlt_bool (Qabs (percentage - cm_percentage chapter)) 1) markers.

(** [handleMouseMove] (87-118) *)
Definition handleMouseMove (isLoading : bool) (duration : Q) (ners : list NerMarker)
    (chapters : list ChapterMarker) (clientX rectLeft width : Q) (s : hover_state) : hover_state :=
  if isLoading then s else
  if Qeq_bool duration 0 then s else
  let percentage := pointer_percentage clientX rectLeft width in
  let hoverTime := percentage / 100 * duration in
  let newNer := match hoveredNer s with None => find_ner percentage ners | Some n => Some n end in
  let newChapter :=
    match hoveredChapter s with None => find_chapter percentage chapters | Some c => Some c end in
  mkHover (Some (clamp_time hoverTime duration)) newNer newChapter.

(** The pointer events of the bar and of its markers (189-191, 239-240, 268-269). *)
Inductive bar_event :=
  | MouseMove (clientX rectLeft width : Q)
  | MouseLeave
  | NerEnter (ner : NerMarker)
  | NerLeave
  | ChapterEnter (chapter : ChapterMarker)
  | ChapterLeave.

(** While loading, the bar has [pointerEvents: 'none'] (201), which its
    markers inherit: no pointer event reaches them. *)
Definition hover_step (isLoading : bool) (duration : Q) (ners : list NerMarker) (chapters : list ChapterMarker)
    (s : hover_state) (ev : bar_event) : hover_state :=
  if isLoading then s else
  match ev with
  | MouseMove clientX rectLeft width => handleMouseMove isLoading duration ners chapters clientX rectLeft width s
  | MouseLeave => no_hover
  | NerEnter ner => mkHover (hoveredTime s) (Some ner) (hoveredChapter s)
  | NerLeave => mkHover (hoveredTime s) None (hoveredChapter s)
  | ChapterEnter chapter => mkHover (hoveredTime s) (hoveredNer s) (Some chapter)
  | ChapterLeave => mkHover (hoveredTime s) (hoveredNer s) None
  end.

(** The click handlers of the markers (235-238, 264-267): a seek, without
    [setTargetScrollTime]. *)
Definition chapter_click (chapter : ChapterMarker) : list panel_effect := [SeekTo (cm_time chapter)].
Definition ner_click (ner : NerMarker) : list panel_effect := [SeekTo (nm_startTime ner)].

(** ** [formatTime] (127-131) *)

(** [Math.trunc], which [%] rounds its quotient with. *)
Definition Qtrunc (q : Q) : Z := if Qlt_bool q 0 then (- Qfloor (- q))%Z else Qfloor q.

(** [x % y] on numbers: the remainder has the sign of [x]. *)
Definition js_mod (x y : Q) : Q := x - y * inject_Z (Qtrunc (x / y)).

(** [s.padStart(2, '0')] *)
Definition padStart2 (s : string) : string :=
  match String.length s with
  | 0%nat => "00"
  | 1%nat => "0" +:+ s
  | _ => s
  end.

Definition formatTime (seconds : Q) : string :=
  let mins := Qfloor (seconds / 60) in
  let secs := Qfloor (js_mod seconds 60) in
  pretty mins +:+ ":" +:+ padStart2 (pretty secs).

(** The text shown while hovering (167-181), without its markup. *)
Definition hover_text (s : hover_state) : option string :=
  match hoveredTime s with
  | None => None
  | Some t =>
      Some (match hoveredNer s, hoveredChapter s with
            | Some ner, _ => nm_label ner +:+ ": " +:+ nm_text ner +:+ " (" +:+ formatTime (nm_startTime ner) +:+ ")"
            | None, Some chapter => cm_title chapter +:+ " (" +:+ formatTime (cm_time chapter) +:+ ")"
            | None, None => "Hover: " +:+ formatTime t
            end)
  end.

(** The width of a NER marker (255), in percent. *)
Definition ner_marker_width (ner : NerMarker) : Q := Qmax (1 # 2) (nm_endPercentage ner - nm_startPercentage ner).

(** The time display (166-183): the current time, the hover text, the duration. *)
Definition time_display (currentTime duration : Q) (s : hover_state) : string * option string * string :=
  (formatTime currentTime, hover_text s, formatTime duration).

(** The markers' tooltips (219, 249). *)
Definition chapterTooltip (c : ChapterMarker) : string :=
  cm_title c +:+ " (" +:+ formatTime (cm_time c) +:+ ")".

Definition nerTooltip (n : NerMarker) : string :=
  nm_label n +:+ ": " +:+ nm_text n +:+ " (" +:+ formatTime (nm_startTime n) +:+ " - " +:+
  formatTime (nm_endTime n) +:+ ")".

(** The layers of the bar (203-324): the skeleton while loading, each
    chapter marker (position, tooltip), each NER marker (position, width,
    tooltip), the fill and the current-time indicator at
    [progressPercentage], and the hover indicator at
    [hoveredTime / duration * 100]. *)
Record bar_view := mkBarView {
  bv_skeleton : bool;
  bv_chapters : list (Q * string);
  bv_ners : list (Q * Q * string);
  bv_fill : Q;
  bv_indicator : Q;
  bv_hover : option Q
}.

Definition bar_render (currentTime duration : Q) (transcript : option Transcription)
    (chapters : list ChapterMarker) (ners : list NerMarker) (s : hover_state) : bar_view :=
  mkBarView (isLoadingProgressBar duration transcript)
    (map (fun c => (cm_percentage c, chapterTooltip c)) chapters)
    (map (fun n => (nm_startPercentage n, ner_marker_width n, nerTooltip n)) ners)
    (progressPercentage currentTime duration) (progressPercentage currentTime duration)
    (option_map (fun t => t / duration * 100) (hoveredTime s)).

(** The legend (326-346), hidden on mobile. *)
Definition legend (isMobile : bool) (selected_ner_labels : list string) : option (list string) :=
  if isMobile then None
  else Some (["Chapters"] ++
             (if (0 <? length selected_ner_labels)%nat
              then ["NER Labels (" +:+ js_string_of_nat (length selected_ner_labels) +:+ " types)"] else [])).

(** The events that set or clear [hoveredNer]. *)
Definition ner_hover_event (ev : bar_event) : bool :=
  match ev with MouseLeave | NerEnter _ | NerLeave => true | _ => false end.

(** ** Lemmas *)

Lemma clamp_time_range (t duration : Q) : 0 <= duration -> 0 <= clamp_time t duration <= duration.
Proof.
  intros Hd. unfold clamp_time. split; [apply Q.le_max_l|].
  apply Q.max_lub; [done|apply Q.le_min_r].
Qed.

Lemma clamp_time_id (t duration : Q) : 0 <= t <= duration -> clamp_time t duration == t.
Proof.
  intros [H0 H1]. unfold clamp_time. pose proof (Q.min_l t duration H1) as Hm.
  rewrite Q.max_r; [exact Hm|]. rewrite Hm. exact H0.
Qed.

(** A pointer inside the bar is at a fraction of its width between 0 and 1. *)
Lemma pointer_fraction (clientX rectLeft width : Q) :
  0 < width -> rectLeft <= clientX <= rectLeft + width ->
  0 <= (clientX - rectLeft) / width <= 1.
Proof.
  intros Hw [H0 H1]. split.
  - apply Qle_shift_div_l; [done|]. lra.
  - apply Qle_shift_div_r; [done|]. lra.
Qed.

Lemma hover_step_ner (isLoading : bool) (duration : Q) (ners : list NerMarker) (chapters : list ChapterMarker)
    (s : hover_state) (ev : bar_event) (m : NerMarker) :
  hoveredNer s = Some m -> ner_hover_event ev = false ->
  hoveredNer (hover_step isLoading duration ners chapters s ev) = Some m.
Proof.
  intros Hm Hev. unfold hover_step. destruct isLoading; [done|]. destruct ev; try done; simpl.
  unfold handleMouseMove. destruct (Qeq_bool duration 0); simpl; rewrite ?Hm; done.
Qed.

Lemma js_mod_floor (s : Q) : 0 <= s -> Qfloor (js_mod s 60) = (Qfloor s mod 60)%Z.
Proof.
  intros Hs. unfold js_mod, Qtrunc.
  rewrite Qlt_bool_le by (apply Qle_shift_div_l; [reflexivity|lra]).
  change (s / 60) with (s / inject_Z 60). rewrite Qfloor_div by lia.
  rewrite Z.mod_eq by lia. apply Qfloor_unique.
  - pose proof (Qfloor_le s). unfold Z.sub. rewrite inject_Z_plus, inject_Z_opp, inject_Z_mult. change (inject_Z 60) with 60. lra.
  - pose proof (Qlt_floor s). unfold Z.sub. rewrite !inject_Z_plus in *. rewrite inject_Z_opp, inject_Z_mult.
    change (inject_Z 60) with 60 in *. change (inject_Z 1) with 1 in *. lra.
Qed.

Lemma padStart2_length (n : Z) : (0 <= n < 60)%Z -> String.length (padStart2 (pretty n)) = 2%nat.
Proof.
  intros Hn.
  assert (Hall : Forall (fun k => String.length (padStart2 (pretty (Z.of_nat k))) = 2%nat) (seq 0 60))
    by (vm_compute; repeat constructor).
  rewrite Forall_forall in Hall. rewrite <- (Z2Nat.id n) by lia. apply Hall, list_elem_of_In, in_seq. lia.
Qed.

(** ** Properties *)

(** The fill and the current-time indicator stay inside the bar while the
    current time lies between 0 and the duration. *)
Lemma bar_fill_range (currentTime duration : Q) (transcript : option Transcription)
    (chapters : list ChapterMarker) (ners : list NerMarker) (s : hover_state) :
  0 <= currentTime <= duration ->
  let v := bar_render currentTime duration transcript chapters ners s in
  0 <= bv_fill v <= 100 /\ bv_indicator v = bv_fill v.
Proof.
  intros [H0 H1]. simpl. split; [|done]. unfold progressPercentage, percent_of.
  destruct (Qlt_bool 0 duration) eqn:E; [|lra]. apply Qlt_bool_iff in E.
  assert (0 <= currentTime / duration) by (apply Qle_shift_div_l; lra).
  assert (currentTime / duration <= 1) by (apply Qle_shift_div_r; lra).
  lra.
Qed.

(** C39. A click on the bar seeks (and scrolls the transcript) to a time in
    [0, duration], and a click inside the bar seeks to the same fraction of
    the duration as the fraction of the bar's width it is at; nothing
    happens while the bar is loading or the duration is 0. *)
Theorem handleProgressBarClick_spec (isLoading : bool) (duration clientX rectLeft width : Q) :
  0 <= duration ->
  if isLoading || Qeq_bool duration 0 then handleProgressBarClick isLoading duration clientX rectLeft width = []
  else exists t, handleProgressBarClick isLoading duration clientX rectLeft width = [SetTargetScrollTime t; SeekTo t] /\
    0 <= t <= duration /\
    (0 < width -> rectLeft <= clientX <= rectLeft + width -> t == (clientX - rectLeft) / width * duration).
Proof.
  intros Hd. unfold handleProgressBarClick.
  destruct isLoading; [done|]. destruct (Qeq_bool duration 0); [done|]. simpl.
  eexists. split; [reflexivity|]. split; [by apply clamp_time_range|].
  intros Hw Hin. pose proof (pointer_fraction _ _ _ Hw Hin) as [F0 F1].
  unfold pointer_percentage.
  assert (E : (clientX - rectLeft) / width * 100 / 100 * duration == (clientX - rectLeft) / width * duration) by (field; intros E; rewrite E in Hw; discriminate).
  rewrite clamp_time_id; [exact E|]. rewrite E. split; nra.
Qed.

(** C40. Once a NER marker is recorded as hovered, moving the pointer along
    the bar (or over chapter markers) never replaces or clears it: only
    leaving the bar, or entering or leaving a NER marker, does. *)
Theorem hoveredNer_sticky (isLoading : bool) (duration : Q) (ners : list NerMarker) (chapters : list ChapterMarker)
    (s : hover_state) (evs : list bar_event) (m : NerMarker) :
  hoveredNer s = Some m -> Forall (fun ev => ner_hover_event ev = false) evs ->
  hoveredNer (fold_left (hover_step isLoading duration ners chapters) evs s) = Some m.
Proof.
  intros Hm Hevs. revert s Hm. induction Hevs as [|ev evs Hev _ IH]; intros s Hm; [done|].
  apply IH. by apply hover_step_ner.
Qed.

(** [formatTime] prints a non-negative time as its whole minutes, a
    colon, and its remaining whole seconds on exactly two digits. *)
Theorem formatTime_spec (seconds : Q) :
  0 <= seconds ->
  formatTime seconds = pretty (Qfloor seconds / 60)%Z +:+ ":" +:+ padStart2 (pretty (Qfloor seconds mod 60)%Z) /\
  String.length (padStart2 (pretty (Qfloor seconds mod 60)%Z)) = 2%nat.
Proof.
  intros Hs. unfold formatTime. change (seconds / 60) with (seconds / inject_Z 60).
  rewrite Qfloor_div, js_mod_floor by (done || lia). split; [done|].
  apply padStart2_length. apply Z.mod_pos_bound. lia.
Qed.

(** A click at a quarter of a 200-pixel bar of a 2-minute recording seeks to 30 s. *)
Example handleProgressBarClick_sample :
  match handleProgressBarClick false 120 150 100 200 with
  | [SetTargetScrollTime t; SeekTo t'] => t == 30 /\ t' == 30
  | _ => False
  end.
Proof. vm_compute. split; reflexivity. Qed.

Example formatTime_sample : formatTime (2511 # 20) = "2:05" /\ formatTime 59 = "0:59" /\ formatTime 3600 = "60:00".
Proof. vm_compute. repeat split. Qed.

(** ** Witnesses *)

Definition sample_marker : NerMarker := mkNerMarker 12 13 "LOC" "paris" "#1e88e5" 10 (65 # 6).

Lemma handleProgressBarClick_spec_witness :
  0 <= 120 /\
  (if false || Qeq_bool 120 0 then handleProgressBarClick false 120 150 100 200 = []
   else exists t, handleProgressBarClick false 120 150 100 200 = [SetTargetScrollTime t; SeekTo t] /\
     0 <= t <= 120 /\ (0 < 200 -> 100 <= 150 <= 100 + 200 -> t == (150 - 100) / 200 * 120)).
Proof.
  assert (H : 0 <= 120) by lra. split; [exact H|]. exact (handleProgressBarClick_spec false 120 150 100 200 H).
Defined.

Lemma hoveredNer_sticky_witness :
  hoveredNer (mkHover (Some 12) (Some sample_marker) None) = Some sample_marker /\
  Forall (fun ev => ner_hover_event ev = false) [MouseMove 190 100 100; ChapterLeave] /\
  hoveredNer (fold_left (hover_step false 120 [sample_marker] []) [MouseMove 190 100 100; ChapterLeave]
                (mkHover (Some 12) (Some sample_marker) None)) = Some sample_marker.
Proof.
  assert (H1 : hoveredNer (mkHover (Some 12) (Some sample_marker) None) = Some sample_marker) by reflexivity.
  assert (H2 : Forall (fun ev => ner_hover_event ev = false) [MouseMove 190 100 100; ChapterLeave])
    by (repeat constructor).
  split; [exact H1|]. split; [exact H2|]. exact (hoveredNer_sticky false 120 [sample_marker] [] _ _ _ H1 H2).
Defined.

Lemma formatTime_spec_witness :
  0 <= 2511 # 20 /\
  formatTime (2511 # 20) = pretty (Qfloor (2511 # 20) / 60)%Z +:+ ":" +:+ padStart2 (pretty (Qfloor (2511 # 20) mod 60)%Z) /\
  String.length (padStart2 (pretty (Qfloor (2511 # 20) mod 60)%Z)) = 2%nat.
Proof.
  assert (H : 0 <= 2511 # 20) by (unfold Qle; simpl; lia). split; [exact H|]. exact (formatTime_spec _ H).
Defined.
