(* ===== verification/Transcript.v ===== *)
(** * Transcript: the transcript panel and its paragraphs

    [src/app/story/[storyUuid]/Components/StoryTranscriptParagraph.tsx]
    renders the words of one paragraph.  A word covered by a mention whose
    label is selected starts an entity group: the [for] loop takes it and
    the words after it while they stay inside the mention, and records
    their indexes in a mutable [Set] so that the [map] over the words skips
    them ([render_words]).  Every other word is rendered alone, highlighted
    when the playback time lies between its start and the next word's
    start, and the first word of the current semantic match carries a
    score badge.  The paragraph's effects scroll it into view: towards the
    target time of the transcript-panel store, towards the current
    semantic match, and, while playing, towards the playback time.  A
    fourth effect, switched on by the constant [DEBUG_TRANSCRIPT_MATCH],
    logs the current semantic match against the playback time
    ([debugScoreLog]: the object it passes to [console.log]).

    [src/app/story/[storyUuid]/Components/StoryTranscriptPanel.tsx] lays
    the sections and paragraphs out.  It tells a user's scroll (one within
    280 ms of a pointer, wheel or touch event) from a programmatic one, and
    stops auto-scroll on a user's scroll; [Resume Auto-Scroll] and the
    [?start=] parameter set the target time.

    [segments] is the declarative reference for the rendering loop: a group
    followed by the segments of the words after it.  The transcript-panel
    and player stores are not under [src/]: their state (target time,
    [isCurrentTimeOutOfView], [isPlaying], the current time) is an input,
    and the calls on them are effects.  The DOM tests (an element in view,
    the element found) are inputs too.  Words are distinct objects, so
    [nerWords.indexOf(w)] is the position of [w]. *)

From Equations Require Import Equations.
From S2P Require Import Prelude Filters Dedup Store NerModal ProgressBar.

Local Open Scope Q_scope.
Local Open Scope portal_scope.

(** [getSemanticMatchForWord] (30-36): a comparison with [undefined] is false. *)
Definition getSemanticMatchForWord (semanticMatches : list wobj) (word : TWord) : option wobj :=
  List.find (fun m =>
    match start_time (properties m), end_time (properties m) with
    | Some matchStart, Some matchEnd => Qle_bool matchStart (tw_start word) && Qle_bool (tw_end word) matchEnd
    | _, _ => false
    end) semanticMatches.

(** ** The words of a paragraph (248-332) *)

(** [isCurrent] (252-253) *)
Definition word_is_current (currentTime : Q) (word : TWord) (nextWord : option TWord) : bool :=
  Qle_bool (tw_start word) currentTime &&
  match nextWord with
  | Some n => Qlt_bool currentTime (tw_start n)
  | None => Qle_bool currentTime (tw_end word)
  end.

(** [isPast] (255) *)
Definition word_is_past (currentTime : Q) (word : TWord) (nextWord : option TWord) : bool :=
  negb (word_is_current currentTime word nextWord) && Qlt_bool (tw_end word) currentTime.

(** A word inside a mention: [w.start >= ner.start_time && w.end <= ner.end_time]. *)
Definition in_span (ner : NerDataItem) (w : TWord) : bool :=
  Qle_bool (nd_start_time ner) (tw_start w) && Qle_bool (tw_end w) (nd_end_time ner).

(** [nerMatch] (257-260) *)
Definition nerMatch (ner_data : list NerDataItem) (selected_ner_labels : list string) (word : TWord)
    : option NerDataItem :=
  List.find (fun ner => in_span ner word && existsb (String.eqb (nd_label ner)) selected_ner_labels) ner_data.

(** [isNerCurrentlyActive] (280-285) *)
Definition ner_active (currentTime : Q) (nerWords : list TWord) : bool :=
  existsb (fun b => b) (imap (fun i w => word_is_current currentTime w (nerWords !! S i)) nerWords).

(** [currentSemanticMatch] (299-300) *)
Definition currentSemanticMatch (currentSemanticMatchIndex : Z) (matches : list wobj) : option wobj :=
  if (0 <=? currentSemanticMatchIndex)%Z then matches !! Z.to_nat currentSemanticMatchIndex else None.

(** [isFirstWordOfCurrentMatch] (301-307) *)
Definition isFirstWordOfCurrentMatch (paragraph : Paragraph) (currentMatch : option wobj) (word : TWord) : bool :=
  match currentMatch with
  | Some m =>
      match start_time (properties m) with
      | Some s => Qle_bool (p_start paragraph) s && Qlt_bool s (p_end paragraph) && Qeq_bool (tw_start word) s
      | None => false
      end
  | None => false
  end.

(** What the [map] renders for a word: an entity group, or a word with its
    highlight flags and the score of the badge it carries, in percent
    ([(score ?? 0) * 100], printed with [toFixed(1)]). *)
Inductive segment :=
  | SegNer (ner : NerDataItem) (nerWords : list TWord) (isActive : bool)
  | SegWord (word : TWord) (isCurrent isPast : bool) (badge : option Q).

Section Render.
Context (currentTime : Q) (ner_data : list NerDataItem) (selected_ner_labels : list string)
  (paragraph : Paragraph) (currentMatch : option wobj).

Definition badge (word : TWord) : option Q :=
  if isFirstWordOfCurrentMatch paragraph currentMatch word
  then Some ((default None (m_score <$> (metadata <$> currentMatch)) ?? 0) * 100) else None.

Definition word_segment (word : TWord) (nextWord : option TWord) : segment :=
  SegWord word (word_is_current currentTime word nextWord) (word_is_past currentTime word nextWord) (badge word).

(** The [map] over [wordsInParagraph] from index [wordIndex], threading the
    [Set] [renderedWordIndexes]; [rest] is the suffix of the words from that
    index. *)
Fixpoint render_from (wordsInParagraph : list TWord) (renderedWordIndexes : gset nat) (wordIndex : nat)
    (rest : list TWord) : list segment :=
  match rest with
  | [] => []
  | word :: rest' =>
      if bool_decide (wordIndex ∈ renderedWordIndexes)
      then render_from wordsInParagraph renderedWordIndexes (S wordIndex) rest'
      else
        match nerMatch ner_data selected_ner_labels word with
        | Some ner =>
            let nerWords := take_while (in_span ner) (drop wordIndex wordsInParagraph) in
            SegNer ner nerWords (ner_active currentTime nerWords) ::
            render_from wordsInParagraph (renderedWordIndexes ∪ set_seq wordIndex (length nerWords))
              (S wordIndex) rest'
        | None =>
            word_segment word (wordsInParagraph !! S wordIndex) ::
            render_from wordsInParagraph renderedWordIndexes (S wordIndex) rest'
        end
  end.

Definition render_words (wordsInParagraph : list TWord) : list segment :=
  render_from wordsInParagraph ∅ 0 wordsInParagraph.

(** The reference: a group takes the words inside its mention, and the
    segmentation goes on after them. *)
Equations? segments (words : list TWord) : list segment by wf (length words) lt :=
  segments [] := [];
  segments (word :: rest) :=
    match nerMatch ner_data selected_ner_labels word with
    | Some ner =>
        SegNer ner (word :: take_while (in_span ner) rest) (ner_active currentTime (word :: take_while (in_span ner) rest))
        :: segments (drop (length (take_while (in_span ner) rest)) rest)
    | None => word_segment word (head rest) :: segments rest
    end.
Proof. all: rewrite ?length_drop; simpl; lia. Qed.
End Render.

(** The words a segment shows. *)
Definition seg_words (s : segment) : list TWord :=
  match s with SegNer _ ws _ => ws | SegWord w _ _ _ => [w] end.

(** Whether a segment is highlighted. *)
Definition seg_active (s : segment) : bool :=
  match s with SegNer _ _ a => a | SegWord _ c _ _ => c end.

(** Words that end before the next one starts (the timing the
    highlighting assumes). *)
Definition words_timed (ws : list TWord) : Prop :=
  Forall (fun w => tw_start w <= tw_end w) ws /\ Sorted (fun a b => tw_end a < tw_start b) ws.

(** ** The paragraph's effects (76-183)

    What an effect does to the outside: the shared ref
    [isProgrammaticScrollRef], [scrollElementIntoContainer] on the
    paragraph's element, a [setTimeout] with its delay and body, and the
    target-time setter of the transcript-panel store.  Paragraphs are told apart by
    their start, their React key. *)
Inductive effect :=
  | SetProgrammaticScroll (b : bool)
  | ScrollParagraphIntoView (paragraphStart : Q)
  | After (ms : nat) (body : list effect)
  | SetTargetScrollTime (t : option Q)
  | ScrollWordIntoView (wordIndex : string).

(** [t >= paragraph.start && t < paragraph.end] *)
Definition in_paragraph (paragraph : Paragraph) (t : Q) : bool :=
  Qle_bool (p_start paragraph) t && Qlt_bool t (p_end paragraph).

(** The scroll of 88-92 and 167-173: the ref is raised, the element
    scrolled, and the ref lowered after [release] ms. *)
Definition programmatic_scroll (paragraph : Paragraph) (release : nat) : list effect :=
  [SetProgrammaticScroll true; ScrollParagraphIntoView (p_start paragraph); After release [SetProgrammaticScroll false]].

(** The target-time effect (76-95); [mounted] is
    [paragraphRef.current && scrollContainer]. *)
Definition targetScrollEffect (targetScrollTime : option Q) (paragraph : Paragraph) (mounted : bool)
    : list effect :=
  match targetScrollTime with
  | None => []
  | Some t =>
      if in_paragraph paragraph t && mounted
      then programmatic_scroll paragraph 120 ++ [SetTargetScrollTime None] else []
  end.

(** The semantic-match half of the match effect (97-117): a missing
    [start_time] compares false. *)
Definition semanticMatchScrollEffect (scrollContainer : bool) (currentSemanticMatchIndex : Z)
    (semanticSearchMatches : list wobj) (paragraph : Paragraph) (element : bool) : list effect :=
  if negb scrollContainer then [] else
  match currentSemanticMatch currentSemanticMatchIndex semanticSearchMatches with
  | Some m =>
      match start_time (properties m) with
      | Some matchStartTime =>
          if in_paragraph paragraph matchStartTime && element
          then [After 100 (programmatic_scroll paragraph 120)] else []
      | None => []
      end
  | None => []
  end.

(** A match of the in-transcript search of [useSearchStore] (not under
    [src/]): the word's section, paragraph and index. *)
Record TraditionalMatch := mkTraditionalMatch {
  tm_section_idx : nat;
  tm_para_idx : nat;
  tm_word_idx : nat
}.

(** [`s-${section_idx}-p-${para_idx}-word-${word_idx}`] (122) *)
Definition wordIndexKey (m : TraditionalMatch) : string :=
  "s-" +:+ pretty (tm_section_idx m) +:+ "-p-" +:+ pretty (tm_para_idx m) +:+ "-word-" +:+ pretty (tm_word_idx m).

(** The traditional-match half of the same effect (119-132): it does not
    look at the paragraph; [found] is [document.querySelector] finding the
    word's element anywhere in the page. *)
Definition traditionalMatchScrollEffect (scrollContainer : bool) (traditionalCurrentMatchIndex : Z)
    (traditionalSearchMatches : list TraditionalMatch) (found : string -> bool) : list effect :=
  if negb scrollContainer then [] else
  if negb (0 <=? traditionalCurrentMatchIndex)%Z then [] else
  match traditionalSearchMatches !! Z.to_nat traditionalCurrentMatchIndex with
  | Some m =>
      if found (wordIndexKey m)
      then [After 100 [SetProgrammaticScroll true; ScrollWordIntoView (wordIndexKey m); After 120 [SetProgrammaticScroll false]]]
      else []
  | None => []
  end.

(** The whole match effect of one paragraph (97-145). *)
Definition matchScrollEffect (scrollContainer : bool) (currentSemanticMatchIndex : Z) (semanticSearchMatches : list wobj)
    (traditionalCurrentMatchIndex : Z) (traditionalSearchMatches : list TraditionalMatch) (found : string -> bool)
    (paragraph : Paragraph) (element : bool) : list effect :=
  semanticMatchScrollEffect scrollContainer currentSemanticMatchIndex semanticSearchMatches paragraph element ++
  traditionalMatchScrollEffect scrollContainer traditionalCurrentMatchIndex traditionalSearchMatches found.

(** Auto-scroll (146-183); [inView] is [isElementInView]. *)
Definition autoScrollEffect (isPlaying isCurrentTimeOutOfView : bool) (currentTime : Q)
    (paragraph : Paragraph) (mounted inView : bool) : list effect :=
  if negb isPlaying then [] else
  if isCurrentTimeOutOfView then [] else
  if negb mounted then [] else
  if negb (in_paragraph paragraph currentTime) then [] else
  if inView then [] else programmatic_scroll paragraph 100.

(** The paragraphs an effect scrolls, its timers' bodies included. *)
Fixpoint effect_scrolls (e : effect) : list Q :=
  match e with
  | ScrollParagraphIntoView s => [s]
  | After _ body => (fix go (l : list effect) : list Q :=
                       match l with [] => [] | x :: r => effect_scrolls x ++ go r end) body
  | _ => []
  end.

Definition scrolled (es : list effect) : list Q := concat (map effect_scrolls es).

(** The words an effect scrolls to, its timers' bodies included. *)
Fixpoint effect_word_scrolls (e : effect) : list string :=
  match e with
  | ScrollWordIntoView k => [k]
  | After _ body => (fix go (l : list effect) : list string :=
                       match l with [] => [] | x :: r => effect_word_scrolls x ++ go r end) body
  | _ => []
  end.

Definition word_scrolls (es : list effect) : list string := concat (map effect_word_scrolls es).

(** The paragraph's own [formatTime] (24-28), the same text as the
    progress bar's. *)
Definition paragraph_formatTime (seconds : Q) : string :=
  let mins := Qfloor (seconds / 60) in
  let secs := Qfloor (js_mod seconds 60) in
  pretty mins +:+ ":" +:+ padStart2 (pretty secs).

(** The paragraph's heading (243-244). *)
Definition paragraph_heading (paragraph : Paragraph) : string :=
  paragraph_formatTime (p_start paragraph) +:+ " " +:+ p_speaker paragraph.

(** The match effects of all the paragraphs of the panel in one commit,
    each paragraph with whether its element is mounted. *)
Definition match_effects (scrollContainer : bool) (currentSemanticMatchIndex : Z) (semanticSearchMatches : list wobj)
    (traditionalCurrentMatchIndex : Z) (traditionalSearchMatches : list TraditionalMatch) (found : string -> bool)
    (ps : list (Paragraph * bool)) : list effect :=
  concat (map (fun pe => matchScrollEffect scrollContainer currentSemanticMatchIndex semanticSearchMatches
                           traditionalCurrentMatchIndex traditionalSearchMatches found pe.1 pe.2) ps).

(** ** The score-versus-current debug log (185-228) *)

(** [const DEBUG_TRANSCRIPT_MATCH = true] (39) *)
Definition DEBUG_TRANSCRIPT_MATCH : bool := true.

(** The state of a word the log prints ([wordState], 199-209). *)
Record word_state := mkWordState {
  ws_text : option string;
  ws_start : Q;
  ws_end : Q;
  ws_isCurrent : bool;
  ws_deltaToStart : Q;
  ws_deltaToEnd : Q
}.

(** The object passed to [console.log] (211-219). *)
Record score_log := mkScoreLog {
  sl_paragraphRange : Q * Q;
  sl_currentTime : Q;
  sl_semanticMatchIndex : Z;
  sl_matchRange : Q * Q;
  sl_scoreWordIndex : Z;
  sl_scoreWord : option word_state;
  sl_previousWord : option word_state
}.

Section Debug.
(** [Number(x.toFixed(3))], the rounding of a double to three decimals. *)
Context (round3 : Q -> Q).

Definition wordState (currentTime : Q) (w : option TWord) : option word_state :=
  match w with
  | None => None
  | Some w =>
      Some (mkWordState (tw_text w) (tw_start w) (tw_end w)
              (Qle_bool (tw_start w) currentTime && Qle_bool currentTime (tw_end w))
              (round3 (currentTime - tw_start w)) (round3 (tw_end w - currentTime)))
  end.

(** The debug effect (185-228): the object it logs, [None] where it
    returns early.  [findIndex] is [find_index], [-1] for [None]. *)
Definition debugScoreLog (debug : bool) (currentSemanticMatchIndex : Z) (semanticSearchMatches : list wobj)
    (currentTime : Q) (paragraph : Paragraph) (wordsInParagraph : list TWord) : option score_log :=
  if negb debug then None else
  if (currentSemanticMatchIndex <? 0)%Z then None else
  match semanticSearchMatches !! Z.to_nat currentSemanticMatchIndex with
  | None => None
  | Some currentMatch =>
      match start_time (properties currentMatch), end_time (properties currentMatch) with
      | Some matchStart, Some matchEnd =>
          if negb (in_paragraph paragraph matchStart) then None else
          let scoreWordIndex := find_index (fun w => Qeq_bool (tw_start w) matchStart) wordsInParagraph in
          let scoreWord := match scoreWordIndex with Some k => wordsInParagraph !! k | None => None end in
          let previousWord := match scoreWordIndex with Some (S k) => wordsInParagraph !! k | _ => None end in
          Some (mkScoreLog (p_start paragraph, p_end paragraph) currentTime currentSemanticMatchIndex
                  (matchStart, matchEnd) (match scoreWordIndex with Some k => Z.of_nat k | None => (-1)%Z end)
                  (wordState currentTime scoreWord) (wordState currentTime previousWord))
      | _, _ => None
      end
  end.

End Debug.

(** ** Lemmas *)

Lemma words_timed_cons (w : TWord) (ws : list TWord) : words_timed (w :: ws) -> words_timed ws.
Proof. intros [Hf Hs]. split; [by inversion Hf|by inversion Hs]. Qed.

Lemma words_timed_drop (k : nat) (ws : list TWord) : words_timed ws -> words_timed (drop k ws).
Proof.
  revert ws. induction k as [|k IH]; intros [|w ws] H; simpl; try done.
  by apply IH, (words_timed_cons w).
Qed.

Lemma words_timed_strong (ws : list TWord) :
  words_timed ws -> StronglySorted (fun a b => tw_end a < tw_start b) ws.
Proof.
  intros [Hf Hs]. apply (sorted_intervals_strong tw_start tw_end Qlt); [intros; lra|done|done].
Qed.

Section RenderLemmas.
Context (currentTime : Q) (ner_data : list NerDataItem) (selected_ner_labels : list string)
  (paragraph : Paragraph) (currentMatch : option wobj).

Lemma nerMatch_in_span (w : TWord) (ner : NerDataItem) :
  nerMatch ner_data selected_ner_labels w = Some ner -> in_span ner w = true.
Proof. unfold nerMatch. intros [_ H]%find_some. by apply andb_prop in H as [-> _]. Qed.

(** The rendering loop simulates the reference: after index [i], the
    [Set] holds exactly the next [n] indexes, which the reference has
    already consumed. *)
Lemma render_from_segments (words rest : list TWord) (R : gset nat) (i n : nat) :
  rest = drop i words ->
  (forall k, (i <= k)%nat -> k ∈ R <-> (k < i + n)%nat) ->
  (n <= length rest)%nat ->
  render_from currentTime ner_data selected_ner_labels paragraph currentMatch words R i rest =
  segments currentTime ner_data selected_ner_labels paragraph currentMatch (drop n rest).
Proof.
  revert R i n. induction rest as [|w rest IH]; intros R i n Hrest HR Hn; simpl.
  { simpl in Hn. replace n with 0%nat by lia. by simp segments. }
  assert (Hrest' : rest = drop (S i) words).
  { replace (S i) with (i + 1)%nat by lia. by rewrite <- drop_drop, <- Hrest. }
  destruct n as [|n].
  - rewrite bool_decide_false by (rewrite HR; lia). simpl. simp segments.
    destruct (nerMatch ner_data selected_ner_labels w) as [ner|] eqn:E.
    + rewrite <- Hrest. cbn [take_while]. rewrite (nerMatch_in_span _ _ E). f_equal.
      apply IH; [done| |apply take_while_length].
      intros k Hk. rewrite elem_of_union, elem_of_set_seq, HR by lia. simpl. lia.
    + f_equal.
      * f_equal. rewrite <- (Nat.add_0_r (S i)), <- lookup_drop, <- Hrest'. by destruct rest.
      * apply (IH R (S i) 0%nat); [done| |lia]. intros k Hk. rewrite HR by lia. lia.
  - rewrite bool_decide_true by (rewrite HR; lia). simpl in Hn |- *.
    apply IH; [done| |lia]. intros k Hk. rewrite HR by lia. lia.
Qed.
Lemma segments_words (ws : list TWord) :
  concat (map seg_words (segments currentTime ner_data selected_ner_labels paragraph currentMatch ws)) = ws.
Proof.
  induction ws as [ws IH] using (induction_ltof1 _ (@length _)). unfold ltof in IH.
  destruct ws as [|w rest]; simp segments; [done|].
  destruct (nerMatch ner_data selected_ner_labels w) as [ner|] eqn:E; cbn [map concat seg_words].
  - rewrite IH by (rewrite length_drop; simpl; lia). simpl. by rewrite take_while_app_drop.
  - rewrite IH by (simpl; lia). done.
Qed.

Lemma ner_active_spec (ws : list TWord) :
  ner_active currentTime ws = true ->
  exists j u, ws !! j = Some u /\ word_is_current currentTime u (ws !! S j) = true.
Proof.
  unfold ner_active. intros [b [Hb ->]]%existsb_exists.
  apply list_elem_of_In, list_elem_of_lookup in Hb as [j Hj].
  rewrite list_lookup_imap in Hj. destruct (ws !! j) as [u|] eqn:E; simplify_eq/=. eauto.
Qed.

(** A highlighted segment shows a word that has started. *)
Lemma segments_active_started (ws : list TWord) (s : segment) :
  In s (segments currentTime ner_data selected_ner_labels paragraph currentMatch ws) -> seg_active s = true ->
  exists u, In u (seg_words s) /\ tw_start u <= currentTime.
Proof.
  induction ws as [ws IH] using (induction_ltof1 _ (@length _)). unfold ltof in IH.
  destruct ws as [|w rest]; simp segments; [done|].
  destruct (nerMatch ner_data selected_ner_labels w) as [ner|] eqn:E; intros [<-|Hs] Ha.
  - apply ner_active_spec in Ha as (j & u & Hj & Hc). exists u. split.
    + apply list_elem_of_In. by eapply list_elem_of_lookup_2.
    + apply andb_prop in Hc as [Hc _]. by apply Qle_bool_iff.
  - apply (IH (drop (length (take_while (in_span ner) rest)) rest)); [rewrite length_drop; simpl; lia|done|done].
  - exists w. split; [by left|]. simpl in Ha. apply andb_prop in Ha as [Hc _]. by apply Qle_bool_iff.
  - apply (IH rest); [simpl; lia|done|done].
Qed.
(** At any time, at most one segment of a paragraph of timed words is highlighted. *)
Lemma segments_one_active (ws : list TWord) :
  words_timed ws ->
  (length (List.filter seg_active (segments currentTime ner_data selected_ner_labels paragraph currentMatch ws)) <= 1)%nat.
Proof.
  induction ws as [ws IH] using (induction_ltof1 _ (@length _)). unfold ltof in IH. intros Ht.
  pose proof (words_timed_strong ws Ht) as Hss.
  assert (Hnone : forall rem, (forall u, In u rem -> currentTime < tw_start u) ->
            List.filter seg_active (segments currentTime ner_data selected_ner_labels paragraph currentMatch rem) = []).
  { intros rem Hrem. apply List_filter_nil. intros s Hs. destruct (seg_active s) eqn:Ha; [exfalso|done].
    destruct (segments_active_started rem s Hs Ha) as [u [Hu Hle]].
    assert (Hin : In u rem).
    { rewrite <- (segments_words rem). apply in_concat. exists (seg_words s). split; [|done]. by apply in_map. }
    specialize (Hrem u Hin). lra. }
  destruct ws as [|w rest]; simp segments; [simpl; lia|].
  destruct (nerMatch ner_data selected_ner_labels w) as [ner|] eqn:E; cbn [List.filter seg_active].
  - set (g := take_while (in_span ner) rest). set (rem := drop (length g) rest).
    assert (Happ : w :: rest = (w :: g) ++ rem) by (simpl; f_equal; symmetry; apply take_while_app_drop).
    destruct (ner_active currentTime (w :: g)) eqn:Ha; cbn [length].
    + rewrite Hnone; [simpl; lia|]. intros u Hu.
      apply ner_active_spec in Ha as (j & x & Hj & Hc). apply andb_prop in Hc as [_ Hc].
      assert (Hv : exists v, In v (w :: g) /\ currentTime <= tw_end v).
      { destruct ((w :: g) !! S j) as [n|] eqn:En.
        - exists n. split; [apply list_elem_of_In; by eapply list_elem_of_lookup_2|].
          apply Qlt_bool_iff in Hc. rewrite Happ in Ht. destruct Ht as [Hf _].
          assert (Hn : In n ((w :: g) ++ rem)) by (apply in_app_iff; left; apply list_elem_of_In; by eapply list_elem_of_lookup_2).
          rewrite Forall_forall in Hf. specialize (Hf n (proj2 (list_elem_of_In _ _) Hn)). cbv beta in Hf. lra.
        - exists x. split; [apply list_elem_of_In; by eapply list_elem_of_lookup_2|]. by apply Qle_bool_iff. }
      destruct Hv as [v [Hv Hle]]. rewrite Happ in Hss.
      pose proof (strongly_sorted_app _ _ _ Hss v u Hv Hu). cbv beta in *. lra.
    + apply IH; [subst rem; rewrite length_drop; simpl; lia|]. subst rem. by apply words_timed_drop, (words_timed_cons w).
  - unfold word_segment. cbn [seg_active]. destruct (word_is_current currentTime w (head rest)) eqn:Hc; cbn [length].
    + rewrite Hnone; [simpl; lia|]. intros u Hu. apply andb_prop in Hc as [_ Hc].
      destruct rest as [|n rest']; [done|]. simpl in Hc. apply Qlt_bool_iff in Hc.
      destruct Hu as [<-|Hu]; [done|].
      apply StronglySorted_inv in Hss as [Hss _]. apply StronglySorted_inv in Hss as [_ Hall].
      rewrite Forall_forall in Hall. specialize (Hall u (proj2 (list_elem_of_In _ _) Hu)).
      destruct Ht as [Hf _]. inversion Hf as [|? ? _ Hf']. inversion Hf' as [|? ? Hn _]. cbv beta in *. lra.
    + apply IH; [simpl; lia|]. by apply (words_timed_cons w).
Qed.

(** C16. The paragraph's rendering loop, a [map] over the words that skips
    the indexes an entity group recorded in the mutable [Set], computes
    the declarative segmentation [segments]: each group takes the words
    inside its mention and the segmentation goes on after them. *)
Theorem render_words_refines (ws : list TWord) :
  render_words currentTime ner_data selected_ner_labels paragraph currentMatch ws =
  segments currentTime ner_data selected_ner_labels paragraph currentMatch ws.
Proof. apply (render_from_segments ws ws ∅ 0 0); [done|intros k _; rewrite elem_of_empty; lia|lia]. Qed.

(** Rendering a paragraph shows each of its words once, in order: the
    words of the rendered segments, concatenated, are the paragraph's words. *)
Theorem render_words_roundtrip (ws : list TWord) :
  concat (map seg_words (render_words currentTime ner_data selected_ner_labels paragraph currentMatch ws)) = ws.
Proof. unfold render_words. rewrite (render_from_segments ws ws ∅ 0 0); [apply segments_words|done|intros k _; rewrite elem_of_empty; lia|lia]. Qed.

(** C17. In a paragraph whose words each end before the next one starts, at
    most one rendered segment (a word or an entity group) is highlighted at
    any playback time. *)
Theorem render_words_one_active (ws : list TWord) :
  words_timed ws ->
  (length (List.filter seg_active (render_words currentTime ner_data selected_ner_labels paragraph currentMatch ws)) <= 1)%nat.
Proof. intros Ht. unfold render_words. rewrite (render_from_segments ws ws ∅ 0 0); [by apply segments_one_active|done|intros k _; rewrite elem_of_empty; lia|lia]. Qed.
End RenderLemmas.

Lemma word_scrolls_app (es1 es2 : list effect) : word_scrolls (es1 ++ es2) = word_scrolls es1 ++ word_scrolls es2.
Proof. unfold word_scrolls. by rewrite map_app, concat_app. Qed.

Lemma semanticMatchScrollEffect_no_word (sc : bool) (i : Z) (ms : list wobj) (p : Paragraph) (el : bool) :
  word_scrolls (semanticMatchScrollEffect sc i ms p el) = [].
Proof. unfold semanticMatchScrollEffect. by repeat case_match. Qed.

(** Every paragraph's effect scrolls to the in-transcript search's current
    word: one commit of a panel of [n] paragraphs schedules [n] scrolls to
    the same word (and [n] pairs of writes to the shared ref). *)
Lemma traditional_scroll_per_paragraph (i : Z) (ms : list wobj) (tidx : Z) (tms : list TraditionalMatch)
    (found : string -> bool) (m : TraditionalMatch) (ps : list (Paragraph * bool)) :
  (0 <= tidx)%Z -> tms !! Z.to_nat tidx = Some m -> found (wordIndexKey m) = true ->
  word_scrolls (match_effects true i ms tidx tms found ps) = replicate (length ps) (wordIndexKey m).
Proof.
  intros Hi Hm Hf. induction ps as [|[p el] ps IH]; [done|].
  unfold match_effects in *. cbn [map concat length replicate].
  rewrite !word_scrolls_app, IH. unfold matchScrollEffect. rewrite word_scrolls_app, semanticMatchScrollEffect_no_word.
  unfold traditionalMatchScrollEffect. simpl. rewrite (proj2 (Z.leb_le _ _) Hi), Hm, Hf. done.
Qed.

(** When an entity group's last word ends where the next word starts, as
    transcripts with back-to-back word timings have it, the group (its last
    word is current up to its end) and the next word (current from its
    start) are highlighted together at that instant. *)
Example group_and_next_word_both_active :
  let w1 := mkTWord (Some "Fairfax") 0 1 in
  let w2 := mkTWord (Some "County") 1 2 in
  let ner := mkNerDataItem "Fairfax" "GPE" 0 1 in
  List.filter seg_active (render_words 1 [ner] ["GPE"] (mkParagraph 0 2 "A" [w1; w2]) None [w1; w2]) =
  [SegNer ner [w1] true; SegWord w2 true false None].
Proof. reflexivity. Qed.

Lemma currentSemanticMatch_Some (i : Z) (ms : list wobj) (m : wobj) :
  currentSemanticMatch i ms = Some m -> (i <? 0)%Z = false /\ ms !! Z.to_nat i = Some m.
Proof. unfold currentSemanticMatch. destruct (Z.leb_spec 0 i); [|done]. intros ->. split; [apply Z.ltb_ge; lia|done]. Qed.

Lemma debugScoreLog_is_Some (round3 : Q -> Q) (i : Z) (ms : list wobj) (m : wobj) (s e t : Q) (p : Paragraph)
    (ws : list TWord) :
  currentSemanticMatch i ms = Some m -> start_time (properties m) = Some s -> end_time (properties m) = Some e ->
  is_Some (debugScoreLog round3 DEBUG_TRANSCRIPT_MATCH i ms t p ws) <-> in_paragraph p s = true.
Proof.
  intros [Hi Hm]%currentSemanticMatch_Some Hs He. unfold debugScoreLog. cbn [DEBUG_TRANSCRIPT_MATCH negb].
  rewrite Hi, Hm, Hs, He. destruct (in_paragraph p s); split; intros H; [done|by eexists|by destruct H|done].
Qed.

(** The debug effect of a paragraph logs exactly when a semantic match
    is selected whose start and end times are known and whose start lies
    in the paragraph: the flag is on in the code. *)
Theorem debugScoreLog_logs (round3 : Q -> Q) (i : Z) (ms : list wobj) (t : Q) (p : Paragraph) (ws : list TWord) :
  is_Some (debugScoreLog round3 DEBUG_TRANSCRIPT_MATCH i ms t p ws) <->
  exists m s e, currentSemanticMatch i ms = Some m /\ start_time (properties m) = Some s /\
                end_time (properties m) = Some e /\ in_paragraph p s = true.
Proof.
  split; [|intros (m & s & e & Hm & Hs & He & Hp); by apply (debugScoreLog_is_Some round3 i ms m s e)].
  unfold debugScoreLog, currentSemanticMatch, DEBUG_TRANSCRIPT_MATCH. cbn [negb].
  destruct (Z.ltb_spec i 0) as [Hi|Hi]; [by intros []|rewrite (proj2 (Z.leb_le 0 i) Hi)].
  destruct (ms !! Z.to_nat i) as [m|]; [|by intros []].
  intros [l Hl]. destruct (start_time (properties m)) as [s|] eqn:Hs, (end_time (properties m)) as [e|] eqn:He; try done.
  destruct (in_paragraph p s) eqn:Hp; [|done]. by exists m, s, e.
Qed.

(** The word the log reports is the first word of the paragraph that
    starts at the match's start, and the previous word the one before it
    (none for the first word). *)
Theorem debugScoreLog_scoreWord (round3 : Q -> Q) (i : Z) (ms : list wobj) (t : Q) (p : Paragraph) (m : wobj) (s : Q)
    (pre post : list TWord) (w : TWord) (l : score_log) :
  currentSemanticMatch i ms = Some m -> start_time (properties m) = Some s ->
  existsb (fun w' => Qeq_bool (tw_start w') s) pre = false -> tw_start w == s ->
  debugScoreLog round3 DEBUG_TRANSCRIPT_MATCH i ms t p (pre ++ w :: post) = Some l ->
  sl_scoreWordIndex l = Z.of_nat (length pre) /\ sl_scoreWord l = wordState round3 t (Some w) /\
  sl_previousWord l = wordState round3 t (last pre).
Proof.
  intros [Hi Hm]%currentSemanticMatch_Some Hs Hpre Hw. unfold debugScoreLog. cbn [DEBUG_TRANSCRIPT_MATCH negb].
  rewrite Hi, Hm, Hs. destruct (end_time (properties m)); [|done]. destruct (in_paragraph p s); [|done].
  rewrite (proj2 (find_index_app_at _ pre post w)) by (split; [done|by apply Qeq_bool_iff]).
  intros [= <-]. cbn. rewrite list_lookup_middle by done. split_and!; [done|done|].
  destruct pre as [|x pre'] using rev_ind; [done|]. rewrite last_snoc, length_app. cbn [length].
  rewrite Nat.add_1_r. cbn [wordState]. rewrite <- app_assoc. cbn [app]. by rewrite list_lookup_middle.
Qed.

Lemma render_words_one_active_witness :
  let ws := [mkTWord (Some "Fairfax") 0 1; mkTWord (Some "County") (3 # 2) 2] in
  words_timed ws /\
  (length (List.filter seg_active
     (render_words (3 # 2) [mkNerDataItem "Fairfax" "GPE" 0 1] ["GPE"] (mkParagraph 0 2 "A" ws) None ws)) <= 1)%nat.
Proof.
  intros ws. assert (Ht : words_timed ws).
  { split; repeat constructor; cbn; unfold Qle, Qlt; simpl; lia. }
  split; [exact Ht|]. exact (render_words_one_active (3 # 2) _ ["GPE"] _ None ws Ht).
Defined.
