(* ===== verification/TranscriptPanel.v ===== *)
(** * TranscriptPanel: the scroll state of the transcript panel

    [src/app/story/[storyUuid]/Components/StoryTranscriptPanel.tsx] renders
    nothing until its accordions are initialised, then lays out the
    paragraphs of every section (131-166), each a
    [StoryTranscriptParagraph] that shares the panel's
    [isProgrammaticScrollRef].  While the player plays, an effect (57-93)
    attaches listeners to the scroll container: a pointer, wheel or touch
    event records its time in the closure's [lastUserInteractionTs], and a
    scroll that is not programmatic and comes within 280 ms of it turns
    auto-scroll off ([setIsCurrentTimeOutOfView(true)]).  The effect runs
    again, with a fresh closure, whenever [isPlaying] or
    [isCurrentTimeOutOfView] changes.  [Resume Auto-Scroll] (186-189) sets
    the target time to the playback time and turns auto-scroll back on; the
    [?start=] effect (95-102) sets the target time and seeks once the
    accordions are initialised.

    [panel_state] holds the store fields the panel reads and writes, the
    ref, whether the listeners are attached and the closure's timestamp;
    [panel_step] is the panel's reaction to one event, and the effects of
    [Transcript] act on the same state through [apply_effect].  A store
    setter that leaves a value unchanged does not re-run the effects that
    depend on it (React compares dependencies with [Object.is]).  Across
    the panel's time-ordered paragraphs, the debug effect of [Transcript]
    logs in exactly one paragraph, at every playback time. *)

From S2P Require Import Prelude Filters Store Transcript.

Local Open Scope Q_scope.

Record panel_state := mkPanel {
  isPlaying : bool;
  isCurrentTimeOutOfView : bool;
  targetScrollTime : option Q;
  isProgrammaticScroll : bool;
  areAccordionsInitialized : bool;
  listening : bool;
  lastUserInteractionTs : Z
}.

(** The panel's inputs: a listener's event with its [Date.now()], a change
    of the player's [isPlaying], the accordions becoming initialised, a
    click on [Resume Auto-Scroll] at a playback time, and an effect of a
    paragraph (a timer's body arrives as its own effects when it fires). *)
Inductive panel_event :=
  | UserInteraction (now : Z)
  | ScrollEvent (now : Z)
  | PlayingChanged (b : bool)
  | AccordionsInitialized
  | ResumeClick (currentTime : Q)
  | ParagraphEffect (e : effect).

Definition USER_SCROLL_WINDOW_MS : Z := 280.

Section Panel.
(** [Number(searchParams.get('start'))] when the parameter is set. *)
Context (startParam : option Q).

(** The listener effect (57-93): the listeners are attached when the player
    plays and the scroll container exists, that is once the accordions are
    initialised (104); each run starts a closure with
    [lastUserInteractionTs = 0]. *)
Definition listener_effect (s : panel_state) : panel_state :=
  mkPanel (isPlaying s) (isCurrentTimeOutOfView s) (targetScrollTime s) (isProgrammaticScroll s)
    (areAccordionsInitialized s) (isPlaying s && areAccordionsInitialized s) 0.

Definition setIsCurrentTimeOutOfView (b : bool) (s : panel_state) : panel_state :=
  if Bool.eqb b (isCurrentTimeOutOfView s) then s
  else listener_effect (mkPanel (isPlaying s) b (targetScrollTime s) (isProgrammaticScroll s)
                          (areAccordionsInitialized s) (listening s) (lastUserInteractionTs s)).

Definition setIsPlaying (b : bool) (s : panel_state) : panel_state :=
  if Bool.eqb b (isPlaying s) then s
  else listener_effect (mkPanel b (isCurrentTimeOutOfView s) (targetScrollTime s) (isProgrammaticScroll s)
                          (areAccordionsInitialized s) (listening s) (lastUserInteractionTs s)).

Definition setTargetScrollTime (t : option Q) (s : panel_state) : panel_state :=
  mkPanel (isPlaying s) (isCurrentTimeOutOfView s) t (isProgrammaticScroll s)
    (areAccordionsInitialized s) (listening s) (lastUserInteractionTs s).

Definition setProgrammaticScroll (b : bool) (s : panel_state) : panel_state :=
  mkPanel (isPlaying s) (isCurrentTimeOutOfView s) (targetScrollTime s) b
    (areAccordionsInitialized s) (listening s) (lastUserInteractionTs s).

(** An assignment to the closure's [lastUserInteractionTs]. *)
Definition setLastUserInteractionTs (ts : Z) (s : panel_state) : panel_state :=
  mkPanel (isPlaying s) (isCurrentTimeOutOfView s) (targetScrollTime s) (isProgrammaticScroll s)
    (areAccordionsInitialized s) (listening s) ts.

(** [markAsUserInitiated] (65-67) *)
Definition markAsUserInitiated (now : Z) (s : panel_state) : panel_state := setLastUserInteractionTs now s.

(** [handleScroll] (69-80) *)
Definition handleScroll (now : Z) (s : panel_state) : panel_state :=
  if isProgrammaticScroll s then s else
  if isCurrentTimeOutOfView s then s else
  if negb (now - lastUserInteractionTs s <=? USER_SCROLL_WINDOW_MS)%Z then s else
  setLastUserInteractionTs 0 (setIsCurrentTimeOutOfView true s).

(** The [?start=] effect (95-102), run when the accordions become
    initialised; the seek goes to the player. *)
Definition startParamEffect (s : panel_state) : panel_state :=
  if negb (areAccordionsInitialized s) then s else
  match startParam with
  | Some t => setTargetScrollTime (Some t) s
  | None => s
  end.

(** A paragraph's effect on the panel: the ref and the store setters;
    scrolling acts on the DOM, and a timer's body is applied when it fires. *)
(** The [Resume Auto-Scroll] button's [onClick] (186-189). *)
Definition resumeAutoScroll (currentTime : Q) (s : panel_state) : panel_state :=
  setIsCurrentTimeOutOfView false (setTargetScrollTime (Some currentTime) s).

Definition apply_effect (s : panel_state) (e : effect) : panel_state :=
  match e with
  | SetProgrammaticScroll b => setProgrammaticScroll b s
  | SetTargetScrollTime t => setTargetScrollTime t s
  | ScrollParagraphIntoView _ | ScrollWordIntoView _ | After _ _ => s
  end.

Definition apply_effects (s : panel_state) (es : list effect) : panel_state := fold_left apply_effect es s.

Definition panel_step (s : panel_state) (e : panel_event) : panel_state :=
  match e with
  | UserInteraction now => if listening s then markAsUserInitiated now s else s
  | ScrollEvent now => if listening s then handleScroll now s else s
  | PlayingChanged b => setIsPlaying b s
  | AccordionsInitialized =>
      if areAccordionsInitialized s then s
      else startParamEffect (mkPanel (isPlaying s) (isCurrentTimeOutOfView s) (targetScrollTime s)
                               (isProgrammaticScroll s) true (listening s) (lastUserInteractionTs s))
  | ResumeClick t =>
      if areAccordionsInitialized s && isCurrentTimeOutOfView s
      then resumeAutoScroll t s else s
  | ParagraphEffect e => apply_effect s e
  end.

Definition run_panel (s : panel_state) (tr : list panel_event) : panel_state := fold_left panel_step tr s.
End Panel.

(** The store's initial state: paused, auto-scroll on, no target. *)
Definition panel_init : panel_state := mkPanel false false None false false false 0.

(** ** The section accordions (46-55, 104, 131-170)

    [expandedSections] of [useTranscriptPanelStore] (not under [src/]) is a
    JavaScript object keyed by the sections' start times: a number used as
    a key is its canonical form, [Qred] here.  It is an association list in
    insertion order, the order of [Object.keys]; an assignment [obj[k] = v]
    is [amap_set] of the prelude. *)

#[local] Instance Q_eq_dec : EqDecision Q.
Proof. solve_decision. Defined.

Definition js_key (t : Q) : Q := Qred t.

Definition expanded_sections := list (Q * bool).

Section Accordions.
(** The expansion [initializeExpandedSections] gives every section. *)
Context (initiallyExpanded : bool).

(** [initializeExpandedSections(startTimes)]: a fresh object with a key
    per start time. *)
Definition initializeExpandedSections (startTimes : list Q) : expanded_sections :=
  fold_left (fun m t => amap_set (js_key t) initiallyExpanded m) startTimes [].

(** The store's [toggleSection(start)]: [{...expandedSections, [start]: !expandedSections[start]}]. *)
Definition toggleExpandedSection (start : Q) (m : expanded_sections) : expanded_sections :=
  amap_set (js_key start) (negb (default false (amap_get (js_key start) m))) m.

(** [transcript?.sections ?? []] (46) *)
Definition sections_of (transcript : option Transcription) : list Section_ :=
  match transcript with Some t => t_sections t | None => [] end.

(** [areAccordionsInitialized] (47): [Object.keys(expandedSections).length === sections.length]. *)
Definition accordionsInitialized (m : expanded_sections) (sections : list Section_) : bool :=
  (length m =? length sections)%nat.

(** [isExpanded = !!expandedSections[section.start]] (134) *)
Definition isExpanded (m : expanded_sections) (sec : Section_) : bool :=
  default false (amap_get (js_key (s_start sec)) m).

(** One accordion (136-168): its title, the synopsis while collapsed, and
    its paragraphs, which [AccordionDetails] mounts whether or not the
    accordion is expanded. *)
Record accordion_view := mkAccordionView {
  av_title : string;
  av_synopsis : option string;
  av_expanded : bool;
  av_paragraphs : list Paragraph
}.

Definition accordion_of (m : expanded_sections) (sec : Section_) : accordion_view :=
  mkAccordionView (s_title sec) (if isExpanded m sec then None else Some (s_synopsis sec))
    (isExpanded m sec) (s_paragraphs sec).

(** What the panel renders: nothing before the accordions are initialised
    (104), then its accordions and the [Resume Auto-Scroll] button while
    the current time is out of view (171-194). *)
Record panel_view := mkPanelView { pv_accordions : list accordion_view; pv_resume : bool }.

Definition panel_render (transcript : option Transcription) (m : expanded_sections)
    (isCurrentTimeOutOfView : bool) : option panel_view :=
  let sections := sections_of transcript in
  if negb (accordionsInitialized m sections) then None
  else Some (mkPanelView (map (accordion_of m) sections) isCurrentTimeOutOfView).

(** The panel's accordion inputs: a new transcript in the store (the
    effect of 52-55 re-initialises the sections), and a click on the
    summary of the [i]-th accordion shown. *)
Inductive accordion_event :=
  | TranscriptChanged (transcript : option Transcription)
  | AccordionClick (i : nat).

Definition accordion_step (st : option Transcription * expanded_sections) (e : accordion_event)
    : option Transcription * expanded_sections :=
  match e with
  | TranscriptChanged t => (t, initializeExpandedSections (map s_start (sections_of t)))
  | AccordionClick i =>
      if negb (accordionsInitialized st.2 (sections_of st.1)) then st else
      match sections_of st.1 !! i with
      | Some sec => (st.1, toggleExpandedSection (s_start sec) st.2)
      | None => st
      end
  end.

Definition run_accordions (st : option Transcription * expanded_sections) (es : list accordion_event)
    : option Transcription * expanded_sections := fold_left accordion_step es st.
End Accordions.

(** ** The paragraphs on the panel (131-166) *)

(** [sections.map(section => (section.paragraphs || []).map(...))] *)
Definition panel_paragraphs (sections : list Section_) : list Paragraph := concat (map s_paragraphs sections).

(** The target-time effects of all the paragraphs in one commit: each
    paragraph's effect sees the same [targetScrollTime]; every paragraph is
    mounted once the panel renders. *)
Definition target_effects (targetScrollTime : option Q) (ps : list Paragraph) : list effect :=
  concat (map (fun p => targetScrollEffect targetScrollTime p true) ps).

(** Paragraphs in time order, each ending no later than the next starts. *)
Definition paragraphs_timed (ps : list Paragraph) : Prop :=
  Forall (fun p => p_start p <= p_end p) ps /\ Sorted (fun a b => p_end a <= p_start b) ps.

(** The state after one paragraph has scrolled to the target time. *)
Definition scrolled_to_target (s : panel_state) : panel_state :=
  setTargetScrollTime None (setProgrammaticScroll true s).

(** ** Lemmas *)

Ltac unfold_panel :=
  unfold panel_step, resumeAutoScroll, handleScroll, startParamEffect, markAsUserInitiated, setLastUserInteractionTs,
    setIsCurrentTimeOutOfView, setIsPlaying, setTargetScrollTime, setProgrammaticScroll,
    listener_effect, apply_effect in *.

Section PanelLemmas.
Context (startParam : option Q).

Lemma run_panel_snoc (s : panel_state) (tr : list panel_event) (e : panel_event) :
  run_panel startParam s (tr ++ [e]) = panel_step startParam (run_panel startParam s tr) e.
Proof. unfold run_panel. by rewrite fold_left_app. Qed.

(** One step leaves the closure's timestamp alone, resets it, or records
    the time of the event's user interaction. *)
Lemma panel_step_last (s : panel_state) (e : panel_event) :
  let ts := lastUserInteractionTs (panel_step startParam s e) in
  ts = 0%Z \/ ts = lastUserInteractionTs s \/ e = UserInteraction ts.
Proof.
  destruct s as [pl ov tg pr ai li ts], e; unfold_panel; simpl;
    repeat (case_match; simpl); auto.
Qed.

(** The listeners are attached only while the player plays. *)
Lemma panel_step_listening (s : panel_state) (e : panel_event) :
  (listening s = true -> isPlaying s = true) ->
  listening (panel_step startParam s e) = true -> isPlaying (panel_step startParam s e) = true.
Proof.
  destruct s as [pl ov tg pr ai li ts], e; unfold_panel; simpl;
    repeat (case_match; simpl); intros Hinv Hl;
    first [by apply Hinv | by apply andb_prop in Hl as [? _]].
Qed.

Lemma run_panel_invariant (tr : list panel_event) :
  let s := run_panel startParam panel_init tr in
  (listening s = true -> isPlaying s = true) /\
  (lastUserInteractionTs s = 0%Z \/ In (UserInteraction (lastUserInteractionTs s)) tr).
Proof.
  induction tr as [|e tr IH] using rev_ind; [simpl; auto|]. cbv zeta in *. rewrite run_panel_snoc.
  destruct IH as [Hl Hts]. split; [by apply panel_step_listening|].
  destruct (panel_step_last (run_panel startParam panel_init tr) e) as [H|[H|H]]; [by left| |].
  - rewrite H. destruct Hts as [Hts|Hts]; [by left|right; apply in_app_iff; by left].
  - right. apply in_app_iff. right. rewrite <- H. by left.
Qed.

(** Only a scroll event handled by the listeners turns auto-scroll off. *)
Lemma panel_step_out_of_view (s : panel_state) (e : panel_event) :
  isCurrentTimeOutOfView s = false -> isCurrentTimeOutOfView (panel_step startParam s e) = true ->
  exists now, e = ScrollEvent now /\ listening s = true /\ isProgrammaticScroll s = false /\
    (now - lastUserInteractionTs s <= USER_SCROLL_WINDOW_MS)%Z.
Proof.
  destruct s as [pl ov tg pr ai li ts], e; unfold_panel; simpl; intros ->;
    repeat (case_match; simpl); try discriminate; intros _; eexists; split_and!; eauto; lia.
Qed.

Lemma scrolled_app (es1 es2 : list effect) : scrolled (es1 ++ es2) = scrolled es1 ++ scrolled es2.
Proof. unfold scrolled. by rewrite map_app, concat_app. Qed.

Lemma target_effects_scrolled (t : Q) (ps : list Paragraph) :
  scrolled (target_effects (Some t) ps) = map p_start (List.filter (fun p => in_paragraph p t) ps).
Proof.
  induction ps as [|p ps IH]; [done|]. unfold target_effects in *. cbn [map concat List.filter].
  rewrite scrolled_app, IH. unfold targetScrollEffect. rewrite andb_true_r. by destruct (in_paragraph p t).
Qed.

Lemma apply_effects_app (s : panel_state) (es1 es2 : list effect) :
  apply_effects s (es1 ++ es2) = apply_effects (apply_effects s es1) es2.
Proof. unfold apply_effects. by rewrite fold_left_app. Qed.

(** The paragraphs' target effects clear the target and raise the ref
    when some paragraph holds the target time, and change nothing else. *)
Lemma apply_target_effects (s : panel_state) (t : Q) (ps : list Paragraph) :
  apply_effects s (target_effects (Some t) ps) =
  if existsb (fun p => in_paragraph p t) ps then scrolled_to_target s else s.
Proof.
  revert s. induction ps as [|p ps IH]; intros s; [done|]. unfold target_effects in *.
  cbn [map concat existsb]. rewrite apply_effects_app, IH. unfold targetScrollEffect. rewrite andb_true_r.
  destruct (in_paragraph p t); simpl; [|done]. destruct (existsb _ ps); by destruct s.
Qed.

(** In timed paragraphs a time lies in one paragraph at most. *)
Lemma filter_in_paragraph_unique (ps : list Paragraph) (p : Paragraph) (t : Q) :
  paragraphs_timed ps -> In p ps -> in_paragraph p t = true ->
  List.filter (fun q => in_paragraph q t) ps = [p].
Proof.
  intros [Hf Hs]. pose proof (sorted_intervals_strong p_start p_end Qle ltac:(intros; lra) ps Hf Hs) as Hss.
  clear Hf Hs. induction ps as [|q ps IH]; [done|]. intros Hin Ht.
  apply StronglySorted_inv in Hss as [Hss Hall]. rewrite Forall_forall in Hall.
  unfold in_paragraph in *. apply andb_prop in Ht as [Hs1 He1]. apply Qle_bool_iff in Hs1. apply Qlt_bool_iff in He1.
  destruct Hin as [<-|Hin]; simpl.
  - rewrite (proj2 (Qle_bool_iff _ _) Hs1), (proj2 (Qlt_bool_iff _ _) He1). simpl. f_equal.
    apply List_filter_nil. intros r Hr. specialize (Hall r (proj2 (list_elem_of_In _ _) Hr)). cbv beta in Hall.
    destruct (Qle_bool (p_start r) t) eqn:E; [apply Qle_bool_iff in E; lra|done].
  - specialize (Hall p (proj2 (list_elem_of_In _ _) Hin)). cbv beta in Hall.
    destruct (Qlt_bool t (p_end q)) eqn:E; [apply Qlt_bool_iff in E; lra|]. rewrite andb_false_r.
    apply IH; [done|done|]. apply andb_true_intro. split; [by apply Qle_bool_iff|by apply Qlt_bool_iff].
Qed.
End PanelLemmas.

Section AccordionLemmas.
Context (b : bool).

Local Notation F ts m := (fold_left (fun m t => amap_set (js_key t) b m) ts m).

Lemma init_keys_elem (ts : list Q) (m : expanded_sections) (k : Q) :
  k ∈ map fst (F ts m) <-> k ∈ map fst m \/ k ∈ map js_key ts.
Proof.
  revert m. induction ts as [|t ts IH]; intros m; simpl; [set_solver|].
  rewrite IH, amap_set_keys_eq. case_bool_decide; set_solver.
Qed.

(** A fresh object has a key for each distinct start time: as many keys
    as start times exactly when they are distinct. *)
Lemma init_length (ts : list Q) (m : expanded_sections) :
  NoDup (map fst m) ->
  (length (F ts m) <= length m + length ts)%nat /\
  (length (F ts m) = length m + length ts <-> NoDup (map fst m ++ map js_key ts))%nat.
Proof.
  revert m. induction ts as [|t ts IH]; intros m Hm; simpl; [rewrite app_nil_r; split; [lia|split; intros; [done|lia]]|].
  pose proof (amap_set_keys_eq (js_key t) b m) as Hk.
  set (m' := amap_set (js_key t) b m) in *.
  assert (Hlen : length m' = length (map fst m')) by by rewrite length_map.
  case_bool_decide as Hin.
  - rewrite Hk, length_map in Hlen. assert (Hm' : NoDup (map fst m')) by by rewrite Hk.
    destruct (IH m' Hm') as [Hle _]. split; [lia|]. split; [lia|].
    intros Hnd. apply NoDup_app in Hnd as (_ & Hdis & _). set_solver.
  - rewrite Hk, length_app, length_map in Hlen. simpl in Hlen.
    assert (Hnd' : NoDup (map fst m')).
    { rewrite Hk. apply NoDup_app; split_and!; [done|set_solver|constructor; [set_solver|constructor]]. }
    destruct (IH m' Hnd') as [Hle Heq]. rewrite Hk, <- app_assoc in Heq. simpl in Heq.
    split; [lia|]. rewrite <- Heq. lia.
Qed.

Lemma initializeExpandedSections_keys (ts : list Q) :
  NoDup (map fst (initializeExpandedSections b ts)) /\
  (forall k, k ∈ map fst (initializeExpandedSections b ts) <-> k ∈ map js_key ts).
Proof.
  unfold initializeExpandedSections. split.
  - assert (Hgen : forall m, NoDup (map fst m) -> NoDup (map fst (F ts m))).
    { induction ts as [|t ts IH]; intros m Hm; [done|]. apply IH. rewrite amap_set_keys_eq.
      case_bool_decide; [done|]. apply NoDup_app; split_and!; [done|set_solver|constructor; [set_solver|constructor]]. }
    apply Hgen. constructor.
  - intros k. pose proof (init_keys_elem ts [] k). set_solver.
Qed.

Lemma initialized_iff_distinct (sections : list Section_) :
  accordionsInitialized (initializeExpandedSections b (map s_start sections)) sections = true <->
  NoDup (map (fun sec => js_key (s_start sec)) sections).
Proof.
  unfold accordionsInitialized, initializeExpandedSections. rewrite Nat.eqb_eq.
  destruct (init_length (map s_start sections) [] (NoDup_nil_2)) as [_ Heq].
  rewrite length_map in Heq. simpl in Heq. by rewrite Heq, map_map.
Qed.

(** The keys of the store are those of a fresh initialisation for the
    transcript shown. *)
Definition accordion_inv (st : option Transcription * expanded_sections) : Prop :=
  map fst st.2 = map fst (initializeExpandedSections b (map s_start (sections_of st.1))).

Lemma toggleSection_keys (sec : Section_) (sections : list Section_) (m : expanded_sections) :
  map fst m = map fst (initializeExpandedSections b (map s_start sections)) -> In sec sections ->
  map fst (toggleExpandedSection (s_start sec) m) = map fst m.
Proof.
  intros Hm Hin. apply amap_set_keys_in. rewrite Hm.
  apply (proj2 (initializeExpandedSections_keys _)). apply list_elem_of_In, in_map, in_map, Hin.
Qed.

Lemma accordion_step_inv (st : option Transcription * expanded_sections) (e : accordion_event) :
  accordion_inv st -> accordion_inv (accordion_step b st e).
Proof.
  unfold accordion_inv. intros Hinv. destruct e as [t|i]; simpl; [done|].
  destruct (accordionsInitialized _ _); simpl; [|done].
  destruct (sections_of st.1 !! i) as [sec|] eqn:E; [|done]. simpl.
  rewrite <- Hinv. apply (toggleSection_keys _ (sections_of st.1)); [done|]. by apply list_elem_of_lookup_2, list_elem_of_In in E.
Qed.

Lemma run_accordions_inv (es : list accordion_event) : accordion_inv (run_accordions b (None, []) es).
Proof. unfold run_accordions. apply fold_left_inv; [exact accordion_step_inv|done]. Qed.

Lemma accordion_inv_initialized (st : option Transcription * expanded_sections) :
  accordion_inv st ->
  accordionsInitialized st.2 (sections_of st.1) = true <-> NoDup (map (fun sec => js_key (s_start sec)) (sections_of st.1)).
Proof.
  intros Hinv. rewrite <- initialized_iff_distinct. unfold accordionsInitialized.
  by rewrite <- (length_map fst st.2), Hinv, length_map.
Qed.

Lemma render_paragraphs (transcript : option Transcription) (m : expanded_sections) (ov : bool) (v : panel_view) :
  panel_render transcript m ov = Some v ->
  concat (map av_paragraphs (pv_accordions v)) = panel_paragraphs (sections_of transcript).
Proof.
  unfold panel_render. destruct (accordionsInitialized _ _); simpl; [|done]. intros [= <-]. simpl.
  by rewrite map_map.
Qed.

End AccordionLemmas.

Section PanelClaims.
Context (startParam : option Q).

(** C18. Auto-scroll is turned off only by a scroll event the
    listeners handle while the player plays, that is not programmatic, and
    that comes within 280 ms of a pointer, wheel or touch event of the
    trace (the clock, [Date.now()], is past 280 ms). *)
Theorem autoscroll_off_only_by_user_scroll (tr : list panel_event) (e : panel_event) :
  (forall now, e = ScrollEvent now -> (USER_SCROLL_WINDOW_MS < now)%Z) ->
  isCurrentTimeOutOfView (run_panel startParam panel_init tr) = false ->
  isCurrentTimeOutOfView (panel_step startParam (run_panel startParam panel_init tr) e) = true ->
  exists now u, e = ScrollEvent now /\ In (UserInteraction u) tr /\ (now - u <= USER_SCROLL_WINDOW_MS)%Z /\
    isPlaying (run_panel startParam panel_init tr) = true /\
    isProgrammaticScroll (run_panel startParam panel_init tr) = false.
Proof.
  intros Hclock Hoff Hon.
  destruct (panel_step_out_of_view startParam _ e Hoff Hon) as (now & -> & Hl & Hp & Hw).
  destruct (run_panel_invariant startParam tr) as [Hpl Hts]. specialize (Hclock now eq_refl).
  destruct Hts as [H0|Hin]; [rewrite H0 in Hw; unfold USER_SCROLL_WINDOW_MS in *; lia|].
  exists now, (lastUserInteractionTs (run_panel startParam panel_init tr)). split_and!; auto.
Qed.

(** C19. A click on [Resume Auto-Scroll] at a playback time that lies
    in a paragraph of a transcript whose paragraphs are in time order
    scrolls that paragraph and no other into view, clears the target time,
    turns auto-scroll back on, and raises the programmatic-scroll flag for
    the scroll it causes. *)
Theorem resume_scrolls_current_paragraph (s : panel_state) (sections : list Section_) (p : Paragraph) (t : Q) :
  areAccordionsInitialized s = true -> isCurrentTimeOutOfView s = true ->
  paragraphs_timed (panel_paragraphs sections) -> In p (panel_paragraphs sections) -> in_paragraph p t = true ->
  let s1 := panel_step startParam s (ResumeClick t) in
  let es := target_effects (targetScrollTime s1) (panel_paragraphs sections) in
  let s2 := apply_effects s1 es in
  scrolled es = [p_start p] /\ targetScrollTime s2 = None /\
  isCurrentTimeOutOfView s2 = false /\ isProgrammaticScroll s2 = true.
Proof.
  intros Hai Hov Ht Hp Hin. destruct s as [pl ov tg pr ai li ts]; simpl in Hai, Hov; subst.
  cbv zeta. unfold panel_step, resumeAutoScroll; simpl. rewrite apply_target_effects, target_effects_scrolled.
  rewrite (filter_in_paragraph_unique _ p t Ht Hp Hin).
  assert (Hex : existsb (fun q => in_paragraph q t) (panel_paragraphs sections) = true)
    by (apply existsb_exists; eauto).
  by rewrite Hex.
Qed.
End PanelClaims.

Section AccordionClaims.
Context (initiallyExpanded : bool).

(** C20. Whatever transcripts were loaded and accordions clicked, the panel
    renders exactly when the sections of the transcript shown start at
    pairwise distinct times: the count of [expandedSections]' keys equals
    the count of sections only then, and otherwise the panel renders
    nothing, for good. *)
Theorem panel_shown_iff_distinct_starts (es : list accordion_event) (ov : bool) :
  let st := run_accordions initiallyExpanded (None, []) es in
  is_Some (panel_render st.1 st.2 ov) <-> NoDup (map (fun sec => js_key (s_start sec)) (sections_of st.1)).
Proof.
  cbv zeta. rewrite <- (accordion_inv_initialized initiallyExpanded) by apply run_accordions_inv.
  unfold panel_render. destruct (accordionsInitialized _ _); simpl; split; intros H; try done; by destruct H.
Qed.

(** C21. A click on the [i]-th accordion of a shown panel expands it if it
    was collapsed and collapses it if it was expanded, and leaves every
    other section's accordion as it was, the panel still shown. *)
Theorem accordion_click_toggles_only_clicked (es : list accordion_event) (i : nat) (sec : Section_) :
  let st := run_accordions initiallyExpanded (None, []) es in
  accordionsInitialized st.2 (sections_of st.1) = true -> sections_of st.1 !! i = Some sec ->
  let st' := accordion_step initiallyExpanded st (AccordionClick i) in
  st'.1 = st.1 /\ accordionsInitialized st'.2 (sections_of st'.1) = true /\
  isExpanded st'.2 sec = negb (isExpanded st.2 sec) /\
  forall j sec', j <> i -> sections_of st.1 !! j = Some sec' -> isExpanded st'.2 sec' = isExpanded st.2 sec'.
Proof.
  cbv zeta. set (st := run_accordions initiallyExpanded (None, []) es). intros Hini Hi.
  pose proof (run_accordions_inv initiallyExpanded es) as Hinv. fold st in Hinv.
  pose proof (proj1 (accordion_inv_initialized initiallyExpanded st Hinv) Hini) as Hnd.
  unfold accordion_step. rewrite Hini, Hi. simpl. split_and!; [done| | |].
  - refine (proj2 (accordion_inv_initialized initiallyExpanded (st.1, toggleExpandedSection (s_start sec) st.2) _) Hnd).
    unfold accordion_inv. simpl. rewrite <- Hinv. apply (toggleSection_keys initiallyExpanded _ (sections_of st.1)); [done|].
    by apply list_elem_of_In, (list_elem_of_lookup_2 _ i).
  - unfold isExpanded, toggleExpandedSection. by rewrite amap_get_set, decide_True.
  - intros j sec' Hji Hj. unfold isExpanded, toggleExpandedSection. rewrite amap_get_set, decide_False; [done|].
    intros Heq. apply Hji. exact (NoDup_map_lookup _ _ _ _ _ _ Hnd Hj Hi Heq).
Qed.
End AccordionClaims.

(** C22. With a semantic match selected whose start and end times are known
    and whose start lies in paragraph [p] of the panel's time-ordered
    paragraphs, the debug effect of [p], and of no other paragraph, logs
    at every playback time [t], with [t] in the log: each time update of
    the player prints the object again. *)
Theorem debug_log_each_tick (round3 : Q -> Q) (i : Z) (ms : list wobj) (m : wobj) (s e : Q)
    (sections : list Section_) (p : Paragraph) (t : Q) :
  paragraphs_timed (panel_paragraphs sections) -> In p (panel_paragraphs sections) ->
  currentSemanticMatch i ms = Some m -> start_time (properties m) = Some s -> end_time (properties m) = Some e ->
  in_paragraph p s = true ->
  List.filter (fun q => bool_decide (is_Some (debugScoreLog round3 DEBUG_TRANSCRIPT_MATCH i ms t q (p_words q))))
    (panel_paragraphs sections) = [p] /\
  exists l, debugScoreLog round3 DEBUG_TRANSCRIPT_MATCH i ms t p (p_words p) = Some l /\ sl_currentTime l = t.
Proof.
  intros Ht Hp Hm Hs He Hin. split.
  - rewrite <- (filter_in_paragraph_unique _ p s Ht Hp Hin). apply filter_ext. intros q.
    pose proof (debugScoreLog_is_Some round3 i ms m s e t q (p_words q) Hm Hs He) as Hq.
    destruct (in_paragraph q s); [by apply bool_decide_eq_true, Hq|apply bool_decide_eq_false; by intros ?%Hq].
  - destruct (proj2 (debugScoreLog_is_Some round3 i ms m s e t p (p_words p) Hm Hs He) Hin) as [l Hl].
    exists l. split; [done|]. apply currentSemanticMatch_Some in Hm as [Hi Hm']. revert Hl.
    unfold debugScoreLog. cbn [DEBUG_TRANSCRIPT_MATCH negb]. rewrite Hi, Hm', Hs, He, Hin. by intros [= <-].
Qed.

Lemma debug_log_each_tick_witness :
  let p := mkParagraph 0 10 "A" [mkTWord (Some "hi") 2 3] in
  let m := mkObj (Some "c") None (mkProps None (Some 2) (Some 3) [] [] None None None None None) (mkMeta None None None None None None) in
  List.filter (fun q => bool_decide (is_Some (debugScoreLog (fun x => x) DEBUG_TRANSCRIPT_MATCH 0 [m] 5 q (p_words q))))
    (panel_paragraphs [mkSection "S" "" 0 [p; mkParagraph 10 20 "B" []]]) = [p] /\
  exists l, debugScoreLog (fun x => x) DEBUG_TRANSCRIPT_MATCH 0 [m] 5 p (p_words p) = Some l /\ sl_currentTime l = 5.
Proof.
  intros p m. apply (debug_log_each_tick _ 0 [m] m 2 3); try reflexivity.
  - split; repeat constructor; vm_compute; discriminate.
  - left. reflexivity.
Defined.

Lemma autoscroll_off_only_by_user_scroll_witness :
  exists now u, ScrollEvent 1100 = ScrollEvent now /\
    In (UserInteraction u) [AccordionsInitialized; PlayingChanged true; UserInteraction 1000] /\
    (now - u <= USER_SCROLL_WINDOW_MS)%Z /\
    isPlaying (run_panel None panel_init [AccordionsInitialized; PlayingChanged true; UserInteraction 1000]) = true /\
    isProgrammaticScroll (run_panel None panel_init [AccordionsInitialized; PlayingChanged true; UserInteraction 1000]) = false.
Proof.
  apply (autoscroll_off_only_by_user_scroll None _ (ScrollEvent 1100)).
  - intros now [= <-]. vm_compute. reflexivity.
  - vm_compute. reflexivity.
  - vm_compute. reflexivity.
Defined.

Lemma resume_scrolls_current_paragraph_witness :
  let s := mkPanel true true None false true false 0 in
  let sections := [mkSection "Intro" "" 0 [mkParagraph 0 5 "A" []; mkParagraph 5 9 "B" []]] in
  let s1 := panel_step None s (ResumeClick 6) in
  let es := target_effects (targetScrollTime s1) (panel_paragraphs sections) in
  let s2 := apply_effects s1 es in
  scrolled es = [p_start (mkParagraph 5 9 "B" [])] /\ targetScrollTime s2 = None /\
  isCurrentTimeOutOfView s2 = false /\ isProgrammaticScroll s2 = true.
Proof.
  apply (resume_scrolls_current_paragraph None _ _ (mkParagraph 5 9 "B" []) 6); [reflexivity|reflexivity| | |reflexivity].
  - split; repeat constructor; vm_compute; discriminate.
  - simpl. auto.
Defined.

(** A resume at a playback time in no paragraph (in a gap, or at the end of
    the last paragraph, which [paragraph.end] excludes) scrolls nothing and
    leaves the target time set. *)
Example resume_outside_paragraphs_keeps_target :
  let s := mkPanel false true None false true false 0 in
  let ps := [mkParagraph 0 5 "A" []; mkParagraph 5 9 "B" []] in
  let s1 := panel_step None s (ResumeClick 9) in
  scrolled (target_effects (targetScrollTime s1) ps) = [] /\
  targetScrollTime (apply_effects s1 (target_effects (targetScrollTime s1) ps)) = Some 9.
Proof. split; reflexivity. Qed.

(** When playback is already on as the panel first renders, the listener
    effect runs while the panel renders nothing, finds no scroll container
    and attaches no listener; initialising the accordions does not re-run
    it, so a user's scroll does not stop auto-scroll until [isPlaying]
    changes.  In the other order the same scroll stops it. *)
Example playing_before_initialised_ignores_user_scroll :
  isCurrentTimeOutOfView (run_panel None panel_init
    [PlayingChanged true; AccordionsInitialized; UserInteraction 1000; ScrollEvent 1100]) = false /\
  isCurrentTimeOutOfView (run_panel None panel_init
    [AccordionsInitialized; PlayingChanged true; UserInteraction 1000; ScrollEvent 1100]) = true.
Proof. split; reflexivity. Qed.

Definition two_sections : Transcription :=
  mkTranscription [mkSection "Intro" "Synopsis A" 0 [mkParagraph 0 5 "A" []]; mkSection "War" "Synopsis B" 5 [mkParagraph 5 9 "B" []]].

Lemma accordion_click_toggles_only_clicked_witness :
  let st := run_accordions false (None, []) [TranscriptChanged (Some two_sections)] in
  let st' := accordion_step false st (AccordionClick 1) in
  isExpanded st'.2 (mkSection "War" "Synopsis B" 5 [mkParagraph 5 9 "B" []]) = true /\
  isExpanded st'.2 (mkSection "Intro" "Synopsis A" 0 [mkParagraph 0 5 "A" []]) = false.
Proof.
  cbv zeta. destruct (accordion_click_toggles_only_clicked false [TranscriptChanged (Some two_sections)] 1
              (mkSection "War" "Synopsis B" 5 [mkParagraph 5 9 "B" []])) as (_ & _ & H1 & H2);
    [vm_compute; reflexivity|reflexivity|].
  split; [rewrite H1; vm_compute; reflexivity|].
  rewrite (H2 0%nat (mkSection "Intro" "Synopsis A" 0 [mkParagraph 0 5 "A" []])); [vm_compute; reflexivity|lia|reflexivity].
Defined.

(** Two sections whose start times are the same number, written [0] and
    [0/2] here, give one key: the panel renders nothing, after the load and
    after any click. *)
Example duplicate_starts_never_shown :
  let t := mkTranscription [mkSection "A" "" 0 []; mkSection "B" "" (0 # 2) []] in
  panel_render (run_accordions true (None, []) [TranscriptChanged (Some t)]).1
               (run_accordions true (None, []) [TranscriptChanged (Some t)]).2 false = None /\
  panel_render (run_accordions true (None, []) [TranscriptChanged (Some t); AccordionClick 0]).1
               (run_accordions true (None, []) [TranscriptChanged (Some t); AccordionClick 0]).2 true = None.
Proof. split; vm_compute; reflexivity. Qed.

