(* ===== verification/StoryPage.v ===== *)
(** * StoryPage: the story page's container

    [src/app/story/[storyUuid]/Components/StoryContainer.tsx] loads the
    transcript of the story in the URL and lays out the player, the
    transcript panel and the metadata.  Its mount effect (37-61) selects the
    in-transcript search, clears its [hasCompletedInitialFetch] flag and
    calls the store's [getStoryTranscriptByUuid]; when that promise
    settles, the flag is set, but only while the run's [isMounted] is
    still true.  The cleanup, run when the story changes or the page
    unmounts, clears [isMounted] and calls [clearStore].  Once a transcript
    is loaded, a second effect (64-96) applies the URL parameters: [start]
    seeks the player and sets the transcript's target time, [nerLabel]
    selects one label, and [nerFilters] merges a comma-separated list into
    the selected labels.

    The page world [page_world] pairs the store of Store.v with the
    container's own state and the fetches in flight, each tagged with the
    effect run that started it; [pw_step] is one event: a run for a story,
    the page unmounting, or one fetch settling, through Store's
    [resolve].  The player and transcript-panel stores are not under
    [src/]: their calls are outputs ([player_call]); [parseFloat] is a
    parameter. *)

From Stdlib Require Import Ascii.
From S2P Require Import Prelude Filters Backend Collections Store.

Local Open Scope Q_scope.
Local Open Scope portal_scope.

(** The calls the URL effect makes outside the semantic-search store. *)
Inductive player_call :=
  | PlayerSeekTo (t : Q)
  | PanelSetTargetScrollTime (t : Q).

Section UrlParams.
Context (PAGINATION_ITEMS_PER_PAGE : nat).
(** [parseFloat], [None] for [NaN]. *)
Context (parseFloat : string -> option Q).

(** The [start] parameter (67, 71-77). *)
Definition startTimeCalls (startTime : option string) : list player_call :=
  match startTime with
  | Some str =>
      if js_truthy str then
        match parseFloat str with
        | Some time => [PlayerSeekTo time; PanelSetTargetScrollTime time]
        | None => []
        end
      else []
  | None => []
  end.

(** The [nerLabel] parameter (80-85): the store is read again with
    [getState()]. *)
Definition nerLabelParam (nerLabel : option string) (s : store) : store :=
  match nerLabel with
  | Some l =>
      if js_truthy l && negb (existsb (String.eqb l) (selected_ner_labels s))
      then fst (dispatch PAGINATION_ITEMS_PER_PAGE (A_setUpdateSelectedNerLabel l) s) else s
  | None => s
  end.

(** [nerFilters.split(',').map(filter => filter.trim())] (89) *)
Definition filterArray (nerFilters : string) : list string :=
  map js_trim (js_split ","%char nerFilters).

(** The [nerFilters] parameter (88-95). *)
Definition nerFiltersParam (nerFilters : option string) (s : store) : store :=
  match nerFilters with
  | Some f =>
      if js_truthy f then
        let mergedLabels := js_set_from [] (selected_ner_labels s ++ filterArray f) in
        fst (dispatch PAGINATION_ITEMS_PER_PAGE (A_setSelectedNerLabels mergedLabels) s)
      else s
  | None => s
  end.

(** The URL effect (64-96), on the store it runs against: nothing before
    a transcript is loaded. *)
Definition urlParamsEffect (startTime nerLabel nerFilters : option string) (s : store)
    : store * list player_call :=
  match transcript s with
  | None => (s, [])
  | Some _ => (nerFiltersParam nerFilters (nerLabelParam nerLabel s), startTimeCalls startTime)
  end.
End UrlParams.

(** ** The mount effect and the fetches in flight *)

Record page_world := mkPageWorld {
  pw_store : store;
  (** the fetches in flight: the effect run that started each, and its story *)
  pw_inflight : list (nat * string);
  (** the number of the current effect run, and its story *)
  pw_run : nat;
  pw_storyUuid : string;
  (** the current run's [isMounted] *)
  pw_isMounted : bool;
  hasCompletedInitialFetch : bool
}.

Inductive story_page_event :=
  | ShowStory (storyUuid : string)
  | Unmount
  | Settle (i : nat).

Section Page.
Context (PAGINATION_ITEMS_PER_PAGE : nat).
Context `{Datastore} `{FileSystem}.
Context (localeCompare : string -> string -> Z) (parseTranscription : string -> option Transcription).

(** The effect's cleanup (57-60). *)
Definition page_cleanup (w : page_world) : page_world :=
  if pw_isMounted w then
    mkPageWorld (fst (dispatch PAGINATION_ITEMS_PER_PAGE A_clearStore (pw_store w))) (pw_inflight w)
      (pw_run w) (pw_storyUuid w) false (hasCompletedInitialFetch w)
  else w.

(** A run of the mount effect (37-56): [setSearchType], the flag cleared,
    and the fetch, which sets [loading] and stays in flight. *)
Definition page_effect (storyUuid : string) (w : page_world) : page_world :=
  let s1 := fst (dispatch PAGINATION_ITEMS_PER_PAGE (A_setSearchType SearchType_traditional) (pw_store w)) in
  let s2 := fst (dispatch PAGINATION_ITEMS_PER_PAGE (A_getStoryTranscriptByUuid storyUuid) s1) in
  mkPageWorld s2 (pw_inflight w ++ [(S (pw_run w), storyUuid)]) (S (pw_run w)) storyUuid true false.

(** A fetch settling: the store's continuation, then the [finally] of
    [loadTranscript] (48-52) for the run that started it. *)
Definition page_settle (run : nat) (storyUuid : string) (rest : list (nat * string)) (w : page_world) : page_world :=
  let s := resolve localeCompare parseTranscription (R_getStoryTranscriptByUuid storyUuid) (pw_store w) in
  let isMounted := Nat.eqb run (pw_run w) && pw_isMounted w in
  mkPageWorld s rest (pw_run w) (pw_storyUuid w) (pw_isMounted w)
    (if isMounted then true else hasCompletedInitialFetch w).

Definition pw_step (w : page_world) (e : story_page_event) : page_world :=
  match e with
  | ShowStory storyUuid =>
      if pw_isMounted w && String.eqb storyUuid (pw_storyUuid w) then w
      else page_effect storyUuid (page_cleanup w)
  | Unmount => page_cleanup w
  | Settle i =>
      match pw_inflight w !! i with
      | Some (run, storyUuid) => page_settle run storyUuid (delete i (pw_inflight w)) w
      | None => w
      end
  end.

Definition run_page (w : page_world) (es : list story_page_event) : page_world := fold_left pw_step es w.
End Page.

(** The page before its first render. *)
Definition page_init (s : store) : page_world := mkPageWorld s [] 0 "" false false.

(** What the container renders (102-130). *)
Inductive page_view :=
  | Spinner
  | NoTranscript
  | ShowTranscript (t : Transcription).

Definition page_render (w : page_world) : page_view :=
  if loading (pw_store w) || negb (hasCompletedInitialFetch w) then Spinner else
  match transcript (pw_store w) with
  | None => NoTranscript
  | Some t => ShowTranscript t
  end.

(** ** Properties *)

Section PageProps.
Context (PAGINATION_ITEMS_PER_PAGE : nat).
Context `{Datastore} `{FileSystem}.
Context (localeCompare : string -> string -> Z) (parseTranscription : string -> option Transcription).

Notation step := (pw_step PAGINATION_ITEMS_PER_PAGE localeCompare parseTranscription).
Notation prun := (run_page PAGINATION_ITEMS_PER_PAGE localeCompare parseTranscription).

(** The fetches in flight are tagged with past runs, once each, and the
    flag is set only when none of them belongs to the current run. *)
Definition page_inv (w : page_world) : Prop :=
  (forall e, e ∈ pw_inflight w -> (e.1 <= pw_run w)%nat) /\
  NoDup (fst <$> pw_inflight w) /\
  (hasCompletedInitialFetch w = true -> forall e, e ∈ pw_inflight w -> e.1 <> pw_run w).

Lemma page_inv_init (s : store) : page_inv (page_init s).
Proof. split_and!; [set_solver|constructor|done]. Qed.

Lemma page_inv_cleanup (w : page_world) : page_inv w -> page_inv (page_cleanup PAGINATION_ITEMS_PER_PAGE w).
Proof. unfold page_cleanup. by destruct (pw_isMounted w). Qed.

Lemma page_inv_effect (storyUuid : string) (w : page_world) :
  page_inv w -> page_inv (page_effect PAGINATION_ITEMS_PER_PAGE storyUuid w).
Proof.
  intros (Hle & Hnd & _). unfold page_effect, page_inv; simpl. split_and!.
  - intros e [He|He%list_elem_of_singleton]%elem_of_app; [specialize (Hle e He); lia|subst e; simpl; lia].
  - rewrite fmap_app. apply NoDup_app. split_and!; [done| |apply NoDup_singleton].
    intros r Hr Hr'%list_elem_of_singleton. subst r. apply list_elem_of_fmap in Hr as [e [Hre He]].
    specialize (Hle e He). simpl in *. lia.
  - done.
Qed.

Lemma page_inv_settle (i run : nat) (storyUuid : string) (w : page_world) :
  page_inv w -> pw_inflight w !! i = Some (run, storyUuid) ->
  page_inv (page_settle localeCompare parseTranscription run storyUuid (delete i (pw_inflight w)) w).
Proof.
  intros (Hle & Hnd & Hdone) Hi. unfold page_settle, page_inv; simpl.
  pose proof (delete_Permutation _ _ _ Hi) as Hp.
  assert (Hnd' : NoDup (fst <$> (run, storyUuid) :: delete i (pw_inflight w))) by by rewrite <- Hp.
  apply NoDup_cons in Hnd' as [Hnotin Hnd'].
  assert (Hsub : forall e, e ∈ delete i (pw_inflight w) -> e ∈ pw_inflight w)
    by (intros e; apply list_elem_of_delete_inv).
  split_and!; [intros e He; by apply Hle, Hsub|exact Hnd'|].
  destruct (Nat.eqb run (pw_run w) && pw_isMounted w) eqn:Ecur.
  - intros _ e He Hrun. apply andb_prop in Ecur as [Erun%Nat.eqb_eq _]. subst run.
    apply Hnotin, list_elem_of_fmap. by exists e.
  - intros Hd e He. by apply Hdone, Hsub.
Qed.

Lemma page_inv_step (w : page_world) (e : story_page_event) : page_inv w -> page_inv (step w e).
Proof.
  intros Hw. destruct e as [u| |i]; simpl.
  - case_match; [done|]. by apply page_inv_effect, page_inv_cleanup.
  - by apply page_inv_cleanup.
  - destruct (pw_inflight w !! i) as [[run u]|] eqn:Hi; [by apply page_inv_settle|done].
Qed.

(** C23. On every sequence of story changes, unmounts and fetch
    settlements, the story page leaves its spinner ([hasCompletedInitialFetch])
    only after the fetch started by its current effect run has settled:
    a late fetch of an earlier run never ends the wait. *)
Theorem page_done_only_after_own_fetch (s0 : store) (es : list story_page_event) :
  let w := prun (page_init s0) es in
  hasCompletedInitialFetch w = true -> forall e, e ∈ pw_inflight w -> e.1 <> pw_run w.
Proof.
  cbv zeta. assert (Hinv : page_inv (prun (page_init s0) es)).
  { unfold run_page. generalize (page_init s0) (page_inv_init s0).
    induction es as [|e es IH]; intros w Hw; [done|]. simpl. by apply IH, page_inv_step. }
  apply Hinv.
Qed.
End PageProps.

Section UrlProps.
Context (PAGINATION_ITEMS_PER_PAGE : nat) (parseFloat : string -> option Q).

Lemma nerLabelParam_labels (l : string) (s : store) (x : string) :
  x ∈ selected_ner_labels (nerLabelParam PAGINATION_ITEMS_PER_PAGE (Some l) s) <->
  x ∈ selected_ner_labels s \/ (x = l /\ js_truthy l = true).
Proof.
  unfold nerLabelParam. destruct (js_truthy l) eqn:Hl; simpl; [|naive_solver].
  destruct (existsb (String.eqb l) (selected_ner_labels s)) eqn:E; simpl.
  - apply existsb_exists in E as [y [Hy ->%String.eqb_eq]]. apply list_elem_of_In in Hy. naive_solver.
  - unfold toggle_label. rewrite bool_decide_false.
    + rewrite elem_of_app, list_elem_of_singleton. naive_solver.
    + intros Hin%list_elem_of_In. assert (existsb (String.eqb l) (selected_ner_labels s) = true)
        by (apply existsb_exists; exists l; by rewrite String.eqb_refl). congruence.
Qed.

(** With a transcript loaded, the URL's [nerLabel] and [nerFilters]
    leave the selected labels without duplicates, holding exactly the
    labels selected before, the [nerLabel] when it is non-empty, and every
    trimmed piece of the comma-separated [nerFilters]. *)
Theorem urlParamsEffect_labels (startTime : option string) (l f : string) (s : store) (t : Transcription) :
  transcript s = Some t -> js_truthy f = true ->
  let labels := selected_ner_labels (fst (urlParamsEffect PAGINATION_ITEMS_PER_PAGE parseFloat startTime (Some l) (Some f) s)) in
  NoDup labels /\
  forall x, x ∈ labels <-> x ∈ selected_ner_labels s \/ (x = l /\ js_truthy l = true) \/ x ∈ filterArray f.
Proof.
  intros Ht Hf. unfold urlParamsEffect. rewrite Ht. cbn [fst]. unfold nerFiltersParam. rewrite Hf.
  cbn [dispatch fst]. unfold set_selected_ner_labels. cbn [selected_ner_labels].
  split; [apply js_set_from_NoDup; constructor|].
  intros x. rewrite js_set_from_elem, elem_of_app, nerLabelParam_labels. set_solver.
Qed.
End UrlProps.

Section StaleTranscript.
Context (PAGINATION_ITEMS_PER_PAGE : nat).
Context `{Datastore} `{FileSystem}.
Context (localeCompare : string -> string -> Z) (parseTranscription : string -> option Transcription).

(** C24. Switching from story [a] to story [b] while [a]'s transcript
    is still loading: when [b]'s fetch settles first and [a]'s after it,
    the page of [b] leaves its spinner and shows [a]'s transcript.  The
    run's [isMounted] guards only the page's own flag; the store takes
    whichever fetch settles last. *)
Theorem stale_transcript_shown (s0 : store) (a b : string) (ra : option wobj) (ta : Transcription) :
  a <> b ->
  fst (run (getStoryTranscript_body parseTranscription a)) = Ok (ra, Some ta) ->
  let w := run_page PAGINATION_ITEMS_PER_PAGE localeCompare parseTranscription (page_init s0)
             [ShowStory a; ShowStory b; Settle 1; Settle 0] in
  pw_storyUuid w = b /\ page_render w = ShowTranscript ta.
Proof.
  intros Hab Ha. cbn -[resolve dispatch]. rewrite (proj2 (String.eqb_neq b a)) by congruence. cbn -[resolve dispatch].
  split; [done|]. unfold page_render, page_settle, page_effect. cbn -[resolve dispatch].
  set (sb := resolve _ _ (R_getStoryTranscriptByUuid b) _). clearbody sb.
  unfold resolve. rewrite Ha. by destruct sb.
Qed.
End StaleTranscript.

(** ** Witnesses *)

(** Two recordings whose transcripts parse to one section titled after them. *)
Definition two_stories_ds : Datastore :=
  memstore (fun c => match c with
                     | Chunks => []
                     | Testimonies =>
                         [mkObj (Some "a") None (mkProps (Some "a") None None [] [] None None None None (Some "A")) no_meta;
                          mkObj (Some "b") None (mkProps (Some "b") None None [] [] None None None None (Some "B")) no_meta]
                     end)
    (fun _ => EmbedOk []) (fun _ l => l) (fun _ l => l).

Definition title_transcript (json : string) : option Transcription := Some (mkTranscription [mkSection json "" 0 []]).

Lemma stale_transcript_shown_witness :
  let w := @run_page 12 two_stories_ds sample_fs (fun _ _ => 0%Z) title_transcript (page_init initial_store)
             [ShowStory "a"; ShowStory "b"; Settle 1; Settle 0] in
  pw_storyUuid w = "b" /\ page_render w = ShowTranscript (mkTranscription [mkSection "A" "" 0 []]).
Proof.
  apply (@stale_transcript_shown 12 two_stories_ds sample_fs _ title_transcript initial_store "a" "b"
           (Some (mkObj (Some "a") None (mkProps (Some "a") None None [] [] None None None None (Some "A")) no_meta)));
    [discriminate|reflexivity].
Defined.

Lemma page_done_only_after_own_fetch_witness :
  let w := @run_page 12 two_stories_ds sample_fs (fun _ _ => 0%Z) title_transcript (page_init initial_store)
             [ShowStory "a"; ShowStory "b"; Settle 1] in
  hasCompletedInitialFetch w = true /\ forall e, e ∈ pw_inflight w -> e.1 <> pw_run w.
Proof.
  intros w. assert (Hd : hasCompletedInitialFetch w = true) by reflexivity.
  split; [exact Hd|]. exact (@page_done_only_after_own_fetch 12 two_stories_ds sample_fs _ title_transcript
                               initial_store _ Hd).
Defined.

Lemma urlParamsEffect_labels_witness :
  let s := set_transcript (Some (mkTranscription [])) initial_store in
  transcript s = Some (mkTranscription []) /\ js_truthy "PERSON, GPE" = true /\
  let labels := selected_ner_labels (fst (urlParamsEffect 12 (fun _ => None) None (Some "LOC") (Some "PERSON, GPE") s)) in
  NoDup labels /\
  forall x, x ∈ labels <-> x ∈ selected_ner_labels s \/ (x = "LOC" /\ js_truthy "LOC" = true) \/ x ∈ filterArray "PERSON, GPE".
Proof.
  intros s. assert (Ht : transcript s = Some (mkTranscription [])) by reflexivity.
  assert (Hf : js_truthy "PERSON, GPE" = true) by reflexivity.
  split; [exact Ht|]. split; [exact Hf|]. exact (urlParamsEffect_labels 12 (fun _ => None) None "LOC" _ s _ Ht Hf).
Defined.
