(* ===== verification/Links.v ===== *)
(** * Links: how one page opens another at a time and with labels

    The indexes page's list and horizontal views link every chapter to its
    story at the chapter's start
    ([src/components/IndexesListView.tsx] 110,
    [src/components/IndexesHorizontalView.tsx] 118), and the entity modal
    opens a mention of another recording at its time with its label
    ([handleCollectionClick] of
    [src/app/story/[storyUuid]/Components/NerEntityModal.tsx], 358-364).
    The story page reads the route's [storyUuid] and the [start],
    [nerLabel] and [nerFilters] parameters back (StoryPage.v).

    The links are template literals: [String(x)] of a number is the
    parameter [numberToString], and an [undefined] field prints as
    ["undefined"].  Reading them back goes through the URL standard, which
    is not under [src/] and is modelled from it: the fragment is cut at
    ['#'], the query starts after the first ['?'], [URLSearchParams] splits
    it at ['&'] and each pair at its first ['='] and form-decodes names and
    values (['+'] is a space, ['%XX'] a byte), and Next.js percent-decodes
    the route segment. *)

From Stdlib Require Import Ascii.
From S2P Require Import Prelude Filters Store Indexes StoryPage.

Local Open Scope Q_scope.

(** ** The URL standard *)

(** The text before the first [c], and the text after it if there is one. *)
Fixpoint break_at (c : ascii) (l : list ascii) : list ascii * option (list ascii) :=
  match l with
  | [] => ([], None)
  | x :: r => if Ascii.eqb x c then ([], Some r) else let '(a, b) := break_at c r in (x :: a, b)
  end.

Definition hex_value (c : ascii) : option nat :=
  let n := nat_of_ascii c in
  if (48 <=? n)%nat && (n <=? 57)%nat then Some (n - 48)%nat
  else if (65 <=? n)%nat && (n <=? 70)%nat then Some (n - 55)%nat
  else if (97 <=? n)%nat && (n <=? 102)%nat then Some (n - 87)%nat
  else None.

(** Percent-decoding: ['%XX'] with two hex digits is the byte [XX]. *)
Fixpoint percent_decode (l : list ascii) : list ascii :=
  match l with
  | [] => []
  | c :: r =>
      if Ascii.eqb c "%" then
        match r with
        | h1 :: h2 :: r' =>
            match hex_value h1, hex_value h2 with
            | Some a, Some b => ascii_of_nat (16 * a + b) :: percent_decode r'
            | _, _ => c :: percent_decode r
            end
        | _ => c :: percent_decode r
        end
      else c :: percent_decode r
  end.

(** application/x-www-form-urlencoded decoding of a name or a value. *)
Definition form_decode (l : list ascii) : list ascii :=
  percent_decode (map (fun c => if Ascii.eqb c "+" then " "%char else c) l).

(** [new URLSearchParams(query)]: the name-value pairs in order, empty
    pieces skipped. *)
Definition parse_piece (piece : list ascii) : option (string * string) :=
  match piece with
  | [] => None
  | _ => let '(name, value) := break_at "=" piece in
         Some (String.string_of_list_ascii (form_decode name), String.string_of_list_ascii (form_decode (default [] value)))
  end.

Definition search_params (query : list ascii) : list (string * string) :=
  omap parse_piece (split_chars "&" query).

(** [searchParams.get(name)]: the value of the first pair with that name. *)
Definition search_param_get (params : list (string * string)) (name : string) : option string :=
  snd <$> List.find (fun p => String.eqb p.1 name) params.

(** A relative URL without its fragment, and its path and query. *)
Definition url_chars (url : string) : list ascii := fst (break_at "#" (String.list_ascii_of_string url)).
Definition url_path (url : string) : list ascii := fst (break_at "?" (url_chars url)).
Definition url_query (url : string) : list ascii := default [] (snd (break_at "?" (url_chars url))).

(** [useSearchParams().get(name)] on the page the URL opens. *)
Definition searchParams_get (url : string) (name : string) : option string :=
  search_param_get (search_params (url_query url)) name.

(** The [storyUuid] of the route [/story/[storyUuid]]: one non-empty
    segment, percent-decoded. *)
Definition story_route (url : string) : option string :=
  let path := url_path url in
  let prefix := String.list_ascii_of_string "/story/" in
  if ascii_prefix prefix path then
    let seg := drop (length prefix) path in
    if existsb (Ascii.eqb "/") seg || bool_decide (seg = []) then None
    else Some (String.string_of_list_ascii (percent_decode seg))
  else None.

(** ** The links of the source *)

Section Links.
(** [String(x)] for a number. *)
Context (numberToString : Q -> string).

(** The template literal of an optional field. *)
Definition tmpl_opt {A} (show : A -> string) (o : option A) : string :=
  match o with Some x => show x | None => "undefined" end.

(** A chapter's link in the list and horizontal views. *)
Definition chapterLink (story : IndexesStory) (ch : IndexChapter) : string :=
  "/story/" +:+ is_uuid story +:+ "?start=" +:+ numberToString (ic_start_time ch).

(** A story's own link in the two views (71 and 79). *)
Definition storyLink (story : IndexesStory) : string := "/story/" +:+ is_uuid story.

(** [handleCollectionClick] (358-364): the URL it opens, when it opens one
    (and then closes the modal). *)
Definition handleCollectionClick (entityLabel : string) (occurrence : wobj) : option string :=
  match uuid occurrence with
  | Some u =>
      if js_truthy u then
        Some ("/story/" +:+ tmpl_opt (fun s => s) (theirstory_id (properties occurrence)) +:+
              "?start=" +:+ tmpl_opt numberToString (start_time (properties occurrence)) +:+
              "&end=" +:+ tmpl_opt numberToString (end_time (properties occurrence)) +:+
              "&nerLabel=" +:+ entityLabel)
      else None
  | None => None
  end.
End Links.

(** The characters that a URL's structure or its decoding gives a meaning. *)
Definition url_special : list ascii := String.list_ascii_of_string "&=#+%?/".

(** A text that passes through a link unchanged. *)
Definition url_safe (s : string) : bool :=
  forallb (fun c => negb (existsb (Ascii.eqb c) url_special)) (String.list_ascii_of_string s).

(** ** Lemmas *)

Lemma break_at_app (c : ascii) (l1 l2 : list ascii) : ~ In c l1 -> break_at c (l1 ++ c :: l2) = (l1, Some l2).
Proof.
  induction l1 as [|x l1 IH]; intros Hn; simpl; [by rewrite Ascii.eqb_refl|].
  destruct (Ascii.eqb_spec x c) as [->|]; [exfalso; apply Hn; by left|].
  rewrite IH by (intros H; apply Hn; by right). done.
Qed.

Lemma break_at_none (c : ascii) (l : list ascii) : ~ In c l -> break_at c l = (l, None).
Proof.
  induction l as [|x l IH]; intros Hn; simpl; [done|].
  destruct (Ascii.eqb_spec x c) as [->|]; [exfalso; apply Hn; by left|].
  rewrite IH by (intros H; apply Hn; by right). done.
Qed.

Lemma percent_decode_id (l : list ascii) : ~ In "%"%char l -> percent_decode l = l.
Proof.
  induction l as [|c l IH]; intros Hn; simpl; [done|].
  destruct (Ascii.eqb_spec c "%") as [->|]; [exfalso; apply Hn; by left|].
  rewrite IH by (intros H; apply Hn; by right). done.
Qed.

Lemma form_decode_id (l : list ascii) : ~ In "+"%char l -> ~ In "%"%char l -> form_decode l = l.
Proof.
  intros Hp Hc. unfold form_decode. rewrite (map_ext_in _ (fun c => c)), map_id; [by apply percent_decode_id|].
  intros c Hin. destruct (Ascii.eqb_spec c "+") as [->|]; [contradiction|done].
Qed.

Lemma url_safe_notin (s : string) (c : ascii) :
  url_safe s = true -> In c url_special -> ~ In c (String.list_ascii_of_string s).
Proof.
  unfold url_safe. intros Hs Hc Hin. rewrite forallb_forall in Hs. specialize (Hs c Hin).
  apply negb_true_iff in Hs. assert (existsb (Ascii.eqb c) url_special = true) by
    (apply existsb_exists; exists c; by rewrite Ascii.eqb_refl). congruence.
Qed.

(** The query text of name-value pairs joined with ['&']. *)
Fixpoint query_chars (kvs : list (list ascii * list ascii)) : list ascii :=
  match kvs with
  | [] => []
  | [(k, v)] => k ++ "="%char :: v
  | (k, v) :: r => k ++ "="%char :: v ++ "&"%char :: query_chars r
  end.

(** A pair that passes through [URLSearchParams] unchanged. *)
Definition pair_ok (kv : list ascii * list ascii) : Prop :=
  kv.1 <> [] /\ ~ In "&"%char kv.1 /\ ~ In "="%char kv.1 /\ ~ In "+"%char kv.1 /\ ~ In "%"%char kv.1 /\
  ~ In "&"%char kv.2 /\ ~ In "+"%char kv.2 /\ ~ In "%"%char kv.2.

Lemma parse_piece_pair (kv : list ascii * list ascii) :
  pair_ok kv ->
  parse_piece (kv.1 ++ "="%char :: kv.2) =
  Some (String.string_of_list_ascii kv.1, String.string_of_list_ascii kv.2).
Proof.
  destruct kv as [k v]; intros (Hk & Hk1 & Hk2 & Hk3 & Hk4 & Hv1 & Hv2 & Hv3); simpl in *.
  unfold parse_piece. rewrite break_at_app by done. rewrite !form_decode_id by done. by destruct k.
Qed.

Lemma pair_ok_no_amp (kv : list ascii * list ascii) : pair_ok kv -> ~ In "&"%char (kv.1 ++ "="%char :: kv.2).
Proof.
  destruct kv as [k v]; intros (Hk & Hk1 & Hk2 & Hk3 & Hk4 & Hv1 & Hv2 & Hv3); simpl in *.
  rewrite in_app_iff. intros [H|[H|H]]; [done|discriminate|done].
Qed.

Lemma search_params_query (kvs : list (list ascii * list ascii)) :
  Forall pair_ok kvs ->
  search_params (query_chars kvs) =
  map (fun kv => (String.string_of_list_ascii kv.1, String.string_of_list_ascii kv.2)) kvs.
Proof.
  induction kvs as [|[k v] r IH]; intros Hok; [done|].
  apply Forall_cons in Hok as [Hkv Hr]. pose proof (parse_piece_pair _ Hkv) as Hp. pose proof (pair_ok_no_amp _ Hkv) as Ha.
  simpl in Hp, Ha. unfold search_params.
  assert (Hom : forall (x : list ascii) l, omap parse_piece (x :: l) =
            match parse_piece x with Some y => y :: omap parse_piece l | None => omap parse_piece l end)
    by reflexivity.
  destruct r as [|kv r].
  - cbn [query_chars]. rewrite split_chars_nosep by done. rewrite Hom, Hp. done.
  - change (query_chars ((k, v) :: kv :: r)) with (k ++ "="%char :: v ++ "&"%char :: query_chars (kv :: r)).
    rewrite app_comm_cons, app_assoc, split_chars_app by done.
    rewrite Hom, Hp. fold (search_params (query_chars (kv :: r))). by rewrite IH.
Qed.

Lemma url_safe_forall (s : string) (c : ascii) :
  url_safe s = true -> In c url_special -> Forall (fun x => x <> c) (String.list_ascii_of_string s).
Proof.
  intros Hs Hc. apply Forall_forall. intros x Hx%list_elem_of_In ->. by apply (url_safe_notin s c).
Qed.

Lemma Forall_neq_notin (c : ascii) (l : list ascii) : Forall (fun x => x <> c) l -> ~ In c l.
Proof. intros Hf Hin%list_elem_of_In. rewrite Forall_forall in Hf. by apply (Hf c). Qed.

(** [c] occurs in none of the literal and safe pieces of a link. *)
Ltac link_notin :=
  apply Forall_neq_notin; simpl;
  repeat first [ apply Forall_app_2 | apply Forall_cons_2 | apply Forall_nil_2 | discriminate
               | (apply url_safe_forall; [eassumption|simpl; tauto]) ].

(** A link ["/story/" + id + "?" + query]: its route and its query. *)
Lemma story_url_parts (url : string) (U Qr : list ascii) :
  String.list_ascii_of_string url = String.list_ascii_of_string "/story/" ++ U ++ "?"%char :: Qr ->
  ~ In "#"%char U -> ~ In "?"%char U -> ~ In "/"%char U -> ~ In "%"%char U -> U <> [] -> ~ In "#"%char Qr ->
  story_route url = Some (String.string_of_list_ascii U) /\ url_query url = Qr.
Proof.
  intros Hurl H1 H2 H3 H4 Hne H5.
  assert (Hc : url_chars url = String.list_ascii_of_string "/story/" ++ U ++ "?"%char :: Qr).
  { unfold url_chars. rewrite Hurl, break_at_none; [done|]. simpl.
    intros [H|[H|[H|[H|[H|[H|[H|H]]]]]]]; try discriminate. apply in_app_iff in H as [H|[H|H]]; [done|discriminate|done]. }
  assert (Hq : break_at "?" (url_chars url) = (String.list_ascii_of_string "/story/" ++ U, Some Qr)).
  { rewrite Hc, app_assoc, break_at_app; [done|]. simpl.
    intros [H|[H|[H|[H|[H|[H|[H|H]]]]]]]; try discriminate. done. }
  unfold story_route, url_query, url_path. rewrite Hq. simpl fst. simpl snd. split; [|done].
  rewrite (proj2 (ascii_prefix_spec _ _)) by eauto. cbn [drop length String.list_ascii_of_string app]. rewrite drop_0.
  destruct (existsb (Ascii.eqb "/") U) eqn:E.
  - apply existsb_exists in E as [x [Hx Hxe]]. apply Ascii.eqb_eq in Hxe. subst x. contradiction.
  - rewrite bool_decide_false by done. simpl. by rewrite percent_decode_id.
Qed.

Section LinkProps.
Context (numberToString : Q -> string) (parseFloat : string -> option Q).

(** C25. A chapter link of the indexes views opens the story page of
    its story, which (once its transcript is loaded) seeks the player and
    the transcript to the chapter's start and selects no label, provided
    the story id and the printed start time are plain text (no character
    a URL gives a meaning) and [parseFloat] reads the printed time back. *)
Theorem chapterLink_opens_chapter (story : IndexesStory) (ch : IndexChapter) :
  url_safe (is_uuid story) = true -> is_uuid story <> ""%string ->
  url_safe (numberToString (ic_start_time ch)) = true -> numberToString (ic_start_time ch) <> ""%string ->
  parseFloat (numberToString (ic_start_time ch)) = Some (ic_start_time ch) ->
  let url := chapterLink numberToString story ch in
  story_route url = Some (is_uuid story) /\
  startTimeCalls parseFloat (searchParams_get url "start") =
    [PlayerSeekTo (ic_start_time ch); PanelSetTargetScrollTime (ic_start_time ch)] /\
  searchParams_get url "nerLabel" = None /\ searchParams_get url "nerFilters" = None.
Proof.
  intros Hu Hne Ht Htne Hp url.
  set (U := String.list_ascii_of_string (is_uuid story)). set (X := String.list_ascii_of_string (numberToString (ic_start_time ch))).
  destruct (story_url_parts url U (query_chars [(String.list_ascii_of_string "start", X)])) as [Hr Hq].
  - subst url U X. unfold chapterLink. rewrite !list_ascii_of_string_app. reflexivity.
  - link_notin.
  - link_notin.
  - link_notin.
  - link_notin.
  - subst U. intros E. apply Hne. by rewrite <- (String.string_of_list_ascii_of_string (is_uuid story)), E.
  - link_notin.
  - unfold searchParams_get. rewrite Hq, search_params_query.
    + subst U X. rewrite String.string_of_list_ascii_of_string in Hr. split_and!; [done| |done|done].
      unfold search_param_get. simpl. rewrite String.string_of_list_ascii_of_string.
      unfold startTimeCalls, js_truthy. rewrite (proj2 (String.eqb_neq _ _) Htne). simpl. by rewrite Hp.
    + repeat constructor; simpl; try discriminate; try link_notin; intuition discriminate.
Qed.
(** C26. The entity modal's link to a mention in another recording
    opens that recording's story page, which (once its transcript is
    loaded) seeks to the mention's start and has the entity's label
    selected, provided the ids, the label and the printed times are plain
    text and [parseFloat] reads the printed start back. *)
Theorem collectionClick_opens_mention (PAGINATION_ITEMS_PER_PAGE : nat) (entityLabel : string) (occurrence : wobj)
    (u theirStoryId : string) (st en : Q) (s : store) (t : Transcription) :
  uuid occurrence = Some u -> js_truthy u = true ->
  theirstory_id (properties occurrence) = Some theirStoryId ->
  start_time (properties occurrence) = Some st -> end_time (properties occurrence) = Some en ->
  url_safe theirStoryId = true -> theirStoryId <> ""%string ->
  url_safe (numberToString st) = true -> numberToString st <> ""%string -> url_safe (numberToString en) = true ->
  url_safe entityLabel = true -> js_truthy entityLabel = true ->
  parseFloat (numberToString st) = Some st -> transcript s = Some t ->
  exists url, handleCollectionClick numberToString entityLabel occurrence = Some url /\
    story_route url = Some theirStoryId /\
    let '(s', calls) := urlParamsEffect PAGINATION_ITEMS_PER_PAGE parseFloat (searchParams_get url "start")
                          (searchParams_get url "nerLabel") (searchParams_get url "nerFilters") s in
    calls = [PlayerSeekTo st; PanelSetTargetScrollTime st] /\ entityLabel ∈ selected_ner_labels s'.
Proof.
  intros Hu Hut Hid Hst Hen Hsid Hidne Hss Hsne Hse Hsl Hlt Hp Ht.
  unfold handleCollectionClick. rewrite Hu, Hut, Hid, Hst, Hen. cbn [tmpl_opt].
  eexists. split; [reflexivity|].
  set (url := "/story/" +:+ _).
  set (I := String.list_ascii_of_string theirStoryId).
  set (S := String.list_ascii_of_string (numberToString st)).
  set (E := String.list_ascii_of_string (numberToString en)).
  set (L := String.list_ascii_of_string entityLabel).
  destruct (story_url_parts url I
             (query_chars [(String.list_ascii_of_string "start", S); (String.list_ascii_of_string "end", E);
                           (String.list_ascii_of_string "nerLabel", L)])) as [Hr Hq].
  - subst url I S E L. rewrite !list_ascii_of_string_app. reflexivity.
  - link_notin.
  - link_notin.
  - link_notin.
  - link_notin.
  - subst I. intros Ee. apply Hidne. by rewrite <- (String.string_of_list_ascii_of_string theirStoryId), Ee.
  - link_notin; intuition discriminate.
  - subst I. rewrite String.string_of_list_ascii_of_string in Hr. split; [done|].
    unfold searchParams_get. rewrite Hq, search_params_query.
    + unfold search_param_get. simpl. subst S L. rewrite !String.string_of_list_ascii_of_string.
      unfold urlParamsEffect. rewrite Ht. cbn [nerFiltersParam]. split.
      * unfold startTimeCalls, js_truthy. rewrite (proj2 (String.eqb_neq _ _) Hsne). simpl. by rewrite Hp.
      * apply (proj2 (nerLabelParam_labels _ parseFloat _ _ _)). right. split; [reflexivity|exact Hlt].
    + repeat constructor; simpl; try discriminate; try link_notin; intuition discriminate.
Qed.
End LinkProps.

(** ** Witnesses *)

Definition sample_numberToString (q : Q) : string := if Qeq_bool q 30 then "30" else "40".
Definition sample_parseFloat (s : string) : option Q :=
  if String.eqb s "30" then Some 30 else if String.eqb s "40" then Some 40 else None.

Lemma chapterLink_opens_chapter_witness :
  let story := mkIndexesStory "s1" "Oral history" "gmu" "GMU" "" 0 false "" [] "" in
  let ch := mkIndexChapter "c1" "Childhood" None 30 in
  let url := chapterLink sample_numberToString story ch in
  story_route url = Some (is_uuid story) /\
  startTimeCalls sample_parseFloat (searchParams_get url "start") =
    [PlayerSeekTo (ic_start_time ch); PanelSetTargetScrollTime (ic_start_time ch)] /\
  searchParams_get url "nerLabel" = None /\ searchParams_get url "nerFilters" = None.
Proof.
  apply (chapterLink_opens_chapter sample_numberToString sample_parseFloat); vm_compute; try reflexivity; discriminate.
Defined.

Lemma collectionClick_opens_mention_witness :
  let occurrence := mkObj (Some "o1") None
                      (mkProps (Some "rec2") (Some 30) (Some 40) [] [] None None None None None) no_meta in
  let s := set_transcript (Some (mkTranscription [])) initial_store in
  exists url, handleCollectionClick sample_numberToString "GPE" occurrence = Some url /\
    story_route url = Some "rec2"%string /\
    let '(s', calls) := urlParamsEffect 12 sample_parseFloat (searchParams_get url "start")
                          (searchParams_get url "nerLabel") (searchParams_get url "nerFilters") s in
    calls = [PlayerSeekTo 30; PanelSetTargetScrollTime 30] /\ "GPE"%string ∈ selected_ner_labels s'.
Proof.
  apply (collectionClick_opens_mention sample_numberToString sample_parseFloat 12 "GPE" _ "o1" "rec2" 30 40 _
           (mkTranscription [])); vm_compute; try reflexivity; discriminate.
Defined.
