(* ===== verification/TopBar.v ===== *)
(** * TopBar: the application bar and its collapse flag

    [src/components/AppTopBar/AppTopBar.tsx] shows the logo, the links and
    the organisation's banner; the banner is hidden while the layout
    store's [isTopBarCollapsed] is set.  An effect collapses the bar on a
    story page and expands it elsewhere each time the page kind
    ([isStoryPage]) changes; outside story pages a button toggles the flag;
    a drawer on mobile can only be closed; another effect loads the
    collections while there are none.  On the results page,
    [src/components/ActiveFiltersDisplay.tsx] also collapses the bar on
    mobile when filters are active ([collapsesTopBar] of ActiveFilters.v).

    The layout store ([@/app/stores/useLayout]) and [config.json] are not
    under [src/]: the flag is explicit state, and the configuration fields
    the bar reads are inputs.  [topbar_step] is the bar's reaction to one
    event: a navigation, a click on the toggle, the drawer, a change of
    the active filters while the results page is shown, or a click on the
    logo, which reloads the application on [/]. *)

From S2P Require Import Prelude OrgConfig Store ActiveFilters.

Local Open Scope portal_scope.

(** [pathname.startsWith('/story/')] (30) *)
Definition isStoryPage (pathname : string) : bool :=
  ascii_prefix (String.list_ascii_of_string "/story/") (String.list_ascii_of_string pathname).

(** 31-34 *)
Definition isHeaderOverlayEnabled (c : AppConfig) : bool := (cfg_portalHeaderOverlay c ≫= id) ?? true.
Definition organizationLogoPath (c : AppConfig) : option string :=
  js_trim <$> (org_logo (cfg_organization c) ≫= fst).
Definition shouldUseCustomLogo (c : AppConfig) : bool :=
  match organizationLogoPath c with Some p => js_truthy p | None => false end.
Definition logoAlt (c : AppConfig) : string :=
  let alt := default "" (js_trim <$> (org_logo (cfg_organization c) ≫= snd)) in
  if js_truthy alt then alt else org_displayName (cfg_organization c) +:+ " logo".

Record topbar_state := mkTopbar {
  pathname : string;
  isTopBarCollapsed : bool;
  mobileOpen : bool
}.

Inductive topbar_event :=
  | Navigate (path : string)
  | CollapseToggleClick
  | DrawerToggle
  | ActiveFiltersChanged (isMobile : bool) (s : store)
  | LogoClick.

(** The collapse effect (44-50), run on mount and when [isStoryPage]
    changes. *)
Definition collapse_effect (st : topbar_state) : topbar_state :=
  mkTopbar (pathname st) (isStoryPage (pathname st)) (mobileOpen st).

(** The bar as the first render leaves it. *)
Definition topbar_mount (path : string) : topbar_state := collapse_effect (mkTopbar path false false).

(** The logo's [onClick] (133-136): [preventDefault()] and
    [window.location.href = '/'], a full reload, after which the bar is
    mounted afresh on [/]. *)
Definition logo_click : topbar_state := topbar_mount "/".

Definition topbar_step (st : topbar_state) (e : topbar_event) : topbar_state :=
  match e with
  | Navigate path =>
      let st' := mkTopbar path (isTopBarCollapsed st) (mobileOpen st) in
      if Bool.eqb (isStoryPage path) (isStoryPage (pathname st)) then st' else collapse_effect st'
  | CollapseToggleClick =>
      (* the button is rendered outside story pages only (154) *)
      if isStoryPage (pathname st) then st
      else mkTopbar (pathname st) (negb (isTopBarCollapsed st)) (mobileOpen st)
  | DrawerToggle =>
      (* [handleDrawerToggle] is called only by the drawer's close button
         (79) and its [onClose] (273), which act while it is open *)
      if mobileOpen st then mkTopbar (pathname st) (isTopBarCollapsed st) false else st
  | ActiveFiltersChanged isMobile s =>
      if collapsesTopBar isMobile s then mkTopbar (pathname st) true (mobileOpen st) else st
  | LogoClick => logo_click
  end.

Definition run_topbar (st : topbar_state) (es : list topbar_event) : topbar_state := fold_left topbar_step es st.

(** The collections effect (52-56): [loadCollections()] while there are none. *)
Definition collections_effect (s : store) : list action :=
  if (length (collections s) =? 0)%nat then [A_loadCollections] else [].

(** [shouldShowCollectionsLink] (58) *)
Definition shouldShowCollectionsLink (s : store) : bool := (1 <? length (collections s))%nat.

(** What the bar shows: the logo (the configured image with its alt
    text, or [LogoArchive] with the display name: 138-150), the collapse
    button's label (only outside story pages: 154-165), the collections
    link (180-194), and the banner with the organisation's display name,
    description and name while the bar is not collapsed (213-263). *)
Record topbar_view := mkTopbarView {
  topbarLogo : option string * string;
  collapseButton : option string;
  collectionsLink : bool;
  banner : option (string * string * string)
}.

Definition topbar_render (c : AppConfig) (st : topbar_state) (s : store) : topbar_view :=
  let org := organizationConfig c in
  mkTopbarView
    (if shouldUseCustomLogo c then (organizationLogoPath c, logoAlt c) else (None, org_displayName org))
    (if isStoryPage (pathname st) then None
     else Some (if isTopBarCollapsed st then "Expand" else "Collapse"))
    (shouldShowCollectionsLink s)
    (if isTopBarCollapsed st then None else Some (org_displayName org, org_description org, org_name org)).

(** The mobile drawer (60-108, 268-285): open while [mobileOpen], with
    the configured logo (or [LogoArchive] without text) and the close
    button. *)
Record drawer_view := mkDrawerView { drawerOpen : bool; drawerLogo : option (option string * string) }.

Definition drawer_render (c : AppConfig) (st : topbar_state) : drawer_view :=
  mkDrawerView (mobileOpen st) (if shouldUseCustomLogo c then Some (organizationLogoPath c, logoAlt c) else None).

(** ** Properties *)

Lemma topbar_step_story (st : topbar_state) (e : topbar_event) :
  (isStoryPage (pathname st) = true -> isTopBarCollapsed st = true) ->
  let st' := topbar_step st e in isStoryPage (pathname st') = true -> isTopBarCollapsed st' = true.
Proof.
  intros Hinv. destruct e as [path| | |isMobile s|]; simpl.
  - destruct (Bool.eqb_spec (isStoryPage path) (isStoryPage (pathname st))) as [E|E]; simpl; [|done].
    intros Hp. apply Hinv. by rewrite <- E.
  - destruct (isStoryPage (pathname st)) eqn:E; simpl; [rewrite E; exact Hinv|by rewrite E].
  - by destruct (mobileOpen st).
  - by destruct (collapsesTopBar isMobile s).
  - done.
Qed.

(** C15. On a story page the top bar is always collapsed: whatever
    sequence of navigations, toggle clicks, drawer toggles, filter changes
    and logo reloads led there, and whatever page the application was
    opened on. *)
Theorem story_page_topbar_collapsed (path0 : string) (es : list topbar_event) :
  let st := run_topbar (topbar_mount path0) es in
  isStoryPage (pathname st) = true -> isTopBarCollapsed st = true.
Proof.
  cbv zeta. unfold run_topbar. apply fold_left_inv; [exact topbar_step_story|done].
Qed.

(** Outside story pages the toggle flips the banner. *)
Lemma collapse_toggle_flips (c : AppConfig) (st : topbar_state) (s : store) :
  isStoryPage (pathname st) = false ->
  is_Some (banner (topbar_render c (topbar_step st CollapseToggleClick) s)) <->
  ~ is_Some (banner (topbar_render c st s)).
Proof. intros E. simpl. rewrite E. simpl. destruct (isTopBarCollapsed st); simpl; split; intros H; try done; by destruct H. Qed.

(** No step opens a closed drawer. *)
Lemma topbar_step_drawer (st : topbar_state) (e : topbar_event) :
  mobileOpen st = false -> mobileOpen (topbar_step st e) = false.
Proof.
  intros Hst. destruct e as [path| | |isMobile s|]; simpl; rewrite ?Hst; try done.
  - by destruct (Bool.eqb _ _).
  - by destruct (isStoryPage _).
  - by destruct (collapsesTopBar _ _).
Qed.

(** The drawer never opens: no element of the application calls
    [setMobileOpen] with [true] while the drawer is closed, so whatever the
    events, [mobileOpen] stays [false] and the drawer is not shown. *)
Theorem drawer_never_opens (c : AppConfig) (path0 : string) (es : list topbar_event) :
  drawerOpen (drawer_render c (run_topbar (topbar_mount path0) es)) = false.
Proof.
  simpl. unfold run_topbar. apply (fold_left_inv _ (fun st => mobileOpen st = false)); [exact topbar_step_drawer|done].
Qed.

Lemma story_page_topbar_collapsed_witness :
  let st := run_topbar (topbar_mount "/")
              [CollapseToggleClick; CollapseToggleClick; Navigate "/story/rec1"; DrawerToggle] in
  isStoryPage (pathname st) = true /\ isTopBarCollapsed st = true.
Proof.
  intros st. assert (Hs : isStoryPage (pathname st) = true) by reflexivity.
  split; [exact Hs|]. exact (story_page_topbar_collapsed "/" _ Hs).
Defined.
