(* ===== verification/AppShell.v ===== *)
(** * AppShell: the root layout and the main container

    [src/app/layout.tsx] declares the page metadata and renders every page
    inside [MainContainer] ([src/app/MainContainer.tsx]), below the
    application bar of TopBar.v.  The container's background is the
    story-page colour on story pages and the main-page colour elsewhere,
    with the same [isStoryPage] test as the bar.  The theme module
    [@/lib/theme] is not under [src/]; its colours are the configured
    [ThemeColorsConfig] here.  [MaterialUIThemeProvider] only styles. *)

From S2P Require Import Prelude OrgConfig Store TopBar.

Local Open Scope portal_scope.

(** [metadata] (8-11) *)
Record Metadata := mkMetadata { meta_title : string; meta_description : string }.

Definition metadata : Metadata :=
  mkMetadata "Research Portal"
    "TheirStory Research Portal - Explore recorded interviews, lectures, and oral histories".

(** [MainContainer]'s background (9-16). *)
Definition mainContainerBackground (colors : ThemeColorsConfig) (pathname : string) : string :=
  if isStoryPage pathname then bg_storyPage (tc_background colors) else bg_mainPage (tc_background colors).

(** The children of the container: the bar with its drawer, then the page. *)
Inductive shell_child :=
  | ShellTopBar (bar : topbar_view) (drawer : drawer_view)
  | ShellPage.

Record shell_view := mkShellView { sh_lang : string; sh_background : string; sh_children : list shell_child }.

(** [RootLayout] (13-30): the router's pathname is the one the bar reads. *)
Definition RootLayout (c : AppConfig) (st : topbar_state) (s : store) : shell_view :=
  mkShellView "en" (mainContainerBackground (themeColors c) (pathname st))
    [ShellTopBar (topbar_render c st s) (drawer_render c st); ShellPage].

(** ** Properties *)

(** Whatever events led to a story page, the shell shows it on the story
    background below a collapsed bar without its collapse button and with
    its drawer closed. *)
Theorem story_shell (c : AppConfig) (s : store) (path0 : string) (es : list topbar_event) :
  let st := run_topbar (topbar_mount path0) es in
  isStoryPage (pathname st) = true ->
  RootLayout c st s =
  mkShellView "en" (bg_storyPage (tc_background (themeColors c)))
    [ShellTopBar (mkTopbarView (topbarLogo (topbar_render c st s)) None (shouldShowCollectionsLink s) None)
                 (mkDrawerView false (drawerLogo (drawer_render c st)));
     ShellPage].
Proof.
  cbv zeta. intros Hs.
  assert (Hc : isTopBarCollapsed (run_topbar (topbar_mount path0) es) = true).
  { revert Hs. unfold run_topbar. apply fold_left_inv; [exact topbar_step_story|done]. }
  assert (Hd : mobileOpen (run_topbar (topbar_mount path0) es) = false).
  { unfold run_topbar. apply (fold_left_inv _ (fun st => mobileOpen st = false)); [|done].
    intros st e Hst. exact (topbar_step_drawer st e Hst). }
  unfold RootLayout, mainContainerBackground, topbar_render, drawer_render. cbn [topbarLogo drawerLogo].
  by rewrite Hs, Hc, Hd.
Qed.
