(* ===== verification/IndexesView.v ===== *)
(** * IndexesView: the controls and the rendering of the indexes page

    [src/app/indexes/page.tsx] keeps, beside the fetched data of Indexes.v,
    the view mode, the search query, the selected collections, whether the
    collection menu is open and the menu's filter term.  The controls
    (search fields, collection button and chips, view toggle, menu) are
    rendered only once stories have loaded, so their events are ignored
    before.  The page shows a spinner, an error, or the stories that pass
    [filterStories] as rows of [src/components/IndexesListView.tsx] or
    [src/components/IndexesHorizontalView.tsx], which render the same
    content: each story's link, title and chapter count, and the link,
    start, title and synopsis of each chapter that
    [filteredChaptersByStoryId] keeps.  The two views differ in layout:
    the list view puts a divider between stories and a chapter column only
    under stories with chapters, the horizontal view a card per story with
    its column always; both pass [storyToThumbnailStory] of the story to
    the thumbnail.  [durationFormatHandler] is a parameter; [formatTime],
    [VideoThumbnail] and the highlighting come from modules outside [src/]
    and are not modelled: the chapter start is kept as a number. *)

From S2P Require Import Prelude Indexes EntityCounts Links.

Local Open Scope portal_scope.

Inductive viewMode := ViewList | ViewHorizontal.

#[export] Instance viewMode_eq_dec : EqDecision viewMode.
Proof. solve_decision. Defined.

(** The page's UI state (45-52); [ui_collectionMenuOpen] is
    [Boolean(collectionMenuAnchor)] (133). *)
Record ui_state := mkUi {
  ui_viewMode : viewMode;
  ui_searchQuery : string;
  ui_selectedCollectionIds : list string;
  ui_collectionMenuOpen : bool;
  ui_collectionFilterTerm : string
}.

Definition initial_ui : ui_state := mkUi ViewList "" [] false "".

Inductive ui_event :=
  | SearchInput (value : string)
  | CollectionButtonClick
  | CollectionMenuClose
  | CollectionFilterInput (value : string)
  | CollectionToggle (id : string)
  | CollectionCheckboxClick (id : string)
  | ViewChange (newView : option viewMode).

(** [closeCollectionMenu] (140-143) *)
Definition closeCollectionMenu (u : ui_state) : ui_state :=
  mkUi (ui_viewMode u) (ui_searchQuery u) (ui_selectedCollectionIds u) false "".

(** [handleViewChange] (145-147): a click on the selected toggle gives [null]. *)
Definition handleViewChange (newView : option viewMode) (u : ui_state) : ui_state :=
  match newView with
  | Some v => mkUi v (ui_searchQuery u) (ui_selectedCollectionIds u) (ui_collectionMenuOpen u) (ui_collectionFilterTerm u)
  | None => u
  end.

(** The handlers wired in the JSX: the two search fields (190, 292), the
    two collection buttons (206, 308), the menu's [onClose] (423), its
    filter field (438), its items and the chips' delete (451, 229, 329),
    and the view toggle (271).  The checkbox of a menu item (459-463) has
    no [onChange] and stops the click's propagation to the item. *)
Definition ui_step (u : ui_state) (e : ui_event) : ui_state :=
  match e with
  | SearchInput v =>
      mkUi (ui_viewMode u) v (ui_selectedCollectionIds u) (ui_collectionMenuOpen u) (ui_collectionFilterTerm u)
  | CollectionButtonClick =>
      mkUi (ui_viewMode u) (ui_searchQuery u) (ui_selectedCollectionIds u) true (ui_collectionFilterTerm u)
  | CollectionMenuClose => closeCollectionMenu u
  | CollectionFilterInput v =>
      (* the field is inside the menu, mounted only while it is open *)
      if negb (ui_collectionMenuOpen u) then u else
      mkUi (ui_viewMode u) (ui_searchQuery u) (ui_selectedCollectionIds u) (ui_collectionMenuOpen u) v
  | CollectionToggle id =>
      mkUi (ui_viewMode u) (ui_searchQuery u) (handleCollectionToggle id (ui_selectedCollectionIds u))
           (ui_collectionMenuOpen u) (ui_collectionFilterTerm u)
  | CollectionCheckboxClick _ => u
  | ViewChange v => handleViewChange v u
  end.

(** The guard of the sidebar, the view toggle, the mobile controls and the
    menu (164, 252, 285, 419): [!loading && data && data.stories.length > 0]. *)
Definition controlsShown (ps : page_state) : bool :=
  negb (ps_loading ps) &&
  match ps_data ps with Some d => negb (bool_decide (ir_stories d = [])) | None => false end.

(** The whole page: the loading effect's state and the UI state. *)
Inductive indexes_event :=
  | PageEv (e : page_event)
  | UiEv (e : ui_event).

Definition indexes_step (w : page_state * ui_state) (e : indexes_event) : page_state * ui_state :=
  match e with
  | PageEv pe => (page_step pe w.1, w.2)
  | UiEv ue => if controlsShown w.1 then (w.1, ui_step w.2 ue) else w
  end.

Definition run_indexes (w : page_state * ui_state) (es : list indexes_event) : page_state * ui_state :=
  fold_left indexes_step es w.

(** [data?.stories ?? []], what [collections] and the counts read (78-96). *)
Definition page_stories (ps : page_state) : list IndexesStory :=
  match ps_data ps with Some d => ir_stories d | None => [] end.

(** [filteredStories] (98-101) *)
Definition filteredStories (data : option IndexesApiResponse) (u : ui_state) : list IndexesStory :=
  match data with
  | None => []
  | Some d => filterStories (ir_stories d) (ui_searchQuery u) (ui_selectedCollectionIds u) (ir_chaptersByStoryId d)
  end.

(** ** What the page renders *)

Section View.
Context (numberToString : Q -> string).

(** A chapter's row in either view. *)
Record chapter_row := mkChapterRow {
  cr_link : string;
  cr_start_time : Q;
  cr_title : string;
  cr_synopsis : option string
}.

Record story_row := mkStoryRow {
  sr_link : string;
  sr_title : string;
  sr_chapterCount : string;
  sr_chapters : list chapter_row
}.

(** [`${chapters.length} chapter${chapters.length !== 1 ? 's' : ''}`] *)
Definition chapterCountText (n : nat) : string :=
  js_string_of_nat n +:+ " chapter" +:+ (if (n =? 1)%nat then "" else "s").

Definition chapterRow (story : IndexesStory) (ch : IndexChapter) : chapter_row :=
  mkChapterRow (chapterLink numberToString story ch) (ic_start_time ch) (ic_section_title ch)
    (match ic_synopsis ch with Some s => if js_truthy s then Some s else None | None => None end).

(** One story of [stories.map] in IndexesListView.tsx (64-151). *)
Definition storyRow (chaptersByStoryId : gmap string (list IndexChapter)) (story : IndexesStory) : story_row :=
  let chapters := default [] (chaptersByStoryId !! is_uuid story) in
  mkStoryRow (storyLink story) (is_interview_title story) (chapterCountText (length chapters))
    (map (chapterRow story) chapters).

Definition storyRows (stories : list IndexesStory) (chaptersByStoryId : gmap string (list IndexChapter))
    : list story_row :=
  map (storyRow chaptersByStoryId) stories.

(** [{error && ...}] (359-363): an error message shows when it is truthy. *)
Definition errorShown (error : option string) : option string :=
  match error with Some e => if js_truthy e then Some e else None | None => None end.

(** The content below the controls (365-415). *)
Inductive results_body :=
  | NoIndexes
  | NoMatch
  | Results (header : string) (mode : viewMode) (rows : list story_row).

Definition resultsHeader (n : nat) : string :=
  "Results: 1–" +:+ js_string_of_nat n +:+ " of " +:+ js_string_of_nat n.

(** An item of the collection menu (445-466): its id, its text, whether it
    is checked.  An empty list of items shows [No collections match.]. *)
Definition menuItem (counts : gmap string nat) (sel : list string) (c : string * string) : string * string * bool :=
  let count := default 0%nat (counts !! c.1) in
  (c.1, c.2 +:+ " (" +:+ js_string_of_nat count +:+ " recording" +:+ (if (count =? 1)%nat then "" else "s") +:+ ")",
   existsb (String.eqb c.1) sel).

(** The label of the collection button (216-218, 316-318). *)
Definition collectionButtonLabel (sel : list string) : string :=
  if (length sel =? 0)%nat then "All collections" else js_string_of_nat (length sel) +:+ " selected".

(** The chips of the selected collections (220-238): [c?.name ?? id]. *)
Definition collectionChips (cs : list (string * string)) (sel : list string) : list (string * string) :=
  map (fun id => (id, default id (snd <$> List.find (fun c => String.eqb c.1 id) cs))) sel.

Record indexes_view := mkIndexesView {
  iv_controls : bool;
  iv_buttonLabel : string;
  iv_chips : list (string * string);
  iv_menu : option (list (string * string * bool));
  iv_spinner : bool;
  iv_error : option string;
  iv_body : option results_body
}.

Definition indexes_render (ps : page_state) (u : ui_state) : indexes_view :=
  let stories := page_stories ps in
  let cs := collections stories in
  let fs := filteredStories (ps_data ps) u in
  mkIndexesView
    (controlsShown ps)
    (collectionButtonLabel (ui_selectedCollectionIds u))
    (collectionChips cs (ui_selectedCollectionIds u))
    (if controlsShown ps && ui_collectionMenuOpen u then
       Some (map (menuItem (recordingsPerCollectionId stories) (ui_selectedCollectionIds u))
                 (filteredCollectionsForDropdown cs (ui_collectionFilterTerm u)))
     else None)
    (ps_loading ps)
    (errorShown (ps_error ps))
    (match ps_data ps with
     | Some d =>
         if negb (ps_loading ps) && negb (bool_decide (is_Some (errorShown (ps_error ps)))) then
           Some (if bool_decide (ir_stories d = []) then NoIndexes
                 else if bool_decide (fs = []) then NoMatch
                 else Results (resultsHeader (length fs)) (ui_viewMode u)
                        (storyRows fs (filteredChaptersByStoryId (ps_data ps) (ui_searchQuery u))))
         else None
     | None => None
     end).

(** The search field, the collection button and the chips of the selected
    collections, which the desktop sidebar (164-243) and the mobile block
    (285-342) both render, each with its own placeholder. *)
Record controls_view := mkControlsView {
  ctl_placeholder : string;
  ctl_searchValue : string;
  ctl_buttonLabel : string;
  ctl_chips : list (string * string)
}.

Definition controls_of (placeholder : string) (ps : page_state) (u : ui_state) : option controls_view :=
  if controlsShown ps then
    Some (mkControlsView placeholder (ui_searchQuery u) (collectionButtonLabel (ui_selectedCollectionIds u))
            (collectionChips (collections (page_stories ps)) (ui_selectedCollectionIds u)))
  else None.

Definition sidebarControls (ps : page_state) (u : ui_state) : option controls_view := controls_of "Search" ps u.
Definition mobileControls (ps : page_state) (u : ui_state) : option controls_view := controls_of "Search indexes…" ps u.

(** The list/horizontal toggle group (267-281), with its selected value. *)
Definition viewToggle (ps : page_state) (u : ui_state) : option viewMode :=
  if controlsShown ps then Some (ui_viewMode u) else None.

End View.

(** ** The two views: IndexesListView.tsx and IndexesHorizontalView.tsx *)

(** The properties of [Testimonies] ([@/types/weaviate], not under [src/])
    that [storyToThumbnailStory] fills; [null] is [JNull]. *)
Record TestimonyProps := mkTestimonyProps {
  tp_video_url : string;
  tp_interview_title : string;
  tp_interview_duration : Q;
  tp_isAudioFile : bool;
  tp_interview_description : string;
  tp_ner_labels : list string;
  tp_collection_id : string;
  tp_collection_name : string;
  tp_collection_description : string;
  tp_recording_date : string;
  tp_transcoded : string;
  tp_transcription : string;
  tp_ner_data : json;
  tp_participants : json;
  tp_publisher : string;
  tp_hasChunks : json
}.

(** [WeaviateGenericObject<Testimonies>]: the uuid, the properties, and
    the [metadata], [references] and [vectors] objects as their fields. *)
Record ThumbnailStory := mkThumbnailStory {
  th_uuid : string;
  th_properties : TestimonyProps;
  th_metadata : list (string * json);
  th_references : list (string * json);
  th_vectors : list (string * json)
}.

(** [storyToThumbnailStory] (IndexesListView.tsx 18-43; the copy in
    IndexesHorizontalView.tsx 17-42 has the same body). *)
Definition storyToThumbnailStory (story : IndexesStory) : ThumbnailStory :=
  mkThumbnailStory (is_uuid story)
    (mkTestimonyProps (is_video_url story) (is_interview_title story) (is_interview_duration story)
       (is_isAudioFile story) (is_interview_description story) (is_ner_labels story) (is_collection_id story)
       (is_collection_name story) (is_collection_description story) "" "" "" JNull JNull "" JNull)
    [] [] [].

(** What a view renders for one story: the list view's [Divider] before
    it, the thumbnail's story, the duration text, the row (link, title,
    chapter count and chapters) and whether the column of chapters is
    rendered. *)
Record story_item := mkStoryItem {
  si_divider : bool;
  si_thumbnail : ThumbnailStory;
  si_duration : string;
  si_row : story_row;
  si_chapterColumn : bool
}.

Section Views.
Context (numberToString : Q -> string) (durationFormatHandler : Q -> string).

(** [IndexesListView] (45-154): a divider before every story but the
    first, and the chapter column only when the story has chapters. *)
Definition IndexesListView (stories : list IndexesStory) (chaptersByStoryId : gmap string (list IndexChapter))
    : list story_item :=
  imap (fun index story =>
          let chapters := default [] (chaptersByStoryId !! is_uuid story) in
          mkStoryItem (0 <? index)%nat (storyToThumbnailStory story) (durationFormatHandler (is_interview_duration story))
            (storyRow numberToString chaptersByStoryId story) (0 <? length chapters)%nat)
       stories.

(** [IndexesHorizontalView] (44-159): a card per story, without dividers,
    whose chapter column is always rendered. *)
Definition IndexesHorizontalView (stories : list IndexesStory) (chaptersByStoryId : gmap string (list IndexChapter))
    : list story_item :=
  map (fun story =>
         mkStoryItem false (storyToThumbnailStory story) (durationFormatHandler (is_interview_duration story))
           (storyRow numberToString chaptersByStoryId story) true)
      stories.

(** [viewMode === 'list' ? <IndexesListView/> : <IndexesHorizontalView/>] (399-413) *)
Definition view_items (mode : viewMode) : list IndexesStory -> gmap string (list IndexChapter) -> list story_item :=
  match mode with ViewList => IndexesListView | ViewHorizontal => IndexesHorizontalView end.

End Views.

(** ** Properties *)

(** The UI invariant: the selection has no duplicate, and the menu's
    filter term is blank whenever the menu is closed. *)
Definition ui_inv (u : ui_state) : Prop :=
  NoDup (ui_selectedCollectionIds u) /\ (ui_collectionMenuOpen u = false -> ui_collectionFilterTerm u = ""%string).

Lemma ui_step_inv (u : ui_state) (e : ui_event) : ui_inv u -> ui_inv (ui_step u e).
Proof.
  intros [Hnd Hterm]. destruct e as [v| | |v|id|id|[v|]]; unfold ui_inv; simpl; try done.
  - destruct (ui_collectionMenuOpen u) eqn:E; simpl; split; try done; first [discriminate | intros _; by apply Hterm].
  - split; [apply handleCollectionToggle_spec, Hnd|done].
Qed.

Lemma indexes_step_inv (w : page_state * ui_state) (e : indexes_event) :
  ui_inv w.2 -> ui_inv (indexes_step w e).2.
Proof. intros H. destruct e; simpl; [done|]. destruct (controlsShown w.1); [by apply ui_step_inv|done]. Qed.

Lemma run_indexes_inv (es : list indexes_event) : ui_inv (run_indexes (initial_page, initial_ui) es).2.
Proof.
  apply (fold_left_inv indexes_step (fun w => ui_inv w.2)); [exact indexes_step_inv|split; [constructor|done]].
Qed.

Lemma filteredCollectionsForDropdown_blank (cs : list (string * string)) :
  filteredCollectionsForDropdown cs "" = cs.
Proof. reflexivity. Qed.

(** C33. Whatever the user did before, opening the collection menu
    lists every collection of the loaded stories, with its recording
    count and a check mark exactly on the selected ones, and the
    selection it toggles never holds an id twice: closing the menu always
    cleared its filter. *)
Theorem menu_opens_unfiltered (numberToString : Q -> string) (es : list indexes_event) :
  let w := run_indexes (initial_page, initial_ui) es in
  ui_collectionMenuOpen w.2 = false -> controlsShown w.1 = true ->
  let w' := indexes_step w (UiEv CollectionButtonClick) in
  NoDup (ui_selectedCollectionIds w'.2) /\
  iv_menu (indexes_render numberToString w'.1 w'.2) =
    Some (map (fun c => (c.1, c.2 +:+ " (" +:+ js_string_of_nat (default 0%nat (recordingsPerCollectionId (page_stories w.1) !! c.1))
                              +:+ " recording" +:+
                              (if (default 0%nat (recordingsPerCollectionId (page_stories w.1) !! c.1) =? 1)%nat then "" else "s")
                              +:+ ")",
                         bool_decide (c.1 ∈ ui_selectedCollectionIds w.2)))
              (collections (page_stories w.1))).
Proof.
  intros w Hclosed Hshown. destruct (run_indexes_inv es) as [Hnd Hterm]. fold w in Hnd, Hterm.
  cbv zeta. unfold indexes_step. rewrite Hshown. simpl. split; [done|].
  unfold indexes_render. simpl. rewrite Hshown, (Hterm Hclosed). simpl.
  f_equal. apply map_ext. intros [id name]. unfold menuItem. simpl. by rewrite existsb_eqb_elem.
Qed.

(** C27. With the stories loaded and a non-blank query, the rows the
    page shows are the stories [filterStories] keeps, in order, each with
    its link and title; the chapters shown under a story are exactly its
    chapters that match the query, in order, each linking to its start,
    and the count next to the story is the number of chapters shown; the
    header counts the rows. *)
Theorem results_rows_spec (numberToString : Q -> string) (ps : page_state) (u : ui_state)
    (d : IndexesApiResponse) (h : string) (m : viewMode) (rows : list story_row) :
  ps_data ps = Some d ->
  iv_body (indexes_render numberToString ps u) = Some (Results h m rows) ->
  js_truthy (normalize_query (ui_searchQuery u)) = true ->
  h = resultsHeader (length rows) /\ m = ui_viewMode u /\
  Forall2 (fun story r =>
      sr_link r = storyLink story /\ sr_title r = is_interview_title story /\
      sr_chapters r = map (chapterRow numberToString story)
                        (List.filter (chapter_matches (normalize_query (ui_searchQuery u)))
                           (default [] (ir_chaptersByStoryId d !! is_uuid story))) /\
      sr_chapterCount r = chapterCountText (length (sr_chapters r)))
    (filteredStories (Some d) u) rows.
Proof.
  intros Hd Hb Hq. unfold indexes_render in Hb. rewrite Hd in Hb. cbv beta iota delta [iv_body] in Hb.
  destruct (negb (ps_loading ps) && _); [|done].
  destruct (bool_decide (ir_stories d = [])); [done|].
  destruct (bool_decide (filteredStories (Some d) u = [])); [done|].
  injection Hb as <- <- <-. split_and!; [unfold storyRows; by rewrite length_map|done|].
  apply Forall2_fmap_r, Forall_Forall2_diag, Forall_forall. intros story _.
  unfold compose. simpl. rewrite Hq. simpl. rewrite lookup_fmap.
  destruct (ir_chaptersByStoryId d !! is_uuid story); simpl; by rewrite ?length_map.
Qed.

(** Reading a story back from the thumbnail's properties. *)
Definition thumbnail_story (th : ThumbnailStory) : IndexesStory :=
  let p := th_properties th in
  mkIndexesStory (th_uuid th) (tp_interview_title p) (tp_collection_id p) (tp_collection_name p) (tp_video_url p)
    (tp_interview_duration p) (tp_isAudioFile p) (tp_interview_description p) (tp_ner_labels p)
    (tp_collection_description p).

(** The thumbnail carries every field of the story, each under its own
    name, and the fields a story lacks are empty or [null]. *)
Theorem storyToThumbnailStory_roundtrip (story : IndexesStory) :
  thumbnail_story (storyToThumbnailStory story) = story /\
  let p := th_properties (storyToThumbnailStory story) in
  tp_recording_date p = ""%string /\ tp_transcoded p = ""%string /\ tp_transcription p = ""%string /\
  tp_publisher p = ""%string /\ tp_ner_data p = JNull /\ tp_participants p = JNull /\ tp_hasChunks p = JNull.
Proof. by destruct story. Qed.

Lemma storyRow_chapters (numberToString : Q -> string) (cbs : gmap string (list IndexChapter)) (story : IndexesStory) :
  sr_chapters (storyRow numberToString cbs story) = [] <-> default [] (cbs !! is_uuid story) = [].
Proof. unfold storyRow. cbn [sr_chapters]. split; [apply map_eq_nil|by intros ->]. Qed.

(** Whichever view is chosen, the results show the rows of
    [indexes_render], each story with its own thumbnail and duration. *)
Theorem results_view_items (numberToString durationFormatHandler : Q -> string) (ps : page_state) (u : ui_state)
    (h : string) (m : viewMode) (rows : list story_row) :
  iv_body (indexes_render numberToString ps u) = Some (Results h m rows) ->
  let items := view_items numberToString durationFormatHandler m (filteredStories (ps_data ps) u)
                 (filteredChaptersByStoryId (ps_data ps) (ui_searchQuery u)) in
  map si_row items = rows /\
  map si_thumbnail items = map storyToThumbnailStory (filteredStories (ps_data ps) u) /\
  map si_duration items = map (fun story => durationFormatHandler (is_interview_duration story))
                            (filteredStories (ps_data ps) u).
Proof.
  intros Hb items. unfold indexes_render in Hb. cbv beta iota delta [iv_body] in Hb.
  destruct (ps_data ps) as [d|]; [|done]. destruct (negb (ps_loading ps) && _); [|done].
  destruct (bool_decide (ir_stories d = [])); [done|]. destruct (bool_decide (filteredStories (Some d) u = [])); [done|].
  injection Hb as <- <- <-. subst items. unfold storyRows.
  destruct (ui_viewMode u); cbn [view_items]; unfold IndexesListView, IndexesHorizontalView;
    split_and!; first [by apply map_imap_forget | rewrite map_map; by apply map_ext].
Qed.

(** The list view draws a divider before every story but the first, and a
    chapter column exactly under the stories that show chapters. *)
Theorem list_view_layout (numberToString durationFormatHandler : Q -> string) (stories : list IndexesStory)
    (cbs : gmap string (list IndexChapter)) (i : nat) (it : story_item) :
  IndexesListView numberToString durationFormatHandler stories cbs !! i = Some it ->
  si_divider it = bool_decide (i <> 0%nat) /\ si_chapterColumn it = bool_decide (sr_chapters (si_row it) <> []).
Proof.
  unfold IndexesListView. rewrite list_lookup_imap. destruct (stories !! i) as [story|]; [|done]. intros [= <-].
  cbn [si_divider si_chapterColumn si_row]. split.
  - destruct (Nat.ltb_spec 0 i); [rewrite bool_decide_true|rewrite bool_decide_false]; done || lia.
  - destruct (Nat.ltb_spec 0 (length (default [] (cbs !! is_uuid story)))) as [Hl|Hl].
    + rewrite bool_decide_true; [done|]. rewrite storyRow_chapters. intros Hn. rewrite Hn in Hl. simpl in Hl. lia.
    + rewrite bool_decide_false; [done|]. rewrite storyRow_chapters. intros Hn. apply Hn, nil_length_inv. lia.
Qed.

(** A story kept for its title alone shows none of its chapters, and the
    count next to it reads [0 chapters]. *)
Example title_match_shows_no_chapters :
  let d := mkIndexesApiResponse [mkIndexesStory "u1" "Paris 1968" "gmu" "GMU" "" 0 false "" [] ""]
             {[ "u1" := [mkIndexChapter "s1" "Childhood" None 0; mkIndexChapter "s2" "Work" None 60] ]} in
  let u := mkUi ViewList "paris" [] false "" in
  exists rows, iv_body (indexes_render (fun _ => "0") (mkPageState (Some d) false None false) u) =
    Some (Results (resultsHeader 1) ViewList rows) /\
    map sr_chapterCount rows = ["0 chapters"] /\ map sr_chapters rows = [[]].
Proof. eexists. split_and!; vm_compute; reflexivity. Qed.

(** A click on a menu item's checkbox leaves the selection as it was,
    while a click on the rest of the item toggles the collection. *)
Example checkbox_click_keeps_selection :
  let u := mkUi ViewList "" [] true "" in
  ui_selectedCollectionIds (ui_step u (CollectionCheckboxClick "gmu")) = [] /\
  ui_selectedCollectionIds (ui_step u (CollectionToggle "gmu")) = ["gmu"].
Proof. split; reflexivity. Qed.

(** ** Witnesses *)

Definition sample_indexes : IndexesApiResponse :=
  mkIndexesApiResponse [mkIndexesStory "u1" "Paris 1968" "gmu" "GMU" "" 0 false "" [] ""; mkIndexesStory "u2" "Rome" "oral" "" "" 0 false "" [] ""]
    {[ "u1" := [mkIndexChapter "s1" "Childhood in Paris" None 0; mkIndexChapter "s2" "Work" (Some "paris") 60] ]}.

(** On the sample response the list view draws no divider before the first
    story and none of a chapter column under [Rome], which has no chapters;
    the horizontal view draws the column under both. *)
Example views_on_sample :
  map (fun it => (si_divider it, si_chapterColumn it))
    (IndexesListView (fun _ => "0") (fun _ => "1:00") (ir_stories sample_indexes) (ir_chaptersByStoryId sample_indexes))
  = [(false, true); (true, false)] /\
  map (fun it => (si_divider it, si_chapterColumn it))
    (IndexesHorizontalView (fun _ => "0") (fun _ => "1:00") (ir_stories sample_indexes) (ir_chaptersByStoryId sample_indexes))
  = [(false, true); (false, true)].
Proof. split; vm_compute; reflexivity. Qed.

Lemma menu_opens_unfiltered_witness :
  let w := run_indexes (initial_page, initial_ui)
             [PageEv (Fetched sample_indexes); PageEv Settled; UiEv CollectionButtonClick;
              UiEv (CollectionFilterInput "gm"); UiEv (CollectionToggle "gmu"); UiEv CollectionMenuClose] in
  ui_collectionMenuOpen w.2 = false /\ controlsShown w.1 = true /\
  NoDup (ui_selectedCollectionIds (indexes_step w (UiEv CollectionButtonClick)).2).
Proof.
  intros w. assert (H1 : ui_collectionMenuOpen w.2 = false) by reflexivity.
  assert (H2 : controlsShown w.1 = true) by reflexivity.
  split_and!; [exact H1|exact H2|]. exact (proj1 (menu_opens_unfiltered (fun _ => "0") _ H1 H2)).
Defined.

Lemma results_rows_spec_witness :
  exists h m rows,
    iv_body (indexes_render (fun _ => "0") (mkPageState (Some sample_indexes) false None false)
               (mkUi ViewHorizontal " PARIS" [] false "")) = Some (Results h m rows) /\
    h = resultsHeader (length rows).
Proof.
  do 3 eexists. assert (Hb : iv_body (indexes_render (fun _ => "0") (mkPageState (Some sample_indexes) false None false)
               (mkUi ViewHorizontal " PARIS" [] false "")) = Some (Results (resultsHeader 1) ViewHorizontal
               (storyRows (fun _ => "0") [mkIndexesStory "u1" "Paris 1968" "gmu" "GMU" "" 0 false "" [] ""]
                  (filteredChaptersByStoryId (Some sample_indexes) " PARIS")))) by (vm_compute; reflexivity).
  split; [exact Hb|]. exact (proj1 (results_rows_spec (fun _ => "0") (mkPageState (Some sample_indexes) false None false)
                  (mkUi ViewHorizontal " PARIS" [] false "") sample_indexes _ _ _ eq_refl Hb eq_refl)).
Defined.
