(* ===== verification/ResultsPage.v ===== *)
(** * ResultsPage: the home page's results area

    [src/components/CollectionLayout.tsx] lays out the results page from
    the store of Store.v: a spinner while [loading], the table of search
    results ([src/components/SearchTable.tsx]) after a search that found
    chunks, the list or grid of recordings with its [Pagination] before
    any search, and a message when a page is empty.  Its own state is the
    list/grid mode.  [src/components/SearchTypeSelector.tsx] shows and
    sets the store's [searchType]; [src/components/ListViewNerChips.tsx]
    shows the entity labels of a recording of the list.  The list and grid
    views, the search box, the table rows and the search pagination are
    modules outside [src/]; they appear here as the data they receive. *)

From S2P Require Import Prelude OrgConfig Filters Backend Samples Collections Store.

Local Open Scope portal_scope.

(** ** CollectionLayout *)

Inductive layoutMode := LayoutList | LayoutGrid.

(** [handleViewChange] (26-30) *)
Definition handleLayoutChange (newView : option layoutMode) (vm : layoutMode) : layoutMode :=
  match newView with Some v => v | None => vm end.

(** The content blocks of the main box (52-106). *)
Inductive layout_block :=
  | LoadingSpinner
  | ResultsTable (rows : list wobj)
  | StoriesView (mode : layoutMode) (stories : list wobj)
  | StoriesPagination (count page : Z)
  | NoResultsMessage (text : string)
  | NoMoreStoriesMessage
  | NoInterviewsMessage.

(** [SearchTable] (11-65): mobile cards or desktop rows, one per result
    object in order, above the search pagination. *)
Definition searchTable_rows (s : store) : list wobj := default [] (result s).

Definition layout_blocks (s : store) (vm : layoutMode) : list layout_block :=
  let results := default [] (result s) in
  (if loading s then [LoadingSpinner] else []) ++
  (if negb (loading s) && hasSearched s && negb (bool_decide (results = [])) then [ResultsTable (searchTable_rows s)]
   else []) ++
  (match stories s with
   | Some objs =>
       if negb (loading s) && negb (hasSearched s) && negb (bool_decide (objs = [])) then
         [StoriesView vm objs; StoriesPagination (totalPages s) (currentPage s)]
       else []
   | None => []
   end) ++
  (if negb (loading s) && hasSearched s && bool_decide (results = []) then
     [NoResultsMessage (if (1 <? currentPage s)%Z then "There are no more stories available." else "No stories available.")]
   else []) ++
  (match stories s with
   | Some [] =>
       if negb (loading s) && negb (hasSearched s) then
         [if (1 <? currentPage s)%Z then NoMoreStoriesMessage else NoInterviewsMessage]
       else []
   | _ => []
   end).

(** ** SearchTypeSelector *)

(** [SEARCH_TYPE_LABELS] and [SEARCH_TYPE_FULL_LABELS] (7-17): partial
    records with no entry for [traditional]. *)
Definition SEARCH_TYPE_LABELS (t : SearchType) : option string :=
  match t with
  | SearchType_bm25 => Some "Keyword"
  | SearchType_Vector => Some "Thematic"
  | SearchType_Hybrid => Some "Hybrid"
  | SearchType_traditional => None
  end.

Definition SEARCH_TYPE_FULL_LABELS (t : SearchType) : option string :=
  match t with
  | SearchType_bm25 => Some "Keyword Search"
  | SearchType_Vector => Some "Thematic Search"
  | SearchType_Hybrid => Some "Hybrid Search"
  | SearchType_traditional => None
  end.

(** The three menu items (48-50): value and text. *)
Definition searchTypeMenu : list (SearchType * string) :=
  [(SearchType_bm25, "Keyword Search"); (SearchType_Vector, "Thematic Search"); (SearchType_Hybrid, "Hybrid Search")].

(** [renderValue] (31-33) *)
Definition searchTypeRenderValue (compact : bool) (s : store) : option string :=
  if compact then SEARCH_TYPE_LABELS (searchType s) else SEARCH_TYPE_FULL_LABELS (searchType s).

(** [handleSearchTypeChange] (22-24), run on the store. *)
Definition handleSearchTypeChange (PAGINATION_ITEMS_PER_PAGE : nat) (newType : SearchType) (s : store) : store :=
  fst (dispatch PAGINATION_ITEMS_PER_PAGE (A_setSearchType newType) s).

(** ** ListViewNerChips *)

Section Chips.
Context (labels : list NerLabelConfig) (fallbackColors : list string).

(** [filteredNerLabels] (12): the recording's labels among the filters. *)
Definition filteredNerLabels (nerFilters : list string) (story : wobj) : list string :=
  List.filter (fun l => existsb (String.eqb l) nerFilters) (ner_labels (properties story)).

(** What the component renders (14-37): nothing when no label of the
    recording is filtered, otherwise a chip (display name, colour) for
    every label of the recording. *)
Definition listViewNerChips (nerFilters : list string) (story : wobj) : option (list (string * string)) :=
  if bool_decide (filteredNerLabels nerFilters story = []) then None
  else Some (map (fun ner => (getNerDisplayName labels ner, getNerColor labels fallbackColors ner))
               (ner_labels (properties story))).

End Chips.

(** ** Properties *)

Section PageChange.
Context `{Datastore} `{FileSystem}.
Context (localeCompare : string -> string -> Z) (parseTranscription : string -> option Transcription).
Context (PAGINATION_ITEMS_PER_PAGE : nat).

(** C28. A page change whose fetch fails leaves the previous page's
    recordings on screen: the list shows the recordings of the page the
    user left, while the pagination marks the requested page as current
    and as the last one. *)
Theorem failed_page_change_shows_previous_stories (s : store) (vm : layoutMode) (objs : list wobj)
    (page : Z) (e : error) :
  loading s = false -> hasSearched s = false -> stories s = Some objs -> objs <> [] -> page <> currentPage s ->
  fst (run (getAllStories_body Testimonies PAGINATION_ITEMS_PER_PAGE
              (Z.to_nat ((page - 1) * Z.of_nat PAGINATION_ITEMS_PER_PAGE)) (selectedCollectionIds s))) = Err e ->
  exists r, snd (dispatch PAGINATION_ITEMS_PER_PAGE (A_pageChange page) s) = [r] /\
    layout_blocks (resolve localeCompare parseTranscription r (fst (dispatch PAGINATION_ITEMS_PER_PAGE (A_pageChange page) s))) vm
      = [StoriesView vm objs; StoriesPagination page page].
Proof.
  intros Hl Hs Hst Hne Hp Herr. simpl. unfold handlePageChange.
  rewrite (proj2 (Z.eqb_neq _ _) Hp). eexists. split; [reflexivity|].
  simpl. rewrite Herr. unfold layout_blocks. simpl. rewrite Hs, Hst.
  rewrite (bool_decide_false (objs = [])) by done. by destruct objs.
Qed.

End PageChange.

(** Choosing an item of the search type menu sets the store's type to it,
    and the closed selector then reads back the item's text (its short
    form in the compact selector). *)
Theorem searchType_menu_roundtrip (PAGINATION_ITEMS_PER_PAGE : nat) (s : store) (t : SearchType) (text : string) :
  In (t, text) searchTypeMenu ->
  let s' := handleSearchTypeChange PAGINATION_ITEMS_PER_PAGE t s in
  searchType s' = t /\ searchTypeRenderValue false s' = Some text /\ is_Some (searchTypeRenderValue true s').
Proof. intros Hin. simpl in Hin. by destruct Hin as [[= <- <-]|[[= <- <-]|[[= <- <-]|[]]]]. Qed.

(** The chips of a recording in the list: shown only when one of its
    labels is an active entity filter, and then one chip for every label
    of the recording, filtered or not. *)
Theorem listViewNerChips_spec (labels : list NerLabelConfig) (fallbackColors : list string)
    (nerFilters : list string) (story : wobj) :
  match listViewNerChips labels fallbackColors nerFilters story with
  | None => forall l, l ∈ ner_labels (properties story) -> l ∉ nerFilters
  | Some chips =>
      (exists l, l ∈ ner_labels (properties story) /\ l ∈ nerFilters) /\
      map fst chips = map (getNerDisplayName labels) (ner_labels (properties story))
  end.
Proof.
  unfold listViewNerChips, filteredNerLabels. case_bool_decide as E.
  - intros l Hl Hf. assert (Hin : l ∈ List.filter (fun l => existsb (String.eqb l) nerFilters) (ner_labels (properties story))).
    { apply list_elem_of_In, filter_In. split; [by apply list_elem_of_In|]. by rewrite existsb_eqb_elem, bool_decide_true. }
    rewrite E in Hin. set_solver.
  - split.
    + destruct (List.filter _ _) as [|l ls] eqn:F; [done|].
      assert (Hin : In l (l :: ls)) by by left. rewrite <- F, filter_In, existsb_eqb_elem in Hin.
      destruct Hin as [Hl Hf]. exists l. split; [by apply list_elem_of_In|]. by apply bool_decide_eq_true in Hf.
    + by rewrite map_map.
Qed.

(** Before any search, when the first fetch of recordings failed, the
    results area shows nothing: no list, no message, no error. *)
Example first_load_failure_blank :
  forall vm, layout_blocks (set_hasNextStoriesPage false (set_loading false initial_store)) vm = [].
Proof. reflexivity. Qed.

(** ** Witnesses *)

Definition listed_store : store := set_loading false (set_stories (Some sample_recordings) initial_store).

Lemma failed_page_change_shows_previous_stories_witness :
  exists r, snd (dispatch 12 (A_pageChange 2) listed_store) = [r] /\
    layout_blocks (@resolve fail_ds sample_fs (fun _ _ => 0%Z) (fun _ => None) r
                     (fst (dispatch 12 (A_pageChange 2) listed_store))) LayoutGrid
      = [StoriesView LayoutGrid sample_recordings; StoriesPagination 2 2].
Proof.
  apply (failed_page_change_shows_previous_stories (H := fail_ds) (H0 := sample_fs) (fun _ _ => 0%Z) (fun _ => None) 12
           listed_store LayoutGrid sample_recordings 2 BackendUnavailable); try reflexivity; try discriminate.
Defined.

Lemma searchType_menu_roundtrip_witness :
  searchTypeRenderValue false (handleSearchTypeChange 12 SearchType_Vector initial_store) = Some "Thematic Search".
Proof. apply (searchType_menu_roundtrip 12 initial_store SearchType_Vector "Thematic Search"). simpl. tauto. Defined.
