(* ===== verification/ModalView.v ===== *)
(** * ModalView: what the entity modal shows

    The rendering side of [src/app/story/[storyUuid]/Components/NerEntityModal.tsx]:
    the [ExpandableHighlightedText] component (a context that can be
    expanded when it is longer than its collapsed form or truncated), the
    properties each occurrence gives it, the two tabs with their labels,
    and the content of each tab from the modal's state of NerModal.v.
    Colours, typography and [formatTime] (outside [src/]) are not
    modelled; an occurrence's start time is kept as a number. *)

From S2P Require Import Prelude OrgConfig Filters Samples NerModal.

Local Open Scope portal_scope.

(** ** ExpandableHighlightedText (90-169) *)

(** Its props: [collapsedText = ''], [expandedText?], and the two optional
    part lists; [collapsedLines] only styles the text. *)
Record expandable := mkExpandable {
  ex_collapsedText : string;
  ex_expandedText : option string;
  ex_collapsedHighlightedParts : option (list HighlightPart);
  ex_expandedHighlightedParts : option (list HighlightPart)
}.

(** [typeof part === 'string' ? part : part.text] *)
Definition part_text (p : HighlightPart) : string :=
  match p with HPlain s => s | HHighlight t => t end.

(** [parts.map(...).join('')] *)
Definition parts_text (ps : list HighlightPart) : string := foldr String.append "" (map part_text ps).

(** [collapsedPlainText] (100-105) *)
Definition collapsedPlainText (p : expandable) : string :=
  match ex_collapsedHighlightedParts p with
  | Some ps => if (0 <? length ps)%nat then parts_text ps else ex_collapsedText p
  | None => ex_collapsedText p
  end.

(** [expandedText || collapsedText] *)
Definition expanded_fallback (p : expandable) : string :=
  match ex_expandedText p with
  | Some t => if js_truthy t then t else ex_collapsedText p
  | None => ex_collapsedText p
  end.

(** [expandedPlainText] (107-112) *)
Definition expandedPlainText (p : expandable) : string :=
  match ex_expandedHighlightedParts p with
  | Some ps => if (0 <? length ps)%nat then parts_text ps else expanded_fallback p
  | None => expanded_fallback p
  end.

(** [showExpand] (114-115) *)
Definition showExpand (p : expandable) : bool :=
  (String.length (js_trim (collapsedPlainText p)) <? String.length (js_trim (expandedPlainText p)))%nat ||
  js_includes (collapsedPlainText p) "...".

(** [partsToRender] (117-119): an array of parts, even empty, is truthy. *)
Definition partsToRender (expanded : bool) (p : expandable) : list HighlightPart :=
  if expanded then default [HPlain (expanded_fallback p)] (ex_expandedHighlightedParts p)
  else default [HPlain (ex_collapsedText p)] (ex_collapsedHighlightedParts p).

(** The button (151-162): its label when shown; a click flips [expanded]. *)
Definition expandButton (expanded : bool) (p : expandable) : option string :=
  if showExpand p then Some (if expanded then "Expand less" else "Expand more") else None.

Definition expand_click (expanded : bool) (p : expandable) : bool :=
  if showExpand p then negb expanded else expanded.

(** The text as rendered (121-149): a plain span for a string part and a
    highlighted span for a highlight, the line clamp lifted while
    [expanded]. *)
Inductive text_span := SpanPlain (s : string) | SpanHighlighted (s : string).

Definition span_of (part : HighlightPart) : text_span :=
  match part with HPlain s => SpanPlain s | HHighlight t => SpanHighlighted t end.

Definition expandable_render (expanded : bool) (p : expandable) : list text_span * option string :=
  (map span_of (partsToRender expanded p), expandButton expanded p).

(** ** The occurrences' props *)

(** An occurrence of the current interview (493-499). *)
Definition interviewItemProps (o : EntityOccurrence) : expandable :=
  mkExpandable (cp_context (eo_context o)) (Some (cp_expandedContext (eo_context o)))
    (Some (cp_highlightedContext (eo_context o))) (Some (cp_expandedHighlightedContext (eo_context o))).

(** An occurrence of another recording (567-603): the contexts of
    [createSimpleContext] around the entity in the chunk's transcription,
    or the whole transcription when the entity is not found. *)
Definition collectionItemProps (entityText : string) (occurrence : wobj) : expandable :=
  let transcription := match transcription (properties occurrence) with
                       | Some t => if js_truthy t then t else ""
                       | None => "" end in
  let collapsedContext := createSimpleContext transcription entityText COLLAPSED_CHAR_WINDOW in
  let expandedContext := createSimpleContext transcription entityText EXPANDED_CHAR_WINDOW in
  let text_or ctx := match ctx with
                     | Some (t, _) => if js_truthy t then t else transcription
                     | None => transcription end in
  mkExpandable (text_or collapsedContext) (Some (text_or expandedContext))
    (snd <$> collapsedContext) (snd <$> expandedContext).

(** ** The tabs (461-462) and their content (466-613) *)

(** [handleTabChange] (367-369) *)
Definition handleTabChange (newValue : nat) (m : modal) : modal :=
  mkModal newValue (md_loading m) (md_collectionOccurrences m) (md_projectMentionCount m)
    (md_projectRecordingCount m) (md_expandedSections m).

Definition interviewTabLabel (occ : list EntityOccurrence) : string :=
  "In the interview (" +:+ js_string_of_nat (length occ) +:+ ")".

(** A recording's group of the project tab: title, mention count, whether
    it is expanded, and the items shown under it. *)
Record group_view := mkGroupView {
  gv_title : string;
  gv_mentions : string;
  gv_expanded : bool;
  gv_items : list expandable
}.

Inductive tab_content :=
  | NoInterviewOccurrences
  | InterviewOccurrences (items : list (Q * expandable))
  | ProjectLoading
  | NoProjectOccurrences
  | ProjectOccurrences (header : string) (groups : list group_view).

Definition projectHeader (m : modal) : string :=
  mentionCountDisplay (mentionCount m) +:+ " mention" +:+ plural_s (mentionCount m) +:+ " across " +:+
  js_string_of_nat (recordingCount m) +:+ " recording" +:+ plural_s (recordingCount m).

Definition groupView (entityText : string) (expandedSections : gset string) (g : RecordingGroup) : group_view :=
  let isExpanded := bool_decide (g_theirstory_id g ∈ expandedSections) in
  mkGroupView (g_interview_title g)
    (js_string_of_nat (length (g_occurrences g)) +:+ " mention" +:+ plural_s (length (g_occurrences g)))
    isExpanded
    (if isExpanded then map (collectionItemProps entityText) (g_occurrences g) else []).

Definition tabContent (entityText : string) (occ : list EntityOccurrence) (m : modal) : option tab_content :=
  match md_tabValue m with
  | 0%nat =>
      Some (if (length occ =? 0)%nat then NoInterviewOccurrences
            else InterviewOccurrences (map (fun o => (eo_start_time o, interviewItemProps o)) occ))
  | 1%nat =>
      Some (if md_loading m then ProjectLoading
            else if (length (md_collectionOccurrences m) =? 0)%nat then NoProjectOccurrences
            else ProjectOccurrences (projectHeader m)
                   (map (groupView entityText (md_expandedSections m))
                      (occurrencesByRecording (md_collectionOccurrences m))))
  | _ => None
  end.

(** ** The dialog (409-621) *)

(** [NerEntityModalProps] (45-51); [onClose] is the parent's. *)
Record modal_props := mkModalProps {
  mp_open : bool;
  mp_entityText : string;
  mp_entityLabel : string;
  mp_currentStoryUuid : option string
}.

(** The dialog: its title (the label chip with [labelDisplayName] on
    [labelColor], 242-243, then the entity), the two tab labels, and the
    selected tab's content; nothing while [open] is false. *)
Record modal_view := mkModalView {
  mv_labelChip : string * string;
  mv_entityText : string;
  mv_tabLabels : string * string;
  mv_content : option tab_content
}.

Definition NerEntityModal_render (labels : list NerLabelConfig) (fallbackColors : list string)
    (props : modal_props) (occ : list EntityOccurrence) (m : modal) : option modal_view :=
  if negb (mp_open props) then None else
  Some (mkModalView
          (getNerDisplayName labels (mp_entityLabel props), getNerColor labels fallbackColors (mp_entityLabel props))
          (mp_entityText props)
          (interviewTabLabel occ, projectTabLabel m)
          (tabContent (mp_entityText props) occ m)).

(** ** Properties *)

Definition is_highlight (p : HighlightPart) : bool := match p with HHighlight _ => true | HPlain _ => false end.

Lemma parts_text_app (ps qs : list HighlightPart) : parts_text (ps ++ qs) = parts_text ps +:+ parts_text qs.
Proof.
  unfold parts_text in *. induction ps as [|p ps IH]; simpl; [done|]. by rewrite IH, string_app_assoc.
Qed.

(** The parts of [createSimpleContext] spell its text, and exactly one of
    them, the matched text, is highlighted. *)
Lemma createSimpleContext_parts (t e : string) (w : Z) (txt : string) (ps : list HighlightPart) :
  createSimpleContext t e w = Some (txt, ps) ->
  parts_text ps = txt /\
  List.filter is_highlight ps =
    [HHighlight (js_str_slice t (js_indexOf (js_lower t) (js_lower e))
                   (js_indexOf (js_lower t) (js_lower e) + Z.of_nat (String.length e)))].
Proof.
  unfold createSimpleContext. case_match; [done|]. intros [= <- <-].
  rewrite !List.filter_app, !parts_text_app.
  destruct (0 <? _)%Z, (_ <? Z.of_nat (String.length t))%Z; unfold parts_text; simpl;
    rewrite ?string_app_nil_r, ?string_app_assoc; done.
Qed.

Lemma js_includes_prefix (a b : string) : js_includes (a +:+ b) a = true.
Proof. apply js_includes_spec. exists [], (String.list_ascii_of_string b). by rewrite list_ascii_of_string_app. Qed.

Lemma js_includes_suffix (a b : string) : js_includes (a +:+ b) b = true.
Proof.
  apply js_includes_spec. exists (String.list_ascii_of_string a), []. by rewrite list_ascii_of_string_app, app_nil_r.
Qed.

Lemma createSimpleContext_some (t e : string) (w : Z) :
  js_indexOf (js_lower t) (js_lower e) <> (-1)%Z -> exists txt ps, createSimpleContext t e w = Some (txt, ps).
Proof. intros Hm. unfold createSimpleContext. rewrite (proj2 (Z.eqb_neq _ _) Hm). eauto. Qed.

(** A context cut on either side of the transcription shows ['...']. *)
Lemma createSimpleContext_truncated (t e : string) (w : Z) (txt : string) (ps : list HighlightPart) :
  createSimpleContext t e w = Some (txt, ps) ->
  let ms := js_indexOf (js_lower t) (js_lower e) in
  (w < ms \/ ms + Z.of_nat (String.length e) + w < Z.of_nat (String.length t))%Z ->
  js_includes txt "..." = true.
Proof.
  cbv zeta. unfold createSimpleContext. case_match; [done|]. intros [= <- _] Hcut.
  set (ms := js_indexOf (js_lower t) (js_lower e)) in *.
  destruct (Z.ltb_spec 0 (Z.max 0 (ms - w))) as [Hl|Hl]; [apply js_includes_prefix|].
  destruct (Z.ltb_spec (Z.min (Z.of_nat (String.length t)) (ms + Z.of_nat (String.length e) + w))
              (Z.of_nat (String.length t))) as [Ht|Ht]; [|lia].
  rewrite <- !string_app_assoc. apply js_includes_suffix.
Qed.

Lemma collapsedPlainText_parts (p : expandable) (ps : list HighlightPart) :
  ex_collapsedHighlightedParts p = Some ps -> ps <> [] -> collapsedPlainText p = parts_text ps.
Proof. intros E Hne. unfold collapsedPlainText. rewrite E. destruct ps; [done|]. reflexivity. Qed.

(** C29. A mention in another recording whose collapsed context (40
    characters around the match) leaves out part of the chunk's
    transcription shows an [Expand more] button, and one click renders the
    context of 200 characters around the match: its parts spell the
    context's text, and the match, in the transcription's own case, is
    the only highlighted part. *)
Theorem collection_context_expands (entityText : string) (occurrence : wobj) (t : string) :
  transcription (properties occurrence) = Some t -> js_truthy t = true ->
  let ms := js_indexOf (js_lower t) (js_lower entityText) in
  ms <> (-1)%Z ->
  (COLLAPSED_CHAR_WINDOW < ms \/
   ms + Z.of_nat (String.length entityText) + COLLAPSED_CHAR_WINDOW < Z.of_nat (String.length t))%Z ->
  let p := collectionItemProps entityText occurrence in
  expandButton false p = Some "Expand more" /\
  exists txt ps, createSimpleContext t entityText EXPANDED_CHAR_WINDOW = Some (txt, ps) /\
    partsToRender (expand_click false p) p = ps /\ parts_text ps = txt /\
    List.filter is_highlight ps = [HHighlight (js_str_slice t ms (ms + Z.of_nat (String.length entityText)))].
Proof.
  intros Ht Htr ms Hm Hcut p.
  destruct (createSimpleContext_some t entityText COLLAPSED_CHAR_WINDOW Hm) as (txc & psc & Ec).
  destruct (createSimpleContext_some t entityText EXPANDED_CHAR_WINDOW Hm) as (txe & pse & Ee).
  destruct (createSimpleContext_parts _ _ _ _ _ Ec) as [Htc Hhc].
  destruct (createSimpleContext_parts _ _ _ _ _ Ee) as [Hte Hhe].
  assert (Hshow : showExpand p = true).
  { unfold showExpand. rewrite (collapsedPlainText_parts p psc).
    - rewrite Htc, (createSimpleContext_truncated _ _ _ _ _ Ec Hcut). apply orb_true_r.
    - unfold p, collectionItemProps. by rewrite Ht, Htr, Ec.
    - intros ->. discriminate. }
  unfold expandButton, expand_click. rewrite Hshow. split; [done|].
  exists txe, pse. split_and!; [done| |done|done].
  unfold partsToRender, p, collectionItemProps. simpl. by rewrite Ht, Htr, Ee.
Qed.

(** ** Witnesses *)

Definition long_chunk : wobj :=
  mkObj (Some "d") None
    (mkProps (Some "rec2") (Some 12) (Some 20) ["LOC"] ["Paris"] (Some "gmu") (Some "GMU") None (Some "Interview")
       (Some "We talked for a long while about the years we spent in Paris after the war ended."))
    (mkMeta None None None None None None).

Lemma collection_context_expands_witness :
  expandButton false (collectionItemProps "paris" long_chunk) = Some "Expand more".
Proof.
  apply (collection_context_expands "paris" long_chunk
           "We talked for a long while about the years we spent in Paris after the war ended.");
    [reflexivity|reflexivity|vm_compute; discriminate|vm_compute; left; reflexivity].
Defined.
