(* ===== verification/Highlight.v ===== *)
(** * Highlight: the entity modal's [createHighlightedParts]

    [createHighlightedParts] in
    [src/app/story/[storyUuid]/Components/NerEntityModal.tsx] (167-183)
    builds the regular expression [\b<entity>\b] with the flags [gi]
    ([escapeRegExp] makes the entity literal), asks [text.match] for every
    match, and when there is one, interleaves the pieces of
    [text.split(regex)] with highlight parts that carry the matches' own
    text.  NerModal.v takes the function as a parameter; this file
    defines it.

    The two built-ins are modelled as the ECMAScript specification runs
    them, over the sticky matcher [match_at]:
    - [text.match] with [g] ([RegExp.prototype[@@match]]) searches from
      [lastIndex], moves [lastIndex] to the end of each match, and past an
      empty match ([match_loop]);
    - [text.split] ([RegExp.prototype[@@split]]) tries the sticky matcher
      at each position [q] below the length, skips a match that ends where
      the last piece began, and otherwise cuts the piece [p..q] and
      continues at the match's end ([split_loop]).
    [\b] is the boundary between a word character ([A-Za-z0-9_]) and a
    non-word character or an end of the string, and [i] compares characters
    by their lower case.  Strings are byte strings, so the model agrees
    with the code on ASCII text.  Both loops run on fuel;
    [match_loop_fuel] and [split_loop_fuel] show that the fuel given is
    enough.  For a non-empty entity the parts spell the text, and the
    highlights begin ([highlight_starts]) exactly at the leftmost
    non-overlapping matches of the expression. *)

From S2P Require Import Prelude Filters Store EntityCounts NerModal ModalView.

Local Open Scope nat_scope.

Notation chars := (list Ascii.ascii).

(** [\w] *)
Definition is_word_char (c : Ascii.ascii) : bool :=
  let n := Ascii.nat_of_ascii c in
  ((48 <=? n) && (n <=? 57)) || ((65 <=? n) && (n <=? 90)) || ((97 <=? n) && (n <=? 122)) || (n =? 95).

Definition word_at (t : chars) (i : nat) : bool :=
  match t !! i with Some c => is_word_char c | None => false end.

(** [\b] at position [q]. *)
Definition is_boundary (t : chars) (q : nat) : bool :=
  negb (Bool.eqb (match q with 0 => false | S k => word_at t k end) (word_at t q)).

(** The entity at the head of [t], compared under the [i] flag. *)
Fixpoint ci_prefix (ent t : chars) : bool :=
  match ent, t with
  | [], _ => true
  | c :: ent', d :: t' => Ascii.eqb (ascii_lower c) (ascii_lower d) && ci_prefix ent' t'
  | _ :: _, [] => false
  end.

(** The sticky match of [\b<entity>\b] at [q]: the end of the match. *)
Definition match_at (t ent : chars) (q : nat) : option nat :=
  if is_boundary t q && ci_prefix ent (drop q t) && is_boundary t (q + length ent)
  then Some (q + length ent) else None.

(** The search of [RegExpBuiltinExec] from [q]: the first position from
    [q] to the length of [t] where the expression matches. *)
Fixpoint search_from (t ent : chars) (q fuel : nat) : option (nat * nat) :=
  match fuel with
  | 0 => None
  | S f =>
      if length t <? q then None else
      match match_at t ent q with
      | Some e => Some (q, e)
      | None => search_from t ent (S q) f
      end
  end.

Definition first_match (t ent : chars) (q : nat) : option (nat * nat) := search_from t ent q (S (length t)).

(** [S.substring(a, b)] *)
Definition substr (t : chars) (a b : nat) : chars := take (b - a) (drop a t).

(** [text.match(regex)] with the [g] flag, from [lastIndex]. *)
Fixpoint match_loop (t ent : chars) (lastIndex fuel : nat) : list chars :=
  match fuel with
  | 0 => []
  | S f =>
      match first_match t ent lastIndex with
      | None => []
      | Some (q, e) => substr t q e :: match_loop t ent (if e =? q then S e else e) f
      end
  end.

Definition regex_match_all (t ent : chars) : list chars := match_loop t ent 0 (S (S (length t))).

(** The loop of [RegExp.prototype[@@split]]: [p] is where the current
    piece began, [q] the position tried. *)
Fixpoint split_loop (t ent : chars) (p q fuel : nat) : list chars :=
  match fuel with
  | 0 => [drop p t]
  | S f =>
      if q <? length t then
        match match_at t ent q with
        | None => split_loop t ent p (S q) f
        | Some e =>
            let e := Nat.min e (length t) in
            if e =? p then split_loop t ent p (S q) f
            else substr t p q :: split_loop t ent e e f
        end
      else [drop p t]
  end.

(** [text.split(regex)]; an empty string splits into nothing when the
    expression matches it. *)
Definition regex_split (t ent : chars) : list chars :=
  if length t =? 0 then (match match_at t ent 0 with Some _ => [] | None => [t] end)
  else split_loop t ent 0 0 (2 * length t + 2).

(** The [reduce] of 175-182: every piece but the last is followed by a
    highlight with the next match, or the entity when that match is empty
    or missing. *)
Fixpoint interleave (entityText : string) (parts matches : list string) : list HighlightPart :=
  match parts with
  | [] => []
  | [part] => [HPlain part]
  | part :: parts' =>
      let matchText := match matches with m :: _ => if js_truthy m then m else entityText | [] => entityText end in
      HPlain part :: HHighlight matchText :: interleave entityText parts' (tail matches)
  end.

(** [createHighlightedParts] (169-183) *)
Definition createHighlightedParts (text entityText : string) : list HighlightPart :=
  let t := String.list_ascii_of_string text in
  let ent := String.list_ascii_of_string entityText in
  match regex_match_all t ent with
  | [] => [HPlain text]
  | ms => interleave entityText (map String.string_of_list_ascii (regex_split t ent))
                     (map String.string_of_list_ascii ms)
  end.

(** Where each highlighted part of a list of parts begins in their text,
    counting from [pos]. *)
Fixpoint highlight_starts (pos : nat) (ps : list HighlightPart) : list nat :=
  match ps with
  | [] => []
  | HPlain s :: r => highlight_starts (pos + String.length s) r
  | HHighlight s :: r => pos :: highlight_starts (pos + String.length s) r
  end.

(** ** The matcher *)

Section Matcher.
Context (t ent : chars).

Lemma ci_prefix_length (l : chars) : ci_prefix ent l = true -> length ent <= length l.
Proof.
  revert l. induction ent as [|c ent' IH]; intros [|d l] H; simpl in *; try discriminate; try lia.
  apply andb_prop in H as [_ H]. specialize (IH l H). lia.
Qed.

Lemma is_boundary_le (q : nat) : is_boundary t q = true -> q <= length t.
Proof.
  unfold is_boundary, word_at. intros H. destruct (le_lt_dec q (length t)) as [|Hlt]; [done|exfalso].
  rewrite (lookup_ge_None_2 t q) in H by lia. destruct q as [|k]; [lia|].
  rewrite (lookup_ge_None_2 t k) in H by lia. done.
Qed.

Lemma match_at_spec (q e : nat) : match_at t ent q = Some e -> e = q + length ent /\ q + length ent <= length t.
Proof.
  unfold match_at. destruct (is_boundary t q) eqn:B1, (ci_prefix ent (drop q t)) eqn:C; simpl; try done.
  destruct (is_boundary t (q + length ent)); [intros [= <-]|done]. split; [done|].
  apply ci_prefix_length in C. apply is_boundary_le in B1. rewrite length_drop in C. lia.
Qed.

Lemma search_from_fuel (q f1 f2 : nat) :
  S (length t) - q <= f1 -> S (length t) - q <= f2 -> search_from t ent q f1 = search_from t ent q f2.
Proof.
  revert q f2. induction f1 as [|f1 IH]; intros q [|f2] H1 H2; simpl; try done.
  - destruct (Nat.ltb_spec (length t) q); [done|lia].
  - destruct (Nat.ltb_spec (length t) q); [done|lia].
  - destruct (length t <? q); [done|]. destruct (match_at t ent q); [done|]. apply IH; lia.
Qed.

Lemma first_match_unfold (q : nat) :
  q <= length t ->
  first_match t ent q = match match_at t ent q with Some e => Some (q, e) | None => first_match t ent (S q) end.
Proof.
  intros Hq. unfold first_match at 1. cbn [search_from]. destruct (Nat.ltb_spec (length t) q); [lia|].
  destruct (match_at t ent q); [done|]. unfold first_match. apply search_from_fuel; lia.
Qed.

Lemma first_match_beyond (q : nat) : length t < q -> first_match t ent q = None.
Proof. intros Hq. unfold first_match. cbn [search_from]. by destruct (Nat.ltb_spec (length t) q); [|lia]. Qed.

Lemma search_from_found (q f q' e : nat) :
  search_from t ent q f = Some (q', e) -> q <= q' /\ match_at t ent q' = Some e.
Proof.
  revert q. induction f as [|f IH]; intros q; simpl; [done|].
  destruct (length t <? q); [done|]. destruct (match_at t ent q) eqn:M.
  - intros [= <- <-]. split; [lia|done].
  - intros H. destruct (IH _ H). split; [lia|done].
Qed.

Lemma match_at_beyond (r : nat) : length t < r -> match_at t ent r = None.
Proof. intros Hr. destruct (match_at t ent r) eqn:M; [|done]. apply match_at_spec in M. lia. Qed.

(** A search that finds nothing leaves no match from where it began ... *)
Lemma search_from_none (q f r : nat) :
  search_from t ent q f = None -> S (length t) - q <= f -> q <= r -> match_at t ent r = None.
Proof.
  revert q. induction f as [|f IH]; intros q; cbn [search_from]; intros Hs Hf Hr; [apply match_at_beyond; lia|].
  destruct (Nat.ltb_spec (length t) q); [apply match_at_beyond; lia|].
  destruct (match_at t ent q) eqn:M; [done|]. destruct (Nat.eq_dec r q) as [->|]; [done|].
  apply (IH (S q)); [done|lia|lia].
Qed.

(** ... and one that finds a match leaves none before it. *)
Lemma search_from_before (q f q' e r : nat) :
  search_from t ent q f = Some (q', e) -> q <= r < q' -> match_at t ent r = None.
Proof.
  revert q. induction f as [|f IH]; intros q; cbn [search_from]; [done|].
  destruct (length t <? q); [done|]. destruct (match_at t ent q) eqn:M.
  - intros [= <- <-]. lia.
  - intros Hs Hr. destruct (Nat.eq_dec r q) as [->|]; [done|]. apply (IH (S q)); [done|lia].
Qed.

Lemma first_match_found (q q' e : nat) :
  first_match t ent q = Some (q', e) -> q <= q' /\ e = q' + length ent /\ q' + length ent <= length t.
Proof. intros H. apply search_from_found in H as [Hq HM]. apply match_at_spec in HM. lia. Qed.

End Matcher.

(** ** Fuel *)

Section Fuel.
Context (t ent : chars).

(** [text.match] stops within [length t + 2] rounds: [lastIndex]
    increases at each match and a search past the end finds nothing. *)
Lemma match_loop_fuel (li f1 f2 : nat) :
  S (S (length t)) - li <= f1 -> S (S (length t)) - li <= f2 ->
  match_loop t ent li f1 = match_loop t ent li f2.
Proof.
  revert li f2. induction f1 as [|f1 IH]; intros li [|f2] H1 H2; cbn [match_loop]; try done;
    try (rewrite first_match_beyond by lia; done).
  destruct (first_match t ent li) as [[q e]|] eqn:F; [|done].
  apply first_match_found in F. f_equal. apply IH; destruct (Nat.eqb_spec e q); lia.
Qed.

(** [text.split] stops within [2 * length t + 2] rounds: each round moves
    [q] forward, or moves the start [p] of the piece up to [q]. *)
Definition split_measure (p q : nat) : nat := 2 * (length t - q) + (if p =? q then 0 else 1).

Lemma split_loop_fuel (p q f1 f2 : nat) :
  p <= q -> split_measure p q < f1 -> split_measure p q < f2 ->
  split_loop t ent p q f1 = split_loop t ent p q f2.
Proof.
  unfold split_measure. revert p q f2. induction f1 as [|f1 IH]; intros p q [|f2] Hpq H1 H2; simpl; try lia.
  destruct (Nat.ltb_spec q (length t)) as [Hq|]; [|done].
  assert (Hstep : split_loop t ent p (S q) f1 = split_loop t ent p (S q) f2).
  { apply IH; destruct (Nat.eqb_spec p q), (Nat.eqb_spec p (S q)); lia. }
  destruct (match_at t ent q) as [e|] eqn:M; [|done].
  apply match_at_spec in M as [-> He]. destruct (Nat.eqb_spec (Nat.min (q + length ent) (length t)) p); [done|].
  f_equal. apply IH; rewrite ?Nat.eqb_refl; destruct (Nat.eqb_spec p q); lia.
Qed.

End Fuel.

(** ** A non-empty entity *)

Lemma substr_app (t : chars) (a b : nat) : a <= b -> substr t a b ++ drop b t = drop a t.
Proof.
  intros Hab. unfold substr. replace (drop b t) with (drop (b - a) (drop a t)) by (rewrite drop_drop; f_equal; lia).
  apply take_drop.
Qed.

Lemma length_substr (t : chars) (a b : nat) : a <= b -> b <= length t -> length (substr t a b) = b - a.
Proof. intros. unfold substr. rewrite length_take, length_drop. lia. Qed.

Lemma match_loop_S (t ent : chars) (li f : nat) :
  match_loop t ent li (S f) =
  match first_match t ent li with
  | Some (q, e) => substr t q e :: match_loop t ent (if e =? q then S e else e) f
  | None => []
  end.
Proof. reflexivity. Qed.

Lemma split_loop_S (t ent : chars) (p q f : nat) :
  split_loop t ent p q (S f) =
  if q <? length t then
    match match_at t ent q with
    | None => split_loop t ent p (S q) f
    | Some e =>
        if Nat.min e (length t) =? p then split_loop t ent p (S q) f
        else substr t p q :: split_loop t ent (Nat.min e (length t)) (Nat.min e (length t)) f
    end
  else [drop p t].
Proof. reflexivity. Qed.

Lemma interleave_cons2 (entityText a m : string) (ps ms : list string) :
  ps <> [] ->
  interleave entityText (a :: ps) (m :: ms) =
  HPlain a :: HHighlight (if js_truthy m then m else entityText) :: interleave entityText ps ms.
Proof. by destruct ps. Qed.

Lemma parts_text_cons (p : HighlightPart) (ps : list HighlightPart) :
  parts_text (p :: ps) = part_text p +:+ parts_text ps.
Proof. reflexivity. Qed.

Section NonEmpty.
Context (t ent : chars) (Hent : 0 < length ent).

Notation F := (2 * length t + 2).
Notation G := (S (S (length t))).

(** The text of a match is not empty. *)
Lemma substr_match_truthy (q : nat) :
  q + length ent <= length t -> js_truthy (String.string_of_list_ascii (substr t q (q + length ent))) = true.
Proof.
  intros Hle. unfold js_truthy. apply negb_true_iff, String.eqb_neq. intros Hnil.
  apply (f_equal String.list_ascii_of_string) in Hnil. rewrite String.list_ascii_of_string_of_list_ascii in Hnil.
  apply (f_equal length) in Hnil. unfold substr in Hnil. rewrite length_take, length_drop in Hnil. simpl in Hnil. lia.
Qed.

Lemma match_at_end : match_at t ent (length t) = None.
Proof.
  destruct (match_at t ent (length t)) eqn:M; [|done]. apply match_at_spec in M. lia.
Qed.

(** With a non-empty entity every match is non-empty: [text.match] goes
    from match to match. *)
Lemma match_loop_unfold (li : nat) :
  match_loop t ent li G =
  match first_match t ent li with
  | Some (q, e) => substr t q e :: match_loop t ent e G
  | None => []
  end.
Proof.
  rewrite match_loop_S. destruct (first_match t ent li) as [[q e]|] eqn:Fm; [|done].
  apply first_match_found in Fm. destruct (Nat.eqb_spec e q); [lia|].
  f_equal. apply match_loop_fuel; lia.
Qed.

(** ... and [text.split] cuts a piece before each match. *)
Lemma split_loop_unfold (p q : nat) :
  p <= q -> q <= length t ->
  split_loop t ent p q F =
  match first_match t ent q with
  | Some (q', e) => substr t p q' :: split_loop t ent e e F
  | None => [drop p t]
  end.
Proof.
  intros Hpq Hq. remember (length t - q) as k eqn:Hk. revert q Hpq Hq Hk. induction k as [k IH] using lt_wf_ind.
  intros q Hpq Hq Hk. rewrite (split_loop_fuel t ent p q F (S (2 * length t + 1))) by (unfold split_measure; try case_match; lia).
  rewrite split_loop_S, (first_match_unfold t ent q Hq).
  destruct (Nat.ltb_spec q (length t)) as [Hlt|Hge].
  - destruct (match_at t ent q) as [e|] eqn:M.
    + pose proof (match_at_spec t ent q e M) as [-> He]. rewrite Nat.min_l by lia.
      destruct (Nat.eqb_spec (q + length ent) p); [lia|]. f_equal.
      apply split_loop_fuel; unfold split_measure; rewrite ?Nat.eqb_refl; lia.
    + rewrite (split_loop_fuel t ent p (S q) (2 * length t + 1) F) by (unfold split_measure; try case_match; lia).
      apply (IH (length t - S q)); lia.
  - assert (q = length t) as -> by lia. rewrite match_at_end, first_match_beyond by lia. done.
Qed.

Lemma split_loop_nonempty (p q : nat) : p <= q -> q <= length t -> split_loop t ent p q F <> [].
Proof. intros Hpq Hq. rewrite split_loop_unfold by done. by case_match; [case_match|]. Qed.

(** The pieces and the matches from [k] on, interleaved, spell the text
    from [k] on. *)
Lemma interleave_spells (entityText : string) (k : nat) :
  k <= length t ->
  parts_text (interleave entityText (map String.string_of_list_ascii (split_loop t ent k k F))
                                    (map String.string_of_list_ascii (match_loop t ent k G)))
  = String.string_of_list_ascii (drop k t).
Proof.
  remember (length t - k) as n eqn:Hn. revert k Hn. induction n as [n IH] using lt_wf_ind. intros k Hn Hk.
  rewrite split_loop_unfold, match_loop_unfold by lia.
  destruct (first_match t ent k) as [[q e]|] eqn:Fm.
  - pose proof (first_match_found t ent k q e Fm) as (Hkq & -> & Hle).
    rewrite !map_cons, interleave_cons2.
    2:{ intros Hnil. apply map_eq_nil in Hnil. revert Hnil. apply split_loop_nonempty; lia. }
    rewrite substr_match_truthy, !parts_text_cons by lia.
    rewrite (IH (length t - (q + length ent))) by lia.
    apply (inj String.list_ascii_of_string). rewrite !list_ascii_of_string_app, !String.list_ascii_of_string_of_list_ascii.
    cbn [part_text]. rewrite !String.list_ascii_of_string_of_list_ascii, substr_app by lia. apply substr_app. lia.
  - cbn [map interleave]. unfold parts_text. simpl. apply string_app_nil_r.
Qed.

(** Every highlight of the interleaving from [k] is the text of a match. *)
Lemma interleave_highlights (entityText : string) (k : nat) (h : string) :
  k <= length t ->
  In (HHighlight h) (interleave entityText (map String.string_of_list_ascii (split_loop t ent k k F))
                                           (map String.string_of_list_ascii (match_loop t ent k G))) ->
  exists q, match_at t ent q = Some (q + length ent) /\ h = String.string_of_list_ascii (substr t q (q + length ent)).
Proof.
  remember (length t - k) as n eqn:Hn. revert k Hn. induction n as [n IH] using lt_wf_ind. intros k Hn Hk.
  rewrite split_loop_unfold, match_loop_unfold by lia.
  destruct (first_match t ent k) as [[q e]|] eqn:Fm; [|intros [Hh|[]]; discriminate].
  pose proof (first_match_found t ent k q e Fm) as (Hkq & -> & Hle).
  apply search_from_found in Fm as [_ Hm].
  rewrite !map_cons, interleave_cons2.
  2:{ intros Hnil. apply map_eq_nil in Hnil. revert Hnil. apply split_loop_nonempty; lia. }
  intros [Hh|[Hh|Hin]]; [discriminate| |].
  - injection Hh as <-. exists q. split; [done|]. by rewrite substr_match_truthy by lia.
  - apply (IH (length t - (q + length ent))) in Hin; [done|lia|done|lia].
Qed.

(** The highlights from [k] on start at matches, in order, each past the
    end of the one before, and every match from [k] on is one of them or
    begins inside one. *)
Lemma interleave_starts (entityText : string) (k : nat) :
  k <= length t ->
  let qs := highlight_starts k (interleave entityText (map String.string_of_list_ascii (split_loop t ent k k F))
                                                      (map String.string_of_list_ascii (match_loop t ent k G))) in
  (forall q, In q qs -> k <= q /\ match_at t ent q = Some (q + length ent)) /\
  Sorted (fun a b => a + length ent <= b) qs /\
  (forall r, k <= r -> match_at t ent r <> None -> In r qs \/ exists q, In q qs /\ q < r < q + length ent).
Proof.
  remember (length t - k) as n eqn:Hn. revert k Hn. induction n as [n IH] using lt_wf_ind. intros k Hn Hk qs.
  subst qs. rewrite split_loop_unfold, match_loop_unfold by lia.
  destruct (first_match t ent k) as [[q e]|] eqn:Fm.
  2:{ cbn [map interleave highlight_starts]. split_and!; [done|constructor|].
      intros r Hr Hm. by rewrite (search_from_none t ent k (S (length t)) r Fm) in Hm by lia. }
  pose proof (first_match_found t ent k q e Fm) as (Hkq & -> & Hle).
  pose proof (search_from_found t ent k _ q _ Fm) as [_ Hm].
  rewrite !map_cons, interleave_cons2.
  2:{ intros Hnil. apply map_eq_nil in Hnil. revert Hnil. apply split_loop_nonempty; lia. }
  rewrite substr_match_truthy by lia. cbn [highlight_starts].
  rewrite !string_length_of_list_ascii, !length_substr by lia.
  replace (k + (q - k)) with q by lia. replace (q + (q + length ent - q)) with (q + length ent) by lia.
  destruct (IH (length t - (q + length ent)) ltac:(lia) (q + length ent) eq_refl ltac:(lia)) as (H1 & H2 & H3).
  set (qs := highlight_starts (q + length ent) _) in *. split_and!.
  - intros x [<-|Hx]; [done|]. destruct (H1 x Hx). split; [lia|done].
  - constructor; [done|]. destruct qs as [|x qs']; constructor. by apply H1; left.
  - intros r Hr Hmr. destruct (lt_eq_lt_dec r q) as [[Hlt| ->]|Hgt].
    + by rewrite (search_from_before t ent k _ q _ r Fm) in Hmr by lia.
    + by left; left.
    + destruct (le_lt_dec (q + length ent) r) as [Hge|Hin].
      * destruct (H3 r Hge Hmr) as [Hq|(q' & Hq' & Hr')]; [by left; right|]. right. exists q'. by split; [right|].
      * right. exists q. split; [by left|lia].
Qed.

(** A text with a match is not empty, so [text.split] runs its loop. *)
Lemma regex_split_of_match (m : chars) (ms : list chars) :
  regex_match_all t ent = m :: ms -> regex_split t ent = split_loop t ent 0 0 F.
Proof.
  unfold regex_split, regex_match_all. intros M. destruct (Nat.eqb_spec (length t) 0) as [H0|]; [exfalso|done].
  rewrite match_loop_unfold, first_match_unfold in M by lia.
  destruct (match_at t ent 0) as [e|] eqn:Hm; [apply match_at_spec in Hm; lia|].
  by rewrite first_match_beyond in M by lia.
Qed.

Lemma regex_match_all_nil (r : nat) : regex_match_all t ent = [] -> match_at t ent r = None.
Proof.
  unfold regex_match_all. rewrite match_loop_unfold. destruct (first_match t ent 0) as [[]|] eqn:Fm; [done|].
  intros _. apply (search_from_none t ent 0 (S (length t))); [done|lia|lia].
Qed.

End NonEmpty.

Lemma ci_prefix_lower (ent l : chars) :
  ci_prefix ent l = true -> map ascii_lower (take (length ent) l) = map ascii_lower ent.
Proof.
  revert l. induction ent as [|c ent IH]; intros [|d l] H; simpl in *; try done.
  apply andb_prop in H as [Hc H]. apply Ascii.eqb_eq in Hc. by rewrite Hc, IH.
Qed.

(** ** Properties *)

(** Highlighting never changes the text: for a non-empty entity, the
    parts [createHighlightedParts] returns, plain and highlighted, spell the
    text they were made from. *)
Theorem createHighlightedParts_roundtrip (text entityText : string) :
  entityText <> ""%string -> parts_text (createHighlightedParts text entityText) = text.
Proof.
  intros Hne. unfold createHighlightedParts.
  set (t := String.list_ascii_of_string text). set (ent := String.list_ascii_of_string entityText).
  assert (Hent : 0 < length ent) by (subst ent; destruct entityText; [done|simpl; lia]).
  destruct (regex_match_all t ent) as [|m ms] eqn:M; [apply string_app_nil_r|].
  rewrite (regex_split_of_match t ent Hent m ms M), <- M. unfold regex_match_all.
  rewrite (interleave_spells t ent Hent entityText 0) by lia. apply String.string_of_list_ascii_of_string.
Qed.

(** Every highlighted part is an occurrence of the entity in the text,
    equal to it up to ASCII case: a whole word or words of the text, never
    a piece of a longer word. *)
Theorem createHighlightedParts_highlights (text entityText h : string) :
  entityText <> ""%string -> In (HHighlight h) (createHighlightedParts text entityText) ->
  js_lower h = js_lower entityText /\
  exists q, match_at (String.list_ascii_of_string text) (String.list_ascii_of_string entityText) q <> None /\
    String.list_ascii_of_string h = substr (String.list_ascii_of_string text) q (q + String.length entityText).
Proof.
  intros Hne. unfold createHighlightedParts.
  set (t := String.list_ascii_of_string text). set (ent := String.list_ascii_of_string entityText).
  assert (Hent : 0 < length ent) by (subst ent; destruct entityText; [done|simpl; lia]).
  assert (Hlen : String.length entityText = length ent) by (subst ent; apply string_length_list_ascii).
  destruct (regex_match_all t ent) as [|m ms] eqn:M; [intros [Hh|[]]; discriminate|].
  rewrite (regex_split_of_match t ent Hent m ms M), <- M. unfold regex_match_all. intros Hin.
  destruct (interleave_highlights t ent Hent entityText 0 h ltac:(lia) Hin) as (q & Hm & ->).
  rewrite Hlen. split; [|exists q; split; [by rewrite Hm|apply String.list_ascii_of_string_of_list_ascii]].
  unfold match_at in Hm. destruct (ci_prefix ent (drop q t)) eqn:C; [|by rewrite andb_false_r in Hm].
  unfold js_lower. rewrite String.list_ascii_of_string_of_list_ascii. unfold substr.
  replace (q + length ent - q) with (length ent) by lia. rewrite (ci_prefix_lower _ _ C).
  reflexivity.
Qed.

(** C36. [createHighlightedParts] highlights exactly the leftmost
    non-overlapping whole-word occurrences of a non-empty entity: each
    highlighted part starts where [\b<entity>\b] matches, the highlights
    come in order, each starting past the end of the one before, and every
    occurrence of the entity in the text is highlighted or starts inside a
    highlighted one. *)
Theorem createHighlightedParts_refines (text entityText : string) :
  entityText <> ""%string ->
  let t := String.list_ascii_of_string text in
  let ent := String.list_ascii_of_string entityText in
  let qs := highlight_starts 0 (createHighlightedParts text entityText) in
  (forall q, In q qs -> match_at t ent q <> None) /\
  Sorted (fun a b => a + String.length entityText <= b) qs /\
  (forall r, match_at t ent r <> None -> In r qs \/ exists q, In q qs /\ q < r < q + String.length entityText).
Proof.
  intros Hne t ent qs. subst qs. unfold createHighlightedParts. fold t ent.
  assert (Hent : 0 < length ent) by (subst ent; destruct entityText; [done|simpl; lia]).
  rewrite string_length_list_ascii. fold ent.
  destruct (regex_match_all t ent) as [|m ms] eqn:M.
  { cbn [highlight_starts]. split_and!; [done|constructor|]. intros r Hr. by rewrite regex_match_all_nil in Hr. }
  rewrite (regex_split_of_match t ent Hent m ms M), <- M. unfold regex_match_all.
  destruct (interleave_starts t ent Hent entityText 0 ltac:(lia)) as (H1 & H2 & H3).
  split_and!; [|done|].
  - intros q Hq. by rewrite (proj2 (H1 q Hq)).
  - intros r Hr. apply H3; [lia|done].
Qed.

Lemma interleave_nonempty (entityText part : string) (parts ms : list string) :
  interleave entityText (part :: parts) ms <> [].
Proof. by destruct parts. Qed.

(** For a non-empty entity the parts are never empty, so the expandable
    text reads them rather than its plain fallback. *)
Lemma createHighlightedParts_nonempty (text entityText : string) :
  entityText <> ""%string -> (0 < length (createHighlightedParts text entityText))%nat.
Proof.
  intros Hne. unfold createHighlightedParts.
  set (t := String.list_ascii_of_string text). set (ent := String.list_ascii_of_string entityText).
  assert (Hent : 0 < length ent) by (subst ent; destruct entityText; [done|simpl; lia]).
  destruct (regex_match_all t ent) as [|m ms] eqn:M; [simpl; lia|].
  unfold regex_split. destruct (Nat.eqb_spec (length t) 0) as [H0|H0].
  - exfalso. unfold regex_match_all in M. rewrite match_loop_unfold, first_match_unfold in M by (done || lia).
    destruct (match_at t ent 0) as [e|] eqn:Hm; [apply match_at_spec in Hm; lia|].
    by rewrite first_match_beyond in M by lia.
  - destruct (split_loop t ent 0 0 (2 * length t + 2)) as [|piece pieces] eqn:Sp.
    + exfalso. revert Sp. apply split_loop_nonempty; lia.
    + destruct (interleave _ _ _) eqn:I; [|simpl; lia]. cbn [map] in I. by apply interleave_nonempty in I.
Qed.

Lemma js_lower_empty (s : string) : js_lower s = ""%string -> s = ""%string.
Proof.
  unfold js_lower. intros H. apply (f_equal String.list_ascii_of_string) in H.
  rewrite String.list_ascii_of_string_of_list_ascii in H. apply map_eq_nil in H.
  rewrite <- (String.string_of_list_ascii_of_string s), H. reflexivity.
Qed.

(** The text an expandable part list shows. *)
Lemma highlighted_plain_text (x y entityText : string) :
  entityText <> ""%string ->
  (if (0 <? length (createHighlightedParts x entityText))%nat then parts_text (createHighlightedParts x entityText) else y) = x.
Proof.
  intros Hne. rewrite (proj2 (Nat.ltb_lt _ _)) by (by apply createHighlightedParts_nonempty).
  by apply createHighlightedParts_roundtrip.
Qed.

(** C35. The entity modal, with [createHighlightedParts] of this file,
    shows for each occurrence of the entity in the current recording
    exactly the word window built around it, collapsed and expanded: the
    highlighting of the occurrence's own text changes no character. *)
Theorem interview_contexts_shown (nerData : list json) (allWords : list Word) (entityText entityLabel : string)
    (o : EntityOccurrence) :
  entityText <> ""%string ->
  In o (currentInterviewOccurrences createHighlightedParts (Some nerData) (Some allWords) entityText entityLabel) ->
  collapsedPlainText (interviewItemProps o) = cp_context (eo_context o) /\
  expandedPlainText (interviewItemProps o) = cp_expandedContext (eo_context o).
Proof.
  intros Hne Hin. cbn [currentInterviewOccurrences] in Hin. apply in_map_iff in Hin as (ner & <- & Hner).
  assert (Htext : nd_text ner <> ""%string).
  { pose proof (Forall_sublist_of _ _ _ (unique_close_by_sublist nd_start_time DUPLICATE_TIME_EPSILON _)
                 (entity_items_text nerData entityText entityLabel))
      as Hall.
    rewrite Forall_forall in Hall. destruct (Hall ner (proj2 (list_elem_of_In _ _) Hner)) as [Hl _].
    intros Hnil. apply Hne, js_lower_empty. by rewrite <- Hl, Hnil. }
  unfold interviewItemProps, collapsedPlainText, expandedPlainText; cbn [eo_context].
  unfold getContextAroundTime. destruct allWords as [|w ws]; [done|].
  destruct (getTargetWordIndex _ _ _) as [i|]; [|done].
  cbn [cp_context cp_expandedContext cp_highlightedContext cp_expandedHighlightedContext
       ex_collapsedHighlightedParts ex_expandedHighlightedParts ex_collapsedText ex_expandedText].
  by rewrite !highlighted_plain_text.
Qed.

Lemma createHighlightedParts_roundtrip_witness :
  parts_text (createHighlightedParts "Paris, and paris; not Parisian." "paris") = "Paris, and paris; not Parisian."%string.
Proof. apply createHighlightedParts_roundtrip. discriminate. Defined.

Lemma createHighlightedParts_highlights_witness :
  js_lower "Paris" = js_lower "paris" /\
  exists q, match_at (String.list_ascii_of_string "Paris, and paris") (String.list_ascii_of_string "paris") q <> None /\
    String.list_ascii_of_string "Paris" = substr (String.list_ascii_of_string "Paris, and paris") q (q + String.length "paris").
Proof.
  apply (createHighlightedParts_highlights "Paris, and paris" "paris" "Paris"); [discriminate|].
  vm_compute. right. left. reflexivity.
Defined.

Lemma interview_contexts_shown_witness :
  let nd := [JObj [("text", JStr "Paris"); ("label", JStr "GPE"); ("start_time", JNum 1); ("end_time", JNum 2)]] in
  let ws := [mkWord "in" 0 0 0 0 1; mkWord "Paris" 1 0 0 1 2; mkWord "today" 2 0 0 2 3] in
  let o := hd (mkOccurrence "" 0 0 (mkContextParts "" "" [] []))
              (currentInterviewOccurrences createHighlightedParts (Some nd) (Some ws) "paris" "GPE") in
  collapsedPlainText (interviewItemProps o) = cp_context (eo_context o) /\
  expandedPlainText (interviewItemProps o) = cp_expandedContext (eo_context o).
Proof.
  intros nd ws o. apply (interview_contexts_shown nd ws "paris" "GPE"); [discriminate|].
  vm_compute. left. reflexivity.
Defined.

(** The regular expression is case-insensitive and bound to whole words:
    [Parisian] is left alone, and the highlights keep the text's case. *)
Lemma createHighlightedParts_refines_witness :
  let t := String.list_ascii_of_string "Paris, and paris; not Parisian." in
  let ent := String.list_ascii_of_string "paris" in
  let qs := highlight_starts 0 (createHighlightedParts "Paris, and paris; not Parisian." "paris") in
  (forall q, In q qs -> match_at t ent q <> None) /\
  Sorted (fun a b => a + String.length "paris" <= b) qs /\
  (forall r, match_at t ent r <> None -> In r qs \/ exists q, In q qs /\ q < r < q + String.length "paris").
Proof. apply createHighlightedParts_refines. discriminate. Defined.

(** The two occurrences of the word are highlighted at 0 and 11; the
    [Paris] inside [Parisian] is not. *)
Example createHighlightedParts_starts :
  highlight_starts 0 (createHighlightedParts "Paris, and paris; not Parisian." "paris") = [0; 11].
Proof. vm_compute. reflexivity. Qed.

Example createHighlightedParts_words :
  createHighlightedParts "Paris, and paris; not Parisian." "paris" =
  [HPlain ""; HHighlight "Paris"; HPlain ", and "; HHighlight "paris"; HPlain "; not Parisian."].
Proof. vm_compute. reflexivity. Qed.

(** An empty entity matches the empty string at every word boundary: the
    text is cut at each inner boundary, with empty highlights between. *)
Example createHighlightedParts_empty_entity :
  createHighlightedParts "ab cd" "" = [HPlain "ab"; HHighlight ""; HPlain " "; HHighlight ""; HPlain "cd"].
Proof. vm_compute. reflexivity. Qed.
