(* ===== verification/StoryLayout.v ===== *)
(** * StoryLayout: the components the story page mounts

    Once the transcript has loaded, [StoryContainer] in
    [src/app/story/[storyUuid]/Components/StoryContainer.tsx] lays the
    story page out in one of two ways.  Below the [lg] breakpoint it shows
    the video above three tabs (Transcription, Metadata, Entities), and
    mounts only the selected tab's component; otherwise it shows the video
    and the metadata on the left and the transcript panel on the right.
    The progress bar is mounted in both.  Which components are mounted
    matters: a component that leaves the tree runs its cleanups (the
    entity panel's cancelled flag in EntityPanel.v, the transcript panel's
    listeners in TranscriptPanel.v) and a remount starts from its initial
    state. *)

From S2P Require Import Prelude.

Local Open Scope nat_scope.

Inductive story_component :=
  | C_StoryVideo
  | C_StoryMetadata (isMobile : bool)
  | C_StoryMetadataEntity
  | C_StoryTranscriptPanel (isMobile : bool)
  | C_StoryProgressBar.

#[export] Instance story_component_eq_dec : EqDecision story_component.
Proof. solve_decision. Defined.

(** [handleMobileTabChange] (98-100) *)
Definition handleMobileTabChange (newValue : nat) (mobileTabValue : nat) : nat := newValue.

(** The tree of the transcript branch (132-276). *)
Definition story_layout (isMobile : bool) (mobileTabValue : nat) : list story_component :=
  (if isMobile then
     [C_StoryVideo] ++
     (match mobileTabValue with
      | 0 => [C_StoryTranscriptPanel true]
      | 1 => [C_StoryMetadata true]
      | 2 => [C_StoryMetadataEntity]
      | _ => []
      end)
   else [C_StoryVideo; C_StoryMetadata false; C_StoryTranscriptPanel false]) ++
  [C_StoryProgressBar].

(** The mount and unmount events a change of tab or breakpoint causes. *)
Definition unmounted (before after : list story_component) : list story_component :=
  List.filter (fun c => negb (bool_decide (c ∈ after))) before.

Definition mounted (before after : list story_component) : list story_component :=
  List.filter (fun c => negb (bool_decide (c ∈ before))) after.

(** ** Properties *)

(** On mobile, each of the three tabs mounts its own component and no
    other tab's, beside the video and the progress bar; on desktop the
    entity panel is never mounted. *)
Lemma story_layout_tabs (tab : nat) :
  tab < 3 ->
  length (List.filter (fun c => match c with
                                | C_StoryTranscriptPanel _ | C_StoryMetadata _ | C_StoryMetadataEntity => true
                                | _ => false end) (story_layout true tab)) = 1 /\
  C_StoryVideo ∈ story_layout true tab /\ C_StoryProgressBar ∈ story_layout true tab /\
  C_StoryMetadataEntity ∉ story_layout false tab.
Proof.
  intros Htab. assert (tab = 0 \/ tab = 1 \/ tab = 2) as [-> | [-> | ->]] by lia; split_and!;
    try reflexivity; set_solver.
Qed.

(** Leaving the Entities tab unmounts the entity panel, and coming back
    mounts a new one; switching between the other two tabs never touches
    it. *)
Lemma entity_panel_mounts (from to : nat) :
  from < 3 -> to < 3 ->
  bool_decide (C_StoryMetadataEntity ∈ unmounted (story_layout true from) (story_layout true (handleMobileTabChange to from)))
    = (from =? 2) && negb (to =? 2) /\
  bool_decide (C_StoryMetadataEntity ∈ mounted (story_layout true from) (story_layout true (handleMobileTabChange to from)))
    = negb (from =? 2) && (to =? 2).
Proof.
  intros Hf Ht. assert (from = 0 \/ from = 1 \/ from = 2) as [-> | [-> | ->]] by lia;
    assert (to = 0 \/ to = 1 \/ to = 2) as [-> | [-> | ->]] by lia; split; vm_compute; reflexivity.
Qed.
